(* ===== verification/_CoqProject ===== *)
-Q . S2P
Prelude.v
GoString.v
Sha256.v
Api.v
InfraApi.v
Json.v
Naming.v
Schema.v
Names.v
QuantityNano.v
Prog.v
Gpu.v
Offerings.v
Values.v
Feasibility.v
Cluster.v
ClusterDeployments.v
Discovery.v
ServiceSets.v
Failure.v
Prerequisites.v
Routes.v
Gateway.v
Sweep.v
Access.v
PortPool.v
Controller.v
ClassController.v
Reconcile.v
Fake.v
Phases.v
System.v
Gating.v
Progress.v
Deletion.v
Watch.v
Typing.v
Colony.v
ColonyFake.v
ClusterUpdates.v
Orphans.v
Endpoints.v
ColonyStatus.v
ColonyLifecycle.v
ColonySecrets.v
Preflight.v
Flags.v
Main.v
