(* ===== verification/Prelude.v ===== *)
(** * exalsius-operator: a verification library

    The operator manages AI workspaces on child clusters.  A WorkspaceDeployment
    names a WorkspaceClass and a ClusterDeployment; the workspace controller checks
    the cluster, gates the GPU request, installs prerequisites, deploys the chart
    through a ServiceSet, publishes access routes, and on deletion takes it all down
    again behind a finalizer.  The clusters come from a second controller: a Colony
    names clusters, for each of which the colony controller keeps a k0rdent
    ClusterDeployment, collects kubeconfigs, publishes the API endpoint inside the
    cluster, and scans the GPUs the workspace gate then counts with the same code.

    ** How the code is modelled

    Handlers talk to API servers that other controllers change at any time, so a
    handler is a program over requests ([Prog.prog]): a finite tree that returns or
    issues one request ([Prog.req]: get, list, create, update, ... through a given
    client) and continues with any response.  [Prog.exec p tr a] says that [p] can
    return [a] with the trace [tr] of requests and responses.  Theorems quantify over
    all executions, so they hold under every interleaving with other writers and
    every failure; no hypothesis restricts the servers unless a theorem says so.
    Objects are records ([Api]), a Go pointer is an [option], a Go integer a [Z] with
    its wrap-around written out, errors are values.  A status write that succeeds
    replaces the object in hand by the server's answer, as the client does.

    Third-party code is a parameter: the Kubernetes client and API servers (the
    responses), [resource.Quantity] ([Api.QuantityOps], with its documented laws in
    [QuantityNano] and an instance of them), the REST configuration of a kubeconfig
    (a request), the name and condition helpers of the API machinery
    ([Gateway.KubeLib], [ClusterDeployments.InfraLib]; the laws a theorem relies on
    are [Gateway.KubeLaws] and [ColonyStatus.InfraLaws], each with an instance), the
    order in which Go ranges over a map (an argument, any permutation), the answers
    of the controller runtime while the process starts ([Main]).  SHA-256, the string
    functions, [flag.Parse] and [filepath.Join] are the Go standard library's and are
    modelled ([Sha256], [GoString], [Flags], [Main]).

    ** Files and the code they model (under [internal/controller/workspaces] unless
    another directory is given)

    - [Prelude], [GoString], [Sha256]: generic lemmas, Go strings and integers.
    - [Api]: [api/workspaces/v1] and the fields used of core and k0rdent objects;
      [InfraApi]: [api/infra/v1].
    - [Json]: [jsonConfigsEqual] of [infra/clusterdeployment], down to the rounding of
      number literals to float64.
    - [Naming]: [routing/naming.go] and the name functions of [service_apply.go],
      [prerequisites.go], [namespace.go]: bounded names, label values, mesh labels.
    - [Schema]: the validation markers of [api/workspaces/v1], what the API server
      admits; [Names]: which names derived from an admitted workspace are DNS labels.
    - [QuantityNano]: the laws of quantities and a decimal instance.
    - [Prog]: requests, programs, executions; [always] (a predicate of every
      request), monitors ([safe]), [justified] (every event is justified by those
      before it) and the tactics that split executions.
    - [Gpu]: [internal/gpu/offering.go], the offerings and free-GPU counts.
    - [Offerings]: the theorems about the offerings a cluster advertises.
    - [Values]: [merge.go] and [inject.go], on JSON values.
    - [Feasibility]: [feasibility.go].
    - [Cluster]: the lookups of [infra/common/regional.go], [namespace.go].
    - [ServiceSets]: [service_apply.go].
    - [Failure]: [failurecontext.go] and [setCondition].
    - [Prerequisites]: [prerequisites.go].
    - [Routes]: [routes.go], [routes_sweeper.go], the interfaces of
      [routing/provider.go] ([RouteProvider] with the laws the controller relies on).
    - [Gateway]: [routing/gatewayapi] (provider.go, portpool.go, sweep.go), with its
      instances of those interfaces; [Sweep], [Access] and [PortPool] hold the
      theorems about the sweep, the published entries and the TCP listeners.
    - [Controller], [Reconcile]: [workspacedeployment_controller.go], handler by
      handler, composed in [Reconcile.Reconcile].
    - [ClassController]: [workspaceclass_controller.go].
    - [ClusterDeployments]: [infra/clusterdeployment]; [Discovery]: the rest of
      [infra/common] and [infra/cilium].
    - [Colony]: [infra/colony_controller.go], composed in [Colony.reconcile_colony].
    - [Preflight]: [internal/preflight/crd_check.go] and what [cmd/main.go] enables by
      its results, with their theorems.
    - [Flags]: the flags of [cmd/main.go]; [Main]: [init] and [main] of [cmd/main.go]
      and the [SetupWithManager] methods, as steps that the environment answers.
    - [Fake], [ColonyFake]: a small server to evaluate handlers on concrete worlds.
    - [Phases], [Gating], [Progress], [Deletion], [Watch], [Typing]: the theorems about
      the workspace controller; [System]: any number of its runs against one store.
    - [ClusterUpdates], [Orphans]: the theorems about creating, updating and cleaning
      up ClusterDeployments; [Endpoints], [ColonyStatus], [ColonySecrets]: about what
      the colony controller publishes; [ColonyLifecycle]: about a whole run of it.

    ** What is shown

    - The controller as a whole: phases move along [Phases.phase_step] in every
      execution, and so do the states stored when many runs, stale reads and other
      writers interleave ([System.system_refines_machine]); Running only after the
      workspace's own release is deployed; no effect before the finalizer or on a
      suspended workspace; no deployment of a workspace with a GPU selector past the
      gate, and the chart gets the selector that was checked; the oldest of the
      waiting workspaces is the one head of their queue ([Gating]); deletion is ordered and, after the grace period, cannot be held
      up by a remote cluster ([Deletion]); ServiceSet events reach the workspaces
      that depend on them ([Watch]); when every server cooperates and there is room,
      two runs write a workspace's ServiceSet and bring it to Running ([Progress]); and whatever is written
      passes the validation of the CRD, provided that what was read did ([Typing]).
    - Its parts: exact GPU availability and its agreement with the per-model count
      ([Gpu]); the offerings lose no GPU, and what the colony's inventory advertises
      the gate accepts ([Offerings]); the feasibility verdict and shortfall of each
      resource, against sums of demand and supply ([Feasibility]); value
      merging, path parsing and injection ([Values]); verdict and installation of prerequisites; what is
      written to ServiceSets and namespaces; conditions and failure context; names
      that are always valid label values ([Naming]), names that are DNS labels
      ([Names]).
    - The Gateway API provider keeps the interface the controller is verified
      against ([Gateway]); what it publishes as ready is routed ([Access]);
      [ensureTCPRoute] refines an abstract allocator of listeners, which never gives
      one to two endpoints as long as one worker runs at a time, as the manager is
      configured ([PortPool]); the sweep spares what is in use ([Sweep]).
    - A class found valid is usable, its status is the last verdict, and template
      events reach the classes that depend on them ([ClassController]).
    - A colony run deletes only what its spec no longer names, or what a deleted
      colony owned, in order and behind the finalizer ([ColonyLifecycle], [Orphans]);
      updates of a ClusterDeployment are fresh, complete, bounded in number and time,
      and settle ([ClusterUpdates]); one cluster's failure does not hide or block the
      others and the status is what the run read ([ColonyStatus]); each child cluster
      gets its own endpoint ([Endpoints]) and the aggregated secret is complete
      ([ColonySecrets]).  The preflight check is bounded and right ([Preflight]).
    - The manager starts only fully set up, with the colony controller exactly when
      the discovery API has listed its CRD; the documented flags, by name and default,
      configure the manager, the reconciler and the route provider ([Flags] parses
      them); and what it starts with is the composition the theorems above are about
      ([Main]).
    - Where the code does not do what it says, a theorem shows it: free GPUs are
      promised twice before the first pods are bound, requests by count alone pass the
      gate, pods on cordoned nodes take capacity from the others, a running
      workspace is gated again, mixed-vendor selectors are overcounted, names collide,
      a 32-bit product wraps, a replaced node is not reported, a missing
      prerequisite waits, long cluster names lose events, endpoints that share a
      Service undo each other's mirror, a class status flaps, an unlabelled
      ClusterDeployment is rewritten on every run, the owner of the aggregated secret
      is never stored, a class that lists a prerequisite twice makes every status be
      refused, a GPU scan always changes the status and so wakes its own controller,
      service entries need not be DNS labels.

    ** Bounds and fuel

    [Values.parse_loop] has fuel, one more than the length of the path, and
    [Values.parse_loop_total] shows it never runs out; everything else is structural.
    Programs are finite trees, so every handler terminates ([Prog.exec_total]).  The
    retry loops count down the attempts of the source: five writes of a
    ClusterDeployment with sleeps of 0.1 to 1.6 seconds, hence 3.1 seconds in all
    ([ClusterUpdates]), five of the colony status, [MaxRetries] rounds of the
    preflight check with its doubled and capped backoff ([Preflight]).  Two loops end
    only with their context or timeout, [WaitForClusterDeletion] and the sweeper's
    [Start]: their number of turns is an argument, theorems hold for every number.
    The first has no caller in the program.

    ** Not modelled

    Logging and metrics; the flags that zap and the controller runtime register
    themselves (parameters of [Flags.Parse]); generated deep-copy code and the scheme
    builders of the API packages; [test/utils].  Of the validation, the length of
    condition messages, which quote errors of other programs, and the fields the
    operator never reads.  Slices of pointers are taken not to hold nil (the API
    server stores none). *)

From stdpp Require Export base tactics option list gmap strings pretty sorting.
From Stdlib Require Export ZArith Lia.

#[export] Set Default Goal Selector "!".

Declare Scope go_scope.
Delimit Scope go_scope with go.

(** ** Machine integers: Go's [int32] and [int64] as wrapped [Z] *)

Definition int32_wrap (z : Z) : Z := ((z + 2 ^ 31) mod 2 ^ 32 - 2 ^ 31)%Z.
Definition int64_wrap (z : Z) : Z := ((z + 2 ^ 63) mod 2 ^ 64 - 2 ^ 63)%Z.
Definition int32_range (z : Z) : Prop := (- 2 ^ 31 ≤ z < 2 ^ 31)%Z.
Definition int64_range (z : Z) : Prop := (- 2 ^ 63 ≤ z < 2 ^ 63)%Z.

Lemma int32_wrap_id z : int32_range z → int32_wrap z = z.
Proof. unfold int32_range, int32_wrap; intros H. rewrite Z.mod_small; lia. Qed.

Lemma int64_wrap_id z : int64_range z → int64_wrap z = z.
Proof. unfold int64_range, int64_wrap; intros H. rewrite Z.mod_small; lia. Qed.

Lemma int32_wrap_range z : int32_range (int32_wrap z).
Proof.
  unfold int32_range, int32_wrap.
  pose proof (Z.mod_pos_bound (z + 2 ^ 31) (2 ^ 32)). lia.
Qed.

Lemma int64_wrap_range z : int64_range (int64_wrap z).
Proof.
  unfold int64_range, int64_wrap.
  pose proof (Z.mod_pos_bound (z + 2 ^ 63) (2 ^ 64)). lia.
Qed.

Create HintDb go.
Create Rewrite HintDb go.
#[export] Hint Resolve int32_wrap_range int64_wrap_range : go.

Lemma int32_wrap_add_l a b : int32_wrap (int32_wrap a + b) = int32_wrap (a + b).
Proof.
  unfold int32_wrap.
  replace ((a + 2 ^ 31) mod 2 ^ 32 - 2 ^ 31 + b + 2 ^ 31)%Z
    with ((a + 2 ^ 31) mod 2 ^ 32 + b)%Z by lia.
  rewrite Zplus_mod_idemp_l. f_equal. f_equal. lia.
Qed.

(** ** Go maps

    A Go map read of an absent key yields the zero value: for the string maps of
    the Kubernetes metadata that is the empty string. *)

Definition mget (m : gmap string string) (k : string) : string := default "" (m !! k).

Lemma mget_insert m k v : mget (<[k:=v]> m) k = v.
Proof. unfold mget. by rewrite lookup_insert_eq. Qed.

Lemma mget_insert_ne m k k' v : k ≠ k' → mget (<[k:=v]> m) k' = mget m k'.
Proof. intros. unfold mget. by rewrite lookup_insert_ne. Qed.

Lemma mget_Some m k v : m !! k = Some v → mget m k = v.
Proof. unfold mget. by intros ->. Qed.

(** [for k, v := range b { a[k] = v }]: entries of [b] win. *)
Definition map_assign (a b : gmap string string) : gmap string string := b ∪ a.

Lemma map_assign_lookup a b k :
  map_assign a b !! k = match b !! k with Some v => Some v | None => a !! k end.
Proof.
  unfold map_assign. rewrite lookup_union.
  by destruct (b !! k), (a !! k).
Qed.

#[export] Hint Rewrite mget_insert : go.

(** ** Decidable propositions as booleans *)

(** [bdec P] is Go's [==]/[<] on a decidable proposition. *)
Abbreviation bdec P := (bool_decide P).

Ltac bool_solve :=
  repeat (rewrite ?andb_true_iff, ?orb_true_iff, ?negb_true_iff, ?andb_false_iff,
            ?orb_false_iff, ?negb_false_iff, ?bool_decide_eq_true,
            ?bool_decide_eq_false in * ); try naive_solver.

(** Case analysis on every [match] of the goal whose scrutinee is a variable or
    an application, simplifying as it goes. *)
Ltac case_all := repeat (case_match; simplify_eq/=).

(** ** Lists *)

Section lists.
Context {A : Type}.
Implicit Types (l : list A) (f : A → bool).

(** The first element satisfying a test: Go's search loop with [return]. *)
Fixpoint find_first f l : option A :=
  match l with
  | [] => None
  | x :: l => if f x then Some x else find_first f l
  end.

Lemma find_first_Some f l x :
  find_first f l = Some x →
  x ∈ l ∧ f x = true ∧ ∃ l1 l2, l = l1 ++ x :: l2 ∧ Forall (λ y, f y = false) l1.
Proof.
  induction l as [|y l IH]; simpl; [done|].
  destruct (f y) eqn:E; intros H; simplify_eq.
  - split_and!; [set_solver|done|]. by exists [], l.
  - destruct (IH H) as (Hin & Hf & l1 & l2 & -> & Hall).
    split_and!; [set_solver|done|]. exists (y :: l1), l2. eauto.
Qed.

Lemma find_first_None f l : find_first f l = None ↔ Forall (λ y, f y = false) l.
Proof.
  induction l as [|y l IH]; simpl; [naive_solver|].
  rewrite Forall_cons. destruct (f y); naive_solver.
Qed.

Lemma find_first_is_Some f l : is_Some (find_first f l) ↔ ∃ x, x ∈ l ∧ f x = true.
Proof.
  split.
  - intros [x H]. apply find_first_Some in H as (? & ? & _). eauto.
  - intros (x & Hin & Hf). destruct (find_first f l) eqn:E; [eauto|].
    apply find_first_None in E. rewrite Forall_forall in E.
    specialize (E x Hin). congruence.
Qed.
End lists.

(** Sum of an integer-valued measure over a list. *)
Definition zsum {A} (f : A → Z) (l : list A) : Z := foldr (λ x acc, f x + acc)%Z 0%Z l.

Lemma zsum_app {A} (f : A → Z) l1 l2 : zsum f (l1 ++ l2) = (zsum f l1 + zsum f l2)%Z.
Proof. induction l1; simpl; [done|]. unfold zsum in *; simpl; lia. Qed.

Lemma zsum_cons {A} (f : A → Z) x l : zsum f (x :: l) = (f x + zsum f l)%Z.
Proof. done. Qed.

Lemma zsum_nonneg {A} (f : A → Z) l : (∀ x, x ∈ l → 0 ≤ f x)%Z → (0 ≤ zsum f l)%Z.
Proof.
  induction l as [|x l IH]; intros H; [done|].
  rewrite zsum_cons. specialize (IH ltac:(set_solver)). pose proof (H x ltac:(set_solver)). lia.
Qed.

Lemma zsum_ext {A} (f g : A → Z) l :
  (∀ x, x ∈ l → f x = g x) → zsum f l = zsum g l.
Proof.
  induction l as [|x l IH]; intros H; [done|].
  rewrite !zsum_cons, IH; [by rewrite (H x) by set_solver|set_solver].
Qed.

Lemma zsum_le {A} (f g : A → Z) l : (∀ x, x ∈ l → f x ≤ g x)%Z → (zsum f l ≤ zsum g l)%Z.
Proof.
  induction l as [|x l IH]; intros H; [done|].
  rewrite !zsum_cons. specialize (IH ltac:(set_solver)). pose proof (H x ltac:(set_solver)). lia.
Qed.

Lemma zsum_filter {A} (f : A → Z) (P : A → Prop) `{∀ x, Decision (P x)} l :
  zsum f (filter P l) = zsum (λ x, if decide (P x) then f x else 0%Z) l.
Proof.
  induction l as [|x l IH]; [done|]. rewrite filter_cons, zsum_cons. case_decide; [rewrite zsum_cons|]; lia.
Qed.

(** Grouping by a key loses nothing and counts nothing twice. *)
Lemma zsum_indicator `{EqDecision K} (k : K) z ks :
  NoDup ks → k ∈ ks → zsum (λ k', if decide (k = k') then z else 0%Z) ks = z.
Proof.
  induction 1 as [|k' ks Hk' Hnd IH]; intros Hin; [by apply not_elem_of_nil in Hin|].
  rewrite zsum_cons. case_decide as Hk; [subst k'|].
  - rewrite (zsum_ext _ (λ _, 0%Z)); [|intros x Hx; case_decide; [by subst|done]].
    assert (zsum (λ _ : K, 0%Z) ks = 0%Z) as ->; [clear; induction ks; [done|rewrite zsum_cons; lia]|lia].
  - apply elem_of_cons in Hin as [->|Hin]; [done|]. rewrite IH by done. lia.
Qed.

Lemma zsum_plus {A} (f g : A → Z) l : zsum (λ x, f x + g x)%Z l = (zsum f l + zsum g l)%Z.
Proof. induction l as [|x l IH]; [done|]. rewrite !zsum_cons, IH. lia. Qed.

Lemma zsum_partition `{EqDecision K} {A} (key : A → K) (f : A → Z) ks l :
  NoDup ks → (∀ x, x ∈ l → key x ∈ ks) →
  zsum (λ k, zsum f (filter (λ x, key x = k) l)) ks = zsum f l.
Proof.
  intros Hnd. induction l as [|x l IH]; intros Hl.
  - clear. induction ks; [done|]. rewrite zsum_cons, IHks. done.
  - rewrite zsum_cons, <- IH by set_solver. rewrite <- (zsum_indicator (key x) (f x) ks) by set_solver.
    rewrite <- zsum_plus. apply zsum_ext. intros k _. rewrite filter_cons. case_decide; [rewrite zsum_cons|]; lia.
Qed.

(** A [foldl] that only accumulates is a sum. *)
Lemma foldl_zsum {A} (f : A → Z) l a :
  foldl (λ acc x, acc + f x)%Z a l = (a + zsum f l)%Z.
Proof.
  revert a. induction l as [|x l IH]; intros a.
  - unfold zsum; simpl; lia.
  - rewrite zsum_cons; simpl; rewrite IH. lia.
Qed.

(** ** Wrapping sums *)
Lemma int64_wrap_add_l a b : int64_wrap (int64_wrap a + b) = int64_wrap (a + b).
Proof.
  unfold int64_wrap.
  replace ((a + 2 ^ 63) mod 2 ^ 64 - 2 ^ 63 + b + 2 ^ 63)%Z
    with ((a + 2 ^ 63) mod 2 ^ 64 + b)%Z by lia.
  rewrite Zplus_mod_idemp_l. f_equal. f_equal. lia.
Qed.

Lemma foldl_wrap_sum {A} (f : A → Z) l a :
  foldl (λ acc x, int64_wrap (acc + f x)) (int64_wrap a) l = int64_wrap (a + zsum f l).
Proof.
  revert a. induction l as [|x l IH]; intros a.
  - unfold zsum; simpl. f_equal; lia.
  - rewrite zsum_cons; simpl. rewrite int64_wrap_add_l, IH. f_equal; lia.
Qed.

(** A loop body that is a no-op or a wrapping addition. *)
Lemma foldl_wrap_step {A} (step : Z → A → Z) (f : A → Z) l a :
  (∀ acc x, step (int64_wrap acc) x = int64_wrap (acc + f x)) →
  foldl step (int64_wrap a) l = int64_wrap (a + zsum f l).
Proof.
  intros Hs. revert a. induction l as [|x l IH]; intros a.
  - unfold zsum; simpl. f_equal; lia.
  - rewrite zsum_cons; simpl. rewrite Hs, IH. f_equal; lia.
Qed.

(** A loop over a state, seen through a measure that each turn increases. *)
Lemma foldl_measure {S A} (f : S → Z) (step : S → A → S) (g : A → Z) l s :
  (∀ s x, f (step s x) = f s + g x)%Z → f (foldl step s l) = (f s + zsum g l)%Z.
Proof.
  intros Hs. revert s. induction l as [|x l IH]; intros s.
  - unfold zsum; simpl; lia.
  - rewrite zsum_cons; simpl. rewrite IH, Hs. lia.
Qed.

Lemma foldl_wrap_measure {S A} (f : S → Z) (step : S → A → S) (g : A → Z) l s t :
  (∀ s x t, f s = int64_wrap t → f (step s x) = int64_wrap (t + g x)) →
  f s = int64_wrap t → f (foldl step s l) = int64_wrap (t + zsum g l).
Proof.
  intros Hs. revert s t. induction l as [|x l IH]; intros s t Ht.
  - unfold zsum; simpl. rewrite Ht. f_equal; lia.
  - rewrite zsum_cons; simpl. rewrite (IH _ _ (Hs s x t Ht)). f_equal; lia.
Qed.

(** ** Sums over a finite map *)
Definition msum `{Countable K} {V} (f : V → Z) (m : gmap K V) : Z :=
  zsum (λ kv, f kv.2) (map_to_list m).

Lemma zsum_perm {A} (f : A → Z) l1 l2 : l1 ≡ₚ l2 → zsum f l1 = zsum f l2.
Proof. induction 1; rewrite ?zsum_cons; lia. Qed.

Lemma zsum_fmap {A B} (g : A → B) (f : B → Z) l : zsum f (g <$> l) = zsum (λ x, f (g x)) l.
Proof. induction l; [done|]. rewrite fmap_cons, !zsum_cons. lia. Qed.

Section msum.
Context `{Countable K} {V : Type} (f : V → Z).
Implicit Types m : gmap K V.

Lemma msum_insert_None m k x : m !! k = None → msum f (<[k:=x]> m) = (f x + msum f m)%Z.
Proof. intros Hk. unfold msum. by rewrite (zsum_perm _ _ _ (map_to_list_insert m k x Hk)), zsum_cons. Qed.

Lemma msum_insert_Some m k x y :
  m !! k = Some y → msum f (<[k:=x]> m) = (f x + msum f m - f y)%Z.
Proof.
  intros Hk. rewrite <- (insert_id m k y Hk) at 2.
  rewrite <- (insert_delete_eq m k x), <- (insert_delete_eq m k y).
  rewrite !msum_insert_None by apply lookup_delete_eq. lia.
Qed.

Lemma msum_ge m k x : (∀ k x, m !! k = Some x → 0 ≤ f x)%Z → m !! k = Some x → (f x ≤ msum f m)%Z.
Proof.
  intros Hpos Hk. rewrite <- (insert_id m k x Hk), <- insert_delete_eq.
  rewrite msum_insert_None by apply lookup_delete_eq.
  assert (0 ≤ msum f (delete k m))%Z; [|lia]. apply zsum_nonneg.
  intros [k' x'] Hin. apply elem_of_map_to_list, lookup_delete_Some in Hin as [_ Hin].
  by apply (Hpos k').
Qed.
End msum.

(** The values of a map, read key by key. *)
Lemma omap_lookup_values `{Countable K} {V} (m : gmap K V) ks :
  NoDup ks → (∀ k, is_Some (m !! k) → k ∈ ks) → omap (m !!.) ks ≡ₚ (map_to_list m).*2.
Proof.
  intros Hnd. revert m. induction Hnd as [|k ks Hk Hnd IH]; intros m Hks.
  - assert (m = ∅) as ->; [|by rewrite map_to_list_empty].
    apply map_eq. intros k. rewrite lookup_empty. apply eq_None_not_Some. intros Hs. by apply Hks, not_elem_of_nil in Hs.
  - simpl. destruct (m !! k) as [x|] eqn:E.
    + rewrite <- (map_to_list_delete m k x E), fmap_cons, <- (IH (delete k m)).
      * apply Permutation_skip. clear IH Hnd Hks E. induction ks as [|k' ks IHks]; [done|].
        apply not_elem_of_cons in Hk as [Hne Hk]. simpl. rewrite lookup_delete_ne by done.
        destruct (m !! k'); [apply Permutation_skip|]; by apply IHks.
      * intros k' Hs. destruct (decide (k' = k)) as [->|Hne]; [by rewrite lookup_delete_eq in Hs; destruct Hs|].
        rewrite lookup_delete_ne in Hs by done. apply Hks, elem_of_cons in Hs. naive_solver.
    + apply IH. intros k' Hs. pose proof (Hks k' Hs) as Hin. apply elem_of_cons in Hin as [->|?]; [|done].
      rewrite E in Hs. by destruct Hs.
Qed.
