(* ===== verification/GoString.v ===== *)
(** * The Go string functions the operator uses

    Bytes are [ascii]; [len] counts bytes.  [ToLower] folds the ASCII letters
    only, and [quote] (fmt's [%q]) escapes the ASCII range only: the operator
    applies them to label values, object names and fixed texts, which Kubernetes
    restricts to ASCII. *)

From S2P Require Import Prelude.
From Stdlib Require Import Ascii.
From Stdlib Require String.

Abbreviation len := String.length.
#[global] Arguments String.append !_ _ /.

(** [s[i:j]]; the callers keep [i <= j <= len s], where [substring] agrees. *)
Definition slice (s : string) (i j : nat) : string := String.substring i (j - i) s.

(** [strings.HasPrefix]. *)
Definition HasPrefix (s p : string) : bool := String.prefix p s.

(** [strings.TrimPrefix]. *)
Definition TrimPrefix (s p : string) : string :=
  if HasPrefix s p then slice s (len p) (len s) else s.

(** [strings.Contains]. *)
Fixpoint Contains (s needle : string) : bool :=
  String.prefix needle s ||
  match s with
  | EmptyString => false
  | String _ s' => Contains s' needle
  end.

(** [strings.Index] and [strings.Split] for a separator of one byte. *)
Fixpoint index_byte (c : ascii) (s : string) : option nat :=
  match s with
  | EmptyString => None
  | String d s' => if bool_decide (d = c) then Some 0%nat else S <$> index_byte c s'
  end.
Fixpoint split_byte (c : ascii) (s : string) : list string :=
  match s with
  | EmptyString => [EmptyString]
  | String d s' =>
      if bool_decide (d = c) then EmptyString :: split_byte c s'
      else match split_byte c s' with
           | x :: l => String d x :: l
           | [] => [String d EmptyString]
           end
  end.

(** All bytes of a string satisfy a test. *)
Fixpoint sall (f : ascii → bool) (s : string) : bool :=
  match s with
  | EmptyString => true
  | String c s' => f c && sall f s'
  end.

Fixpoint smap (f : ascii → ascii) (s : string) : string :=
  match s with
  | EmptyString => EmptyString
  | String c s' => String (f c) (smap f s')
  end.

Definition in_range (lo hi : nat) (c : ascii) : bool :=
  (lo <=? nat_of_ascii c)%nat && (nat_of_ascii c <=? hi)%nat.
Definition is_upper : ascii → bool := in_range 65 90.
Definition is_lower : ascii → bool := in_range 97 122.
Definition is_digit : ascii → bool := in_range 48 57.
Definition is_alnum (c : ascii) : bool := is_upper c || is_lower c || is_digit c.

Definition lower_byte (c : ascii) : ascii :=
  if is_upper c then ascii_of_nat (nat_of_ascii c + 32) else c.
(** [strings.ToLower]. *)
Definition ToLower : string → string := smap lower_byte.

(** [strings.TrimRight] with a cutset given as a byte test. *)
Fixpoint TrimRight (s : string) (cut : ascii → bool) : string :=
  match s with
  | EmptyString => EmptyString
  | String c s' =>
      match TrimRight s' cut with
      | EmptyString => if cut c then EmptyString else String c EmptyString
      | t => String c t
      end
  end.

(** [strings.Join]. *)
Fixpoint Join (l : list string) (sep : string) : string :=
  match l with
  | [] => ""
  | [x] => x
  | x :: l' => x +:+ sep +:+ Join l' sep
  end.

(** fmt's [%d]. *)
Definition itoa (z : Z) : string := pretty z.

Definition dquote : string := String (ascii_of_nat 34) EmptyString.
Definition backslash : string := String (ascii_of_nat 92) EmptyString.

Definition hex_digit (n : nat) : ascii :=
  if (n <? 10)%nat then ascii_of_nat (48 + n) else ascii_of_nat (87 + n).
Definition hex_byte (n : nat) : string :=
  String (hex_digit (n / 16)) (String (hex_digit (n mod 16)) EmptyString).

Definition quote_byte (c : ascii) : string :=
  match nat_of_ascii c with
  | 34 => backslash +:+ dquote
  | 92 => backslash +:+ backslash
  | 7 => backslash +:+ "a"
  | 8 => backslash +:+ "b"
  | 12 => backslash +:+ "f"
  | 10 => backslash +:+ "n"
  | 13 => backslash +:+ "r"
  | 9 => backslash +:+ "t"
  | 11 => backslash +:+ "v"
  | n => if ((n <? 32) || (n =? 127))%nat then backslash +:+ "x" +:+ hex_byte n
         else String c EmptyString
  end.
Fixpoint quote_body (s : string) : string :=
  match s with
  | EmptyString => EmptyString
  | String c s' => quote_byte c +:+ quote_body s'
  end.
(** fmt's [%q]. *)
Definition quote (s : string) : string := dquote +:+ quote_body s +:+ dquote.

(** Byte-wise order of strings, as Go's [<] and [sort.Strings]. *)
Definition str_ltb (a b : string) : bool :=
  match String.compare a b with Lt => true | _ => false end.
Definition str_leb (a b : string) : bool := negb (str_ltb b a).

(** ** Facts *)

Lemma sapp_assoc a b c : (a +:+ b) +:+ c = a +:+ (b +:+ c).
Proof. induction a; simpl; congruence. Qed.

Lemma sapp_nil_r a : a +:+ "" = a.
Proof. induction a; simpl; congruence. Qed.

Lemma length_sapp a b : len (a +:+ b) = (len a + len b)%nat.
Proof. induction a; simpl; congruence. Qed.

Lemma sapp_inj_l a b c : a +:+ b = a +:+ c → b = c.
Proof. induction a; simpl; [done|]. intros; simplify_eq; auto. Qed.

Lemma sall_app f a b : sall f (a +:+ b) = sall f a && sall f b.
Proof. induction a as [|c a IH]; simpl; [done|]. rewrite IH. by destruct (f c). Qed.

Lemma sall_impl (f g : ascii → bool) s :
  (∀ c, f c = true → g c = true) → sall f s = true → sall g s = true.
Proof. intros Hi. induction s; simpl; [done|]. rewrite !andb_true_iff. naive_solver. Qed.

Lemma prefix_app p s : HasPrefix (p +:+ s) p = true.
Proof. unfold HasPrefix. induction p; simpl; [by destruct s|]. by case_match. Qed.

Lemma prefix_split p s : HasPrefix s p = true → ∃ t, s = p +:+ t.
Proof.
  unfold HasPrefix. revert s. induction p as [|c p IH]; intros s H; [by exists s|].
  destruct s as [|d s]; simpl in H; [done|].
  destruct (ascii_dec c d) as [->|]; [|done].
  destruct (IH _ H) as [t ->]. by exists t.
Qed.

Lemma contains_app_l a b n : Contains b n = true → Contains (a +:+ b) n = true.
Proof.
  intros H. induction a as [|c a IH]; simpl; [done|].
  rewrite IH. by rewrite orb_true_r.
Qed.

Lemma contains_prefix n b : Contains (n +:+ b) n = true.
Proof.
  pose proof (prefix_app n b) as H. unfold HasPrefix in H.
  generalize dependent (n +:+ b). intros [|c s]; cbn [Contains]; by intros ->.
Qed.

Lemma contains_mid a n b : Contains (a +:+ n +:+ b) n = true.
Proof. apply contains_app_l, contains_prefix. Qed.

Lemma substring_all s : String.substring 0 (len s) s = s.
Proof. induction s; simpl; congruence. Qed.

Lemma substring_0 s n : String.substring 0 n s = "" ∨ (0 < n ∧ s ≠ "")%nat.
Proof. destruct n, s; simpl; auto. right. split; [lia|done]. Qed.

Lemma slice_app a b : slice (a +:+ b) (len a) (len (a +:+ b)) = b.
Proof.
  unfold slice. rewrite length_sapp.
  replace (len a + len b - len a)%nat with (len b) by lia.
  induction a; simpl; [apply substring_all|done].
Qed.

Lemma slice_prefix a b : slice (a +:+ b) 0 (len a) = a.
Proof. unfold slice. rewrite Nat.sub_0_r. induction a; simpl; [by destruct b|congruence]. Qed.

Lemma length_slice0 s n : (n ≤ len s)%nat → len (slice s 0 n) = n.
Proof.
  unfold slice. rewrite Nat.sub_0_r. revert n.
  induction s; intros [|n]; simpl; intros; [done|lia|done|]. rewrite IHs; lia.
Qed.

Lemma slice0_split s n : (n ≤ len s)%nat → ∃ t, s = slice s 0 n +:+ t.
Proof.
  unfold slice. rewrite Nat.sub_0_r. revert n.
  induction s as [|c s IH]; intros [|n]; simpl; intros; [by exists ""|lia|by eexists|].
  destruct (IH n) as [t Ht]; [lia|]. exists t. by rewrite <- Ht.
Qed.

Lemma sall_slice0 f s n : sall f s = true → sall f (slice s 0 n) = true.
Proof.
  unfold slice. rewrite Nat.sub_0_r. revert n.
  induction s as [|c s IH]; intros [|n]; simpl; try done.
  rewrite !andb_true_iff. naive_solver.
Qed.

Lemma TrimRight_split s cut :
  ∃ t, s = TrimRight s cut +:+ t ∧ sall cut t = true.
Proof.
  induction s as [|c s (t & Ht & Hc)]; [by exists ""|].
  simpl. destruct (TrimRight s cut) as [|d u] eqn:E; simpl in *.
  - subst s. destruct (cut c) eqn:Hcut.
    + exists (String c t). simpl. by rewrite Hcut.
    + by exists t.
  - exists t. by rewrite Ht.
Qed.

Lemma length_TrimRight s cut : (len (TrimRight s cut) ≤ len s)%nat.
Proof.
  destruct (TrimRight_split s cut) as (t & H & _).
  rewrite H at 2. rewrite length_sapp. lia.
Qed.

Lemma sall_TrimRight f s cut : sall f s = true → sall f (TrimRight s cut) = true.
Proof.
  destruct (TrimRight_split s cut) as (t & H & _). rewrite H at 1.
  rewrite sall_app, andb_true_iff. naive_solver.
Qed.

Lemma length_smap f s : len (smap f s) = len s.
Proof. induction s; simpl; congruence. Qed.

Lemma str_compare_refl s : String.compare s s = Eq.
Proof. induction s as [|c s IH]; simpl; [done|]. unfold Ascii.compare. by rewrite N.compare_refl. Qed.

Lemma str_ltb_irrefl s : str_ltb s s = false.
Proof. unfold str_ltb. by rewrite str_compare_refl. Qed.

(** ** The byte order of strings is total *)
Definition str_le (a b : string) : Prop := str_leb a b = true.
#[export] Instance str_le_dec : RelDecision str_le.
Proof. intros a b. unfold str_le. apply _. Defined.

Lemma str_compare_antisym a b : Stdlib.Strings.String.compare a b = CompOpp (Stdlib.Strings.String.compare b a).
Proof. apply Stdlib.Strings.String.compare_antisym. Qed.

Lemma str_ltb_cons c d a b :
  str_ltb (String c a) (String d b) =
  match Ascii.compare c d with Lt => true | Eq => str_ltb a b | Gt => false end.
Proof. unfold str_ltb. simpl. by destruct (Ascii.compare c d). Qed.

Lemma ascii_compare_N c d : Ascii.compare c d = N.compare (N_of_ascii c) (N_of_ascii d).
Proof. done. Qed.

Lemma ascii_N_inj c d : N_of_ascii c = N_of_ascii d → c = d.
Proof. intros H. by rewrite <- (ascii_N_embedding c), H, ascii_N_embedding. Qed.

Lemma str_ltb_trans a b c : str_ltb a b = true → str_ltb b c = true → str_ltb a c = true.
Proof.
  revert b c. induction a as [|x a IH]; intros [|y b] [|z c]; try done.
  rewrite !str_ltb_cons, !ascii_compare_N.
  destruct (N.compare_spec (N_of_ascii x) (N_of_ascii y)) as [E1|E1|E1];
    destruct (N.compare_spec (N_of_ascii y) (N_of_ascii z)) as [E2|E2|E2]; try done;
    destruct (N.compare_spec (N_of_ascii x) (N_of_ascii z)) as [E3|E3|E3]; try done; try lia.
  apply IH.
Qed.

Lemma str_ltb_asym a b : str_ltb a b = true → str_ltb b a = false.
Proof.
  unfold str_ltb. rewrite (str_compare_antisym b a).
  by destruct (Stdlib.Strings.String.compare a b).
Qed.

(** Strict order is trichotomous. *)
Lemma str_ltb_tricho a b : str_ltb a b = false → str_ltb b a = false → a = b.
Proof.
  unfold str_ltb. rewrite (str_compare_antisym b a).
  destruct (Stdlib.Strings.String.compare a b) eqn:E; try done.
  intros _ _. by apply Stdlib.Strings.String.compare_eq_iff.
Qed.

#[export] Instance str_le_total : Total str_le.
Proof.
  intros a b. unfold str_le, str_leb.
  destruct (str_ltb b a) eqn:E; [|by left]. right. by rewrite (str_ltb_asym b a).
Qed.

#[export] Instance str_le_trans : Transitive str_le.
Proof.
  intros a b c. unfold str_le, str_leb. rewrite !negb_true_iff. intros H1 H2.
  destruct (str_ltb c a) eqn:E; [|done].
  destruct (str_ltb a b) eqn:E1.
  - pose proof (str_ltb_trans _ _ _ E E1). congruence.
  - assert (a = b) as -> by (by apply str_ltb_tricho). congruence.
Qed.

#[export] Instance str_le_antisymm : AntiSymm (=) str_le.
Proof. intros a b. unfold str_le, str_leb. rewrite !negb_true_iff. eauto using str_ltb_tricho. Qed.

(** ** Serialised label maps

    [k1=v1;k2=v2;...] over the sorted keys: the form both [selectorKey] and
    [selectorIdentity] produce. *)
Definition sorted_keys (m : gmap string string) : list string := merge_sort str_le (elements (dom m)).

Fixpoint write_entries (m : gmap string string) (ks : list string) : string :=
  match ks with
  | [] => ""
  | k :: ks' => k +:+ "=" +:+ mget m k +:+ ";" +:+ write_entries m ks'
  end.

Definition no_byte (c : ascii) (s : string) : Prop := sall (λ d, negb (bool_decide (d = c))) s = true.

Lemma split_at_byte c a a' r r' :
  no_byte c a → no_byte c a' → a +:+ String c r = a' +:+ String c r' → a = a' ∧ r = r'.
Proof.
  unfold no_byte. revert a'. induction a as [|x a IH]; intros [|y a']; simpl;
    rewrite ?andb_true_iff, ?negb_true_iff, ?bool_decide_eq_false.
  - intros; simplify_eq. done.
  - intros _ [Hy _] ?; simplify_eq.
  - intros [Hx _] _ ?; simplify_eq.
  - intros [_ Ha] [_ Ha'] ?; simplify_eq. destruct (IH a') as [-> ->]; done.
Qed.

(** No [=] in a key, no [;] in a value: true of Kubernetes labels. *)
Definition label_map (m : gmap string string) : Prop :=
  ∀ k v, m !! k = Some v → no_byte "=" k ∧ no_byte ";" v.

Lemma write_entries_inj m1 m2 l1 l2 :
  label_map m1 → label_map m2 →
  Forall (λ k, is_Some (m1 !! k)) l1 → Forall (λ k, is_Some (m2 !! k)) l2 →
  write_entries m1 l1 = write_entries m2 l2 →
  l1 = l2 ∧ Forall (λ k, m1 !! k = m2 !! k) l1.
Proof.
  intros L1 L2 F1. revert l2. induction F1 as [|k1 l1 [v1 H1] F1 IH]; intros l2 F2 E.
  - destruct F2 as [|k2 l2 [v2 H2] F2]; [done|]. simpl in E. destruct k2; simplify_eq/=.
  - destruct F2 as [|k2 l2 [v2 H2] F2]; [destruct k1; simplify_eq/=|].
    destruct (L1 _ _ H1) as [K1 V1], (L2 _ _ H2) as [K2 V2].
    simpl in E. rewrite (mget_Some _ _ _ H1), (mget_Some _ _ _ H2) in E.
    apply (split_at_byte "=") in E as [-> E]; [|done..].
    apply (split_at_byte ";") in E as [-> E]; [|done..].
    destruct (IH _ F2 E) as [-> IHF]. split; [done|]. constructor; [congruence|done].
Qed.

Lemma sorted_keys_perm m : sorted_keys m ≡ₚ elements (dom m).
Proof. apply merge_sort_Permutation. Qed.

Lemma sorted_keys_elem m k : k ∈ sorted_keys m ↔ is_Some (m !! k).
Proof. rewrite sorted_keys_perm, elem_of_elements. apply elem_of_dom. Qed.

(** Distinct label maps serialise differently. *)
Lemma write_sorted_inj m1 m2 :
  label_map m1 → label_map m2 →
  write_entries m1 (sorted_keys m1) = write_entries m2 (sorted_keys m2) → m1 = m2.
Proof.
  intros L1 L2 E.
  destruct (write_entries_inj m1 m2 (sorted_keys m1) (sorted_keys m2)) as [Hk Hv]; [done|done|..|done|].
  1,2: apply Forall_forall; intros k; apply sorted_keys_elem.
  apply map_eq. intros k. destruct (decide (k ∈ sorted_keys m1)) as [Hin|Hin].
  - rewrite Forall_forall in Hv. by apply Hv.
  - pose proof Hin as Hin2. rewrite Hk in Hin2.
    rewrite sorted_keys_elem in Hin, Hin2.
    apply eq_None_not_Some in Hin as ->. by apply eq_None_not_Some in Hin2 as ->.
Qed.

(** ** Bytes that do not occur *)
Lemma sapp_inj_r a b c : a +:+ c = b +:+ c → a = b.
Proof.
  revert b. induction a as [|x a IH]; intros [|y b] E; [done|..].
  1,2: apply (f_equal len) in E; rewrite !length_sapp in E; simpl in E; lia.
  simpl in E. injection E as -> E. by rewrite (IH b).
Qed.
Lemma no_byte_cons c d s : no_byte c (String d s) ↔ d ≠ c ∧ no_byte c s.
Proof. unfold no_byte. simpl. by rewrite andb_true_iff, negb_true_iff, bool_decide_eq_false. Qed.
Lemma no_byte_app c a b : no_byte c (a +:+ b) ↔ no_byte c a ∧ no_byte c b.
Proof. unfold no_byte. by rewrite sall_app, andb_true_iff. Qed.
Lemma index_byte_None c s : index_byte c s = None ↔ no_byte c s.
Proof.
  induction s as [|d s IH]; [done|]. rewrite no_byte_cons. simpl. case_bool_decide; [naive_solver|].
  rewrite fmap_None, IH. tauto.
Qed.
Lemma index_byte_app c a b : no_byte c a → index_byte c (a +:+ String c b) = Some (len a).
Proof.
  induction a as [|d a IH]; simpl; [by rewrite bool_decide_true|]. intros [Hd Ha]%no_byte_cons.
  by rewrite bool_decide_false, IH by done.
Qed.
Lemma split_byte_none c s : no_byte c s → split_byte c s = [s].
Proof.
  induction s as [|d s IH]; [done|]. intros [Hd Hs]%no_byte_cons. simpl. by rewrite bool_decide_false, IH by done.
Qed.
Lemma split_byte_app c a b : no_byte c a → split_byte c (a +:+ String c b) = a :: split_byte c b.
Proof.
  induction a as [|d a IH]; simpl; [by rewrite bool_decide_true|]. intros [Hd Ha]%no_byte_cons.
  by rewrite bool_decide_false, IH by done.
Qed.

(** A printed integer has digits and a minus sign only. *)
Lemma sall_pretty_go f x s :
  (∀ d, sall f (String (pretty_N_char d) EmptyString) = true) → sall f s = true → sall f (pretty_N_go x s) = true.
Proof.
  intros Hf. revert s. induction (N.lt_wf_0 x) as [x _ IH]. intros s Hs.
  destruct (decide (x = 0)%N) as [-> | Hx]; [done|]. rewrite pretty_N_go_step by lia.
  apply IH; [apply N.div_lt; lia|]. simpl. specialize (Hf (x `mod` 10)%N). simpl in Hf.
  rewrite andb_true_r in Hf. by rewrite Hf.
Qed.
Lemma sall_itoa f z :
  (∀ d, sall f (String (pretty_N_char d) EmptyString) = true) → f "-"%char = true → sall f (itoa z) = true.
Proof.
  intros Hf Hm. assert (Hn : ∀ x : N, sall f (pretty x) = true).
  { intros x. unfold pretty, pretty_N. case_decide; [apply (Hf 0%N)|]. by apply sall_pretty_go. }
  unfold itoa, pretty, pretty_Z. destruct z as [|p|p]; [apply (Hf 0%N)|apply (Hn (Npos p))|].
  simpl. rewrite Hm. apply (Hn (Npos p)).
Qed.
