(* ===== verification/Sha256.v ===== *)
(** * SHA-256 and hex encoding (Go's [crypto/sha256], [encoding/hex])

    The operator shortens names with the first bytes of a SHA-256 digest, so the
    digest is computed here, word for word as FIPS 180-4 defines it: 32-bit words
    are [Z] below [2^32]. *)

From S2P Require Import Prelude GoString.
From Stdlib Require Import Ascii.
From Stdlib Require String.

Module Sha.
Open Scope Z_scope.

Definition w32 (z : Z) : Z := Z.land z 4294967295.
Definition add32 (a b : Z) : Z := w32 (a + b).
Definition rotr (n x : Z) : Z := Z.lor (Z.shiftr x n) (w32 (Z.shiftl x (32 - n))).
Definition not32 (x : Z) : Z := Z.lxor x 4294967295.

Definition Ch x y z := Z.lxor (Z.land x y) (Z.land (not32 x) z).
Definition Maj x y z := Z.lxor (Z.lxor (Z.land x y) (Z.land x z)) (Z.land y z).
Definition S0 x := Z.lxor (Z.lxor (rotr 2 x) (rotr 13 x)) (rotr 22 x).
Definition S1 x := Z.lxor (Z.lxor (rotr 6 x) (rotr 11 x)) (rotr 25 x).
Definition s0 x := Z.lxor (Z.lxor (rotr 7 x) (rotr 18 x)) (Z.shiftr x 3).
Definition s1 x := Z.lxor (Z.lxor (rotr 17 x) (rotr 19 x)) (Z.shiftr x 10).

(** The constants, from their definition in the standard: the first 32 bits of
    the fractional parts of the cube roots (square roots for the initial state)
    of the first primes. *)
Definition is_prime (n : Z) : bool :=
  forallb (λ d, negb (n mod Z.of_nat d =? 0)) (seq 2 (Z.to_nat (Z.sqrt n) - 1)).

Definition primes (k : nat) : list Z :=
  take k (filter (λ n, is_prime n = true) (Z.of_nat <$> seq 2 310)).

Fixpoint icbrt (bits : nat) (acc n : Z) : Z :=
  match bits with
  | O => acc
  | S b =>
      let acc' := acc + 2 ^ Z.of_nat b in
      icbrt b (if acc' * acc' * acc' <=? n then acc' else acc) n
  end.

Definition K : list Z :=
  Eval vm_compute in (λ p, w32 (icbrt 36 0 (Z.shiftl p 96))) <$> primes 64.

Definition H0 : list Z :=
  Eval vm_compute in (λ p, w32 (Z.sqrt (Z.shiftl p 64))) <$> primes 8.

(** The schedule is built backwards: the list holds the newest word first. *)
Fixpoint schedule (n : nat) (rw : list Z) : list Z :=
  match n with
  | O => rw
  | S n' =>
      let w i := nth i rw 0 in
      schedule n' (add32 (add32 (s1 (w 1%nat)) (w 6%nat)) (add32 (s0 (w 14%nat)) (w 15%nat)) :: rw)
  end.

Definition round (st : list Z) (kw : Z * Z) : list Z :=
  match st with
  | [a; b; c; d; e; f; g; h] =>
      let t1 := add32 (add32 (add32 h (S1 e)) (add32 (Ch e f g) kw.1)) kw.2 in
      let t2 := add32 (S0 a) (Maj a b c) in
      [add32 t1 t2; a; b; c; add32 d t1; e; f; g]
  | _ => st
  end.

Definition block (st : list Z) (ws : list Z) : list Z :=
  let w := rev (schedule 48 (rev ws)) in
  zip_with add32 st (foldl round st (zip K w)).

Fixpoint bytes_of (s : string) : list Z :=
  match s with
  | EmptyString => []
  | String c s' => Z.of_nat (nat_of_ascii c) :: bytes_of s'
  end.

Definition be_bytes (n : nat) (z : Z) : list Z :=
  (λ i, Z.land (Z.shiftr z (8 * Z.of_nat i)) 255) <$> rev (seq 0 n).

Definition pad (bs : list Z) : list Z :=
  let l := length bs in
  let zeros := Nat.modulo (64 + 56 - Nat.modulo (l + 1) 64) 64 in
  bs ++ [128] ++ replicate zeros 0 ++ be_bytes 8 (8 * Z.of_nat l).

Fixpoint words (bs : list Z) : list Z :=
  match bs with
  | a :: b :: c :: d :: r =>
      (Z.shiftl a 24 + Z.shiftl b 16 + Z.shiftl c 8 + d) :: words r
  | _ => []
  end.

Fixpoint blocks (n : nat) (ws : list Z) : list (list Z) :=
  match n with
  | O => []
  | S n' => take 16 ws :: blocks n' (drop 16 ws)
  end.

Definition Sum256 (s : string) : list Z :=
  let ws := words (pad (bytes_of s)) in
  foldl block H0 (blocks (Nat.div (length ws) 16) ws) ≫= be_bytes 4.

End Sha.

(** [hex.EncodeToString]. *)
Fixpoint EncodeToString (bs : list Z) : string :=
  match bs with
  | [] => ""
  | b :: r => hex_byte (Z.to_nat b mod 256) +:+ EncodeToString r
  end.

(** The FIPS 180-4 test vectors. *)
Example sha256_abc :
  EncodeToString (Sha.Sum256 "abc") =
  "ba7816bf8f01cfea414140de5dae2223b00361a396177a9cb410ff61f20015ad".
Proof. vm_compute. reflexivity. Qed.

Example sha256_two_blocks :
  EncodeToString (Sha.Sum256 "abcdbcdecdefdefgefghfghighijhijkijkljklmklmnlmnomnopnopq") =
  "248d6a61d20638b8e5c026930c3e6039a33ce45964ff2167f6ecedd419db06c1".
Proof. vm_compute. reflexivity. Qed.

Lemma length_hex bs : len (EncodeToString bs) = (2 * length bs)%nat.
Proof. induction bs; simpl; lia. Qed.

Lemma hex_digit_alnum n : (n < 16)%nat → is_alnum (hex_digit n) = true.
Proof. intros H. do 16 (destruct n; [reflexivity|]). lia. Qed.

Lemma hex_alnum bs : sall is_alnum (EncodeToString bs) = true.
Proof.
  induction bs as [|b bs IH]; [done|]. cbn [EncodeToString].
  rewrite sall_app, IH, andb_true_r. unfold hex_byte.
  set (n := (Z.to_nat b mod 256)%nat).
  assert (n < 256)%nat by (apply Nat.mod_upper_bound; lia).
  cbn [sall]. rewrite !hex_digit_alnum; [done| |].
  - apply Nat.mod_upper_bound; lia.
  - apply Nat.Div0.div_lt_upper_bound; lia.
Qed.

Lemma length_be_bytes n z : length (Sha.be_bytes n z) = n.
Proof. unfold Sha.be_bytes. by rewrite length_fmap, length_rev, length_seq. Qed.

Lemma length_round st kw : length (Sha.round st kw) = length st.
Proof. unfold Sha.round. by do 9 (destruct st as [|? st]; try done). Qed.

Lemma length_rounds l st : length (foldl Sha.round st l) = length st.
Proof. revert st. induction l; simpl; intros; [done|]. by rewrite IHl, length_round. Qed.

Lemma length_block st ws : length (Sha.block st ws) = length st.
Proof.
  unfold Sha.block. cbv zeta.
  rewrite length_zip_with, length_rounds. lia.
Qed.

Lemma length_blocks l st : length (foldl Sha.block st l) = length st.
Proof. revert st. induction l; simpl; intros; [done|]. by rewrite IHl, length_block. Qed.

Lemma length_words_bytes (l : list Z) : length (l ≫= Sha.be_bytes 4) = (4 * length l)%nat.
Proof.
  induction l; [done|]. rewrite bind_cons, length_app, length_be_bytes, IHl. simpl; lia.
Qed.

(** A digest has 32 bytes. *)
Lemma length_Sum256 s : length (Sha.Sum256 s) = 32%nat.
Proof.
  unfold Sha.Sum256. cbv zeta.
  by rewrite length_words_bytes, length_blocks.
Qed.
