(* ===== verification/Api.v ===== *)
(** * The API objects: [api/workspaces/v1] and the fields of the Kubernetes,
    k0rdent and Sveltos objects the operator reads or writes

    A field the operator never looks at is left out.  A Go pointer is an
    [option]; a Go map whose nilness the code tests is [option (gmap _ _)]. *)

From S2P Require Import Prelude GoString.

(** ** Time: nanoseconds, as Go's [time.Duration] *)
Definition Second : Z := 1000000000.
Definition Minute : Z := 60 * Second.

(** ** Values of [encoding/json]

    The operator writes integers only; a number it merely passes through is kept
    as its literal. *)
Inductive json :=
  | JNull
  | JBool (b : bool)
  | JNum (z : Z)
  | JFloat (lit : string)
  | JStr (s : string)
  | JArr (l : list json)
  | JObj (m : gmap string json).

(** The raw bytes of an [apiextensionsv1.JSON], by what [json.Unmarshal] makes
    of them. *)
Inductive RawJSON :=
  | RawEmpty
  | RawBad (err : string)
  | RawVal (v : json).

(** ** Quantities

    [resource.Quantity] is a decimal number with nothing smaller than a
    nano-unit, and a print format. *)
(** [FormatUnset] is the format of the zero [Quantity{}]. *)
Inductive QFormat := FormatUnset | DecimalExponent | BinarySI | DecimalSI.
Record Quantity := { q_nano : Z; q_Format : QFormat }.
Definition ResourceList := gmap string Quantity.
Definition zero_quantity : Quantity := {| q_nano := 0; q_Format := FormatUnset |}.

(** The methods of [resource.Quantity] the operator calls. *)
Class QuantityOps := {
  q_Value : Quantity → Z;
  q_MilliValue : Quantity → Z;
  q_Add : Quantity → Quantity → Quantity;
  q_Sub : Quantity → Quantity → Quantity;
  q_Cmp : Quantity → Quantity → comparison;
  q_IsZero : Quantity → bool;
  q_NewMilli : Z → QFormat → Quantity;
  q_String : Quantity → string
}.

(** ** Metadata *)
Definition StrMap := option (gmap string string).
Definition smget (m : StrMap) (k : string) : string := mget (default ∅ m) k.

Record ObjectMeta := {
  m_Name : string;
  m_Namespace : string;
  m_UID : string;
  m_Labels : StrMap;
  m_Annotations : StrMap;
  m_Finalizers : list string;
  m_OwnerUIDs : list string;
  m_DeletionTimestamp : option Z;
  m_CreationTimestamp : Z;
  m_Generation : Z
}.
#[export] Instance ObjectMeta_eq_dec : EqDecision ObjectMeta.
Proof. solve_decision. Defined.

Definition new_meta (name ns : string) (labels : StrMap) : ObjectMeta :=
  {| m_Name := name; m_Namespace := ns; m_UID := ""; m_Labels := labels; m_Annotations := None;
     m_Finalizers := []; m_OwnerUIDs := []; m_DeletionTimestamp := None;
     m_CreationTimestamp := 0; m_Generation := 0 |}.

Definition set_labels (l : StrMap) (m : ObjectMeta) : ObjectMeta :=
  {| m_Name := m_Name m; m_Namespace := m_Namespace m; m_UID := m_UID m; m_Labels := l;
     m_Annotations := m_Annotations m; m_Finalizers := m_Finalizers m; m_OwnerUIDs := m_OwnerUIDs m;
     m_DeletionTimestamp := m_DeletionTimestamp m; m_CreationTimestamp := m_CreationTimestamp m;
     m_Generation := m_Generation m |}.
Definition set_finalizers (f : list string) (m : ObjectMeta) : ObjectMeta :=
  {| m_Name := m_Name m; m_Namespace := m_Namespace m; m_UID := m_UID m; m_Labels := m_Labels m;
     m_Annotations := m_Annotations m; m_Finalizers := f; m_OwnerUIDs := m_OwnerUIDs m;
     m_DeletionTimestamp := m_DeletionTimestamp m; m_CreationTimestamp := m_CreationTimestamp m;
     m_Generation := m_Generation m |}.
Definition set_owners (o : list string) (m : ObjectMeta) : ObjectMeta :=
  {| m_Name := m_Name m; m_Namespace := m_Namespace m; m_UID := m_UID m; m_Labels := m_Labels m;
     m_Annotations := m_Annotations m; m_Finalizers := m_Finalizers m; m_OwnerUIDs := o;
     m_DeletionTimestamp := m_DeletionTimestamp m; m_CreationTimestamp := m_CreationTimestamp m;
     m_Generation := m_Generation m |}.

Definition set_annotations (a : StrMap) (m : ObjectMeta) : ObjectMeta :=
  {| m_Name := m_Name m; m_Namespace := m_Namespace m; m_UID := m_UID m; m_Labels := m_Labels m;
     m_Annotations := a; m_Finalizers := m_Finalizers m; m_OwnerUIDs := m_OwnerUIDs m;
     m_DeletionTimestamp := m_DeletionTimestamp m; m_CreationTimestamp := m_CreationTimestamp m;
     m_Generation := m_Generation m |}.

(** [obj.DeletionTimestamp.IsZero()] negated. *)
Definition deleting (m : ObjectMeta) : bool :=
  match m_DeletionTimestamp m with Some _ => true | None => false end.

Inductive ConditionStatus := CondTrue | CondFalse | CondUnknown.
#[export] Instance ConditionStatus_eq_dec : EqDecision ConditionStatus.
Proof. solve_decision. Defined.

Record Condition := {
  c_Type : string;
  c_Status : ConditionStatus;
  c_Reason : string;
  c_Message : string;
  c_ObservedGeneration : Z;
  c_LastTransitionTime : Z
}.
#[export] Instance Condition_eq_dec : EqDecision Condition.
Proof. solve_decision. Defined.

(** ** Core objects *)
Record Node := {
  n_Name : string;
  n_Labels : gmap string string;
  n_Unschedulable : bool;
  n_Conditions : list (string * string);
  n_Allocatable : ResourceList
}.
Record Pod := {
  p_NodeName : string;
  p_Phase : string;
  p_Containers : list ResourceList
}.
Record Namespace := { ns_meta : ObjectMeta }.
Record Secret := { sec_meta : ObjectMeta; sec_Data : gmap string string }.
Record Event := { ev_LastTimestamp : Z; ev_Type : string; ev_Reason : string; ev_Message : string }.

Record ServicePort := {
  sp_Name : string;
  sp_Port : Z;
  sp_Protocol : string;
  sp_TargetPort : string;
  sp_NodePort : Z
}.
#[export] Instance ServicePort_eq_dec : EqDecision ServicePort.
Proof. solve_decision. Defined.
Record LoadBalancerIngress := { ing_IP : string; ing_Hostname : string }.
Record Service := {
  svc_meta : ObjectMeta;
  svc_Ports : list ServicePort;
  svc_Type : string;
  svc_ClusterIP : string;
  svc_Ingress : list LoadBalancerIngress
}.
Record ConfigMap := { cm_meta : ObjectMeta; cm_Data : StrMap }.
Record PersistentVolumeClaim := { pvc_meta : ObjectMeta }.

(** ** Gateway API objects *)
Record Listener := { l_Name : string; l_Hostname : option string; l_Port : Z; l_Protocol : string }.
Record Gateway := { gw_meta : ObjectMeta; gw_Listeners : list Listener; gw_Conditions : list Condition }.
Record ParentReference := {
  pref_Name : string;
  pref_Namespace : option string;
  pref_SectionName : option string
}.
#[export] Instance ParentReference_eq_dec : EqDecision ParentReference.
Proof. solve_decision. Defined.
Record BackendRef := { br_Name : string; br_Port : option Z }.
#[export] Instance BackendRef_eq_dec : EqDecision BackendRef.
Proof. solve_decision. Defined.
Record RouteParentStatus := { rps_ParentRef : ParentReference; rps_Conditions : list Condition }.
(** A rule is its list of backends. *)
Record HTTPRouteSpec := {
  hs_ParentRefs : list ParentReference;
  hs_Hostnames : list string;
  hs_Rules : list (list BackendRef)
}.
#[export] Instance HTTPRouteSpec_eq_dec : EqDecision HTTPRouteSpec.
Proof. solve_decision. Defined.
Record HTTPRoute := { hr_meta : ObjectMeta; hr_Spec : HTTPRouteSpec; hr_Parents : list RouteParentStatus }.
Record TCPRoute := {
  tr_meta : ObjectMeta;
  tr_ParentRefs : list ParentReference;
  tr_Rules : list (list BackendRef);
  tr_Parents : list RouteParentStatus
}.

(** ** k0rdent objects *)
Inductive ServiceStateKind := StateDeployed | StateFailed | StateOther (s : string).
#[export] Instance ServiceStateKind_eq_dec : EqDecision ServiceStateKind.
Proof. solve_decision. Defined.

Record ServiceState := {
  sv_Name : string;
  sv_Namespace : string;
  sv_Template : string;
  sv_State : ServiceStateKind;
  sv_FailureMessage : string
}.
Record HelmOptions := { h_Wait : bool; h_Timeout : Z; h_CreateNamespace : bool }.
Record ServiceWithValues := {
  sw_Name : string;
  sw_Namespace : string;
  sw_Template : string;
  sw_Values : RawJSON;
  sw_HelmOptions : HelmOptions
}.
Record ServiceSet := {
  ss_meta : ObjectMeta;
  ss_Cluster : string;
  ss_Provider : string;
  ss_Services : list ServiceWithValues;
  ss_Deployed : bool;
  ss_Status : list ServiceState
}.
Record ServiceRef := { sr_Namespace : string; sr_Template : string }.
#[export] Instance ServiceRef_eq_dec : EqDecision ServiceRef.
Proof. solve_decision. Defined.
(** Fields nobody reads but that are compared or kept as a whole, the nilness of
    the slices included, are one opaque value: [svs_Rest], [cds_Rest]. *)
Record ServiceSpec := { svs_Services : list ServiceRef; svs_Rest : string }.
#[export] Instance ServiceSpec_eq_dec : EqDecision ServiceSpec.
Proof. solve_decision. Defined.
Record CDSpec := {
  cds_Config : option RawJSON;
  cds_Credential : string;
  cds_Template : string;
  cds_ServiceSpec : ServiceSpec;
  cds_PropagateCredentials : bool;
  cds_Rest : string
}.
Record ClusterDeployment := {
  cd_APIVersion : string;
  cd_Kind : string;
  cd_meta : ObjectMeta;
  cd_Spec : CDSpec;
  cd_StatusServices : list ServiceState;
  cd_Conditions : list Condition
}.
Definition cd_SpecServices (cd : ClusterDeployment) : list ServiceRef :=
  svs_Services (cds_ServiceSpec (cd_Spec cd)).

(** The Cluster API's Cluster: its [spec.controlPlaneEndpoint]. *)
Record Cluster := { cl_meta : ObjectMeta; cl_Host : string; cl_Port : Z }.
Record ServiceTemplate := {
  st_meta : ObjectMeta;
  st_Valid : bool;
  st_ValidationError : string
}.

(** ** [api/workspaces/v1/workspaceclass_types.go] *)
Definition GPUVendor := string.
Definition GPUVendorNVIDIA : GPUVendor := "NVIDIA".
Definition GPUVendorAMD : GPUVendor := "AMD".

Record ResourceRequirements := {
  CPU : option Quantity;
  Memory : option Quantity;
  Storage : option Quantity;
  GPUCount : option Z;
  GPUVendor_ : option GPUVendor;
  GPUType : option string;
  GPUNodeSelector : StrMap
}.
Record WorkspaceResourceSpec := { Replicas : option Z; PerReplica : ResourceRequirements }.

Record ServiceTemplateRef := { t_Name : string; t_Namespace : string; t_VersionConstraint : string }.

Inductive RouteProtocol := HTTP | TCP | SSH.
#[export] Instance RouteProtocol_eq_dec : EqDecision RouteProtocol.
Proof. solve_decision. Defined.

Record AccessEndpoint := {
  ep_Name : string;
  ep_Protocol : RouteProtocol;
  ep_Port : Z;
  ep_ServiceName : string
}.
Definition InjectionPath := string.
Record ResourceInjectionMap := {
  im_Replicas : list InjectionPath;
  im_CPU : list InjectionPath;
  im_Memory : list InjectionPath;
  im_Storage : list InjectionPath;
  im_GPUCount : list InjectionPath;
  im_GPUVendor : list InjectionPath;
  im_GPUType : list InjectionPath
}.
Record PrerequisiteSpec := {
  pr_ServiceTemplate : ServiceTemplateRef;
  pr_Namespace : string;
  pr_Values : option RawJSON
}.
Record WorkspaceClassSpec := {
  wsc_ServiceTemplate : ServiceTemplateRef;
  wsc_DefaultResources : WorkspaceResourceSpec;
  wsc_Prerequisites : list PrerequisiteSpec;
  wsc_AccessEndpoints : list AccessEndpoint;
  wsc_DeployTimeout : option Z;
  wsc_PrerequisiteDeployTimeout : option Z;
  wsc_DefaultValues : option RawJSON;
  wsc_ResourceInjection : option ResourceInjectionMap
}.
Record WorkspaceClass := {
  wsc_meta : ObjectMeta;
  wsc_Spec : WorkspaceClassSpec;
  wsc_Valid : bool;
  wsc_ValidationError : string;
  wsc_ObservedGeneration : Z
}.

(** ** [api/workspaces/v1/workspacedeployment_types.go] *)
Definition WorkspaceDeploymentKind : string := "WorkspaceDeployment".
Definition WorkspaceDeploymentFinalizer : string := "workspaces.exalsius.ai/deployment".

(** [PhaseUnset] is the empty string a new object carries. *)
Inductive Phase :=
  | PhaseUnset
  | PhasePending
  | PhaseInstallingPrerequisites
  | PhaseWaiting
  | PhaseDeploying
  | PhaseRunning
  | PhaseFailed
  | PhaseDeleting.
#[export] Instance Phase_eq_dec : EqDecision Phase.
Proof. solve_decision. Defined.

Inductive PrerequisitePhase := PrereqPending | PrereqInstalling | PrereqSatisfied | PrereqFailed.
#[export] Instance PrerequisitePhase_eq_dec : EqDecision PrerequisitePhase.
Proof. solve_decision. Defined.
Inductive PrerequisiteSource := SourceUnset | SourceWorkspace | SourceColony.
#[export] Instance PrerequisiteSource_eq_dec : EqDecision PrerequisiteSource.
Proof. solve_decision. Defined.

Record ResourceTotals := {
  rt_CPU : option Quantity;
  rt_Memory : option Quantity;
  rt_Storage : option Quantity;
  rt_GPUCount : option Z;
  rt_GPUVendor : option GPUVendor;
  rt_GPUType : option string
}.
Record FeasibilityStatus := {
  fs_Fits : bool;
  fs_EvaluatedAt : Z;
  fs_Demanded : ResourceTotals;
  fs_Available : ResourceTotals;
  fs_Missing : option ResourceTotals;
  fs_Message : string
}.
Record PrerequisiteStatus := {
  ps_Name : string;
  ps_Phase : option PrerequisitePhase;
  ps_Source : PrerequisiteSource;
  ps_Namespace : string;
  ps_Message : string
}.
Record ServiceStateSummary := {
  sss_Name : string;
  sss_State : ServiceStateKind;
  sss_FailureMessage : string
}.
Record ServiceSetStatusSummary := {
  sum_Name : string;
  sum_Deployed : bool;
  sum_Services : list ServiceStateSummary
}.
Record EventSummary := { es_LastSeen : Z; es_Type : string; es_Reason : string; es_Message : string }.
Record FailureContext := {
  PhaseWhenFailed : Phase;
  fc_Reason : string;
  fc_ServiceSetStatus : option ServiceSetStatusSummary;
  fc_RecentEvents : list EventSummary
}.
Record AccessEntry := {
  ae_Name : string;
  ae_Protocol : RouteProtocol;
  ae_URL : string;
  ae_Ready : bool;
  ae_Message : string
}.
#[export] Instance AccessEntry_eq_dec : EqDecision AccessEntry.
Proof. solve_decision. Defined.

Record ClusterDeploymentRef := { r_Name : string; r_Namespace : string }.
#[export] Instance ClusterDeploymentRef_eq_dec : EqDecision ClusterDeploymentRef.
Proof. solve_decision. Defined.

Record WorkspaceDeploymentSpec := {
  WorkspaceClassRef : string;
  ClusterDeploymentRef_ : ClusterDeploymentRef;
  Resources : option WorkspaceResourceSpec;
  Values : option RawJSON;
  Suspend : bool
}.
Record WorkspaceDeploymentStatus := {
  s_Phase : Phase;
  s_Conditions : list Condition;
  s_ObservedGeneration : Z;
  s_ServiceEntryName : string;
  s_ResolvedResources : option WorkspaceResourceSpec;
  s_Prerequisites : list PrerequisiteStatus;
  s_Feasibility : option FeasibilityStatus;
  s_Access : list AccessEntry;
  s_FailureContext : option FailureContext;
  s_Message : string
}.
Record WorkspaceDeployment := {
  w_meta : ObjectMeta;
  w_Spec : WorkspaceDeploymentSpec;
  w_Status : WorkspaceDeploymentStatus
}.

(** ** Assignments to the fields of an object in hand *)
Definition set_Phase (p : Phase) (s : WorkspaceDeploymentStatus) := {|
  s_Phase := p; s_Conditions := s_Conditions s; s_ObservedGeneration := s_ObservedGeneration s;
  s_ServiceEntryName := s_ServiceEntryName s; s_ResolvedResources := s_ResolvedResources s;
  s_Prerequisites := s_Prerequisites s; s_Feasibility := s_Feasibility s; s_Access := s_Access s;
  s_FailureContext := s_FailureContext s; s_Message := s_Message s |}.
Definition set_Conditions (c : list Condition) (s : WorkspaceDeploymentStatus) := {|
  s_Phase := s_Phase s; s_Conditions := c; s_ObservedGeneration := s_ObservedGeneration s;
  s_ServiceEntryName := s_ServiceEntryName s; s_ResolvedResources := s_ResolvedResources s;
  s_Prerequisites := s_Prerequisites s; s_Feasibility := s_Feasibility s; s_Access := s_Access s;
  s_FailureContext := s_FailureContext s; s_Message := s_Message s |}.
Definition set_ObservedGeneration (g : Z) (s : WorkspaceDeploymentStatus) := {|
  s_Phase := s_Phase s; s_Conditions := s_Conditions s; s_ObservedGeneration := g;
  s_ServiceEntryName := s_ServiceEntryName s; s_ResolvedResources := s_ResolvedResources s;
  s_Prerequisites := s_Prerequisites s; s_Feasibility := s_Feasibility s; s_Access := s_Access s;
  s_FailureContext := s_FailureContext s; s_Message := s_Message s |}.
Definition set_ServiceEntryName (n : string) (s : WorkspaceDeploymentStatus) := {|
  s_Phase := s_Phase s; s_Conditions := s_Conditions s; s_ObservedGeneration := s_ObservedGeneration s;
  s_ServiceEntryName := n; s_ResolvedResources := s_ResolvedResources s;
  s_Prerequisites := s_Prerequisites s; s_Feasibility := s_Feasibility s; s_Access := s_Access s;
  s_FailureContext := s_FailureContext s; s_Message := s_Message s |}.
Definition set_ResolvedResources (r : option WorkspaceResourceSpec) (s : WorkspaceDeploymentStatus) := {|
  s_Phase := s_Phase s; s_Conditions := s_Conditions s; s_ObservedGeneration := s_ObservedGeneration s;
  s_ServiceEntryName := s_ServiceEntryName s; s_ResolvedResources := r;
  s_Prerequisites := s_Prerequisites s; s_Feasibility := s_Feasibility s; s_Access := s_Access s;
  s_FailureContext := s_FailureContext s; s_Message := s_Message s |}.
Definition set_Prerequisites (p : list PrerequisiteStatus) (s : WorkspaceDeploymentStatus) := {|
  s_Phase := s_Phase s; s_Conditions := s_Conditions s; s_ObservedGeneration := s_ObservedGeneration s;
  s_ServiceEntryName := s_ServiceEntryName s; s_ResolvedResources := s_ResolvedResources s;
  s_Prerequisites := p; s_Feasibility := s_Feasibility s; s_Access := s_Access s;
  s_FailureContext := s_FailureContext s; s_Message := s_Message s |}.
Definition set_Feasibility (f : option FeasibilityStatus) (s : WorkspaceDeploymentStatus) := {|
  s_Phase := s_Phase s; s_Conditions := s_Conditions s; s_ObservedGeneration := s_ObservedGeneration s;
  s_ServiceEntryName := s_ServiceEntryName s; s_ResolvedResources := s_ResolvedResources s;
  s_Prerequisites := s_Prerequisites s; s_Feasibility := f; s_Access := s_Access s;
  s_FailureContext := s_FailureContext s; s_Message := s_Message s |}.
Definition set_Access (a : list AccessEntry) (s : WorkspaceDeploymentStatus) := {|
  s_Phase := s_Phase s; s_Conditions := s_Conditions s; s_ObservedGeneration := s_ObservedGeneration s;
  s_ServiceEntryName := s_ServiceEntryName s; s_ResolvedResources := s_ResolvedResources s;
  s_Prerequisites := s_Prerequisites s; s_Feasibility := s_Feasibility s; s_Access := a;
  s_FailureContext := s_FailureContext s; s_Message := s_Message s |}.
Definition set_FailureContext (f : option FailureContext) (s : WorkspaceDeploymentStatus) := {|
  s_Phase := s_Phase s; s_Conditions := s_Conditions s; s_ObservedGeneration := s_ObservedGeneration s;
  s_ServiceEntryName := s_ServiceEntryName s; s_ResolvedResources := s_ResolvedResources s;
  s_Prerequisites := s_Prerequisites s; s_Feasibility := s_Feasibility s; s_Access := s_Access s;
  s_FailureContext := f; s_Message := s_Message s |}.
Definition set_Message (m : string) (s : WorkspaceDeploymentStatus) := {|
  s_Phase := s_Phase s; s_Conditions := s_Conditions s; s_ObservedGeneration := s_ObservedGeneration s;
  s_ServiceEntryName := s_ServiceEntryName s; s_ResolvedResources := s_ResolvedResources s;
  s_Prerequisites := s_Prerequisites s; s_Feasibility := s_Feasibility s; s_Access := s_Access s;
  s_FailureContext := s_FailureContext s; s_Message := m |}.

(** Mutation of [wsd.Status] and of [wsd]'s metadata. *)
Definition upd_status (f : WorkspaceDeploymentStatus → WorkspaceDeploymentStatus)
    (w : WorkspaceDeployment) : WorkspaceDeployment :=
  {| w_meta := w_meta w; w_Spec := w_Spec w; w_Status := f (w_Status w) |}.
Definition upd_meta (f : ObjectMeta → ObjectMeta) (w : WorkspaceDeployment) : WorkspaceDeployment :=
  {| w_meta := f (w_meta w); w_Spec := w_Spec w; w_Status := w_Status w |}.

Abbreviation w_Name w := (m_Name (w_meta w)).
Abbreviation w_Namespace w := (m_Namespace (w_meta w)).
Abbreviation w_UID w := (m_UID (w_meta w)).
Abbreviation w_Generation w := (m_Generation (w_meta w)).
Abbreviation w_CDRef w := (ClusterDeploymentRef_ (w_Spec w)).
Abbreviation w_Phase w := (s_Phase (w_Status w)).

(** [wsd.Status.Phase = p; wsd.Status.Message = m]. *)
Definition with_phase_msg (p : Phase) (m : string) (w : WorkspaceDeployment) : WorkspaceDeployment :=
  upd_status (λ s, set_Message m (set_Phase p s)) w.

(** [controllerutil.ContainsFinalizer], [AddFinalizer] and [RemoveFinalizer]
    on the finalizer list. *)
Definition ContainsFinalizer (m : ObjectMeta) (f : string) : bool :=
  bool_decide (f ∈ m_Finalizers m).
Definition AddFinalizer (f : string) (m : ObjectMeta) : ObjectMeta :=
  if ContainsFinalizer m f then m else set_finalizers (m_Finalizers m ++ [f]) m.
Definition RemoveFinalizer (f : string) (m : ObjectMeta) : ObjectMeta :=
  set_finalizers (filter (λ g, g ≠ f) (m_Finalizers m)) m.

(** ** Objects for concrete runs *)
Definition example_wsd (ns name cd : string) : WorkspaceDeployment :=
  {| w_meta := new_meta name ns None;
     w_Spec := {| WorkspaceClassRef := "jupyter"; ClusterDeploymentRef_ := {| r_Name := cd; r_Namespace := ns |};
                  Resources := None; Values := None; Suspend := false |};
     w_Status := {| s_Phase := PhaseUnset; s_Conditions := []; s_ObservedGeneration := 0;
                    s_ServiceEntryName := ""; s_ResolvedResources := None; s_Prerequisites := [];
                    s_Feasibility := None; s_Access := []; s_FailureContext := None; s_Message := "" |} |}.
Definition example_template (name : string) : ServiceTemplateRef :=
  {| t_Name := name; t_Namespace := ""; t_VersionConstraint := "" |}.
Definition no_resources : WorkspaceResourceSpec :=
  {| Replicas := None;
     PerReplica := {| CPU := None; Memory := None; Storage := None; GPUCount := None; GPUVendor_ := None;
                      GPUType := None; GPUNodeSelector := None |} |}.
Definition example_class (ps : list PrerequisiteSpec) : WorkspaceClass :=
  {| wsc_meta := new_meta "jupyter" "" None;
     wsc_Spec := {| wsc_ServiceTemplate := example_template "jupyterhub-1-0-0"; wsc_DefaultResources := no_resources;
                    wsc_Prerequisites := ps; wsc_AccessEndpoints := []; wsc_DeployTimeout := None;
                    wsc_PrerequisiteDeployTimeout := None; wsc_DefaultValues := None; wsc_ResourceInjection := None |};
     wsc_Valid := true; wsc_ValidationError := ""; wsc_ObservedGeneration := 1 |}.
Definition empty_cdspec : CDSpec :=
  {| cds_Config := None; cds_Credential := ""; cds_Template := "";
     cds_ServiceSpec := {| svs_Services := []; svs_Rest := "" |}; cds_PropagateCredentials := false;
     cds_Rest := "" |}.
Definition example_cd_with (labels : StrMap) (name ns : string) : ClusterDeployment :=
  {| cd_APIVersion := ""; cd_Kind := ""; cd_meta := new_meta name ns labels; cd_Spec := empty_cdspec;
     cd_StatusServices := []; cd_Conditions := [] |}.
Definition example_cd : string → string → ClusterDeployment := example_cd_with None.
