(* ===== verification/InfraApi.v ===== *)
(** * The infrastructure API: [api/infra/v1/colony_types.go]

    A Colony lists clusters; its status references the ClusterDeployments made for
    them.  References in a status are never nil: the API server drops null items. *)

From S2P Require Import Prelude GoString Api.

(** [runtime.RawExtension]: its raw bytes. *)
Record ColonyCluster := {
  cc_ClusterName : string;
  cc_ClusterDeploymentSpec : option string;
  cc_ClusterLabels : StrMap;
  cc_ClusterAnnotations : StrMap
}.
Record ColonySpec := { ColonyClusters : list ColonyCluster }.

Record ObjectReference := {
  or_APIVersion : string;
  or_Kind : string;
  or_Namespace : string;
  or_Name : string
}.
#[export] Instance ObjectReference_eq_dec : EqDecision ObjectReference.
Proof. solve_decision. Defined.

Record GPUOffering := {
  go_Model : string;
  go_Selector : StrMap;
  go_Vendor : string;
  go_ResourceName : string;
  go_Total : Z;
  go_Nodes : Z;
  go_Labels : StrMap
}.
Record ClusterGPUInventory := { gi_LastUpdated : Z; gi_Offerings : list GPUOffering }.

Record ColonyStatus := {
  cs_Phase : string;
  cs_Conditions : list Condition;
  cs_ClusterDeploymentRefs : list ObjectReference;
  cs_TotalClusters : Z;
  cs_ReadyClusters : Z;
  cs_GPUInventory : gmap string ClusterGPUInventory
}.
Record Colony := { col_meta : ObjectMeta; col_Spec : ColonySpec; col_Status : ColonyStatus }.

(** Assignments to a colony's status and metadata. *)
Definition upd_col_status (f : ColonyStatus → ColonyStatus) (c : Colony) : Colony :=
  {| col_meta := col_meta c; col_Spec := col_Spec c; col_Status := f (col_Status c) |}.
Definition upd_col_meta (f : ObjectMeta → ObjectMeta) (c : Colony) : Colony :=
  {| col_meta := f (col_meta c); col_Spec := col_Spec c; col_Status := col_Status c |}.
Definition set_col_Phase (p : string) (s : ColonyStatus) : ColonyStatus :=
  {| cs_Phase := p; cs_Conditions := cs_Conditions s; cs_ClusterDeploymentRefs := cs_ClusterDeploymentRefs s;
     cs_TotalClusters := cs_TotalClusters s; cs_ReadyClusters := cs_ReadyClusters s;
     cs_GPUInventory := cs_GPUInventory s |}.
Definition set_ClusterDeploymentRefs (l : list ObjectReference) (s : ColonyStatus) : ColonyStatus :=
  {| cs_Phase := cs_Phase s; cs_Conditions := cs_Conditions s; cs_ClusterDeploymentRefs := l;
     cs_TotalClusters := cs_TotalClusters s; cs_ReadyClusters := cs_ReadyClusters s;
     cs_GPUInventory := cs_GPUInventory s |}.
Definition set_GPUInventory (i : gmap string ClusterGPUInventory) (s : ColonyStatus) : ColonyStatus :=
  {| cs_Phase := cs_Phase s; cs_Conditions := cs_Conditions s; cs_ClusterDeploymentRefs := cs_ClusterDeploymentRefs s;
     cs_TotalClusters := cs_TotalClusters s; cs_ReadyClusters := cs_ReadyClusters s; cs_GPUInventory := i |}.

Abbreviation col_Name c := (m_Name (col_meta c)).
Abbreviation col_Namespace c := (m_Namespace (col_meta c)).
Abbreviation col_Refs c := (cs_ClusterDeploymentRefs (col_Status c)).
