(* ===== verification/Json.v ===== *)
(** * Equality of decoded JSON values

    [jsonConfigsEqual] of [infra/clusterdeployment/clusterdeployment.go] decodes two
    documents into [interface{}] and compares with [reflect.DeepEqual]: numbers are
    float64, so literals are compared after rounding. *)

From Stdlib Require Import Ascii Wf_nat.
From S2P Require Import Prelude GoString Api.

(** ** Literals as float64: a mantissa of at most 53 bits and a binary exponent *)
Fixpoint scan_digits (s : string) (acc count : Z) : Z * Z * string :=
  match s with
  | String c s' =>
      if is_digit c then scan_digits s' (10 * acc + (Z.of_nat (Ascii.nat_of_ascii c) - 48))%Z (count + 1)%Z
      else (acc, count, s)
  | EmptyString => (acc, count, s)
  end.
Definition scan_sign (s : string) : bool * string :=
  match s with
  | String "-"%char s' => (true, s')
  | String "+"%char s' => (false, s')
  | _ => (false, s)
  end.
Definition scan_exponent (s : string) : Z :=
  match s with
  | String c s' =>
      if bdec (c = "e"%char) || bdec (c = "E"%char) then
        let '(neg, s') := scan_sign s' in
        let '(e, _, _) := scan_digits s' 0 0 in
        if neg : bool then (- e)%Z else e
      else 0%Z
  | EmptyString => 0%Z
  end.
(** A literal is [(-1)^sign * m * 10^e]. *)
Definition decimal (lit : string) : bool * Z * Z :=
  let '(neg, s) := scan_sign lit in
  let '(int, _, s) := scan_digits s 0 0 in
  let '(m, k, s) := match s with String "."%char s' => scan_digits s' int 0 | _ => (int, 0%Z, s) end in
  (neg, m, (scan_exponent s - k)%Z).

(** [n / d] to the nearest integer, ties to even. *)
Definition round_half_even (n d : Z) : Z :=
  let q := (n / d)%Z in
  match (2 * (n mod d) ?= d)%Z with
  | Lt => q
  | Eq => if Z.even q then q else (q + 1)%Z
  | Gt => (q + 1)%Z
  end.
Definition float64 (sign : bool) (m e : Z) : Z * Z :=
  if bdec (m = 0%Z) then (0, 0)%Z
  else
    let num := (m * 10 ^ Z.max e 0)%Z in
    let den := (10 ^ Z.max (- e) 0)%Z in
    let q := (Z.log2 num - Z.log2 den)%Z in
    let x := if bdec (num * 2 ^ Z.max (- q) 0 < den * 2 ^ Z.max q 0)%Z then (q - 1)%Z else q in
    let b := Z.max (x - 52) (-1074) in
    let r := round_half_even (num * 2 ^ Z.max (- b) 0) (den * 2 ^ Z.max b 0) in
    let '(r, b) := if bdec (r = 2 ^ 53)%Z then (2 ^ 52, b + 1)%Z else (r, b) in
    if bdec (r = 0%Z) then (0, 0)%Z else ((if sign then - r else r)%Z, b).

Definition number (v : json) : option (Z * Z) :=
  match v with
  | JNum z => Some (float64 (bdec (z < 0)%Z) (Z.abs z) 0)
  | JFloat lit => let '(neg, m, e) := decimal lit in Some (float64 neg m e)
  | _ => None
  end.

Example same_number : number (JFloat "1.50e1") = number (JNum 15).
Proof. vm_compute. reflexivity. Qed.
Example rounded_number : number (JNum (2 ^ 53 + 1)) = number (JNum (2 ^ 53)).
Proof. vm_compute. reflexivity. Qed.
Example tenth : number (JFloat "0.1") = Some (7205759403792794, -56)%Z.
Proof. vm_compute. reflexivity. Qed.

(** ** Deep equality *)
Fixpoint json_eqb (a b : json) : bool :=
  match a, b with
  | JNull, JNull => true
  | JBool x, JBool y => Bool.eqb x y
  | (JNum _ | JFloat _), (JNum _ | JFloat _) => bdec (number a = number b)
  | JStr x, JStr y => bdec (x = y)
  | JArr l, JArr l' =>
      (fix all2 l l' := match l, l' with
                        | [], [] => true
                        | x :: l, y :: l' => json_eqb x y && all2 l l'
                        | _, _ => false
                        end) l l'
  | JObj m, JObj m' =>
      bdec (merge (λ x y, match x, y with
                          | Some v, Some w => if json_eqb v w then None else Some tt
                          | None, None => None
                          | _, _ => Some tt
                          end) m m' = ∅)
  | _, _ => false
  end.

(** [a], [b]: [*apiextv1.JSON]; undecodable documents equal nothing. *)
Definition jsonConfigsEqual (a b : option RawJSON) : bool :=
  match a, b with
  | None, None => true
  | Some (RawVal v), Some (RawVal w) => json_eqb v w
  | _, _ => false
  end.

(** ** It is an equivalence on decodable documents *)
Fixpoint json_size (v : json) : nat :=
  match v with
  | JArr l => S (foldr (λ x n, json_size x + n)%nat 0%nat l)
  | JObj m => S (map_fold (λ _ x n, json_size x + n)%nat 0%nat m)
  | _ => 1
  end.
Lemma size_of_element l x : x ∈ l → (json_size x < json_size (JArr l))%nat.
Proof.
  simpl. induction l as [|y l IH]; [by intros ?%not_elem_of_nil|].
  intros [-> | Hx]%elem_of_cons; simpl; [lia|]. apply IH in Hx. lia.
Qed.
Lemma size_of_entry m k x : m !! k = Some x → (json_size x < json_size (JObj m))%nat.
Proof.
  intros Hk. simpl. rewrite (map_fold_delete_L (λ _ x n, json_size x + n)%nat 0%nat k x m); [lia|intros; lia|done].
Qed.

(** Two values compare equal along their structure. *)
Inductive json_sim : json → json → Prop :=
  | sim_null : json_sim JNull JNull
  | sim_bool b : json_sim (JBool b) (JBool b)
  | sim_number a b n : number a = Some n → number b = Some n → json_sim a b
  | sim_str s : json_sim (JStr s) (JStr s)
  | sim_arr l l' : Forall2 json_sim l l' → json_sim (JArr l) (JArr l')
  | sim_obj m m' :
      (∀ k, is_Some (m !! k) ↔ is_Some (m' !! k)) →
      (∀ k x y, m !! k = Some x → m' !! k = Some y → json_sim x y) → json_sim (JObj m) (JObj m').

Lemma number_int z : is_Some (number (JNum z)).
Proof. by eexists. Qed.
Lemma number_float lit : is_Some (number (JFloat lit)).
Proof. simpl. destruct (decimal lit) as [[neg m] e]. by eexists. Qed.
Lemma same_number_sim a b :
  is_Some (number a) → is_Some (number b) → bdec (number a = number b) = true ↔ json_sim a b.
Proof.
  intros [n Ha] [n' Hb]. rewrite bool_decide_eq_true. split.
  - intros He. apply (sim_number _ _ n); congruence.
  - intros Hs. inversion Hs; subst; try done; congruence.
Qed.
Lemma json_eqb_sim a : ∀ b, json_eqb a b = true ↔ json_sim a b.
Proof.
  remember (json_size a) as n eqn:Hn. revert a Hn. induction (lt_wf n) as [n _ IH]. intros a -> b.
  destruct a as [|x|z|lit|s|l|m], b as [|y|z'|lit'|s'|l'|m']; cbn [json_eqb];
    try (split; [done|by intros Hs; inversion Hs; subst; simplify_eq/=]);
    try (apply same_number_sim; [apply number_int || apply number_float|apply number_float || apply number_int]).
  - split; [constructor|done].
  - rewrite Bool.eqb_true_iff. split; [intros ->; constructor|by intros Hs; inversion Hs; subst].
  - rewrite bool_decide_eq_true. split; [intros ->; constructor|by intros Hs; inversion Hs; subst].
  - trans (Forall2 json_sim l l'); [|split; [by constructor|by intros Hs; inversion Hs]].
    assert (Hall : ∀ x, x ∈ l → ∀ y, json_eqb x y = true ↔ json_sim x y).
    { intros x Hx. by eapply IH; [apply size_of_element|]. }
    clear IH. revert l' Hall. induction l as [|x l IHl]; intros [|y l'] Hall.
    1-3: by split; [done|intros Hs; inversion Hs].
    rewrite andb_true_iff, Forall2_cons, (Hall x) by set_solver. rewrite (IHl l'); [done|set_solver].
  - rewrite bool_decide_eq_true, map_eq_iff. setoid_rewrite lookup_merge. setoid_rewrite lookup_empty.
    assert (Hk : ∀ k x y, m !! k = Some x → json_eqb x y = true ↔ json_sim x y).
    { intros k x y Hx. by eapply IH; [eapply size_of_entry|]. }
    split.
    + intros He. constructor.
      * intros k. specialize (He k). destruct (m !! k), (m' !! k); simpl in He; try done; by rewrite !is_Some_alt.
      * intros k x y E1 E2. specialize (He k). rewrite E1, E2 in He. simpl in He. apply (Hk k x y E1).
        by destruct (json_eqb x y).
    + intros Hs k. inversion Hs as [| | | | |? ? Hd He]; subst; [done|]. specialize (Hd k).
      destruct (m !! k) as [x|] eqn:E1, (m' !! k) as [y|] eqn:E2; simpl; try done.
      * specialize (He k x y E1 E2). apply (Hk k x y E1) in He. by rewrite He.
      * by destruct (proj1 Hd (mk_is_Some _ _ eq_refl)).
      * by destruct (proj2 Hd (mk_is_Some _ _ eq_refl)).
Qed.

Lemma json_sim_refl a : json_sim a a.
Proof.
  induction a as [a IH] using (well_founded_induction (Wf_nat.well_founded_ltof _ json_size)). unfold ltof in IH.
  destruct a as [|b|z|lit|s|l|m]; try constructor; try done.
  - destruct (number_int z) as [n Hn]. by apply (sim_number _ _ n).
  - destruct (number_float lit) as [n Hn]. by apply (sim_number _ _ n).
  - apply Forall_Forall2_diag, Forall_forall. intros x Hx. apply IH. by apply size_of_element.
  - intros k x y Hx Hy. simplify_eq. apply IH. by eapply size_of_entry.
Qed.
Lemma json_sim_sym a : ∀ b, json_sim a b → json_sim b a.
Proof.
  induction a as [a IH] using (well_founded_induction (Wf_nat.well_founded_ltof _ json_size)). unfold ltof in IH.
  intros b Hs. inversion Hs as [|b'|? ? n Ha Hb|s|l l' Hl|m m' Hd Hm]; subst; try constructor.
  - by apply (sim_number _ _ n).
  - clear Hs. induction Hl as [|x y l l' Hxy Hl IHl]; constructor; [by apply IH; [apply size_of_element; left|]|].
    apply IHl. intros v Hv. apply IH. simpl in *. lia.
  - intros k. by rewrite Hd.
  - intros k x y Hx Hy. apply IH; [by eapply size_of_entry|by eapply Hm].
Qed.
Lemma json_sim_trans a : ∀ b c, json_sim a b → json_sim b c → json_sim a c.
Proof.
  induction a as [a IH] using (well_founded_induction (Wf_nat.well_founded_ltof _ json_size)). unfold ltof in IH.
  intros b c Hs. inversion Hs as [|b'|? ? n Ha Hb|s|l l' Hl|m m' Hd Hm]; subst; try done.
  - intros Hc. inversion Hc; subst; simplify_eq/=; try done. by apply (sim_number _ _ n); [|congruence].
  - intros Hc. inversion Hc as [| |? ? n Hn| |? l2 Hl2|]; subst; [done|]. constructor. clear Hs Hc. revert l2 Hl2.
    induction Hl as [|x y l l' Hxy Hl IHl]; intros [|z l2] Hl2; try (by inversion Hl2); constructor.
    + apply Forall2_cons in Hl2 as [Hyz _]. eapply IH; [by apply size_of_element; left|done|done].
    + apply Forall2_cons in Hl2 as [_ Hl2]. apply IHl; [|done]. intros v Hv. apply IH. simpl in *. lia.
  - intros Hc. inversion Hc as [| |? ? n Hn| | |? m2 Hd2 Hm2]; subst; [done|]. constructor.
    + intros k. by rewrite Hd.
    + intros k x z Hx Hz. destruct (proj1 (Hd k) (mk_is_Some _ _ Hx)) as [y Hy].
      eapply IH; [by eapply size_of_entry|by eapply Hm|by eapply Hm2].
Qed.

(** Comparing configurations is an equivalence on the documents that decode, an
    absent one included; a document that does not decode differs from everything,
    itself included, so it is written again on every run. *)
Theorem configs_equal_equivalence a b c :
  (jsonConfigsEqual a a = true ↔ (a = None ∨ ∃ v, a = Some (RawVal v))) ∧
  jsonConfigsEqual a b = jsonConfigsEqual b a ∧
  (jsonConfigsEqual a b = true → jsonConfigsEqual b c = true → jsonConfigsEqual a c = true).
Proof.
  split_and!.
  - destruct a as [[|err|v]|]; simpl; [naive_solver..| |naive_solver].
    split; [by eauto|intros _]. apply json_eqb_sim, json_sim_refl.
  - apply eq_iff_eq_true. destruct a as [[|e|v]|], b as [[|e'|w]|]; simpl; try done.
    rewrite !json_eqb_sim. split; apply json_sim_sym.
  - destruct a as [[|e|v]|], b as [[|e'|w]|], c as [[|e''|u]|]; simpl; try done.
    rewrite !json_eqb_sim. apply json_sim_trans.
Qed.
