(* ===== verification/Naming.v ===== *)
(** * Names and labels

    [internal/controller/workspaces/routing/naming.go] and the name helpers of
    [prerequisites.go], [service_apply.go] and [namespace.go]. *)

From S2P Require Import Prelude GoString Sha256 Api.
From Stdlib Require Import Ascii.

(** ** prerequisites.go: bounded names and label values *)
Definition maxServiceSetNameLen : nat := 63.
Definition prerequisiteServiceSetPrefix : string := "wsprereq-".

Definition is_dash_dot (c : ascii) : bool :=
  bool_decide (c = "-"%char) || bool_decide (c = "."%char).

Definition boundedName (name : string) : string :=
  if (len name <=? maxServiceSetNameLen)%nat then name
  else
    let sum := Sha.Sum256 name in
    let suffix := "-" +:+ EncodeToString (take 4 sum) in
    let prefix := TrimRight (slice name 0 (maxServiceSetNameLen - len suffix)) is_dash_dot in
    prefix +:+ suffix.

Definition prerequisiteServiceSetName (cdName templateName : string) : string :=
  boundedName (prerequisiteServiceSetPrefix +:+ cdName +:+ "-" +:+ templateName).

(** [labelValueRE]: up to 63 bytes, alphanumeric at both ends, [-A-Za-z0-9_.]
    in between. *)
Definition is_label_char (c : ascii) : bool :=
  is_alnum c || bool_decide (c = "-"%char) || bool_decide (c = "_"%char) || bool_decide (c = "."%char).
Fixpoint last_byte (s : string) : option ascii :=
  match s with
  | EmptyString => None
  | String c EmptyString => Some c
  | String _ s' => last_byte s'
  end.
Definition labelValueRE_MatchString (s : string) : bool :=
  match s, last_byte s with
  | String c _, Some d =>
      (len s <=? 63)%nat && is_alnum c && is_alnum d && sall is_label_char s
  | _, _ => false
  end.

Definition sanitizeLabelValue (v : string) : string :=
  if labelValueRE_MatchString v then v
  else "hash-" +:+ EncodeToString (take 8 (Sha.Sum256 v)).

Definition sanitizeServiceEntryName (templateName : string) : string :=
  let s := ToLower templateName in
  if labelValueRE_MatchString s then s
  else "prereq-" +:+ EncodeToString (take 8 (Sha.Sum256 templateName)).

Definition defaultPrerequisiteNamespace : string := "default".
Definition effectivePrerequisiteNamespace (prereq : PrerequisiteSpec) : string :=
  if bool_decide (pr_Namespace prereq ≠ "") then pr_Namespace prereq
  else defaultPrerequisiteNamespace.

(** ** routing/naming.go *)
Definition LabelWorkspace : string := "workspaces.exalsius.ai/workspace".
Definition workspaceNamespacePrefix : string := "ws-".

(** [MeshModeNone] also stands for a mode string the code does not know, which it
    treats the same. *)
Inductive MeshMode := MeshModeAmbient | MeshModeSidecar | MeshModeNone.

Definition labelIstioDataplaneMode : string := "istio.io/dataplane-mode".
Definition labelIstioInjection : string := "istio-injection".
Definition labelIstioUseWaypoint : string := "istio.io/use-waypoint".
Definition labelIstioUseWaypointNamespace : string := "istio.io/use-waypoint-namespace".
Definition labelIstioIngressUseWaypoint : string := "istio.io/ingress-use-waypoint".

Record WaypointConfig := { wp_Name : string; wp_Namespace : string }.

Definition waypointNameSuffix : string := "-waypoint".
Definition maxDNS1123Label : nat := 63.

Definition WaypointNameForClusterDeployment (cdName : string) : string :=
  let name := cdName +:+ waypointNameSuffix in
  if (len name <=? maxDNS1123Label)%nat then name
  else
    let h := slice (EncodeToString (Sha.Sum256 cdName)) 0 8 in
    let keep := (maxDNS1123Label - (1 + len h) - len waypointNameSuffix)%nat in
    slice cdName 0 keep +:+ "-" +:+ h +:+ waypointNameSuffix.

Record MeshConfig := { Mode : MeshMode; WaypointEnabled : bool; WaypointNamespace : string }.

Definition MeshNamespaceLabels (mode : MeshMode) (wp : WaypointConfig) : StrMap :=
  match mode with
  | MeshModeAmbient =>
      let labels := {[ labelIstioDataplaneMode := "ambient" ]} in
      Some (if bool_decide (wp_Name wp ≠ "") then
              <[labelIstioIngressUseWaypoint := "true"]>
              (<[labelIstioUseWaypointNamespace := wp_Namespace wp]>
               (<[labelIstioUseWaypoint := wp_Name wp]> labels))
            else labels)
  | MeshModeSidecar => Some {[ labelIstioInjection := "enabled" ]}
  | MeshModeNone => None
  end.

Definition NamespaceLabels (c : MeshConfig) (cdName : string) : StrMap :=
  let wp := if WaypointEnabled c then
              {| wp_Name := WaypointNameForClusterDeployment cdName;
                 wp_Namespace := WaypointNamespace c |}
            else {| wp_Name := ""; wp_Namespace := "" |} in
  MeshNamespaceLabels (Mode c) wp.

Definition MirrorNamespaceLabels (c : MeshConfig) : StrMap :=
  MeshNamespaceLabels (Mode c) {| wp_Name := ""; wp_Namespace := "" |}.

Definition WorkspaceNamespaceName (wsd : WorkspaceDeployment) : string :=
  workspaceNamespacePrefix +:+ w_Name wsd.

Definition HelmReleaseName (wsd : WorkspaceDeployment) : string :=
  "wsd-" +:+ r_Name (w_CDRef wsd) +:+ "-" +:+ w_Name wsd.

Definition EndpointServiceName (wsd : WorkspaceDeployment) (ep : AccessEndpoint) : string :=
  if bool_decide (ep_ServiceName ep ≠ "") then ep_ServiceName ep
  else HelmReleaseName wsd +:+ "-" +:+ ep_Name ep.

(** ** service_apply.go, namespace.go *)
Definition serviceEntryName (wsd : WorkspaceDeployment) : string := HelmReleaseName wsd.
Definition serviceSetName (wsd : WorkspaceDeployment) : string :=
  boundedName ("wsd-" +:+ r_Name (w_CDRef wsd) +:+ "-" +:+ w_Name wsd).
Definition workspaceNamespaceName (wsd : WorkspaceDeployment) : string := WorkspaceNamespaceName wsd.

Definition workspaceNamespaceLabels (workspaceName : string) (meshLabels : StrMap) : gmap string string :=
  map_assign {[ LabelWorkspace := workspaceName ]} (default ∅ meshLabels).

(** ** Lemmas on label values *)

Lemma last_byte_app s t : t ≠ "" → last_byte (s +:+ t) = last_byte t.
Proof.
  intros Ht. induction s as [|c s IH]; [done|]. simpl.
  destruct (s +:+ t) eqn:E; [|done]. destruct s; simpl in E; simplify_eq/=.
Qed.

Lemma last_byte_alnum s : s ≠ "" → sall is_alnum s = true → ∃ d, last_byte s = Some d ∧ is_alnum d = true.
Proof.
  induction s as [|c s IH]; [done|]. intros _. cbn [sall]. rewrite andb_true_iff. intros [Hc Hs].
  destruct s as [|c' s']; [by exists c|]. apply IH; done.
Qed.

Lemma alnum_label c : is_alnum c = true → is_label_char c = true.
Proof. unfold is_label_char. by intros ->. Qed.

Lemma sall_alnum_label s : sall is_alnum s = true → sall is_label_char s = true.
Proof. apply sall_impl, alnum_label. Qed.

(** A label value: an alphanumeric first byte, label bytes, and an alphanumeric
    non-empty tail. *)
Lemma label_value_intro c p t :
  is_alnum c = true → sall is_label_char p = true →
  t ≠ "" → sall is_alnum t = true → (S (len p + len t) ≤ 63)%nat →
  labelValueRE_MatchString (String c (p +:+ t)) = true.
Proof.
  intros Hc Hp Ht Hat Hlen.
  destruct (last_byte_alnum t Ht Hat) as (d & Hd & Had).
  unfold labelValueRE_MatchString.
  assert (last_byte (String c (p +:+ t)) = Some d) as ->.
  { change (String c (p +:+ t)) with (String c p +:+ t). by rewrite last_byte_app. }
  cbn [sall len]. rewrite length_sapp, sall_app, Hp, (sall_alnum_label t Hat), Hc, Had, alnum_label by done.
  rewrite !andb_true_iff, Nat.leb_le. split_and!; [lia|done..].
Qed.

Lemma hex_nonempty bs : bs ≠ [] → EncodeToString bs ≠ "".
Proof. by destruct bs. Qed.

Lemma length_hash n s : (n ≤ 32)%nat → len (EncodeToString (take n (Sha.Sum256 s))) = (2 * n)%nat.
Proof. intros. rewrite length_hex, length_take, length_Sum256. lia. Qed.

Lemma hash_nonempty n s : (0 < n ≤ 32)%nat → EncodeToString (take n (Sha.Sum256 s)) ≠ "".
Proof. intros ? H. apply (f_equal len) in H. rewrite length_hash in H; simpl in H; lia. Qed.

Lemma hashed_label_value c p n s :
  is_alnum c = true → sall is_label_char p = true → (0 < n ≤ 32)%nat →
  (S (len p + 2 * n) ≤ 63)%nat →
  labelValueRE_MatchString (String c (p +:+ EncodeToString (take n (Sha.Sum256 s)))) = true.
Proof.
  intros. apply label_value_intro; auto using hex_alnum, hash_nonempty.
  rewrite length_hash; lia.
Qed.

Lemma TrimRight_cons c s cut : cut c = false → ∃ t, TrimRight (String c s) cut = String c t.
Proof. intros H. simpl. rewrite H. case_match; eauto. Qed.

(** ** Properties *)

Lemma boundedName_short name : (len name ≤ 63)%nat → boundedName name = name.
Proof. intros H. unfold boundedName, maxServiceSetNameLen. by rewrite (proj2 (Nat.leb_le _ _) H). Qed.

Lemma boundedName_length_le name : (len (boundedName name) ≤ 63)%nat.
Proof.
  unfold boundedName. case_match eqn:E; [by apply Nat.leb_le in E|].
  apply Nat.leb_gt in E. unfold maxServiceSetNameLen in *.
  rewrite !length_sapp, length_hash by lia.
  etrans; [apply Nat.add_le_mono_r, length_TrimRight|].
  rewrite length_slice0; cbn [len]; lia.
Qed.

Lemma is_dash_dot_alnum c : is_alnum c = true → is_dash_dot c = false.
Proof.
  intros H. unfold is_dash_dot. rewrite orb_false_iff, !bool_decide_eq_false.
  split; intros ->; vm_compute in H; congruence.
Qed.

Lemma boundedName_label_value c name d :
  is_alnum c = true → sall is_label_char name = true →
  last_byte (String c name) = Some d → is_alnum d = true →
  labelValueRE_MatchString (boundedName (String c name)) = true.
Proof.
  intros Hc Hn Hd Had. set (s := String c name) in *.
  assert (Hs : sall is_label_char s = true).
  { unfold s; cbn [sall]. by rewrite alnum_label, Hn. }
  destruct (decide (len s ≤ 63)%nat) as [Hl|Hl].
  - rewrite boundedName_short by done. unfold labelValueRE_MatchString.
    unfold s at 1. fold s. rewrite Hd, Hc, Had, Hs, !andb_true_r. by apply Nat.leb_le.
  - pose proof (boundedName_length_le s) as Hle. unfold boundedName in *.
    assert ((len s <=? maxServiceSetNameLen)%nat = false) as Hf.
    { apply Nat.leb_gt. unfold maxServiceSetNameLen. lia. }
    rewrite Hf in *. cbv zeta in *.
    assert (Hm : ∃ k, (maxServiceSetNameLen - len ("-" +:+ EncodeToString (take 4 (Sha.Sum256 s))))%nat = S k).
    { rewrite length_sapp, length_hash by lia. eexists. reflexivity. }
    destruct Hm as [k Hk]. rewrite Hk in *.
    set (u := EncodeToString (take 4 (Sha.Sum256 s))) in *.
    assert (Hsl : slice s 0 (S k) = String c (slice name 0 k)).
    { unfold s, slice. simpl. by rewrite Nat.sub_0_r. }
    rewrite Hsl in *.
    destruct (TrimRight_cons c (slice name 0 k) is_dash_dot (is_dash_dot_alnum c Hc)) as [t Ht].
    assert (Hta : sall is_label_char (TrimRight (String c (slice name 0 k)) is_dash_dot) = true).
    { apply sall_TrimRight. cbn [sall]. by rewrite alnum_label, sall_slice0. }
    rewrite Ht in *. cbn [sall] in Hta. apply andb_true_iff in Hta as [_ Hta].
    change (String c t +:+ "-" +:+ u) with (String c (t +:+ ("-" +:+ u))) in *.
    rewrite <- sapp_assoc in *. apply label_value_intro; [done| | | |].
    + rewrite sall_app, Hta. done.
    + apply hash_nonempty; lia.
    + apply hex_alnum.
    + cbn [len] in Hle. rewrite length_sapp in Hle. lia.
Qed.

(** A name of the characters Kubernetes allows in object names that ends in an
    alphanumeric byte (DNS-1123). *)
Definition dns_name (s : string) : Prop :=
  sall (λ c, is_lower c || is_digit c || is_dash_dot c) s = true ∧
  ∃ d, last_byte s = Some d ∧ is_alnum d = true.

Lemma dns_name_label s : dns_name s → sall is_label_char s = true.
Proof.
  intros [H _]. revert H. apply sall_impl. intros c.
  unfold is_dash_dot, is_label_char, is_alnum. rewrite !orb_true_iff. naive_solver.
Qed.

Lemma dns_name_nonempty s : dns_name s → s ≠ "".
Proof. intros [_ (d & H & _)] ->. done. Qed.

Lemma dns_names_joined_label_value c p cd n :
  is_alnum c = true → sall is_label_char p = true → dns_name cd → dns_name n →
  labelValueRE_MatchString (boundedName (String c (p +:+ cd +:+ "-" +:+ n))) = true.
Proof.
  intros Hc Hp Hcd Hn. pose proof Hn as [_ (d & Hd & Had)].
  apply (boundedName_label_value c _ d); [done| |
    |done].
  - by rewrite !sall_app, Hp, (dns_name_label cd), (dns_name_label n).
  - change (String c (p +:+ cd +:+ "-" +:+ n)) with (String c p +:+ cd +:+ "-" +:+ n).
    rewrite <- !sapp_assoc, last_byte_app; [done|by apply dns_name_nonempty].
Qed.

(** Every ServiceSet name the operator generates, for a workspace and for
    a prerequisite, is a valid Kubernetes label value (so at most 63 bytes), as
    Sveltos needs it, whatever the length of the cluster, workspace and template
    names. *)
Theorem serviceset_names_are_label_values wsd tmpl :
  dns_name (r_Name (w_CDRef wsd)) → dns_name (w_Name wsd) → dns_name tmpl →
  labelValueRE_MatchString (serviceSetName wsd) = true ∧
  labelValueRE_MatchString (prerequisiteServiceSetName (r_Name (w_CDRef wsd)) tmpl) = true.
Proof.
  intros Hcd Hn Ht. split.
  - apply (dns_names_joined_label_value "w" "sd-"); [reflexivity|reflexivity|done|done].
  - apply (dns_names_joined_label_value "w" "sprereq-"); [reflexivity|reflexivity|done|done].
Qed.

Lemma serviceset_names_are_label_values_witness :
  let wsd := example_wsd "kcm-system" "a-workspace-with-a-rather-long-name" "a-cluster-with-a-rather-long-name" in
  labelValueRE_MatchString (serviceSetName wsd) = true.
Proof.
  apply (serviceset_names_are_label_values (example_wsd "kcm-system" "a-workspace-with-a-rather-long-name"
    "a-cluster-with-a-rather-long-name") "gpu-operator-25-3-0"); (split; [reflexivity|eexists; split; reflexivity]).
Defined.

(** The sanitised label value and the sanitised service-entry name are always
    valid label values, whatever the input string. *)
Theorem sanitized_values_are_valid v :
  labelValueRE_MatchString (sanitizeLabelValue v) = true ∧
  labelValueRE_MatchString (sanitizeServiceEntryName v) = true.
Proof.
  split.
  - unfold sanitizeLabelValue. case_match; [done|].
    apply (hashed_label_value "h" "ash-" 8 v); [reflexivity|reflexivity|lia|]. simpl; lia.
  - unfold sanitizeServiceEntryName. case_match; [done|].
    apply (hashed_label_value "p" "rereq-" 8 v); [reflexivity|reflexivity|lia|]. simpl; lia.
Qed.

Lemma sanitized_nonempty v : sanitizeLabelValue v ≠ "".
Proof.
  intros He. assert (labelValueRE_MatchString (sanitizeLabelValue v) = true) as Hv; [|by rewrite He in Hv].
  unfold sanitizeLabelValue. case_match; [done|].
  apply (hashed_label_value "h" "ash-" 8 v); [reflexivity|reflexivity|lia|]. simpl; lia.
Qed.

Lemma sanitized_differs v : labelValueRE_MatchString v = false → v ≠ sanitizeLabelValue v.
Proof.
  intros Hv He. assert (labelValueRE_MatchString (sanitizeLabelValue v) = true) as Hs; [|congruence].
  unfold sanitizeLabelValue. rewrite Hv.
  apply (hashed_label_value "h" "ash-" 8 v); [reflexivity|reflexivity|lia|]. simpl; lia.
Qed.

Lemma sanitizeLabelValue_valid v : labelValueRE_MatchString v = true → sanitizeLabelValue v = v.
Proof. unfold sanitizeLabelValue. by intros ->. Qed.

Lemma waypoint_suffix cd : ∃ p, WaypointNameForClusterDeployment cd = p +:+ waypointNameSuffix.
Proof.
  unfold WaypointNameForClusterDeployment. case_match; [by eexists|]. eexists. by rewrite <- !sapp_assoc.
Qed.

(** The waypoint of a cluster fits an object name and keeps the [-waypoint]
    suffix; a short cluster name is used whole. *)
Theorem waypoint_name_bounded cd :
  (len (WaypointNameForClusterDeployment cd) ≤ 63)%nat ∧
  (∃ p, WaypointNameForClusterDeployment cd = p +:+ waypointNameSuffix) ∧
  ((len cd ≤ 54)%nat → WaypointNameForClusterDeployment cd = cd +:+ "-waypoint").
Proof.
  split_and!; [|apply waypoint_suffix|]; unfold WaypointNameForClusterDeployment, maxDNS1123Label; case_match eqn:E; try done.
  - by apply Nat.leb_le.
  - apply Nat.leb_gt in E. rewrite length_sapp in E. simpl in E.
    assert (Hh : len (slice (EncodeToString (Sha.Sum256 cd)) 0 8) = 8%nat).
    { apply length_slice0. rewrite length_hex, length_Sum256. lia. }
    cbv zeta. rewrite !length_sapp, Hh. rewrite length_slice0; simpl; lia.
  - apply Nat.leb_gt in E. rewrite length_sapp in E. simpl in E. lia.
Qed.

(** The child namespace carries waypoint-routing labels exactly when the mode is
    ambient and waypoints are on, and then names the waypoint of that child; the
    regional mirror namespace never carries one (ADR-0005). *)
Theorem waypoint_labels_on_child_only c cd :
  smget (NamespaceLabels c cd) labelIstioUseWaypoint =
    (match Mode c with
     | MeshModeAmbient => if WaypointEnabled c then WaypointNameForClusterDeployment cd else ""
     | _ => "" end) ∧
  (default ∅ (MirrorNamespaceLabels c)) !! labelIstioUseWaypoint = None.
Proof.
  unfold NamespaceLabels, MirrorNamespaceLabels, smget.
  destruct (Mode c); simpl; [|by split; [destruct (WaypointEnabled c)|]..].
  split; [|reflexivity].
  destruct (WaypointEnabled c); simpl; [|reflexivity].
  case_bool_decide as Hw.
  - rewrite !mget_insert_ne by done. apply mget_insert.
  - destruct (decide (WaypointNameForClusterDeployment cd = "")) as [He|]; [|done].
    destruct (waypoint_suffix cd) as [p Hp].
    rewrite Hp in He. apply (f_equal len) in He.
    rewrite length_sapp in He. simpl in He. lia.
Qed.

(** Two different (cluster, workspace) pairs can share one ServiceSet name and
    one Helm release name: the separator is a hyphen, which both names may
    contain. *)
Theorem serviceset_name_collision :
  ∃ a b, w_CDRef a ≠ w_CDRef b ∧ w_Name a ≠ w_Name b ∧
    r_Namespace (w_CDRef a) = r_Namespace (w_CDRef b) ∧
    serviceSetName a = serviceSetName b ∧ serviceEntryName a = serviceEntryName b.
Proof.
  exists (example_wsd "kcm-system" "b-c" "a"), (example_wsd "kcm-system" "c" "a-b").
  by vm_compute.
Qed.
