(* ===== verification/Schema.v ===== *)
(** * What the API server admits: the validation of [api/workspaces/v1]

    The kubebuilder markers of [workspaceclass_types.go] and
    [workspacedeployment_types.go], of which [config/crd/bases] is generated, as
    boolean tests of the fields the model has.  Lengths count characters, as the API
    server counts them.  The length of condition messages (at most 32768 characters)
    is left out: they carry error texts of other programs, which nothing bounds. *)

From Stdlib Require Import Ascii.
From S2P Require Import Prelude GoString Api Naming.

(** ** Characters and patterns *)

(** The characters of a UTF-8 string: the bytes that do not continue one. *)
Definition is_continuation (c : ascii) : bool := in_range 128 191 c.
Fixpoint char_count (s : string) : nat :=
  match s with
  | EmptyString => 0
  | String c s => ((if is_continuation c then 0 else 1) + char_count s)%nat
  end.
Definition length_between (lo hi : nat) (s : string) : bool :=
  (lo <=? char_count s)%nat && (char_count s <=? hi)%nat.

(** [^[a-z0-9]([-a-z0-9]*[a-z0-9])?$]. *)
Definition is_dns_end (c : ascii) : bool := is_lower c || is_digit c.
Definition is_dns_char (c : ascii) : bool := is_dns_end c || bool_decide (c = "-"%char).
Definition dns_label (s : string) : bool :=
  match s, last_byte s with
  | String c _, Some d => is_dns_end c && is_dns_end d && sall is_dns_char s
  | _, _ => false
  end.

(** [metav1.Condition]: [^[A-Za-z]([A-Za-z0-9_,:]*[A-Za-z0-9_])?$], up to 1024. *)
Definition is_letter (c : ascii) : bool := is_upper c || is_lower c.
Definition is_reason_end (c : ascii) : bool := is_alnum c || bool_decide (c = "_"%char).
Definition is_reason_char (c : ascii) : bool :=
  is_reason_end c || bool_decide (c = ","%char) || bool_decide (c = ":"%char).
Definition valid_reason (s : string) : bool :=
  match s, last_byte s with
  | String c _, Some d => is_letter c && is_reason_end d && sall is_reason_char s && length_between 1 1024 s
  | _, _ => false
  end.
(** A qualified name: an optional DNS subdomain and a slash, then a name of
    alphanumerics, dashes, underscores and dots with alphanumeric ends; up to 316. *)
Definition qualified_part (s : string) : bool :=
  match s, last_byte s with
  | String c _, Some d => is_alnum c && is_alnum d && sall is_label_char s
  | _, _ => false
  end.
Definition dns_subdomain (s : string) : bool := forallb dns_label (split_byte "."%char s).
Definition valid_condition_type (s : string) : bool :=
  length_between 0 316 s &&
  match split_byte "/"%char s with
  | [n] => qualified_part n
  | [p; n] => dns_subdomain p && qualified_part n
  | _ => false
  end.

(** ** Lists and optional fields *)
Definition if_set {A} (test : A → bool) (x : option A) : bool := match x with Some a => test a | None => true end.
(** [omitempty]: an empty string is not sent. *)
Definition if_given (test : string → bool) (s : string) : bool := bool_decide (s = "") || test s.
(** [listType=map] and [listType=set]. *)
Definition unique_keys {A} (key : A → string) (l : list A) : bool := bool_decide (NoDup (key <$> l)).

(** ** workspaceclass_types.go *)
Definition valid_gpu_vendor (v : GPUVendor) : bool := bool_decide (v = GPUVendorNVIDIA) || bool_decide (v = GPUVendorAMD).
Definition valid_requirements (r : ResourceRequirements) : bool :=
  if_set (λ n, 0 <=? n)%Z (GPUCount r) && if_set valid_gpu_vendor (GPUVendor_ r).
Definition valid_resources (r : WorkspaceResourceSpec) : bool :=
  if_set (λ n, 1 <=? n)%Z (Replicas r) && valid_requirements (PerReplica r).
Definition valid_template_ref (t : ServiceTemplateRef) : bool := length_between 1 253 (t_Name t).
Definition valid_endpoint (e : AccessEndpoint) : bool :=
  length_between 1 63 (ep_Name e) && dns_label (ep_Name e)
  && ((1 <=? ep_Port e) && (ep_Port e <=? 65535))%Z
  && if_given (λ s, length_between 0 63 s && dns_label s) (ep_ServiceName e).
Definition valid_paths (ps : list InjectionPath) : bool :=
  forallb (length_between 1 1024) ps && unique_keys id ps.
Definition valid_injection_map (m : ResourceInjectionMap) : bool :=
  forallb valid_paths [im_Replicas m; im_CPU m; im_Memory m; im_Storage m; im_GPUCount m; im_GPUVendor m; im_GPUType m].
Definition valid_prerequisite (p : PrerequisiteSpec) : bool :=
  valid_template_ref (pr_ServiceTemplate p)
  && if_given (λ s, length_between 0 63 s && dns_label s) (pr_Namespace p).
(** The two rules: a class names no GPU type and no node selector ([omitempty]
    drops an empty map). *)
Definition no_gpu_choice (r : ResourceRequirements) : bool :=
  bool_decide (GPUType r = None) && bool_decide (default ∅ (GPUNodeSelector r) = ∅).
Definition valid_class_spec (s : WorkspaceClassSpec) : bool :=
  valid_template_ref (wsc_ServiceTemplate s)
  && valid_resources (wsc_DefaultResources s) && no_gpu_choice (PerReplica (wsc_DefaultResources s))
  && forallb valid_prerequisite (wsc_Prerequisites s)
  && forallb valid_endpoint (wsc_AccessEndpoints s) && unique_keys ep_Name (wsc_AccessEndpoints s)
  && if_set valid_injection_map (wsc_ResourceInjection s).

(** ** workspacedeployment_types.go *)
Definition valid_cd_ref (r : ClusterDeploymentRef) : bool :=
  length_between 1 253 (r_Name r) && length_between 1 63 (r_Namespace r).
Definition valid_deployment_spec (s : WorkspaceDeploymentSpec) : bool :=
  length_between 1 253 (WorkspaceClassRef s) && valid_cd_ref (ClusterDeploymentRef_ s)
  && if_set valid_resources (Resources s).
(** The rules on the name: at most 60 characters, a DNS label. *)
Definition valid_workspace_name (n : string) : bool := length_between 0 60 n && dns_label n.

Definition valid_condition (c : Condition) : bool :=
  valid_condition_type (c_Type c) && valid_reason (c_Reason c) && (0 <=? c_ObservedGeneration c)%Z.
Definition valid_prerequisite_status (s : PrerequisiteStatus) : bool := bool_decide (ps_Phase s ≠ None).
Definition valid_totals (t : ResourceTotals) : bool := if_set valid_gpu_vendor (rt_GPUVendor t).
Definition valid_feasibility (f : FeasibilityStatus) : bool :=
  valid_totals (fs_Demanded f) && valid_totals (fs_Available f) && if_set valid_totals (fs_Missing f).
Definition valid_status (s : WorkspaceDeploymentStatus) : bool :=
  forallb valid_condition (s_Conditions s) && unique_keys c_Type (s_Conditions s)
  && if_set valid_resources (s_ResolvedResources s)
  && forallb valid_prerequisite_status (s_Prerequisites s) && unique_keys ps_Name (s_Prerequisites s)
  && if_set valid_feasibility (s_Feasibility s)
  && unique_keys ae_Name (s_Access s).
(** The server counts generations from 1. *)
Definition valid_workspace (w : WorkspaceDeployment) : bool :=
  valid_workspace_name (w_Name w) && (0 <=? w_Generation w)%Z && valid_deployment_spec (w_Spec w) && valid_status (w_Status w).
