(* ===== verification/Names.v ===== *)
(** * The names built from an admitted workspace

    What the validation of a workspace's name buys: which of the names the operator
    derives from it are DNS labels, and which are only as good as the name of the
    cluster, whose reference is validated by its length alone. *)

From Stdlib Require Import Ascii.
From S2P Require Import Prelude GoString Api Naming Schema.

(** ** DNS labels *)
Definition label_of (n : nat) (s : string) : Prop := dns_label s = true ∧ (len s ≤ n)%nat.

Lemma dns_end_char c : is_dns_end c = true → is_dns_char c = true.
Proof. unfold is_dns_char. by intros ->. Qed.
Lemma char_count_dns s : sall is_dns_char s = true → char_count s = len s.
Proof.
  induction s as [|c s IH]; [done|]. cbn [sall char_count len]. intros [Hc Hs]%andb_true_iff. rewrite IH by done.
  assert (is_continuation c = false) as ->; [|done]. destruct c as [[] [] [] [] [] [] [] []]; by vm_compute in Hc |- *.
Qed.
Lemma dns_label_spec s :
  dns_label s = true ↔ ∃ c s', s = String c s' ∧ is_dns_end c = true ∧ sall is_dns_char s = true ∧
    ∃ d, last_byte s = Some d ∧ is_dns_end d = true.
Proof.
  unfold dns_label. destruct s as [|c s]; [naive_solver|]. destruct (last_byte (String c s)) as [d|]; [|naive_solver].
  rewrite !andb_true_iff. naive_solver.
Qed.
(** Something in front of a label, and a separator. *)
Lemma dns_label_prefix c p s :
  is_dns_end c = true → dns_label s = true → dns_label (String c p +:+ s) = sall is_dns_char p.
Proof.
  intros Hc (x & s' & Hs & _ & Ha & d & Hd & Hde)%dns_label_spec. unfold dns_label. cbn [String.append].
  change (String c (p +:+ s)) with (String c p +:+ s). rewrite last_byte_app by by rewrite Hs. rewrite Hd, Hc, Hde.
  simpl. rewrite sall_app, Ha, andb_true_r. by rewrite (dns_end_char c Hc).
Qed.

(** ** An admitted workspace *)
Lemma admitted_name w : valid_workspace w = true → label_of 60 (w_Name w).
Proof.
  unfold valid_workspace, valid_workspace_name, length_between. rewrite !andb_true_iff, !Nat.leb_le.
  intros ((((Hl & Hd) & _) & _) & _). split; [done|]. apply dns_label_spec in Hd as (_ & _ & _ & _ & Ha & _).
  rewrite <- (char_count_dns _ Ha). apply Hl.
Qed.

(** C36: The names of an admitted workspace.  Its namespace, on the child and on the regional
    cluster, is a DNS label of at most 63 characters, and so is its primary hostname.
    Its Helm release, under which it is a service of its ServiceSet, is one exactly
    when the name of the cluster has only lower-case letters, digits and dashes and
    the two names have at most 58 characters together. *)
Theorem admitted_names w :
  valid_workspace w = true →
  label_of 63 (WorkspaceNamespaceName w) ∧ label_of 63 (w_Name w) ∧
  (label_of 63 (serviceEntryName w) ↔
   sall is_dns_char (r_Name (w_CDRef w)) = true ∧ (len (r_Name (w_CDRef w)) + len (w_Name w) ≤ 58)%nat).
Proof.
  intros [Hd Hl]%admitted_name. unfold label_of. split_and!; [| |done|lia|].
  - unfold WorkspaceNamespaceName, workspaceNamespacePrefix. by rewrite (dns_label_prefix "w" "s-").
  - unfold WorkspaceNamespaceName, workspaceNamespacePrefix. rewrite length_sapp. simpl. lia.
  - assert (He : serviceEntryName w = String "w" ("sd-" +:+ r_Name (w_CDRef w) +:+ "-") +:+ w_Name w).
    { unfold serviceEntryName, HelmReleaseName. cbn [String.append]. by rewrite sapp_assoc. }
    assert (Hn : sall is_dns_char ("sd-" +:+ r_Name (w_CDRef w) +:+ "-") = sall is_dns_char (r_Name (w_CDRef w))).
    { rewrite !sall_app. vm_compute (sall _ "sd-"). vm_compute (sall _ "-"). apply andb_true_r. }
    rewrite He, dns_label_prefix, Hn by done. rewrite length_sapp. change (String "w" ("sd-" +:+ ?s)) with ("wsd-" +:+ s).
    rewrite !length_sapp. change (len "wsd-") with 4%nat. change (len "-") with 1%nat.
    split; intros [? ?]; (split; [done|lia]).
Qed.
Lemma admitted_names_witness : label_of 63 (WorkspaceNamespaceName (example_wsd "ns" "lab-1" "cd")).
Proof. apply (admitted_names (example_wsd "ns" "lab-1" "cd")). vm_compute. reflexivity. Defined.

(** A workspace on a cluster with a dot in its name is admitted, and its service entry
    is no DNS label; a template with a dot passes the guard that is to make one. *)
Theorem entry_names_need_not_be_labels :
  valid_workspace (example_wsd "ns" "lab" "edge.site-1") = true ∧
  dns_label (serviceEntryName (example_wsd "ns" "lab" "edge.site-1")) = false ∧
  sanitizeServiceEntryName "gpu.operator" = "gpu.operator" ∧ dns_label "gpu.operator" = false.
Proof. vm_compute. done. Qed.
