(* ===== verification/QuantityNano.v ===== *)
(** * What the operator relies on from [resource.Quantity], and an instance

    [QuantityLaws] states the documented behaviour of the quantity methods on the
    decimal value; [nano_quantity] is a concrete implementation of them, used to
    evaluate the development on concrete inputs. *)

From S2P Require Import Prelude GoString Api.

Class QuantityLaws (Ops : QuantityOps) := {
  law_Add : ∀ a b, q_nano (q_Add a b) = (q_nano a + q_nano b)%Z;
  law_Sub : ∀ a b, q_nano (q_Sub a b) = (q_nano a - q_nano b)%Z;
  law_Cmp : ∀ a b, q_Cmp a b = (q_nano a ?= q_nano b)%Z;
  law_IsZero : ∀ q, q_IsZero q = bool_decide (q_nano q = 0%Z);
  law_NewMilli : ∀ m f, q_nano (q_NewMilli m f) = (m * 1000000)%Z;
  law_MilliValue : ∀ q m, q_nano q = (m * 1000000)%Z → int64_range m → q_MilliValue q = m;
  law_Value : ∀ q v, q_nano q = (v * 1000000000)%Z → int64_range v → q_Value q = v
}.

(** Rounding away from zero. *)
Definition round_up (n d : Z) : Z :=
  if (0 <=? n)%Z then ((n + d - 1) / d)%Z else (- ((- n + d - 1) / d))%Z.

#[export] Instance nano_quantity : QuantityOps := {|
  q_Value q := int64_wrap (round_up (q_nano q) 1000000000);
  q_MilliValue q := int64_wrap (round_up (q_nano q) 1000000);
  q_Add a b := {| q_nano := q_nano a + q_nano b;
                 q_Format := if bool_decide (q_nano a = 0%Z) then q_Format b else q_Format a |};
  q_Sub a b := {| q_nano := q_nano a - q_nano b;
                 q_Format := if bool_decide (q_nano a = 0%Z) then q_Format b else q_Format a |};
  q_IsZero q := bool_decide (q_nano q = 0%Z);
  q_Cmp a b := (q_nano a ?= q_nano b)%Z;
  q_NewMilli m f := {| q_nano := m * 1000000; q_Format := f |};
  q_String q := itoa (q_nano q) +:+ "n"
|}.

Lemma round_up_exact v d : (0 < d)%Z → round_up (v * d) d = v.
Proof.
  intros Hd. unfold round_up. case_match eqn:E.
  - replace (v * d + d - 1)%Z with (d - 1 + v * d)%Z by lia.
    rewrite Z.div_add by lia. rewrite Z.div_small; lia.
  - replace (- (v * d) + d - 1)%Z with (d - 1 + (- v) * d)%Z by lia.
    rewrite Z.div_add by lia. rewrite Z.div_small; lia.
Qed.

#[export] Instance nano_quantity_laws : QuantityLaws nano_quantity.
Proof.
  split; simpl; try done.
  - intros q m -> Hr. rewrite round_up_exact by lia. by apply int64_wrap_id.
  - intros q v -> Hr. rewrite round_up_exact by lia. by apply int64_wrap_id.
Qed.

(** A whole number of units. *)
Definition units (n : Z) : Quantity := {| q_nano := n * 1000000000; q_Format := DecimalSI |}.
