(* ===== verification/Prog.v ===== *)
(** * Handlers as programs over API requests

    A handler is a finite tree: it returns, or issues one request and continues
    with any response of that request's type.  [exec p tr a] says that [p] can
    return [a] after the requests and responses of [tr].  Nothing is assumed of
    the responses: between two requests of one handler any other controller may
    run, and any request may fail.  What the API server, the Kubernetes client
    libraries and the child clusters do is a parameter of every theorem. *)

From Stdlib Require Eqdep_dec.
From S2P Require Import Prelude GoString Api InfraApi.

(** ** Errors *)
Inductive ecode := ENotFound | EAlreadyExists | EConflict | ENoMatch | EInfraNotReady | EOther.
#[export] Instance ecode_eq_dec : EqDecision ecode.
Proof. solve_decision. Defined.

Record error := { e_code : ecode; e_text : string }.

Inductive res (A : Type) := Ok (a : A) | Err (e : error).
Arguments Ok {_} _.
Arguments Err {_} _.
#[export] Instance Ok_inj A : Inj eq eq (@Ok A).
Proof. by intros a b [= ->]. Qed.

(** [fmt.Errorf("...: %w", err)]: the wrapped error is still recognised by
    [errors.As], which the [apierrors] predicates use. *)
Definition wrapf (msg : string) (e : error) : error :=
  {| e_code := e_code e; e_text := msg +:+ ": " +:+ e_text e |}.
(** [fmt.Errorf] without a wrapped error. *)
Definition errorf (msg : string) : error := {| e_code := EOther; e_text := msg |}.

(** The API server's NotFound. *)
Definition not_found : error := {| e_code := ENotFound; e_text := "not found" |}.

Definition IsNotFound (e : error) : bool := bool_decide (e_code e = ENotFound).
Definition IsAlreadyExists (e : error) : bool := bool_decide (e_code e = EAlreadyExists).
Definition IsConflict (e : error) : bool := bool_decide (e_code e = EConflict).
Definition IsNoMatchError (e : error) : bool := bool_decide (e_code e = ENoMatch).

(** ** Requests *)
Inductive kind := KWSD | KWSC | KCD | KSS | KST | KNode | KPod | KNamespace | KSecret | KEvent
  | KService | KGateway | KHTTPRoute | KTCPRoute | KColony | KPVC | KConfigMap | KCluster.
#[export] Instance kind_eq_dec : EqDecision kind.
Proof. solve_decision. Defined.

Definition obj (k : kind) : Type :=
  match k with
  | KWSD => WorkspaceDeployment
  | KWSC => WorkspaceClass
  | KCD => ClusterDeployment
  | KSS => ServiceSet
  | KST => ServiceTemplate
  | KNode => Node
  | KPod => Pod
  | KNamespace => Namespace
  | KSecret => Secret
  | KEvent => Event
  | KService => Service
  | KGateway => Gateway
  | KHTTPRoute => HTTPRoute
  | KTCPRoute => TCPRoute
  | KColony => Colony
  | KPVC => PersistentVolumeClaim
  | KConfigMap => ConfigMap
  | KCluster => Cluster
  end.

Record ObjectKey := { k_Namespace : string; k_Name : string }.
#[export] Instance ObjectKey_eq_dec : EqDecision ObjectKey.
Proof. solve_decision. Defined.

(** A [client.Client]: the manager's, its uncached reader, or one built from a
    kubeconfig. *)
Inductive client := MgmtClient | UncachedReader | RemoteClient (config : string).
#[export] Instance client_eq_dec : EqDecision client.
Proof. solve_decision. Defined.

Record ListOptions := {
  lo_InNamespace : option string;
  lo_MatchingLabels : gmap string string;
  lo_MatchingFields : gmap string string;
  lo_HasLabels : list string
}.
Definition list_all : ListOptions :=
  {| lo_InNamespace := None; lo_MatchingLabels := ∅; lo_MatchingFields := ∅; lo_HasLabels := [] |}.
Definition list_in (ns : string) : ListOptions :=
  {| lo_InNamespace := Some ns; lo_MatchingLabels := ∅; lo_MatchingFields := ∅; lo_HasLabels := [] |}.

Inductive req : Type → Type :=
  | Get (k : kind) (c : client) (key : ObjectKey) : req (res (obj k))
  | ListObjs (k : kind) (c : client) (o : ListOptions) : req (res (list (obj k)))
  | Create (k : kind) (c : client) (x : obj k) : req (res (obj k))
  | Update (k : kind) (c : client) (x : obj k) : req (res (obj k))
  | StatusUpdate (k : kind) (c : client) (x : obj k) : req (res (obj k))
  | PatchFinalizers (k : kind) (c : client) (x : obj k) : req (res (obj k))
  | Delete (k : kind) (c : client) (x : obj k) : req (res unit)
  | Eventf (key : ObjectKey) (typ reason action msg : string) : req unit
  | Now : req Z
  | RESTConfigFromKubeConfig (bytes : string) : req (res string)
  | NewClient (config : string) : req (res client)
  | SetOwnerReference (owner object : ObjectMeta) : req (res ObjectMeta)
  | DeleteAllOf (k : kind) (c : client) (o : ListOptions) : req (res unit)
  (** [Status().Patch(ctx, x, client.MergeFrom(orig))]. *)
  | StatusPatch (k : kind) (c : client) (orig x : obj k) : req (res (obj k))
  | SetControllerReference (owner object : ObjectMeta) : req (res ObjectMeta)
  | Sleep (d : Z) : req unit
  (** [select] on the context's end ([Some] error) and a timer. *)
  | WaitOrDone (d : Z) : req (option error)
  (** The discovery client: the resource names of a group version, and dropping
      its cache. *)
  | ServerResources (gv : string) : req (res (list string))
  | Invalidate : req unit.

Inductive event : Type :=
  | Ev {R : Type} (r : req R) (resp : R).

Inductive prog (A : Type) : Type :=
  | Ret (a : A)
  | Do {R : Type} (r : req R) (k : R → prog A).
Arguments Ret {_} _.
Arguments Do {_ _} _ _.

Fixpoint pbind {A B} (p : prog A) (f : A → prog B) : prog B :=
  match p with
  | Ret a => f a
  | Do r k => Do r (λ x, pbind (k x) f)
  end.
#[export] Instance prog_ret : MRet prog := @Ret.
#[export] Instance prog_bind : MBind prog := λ _ _ f p, pbind p f.

Definition call {R} (r : req R) : prog R := Do r Ret.

(** [x, err := p; if err != nil { return err }; f x]. *)
Definition try_bind {A B} (p : prog (res A)) (f : A → prog (res B)) : prog (res B) :=
  x ← p; match x with Ok a => f a | Err e => mret (Err e) end.
Notation "x ←? p ; q" := (try_bind p (λ x, q)) (at level 20, p at level 100, q at level 200, right associativity).
(** [fmt.Errorf("...: %w", err)] around whatever [p] fails with. *)
Definition wrap_err {A} (msg : string) (p : prog (res A)) : prog (res A) :=
  x ← p; mret (match x with Ok a => Ok a | Err e => Err (wrapf msg e) end).

(** A [for] loop that threads an accumulator. *)
Fixpoint foldM {A B} (f : B → A → prog B) (b : B) (l : list A) : prog B :=
  match l with
  | [] => mret b
  | x :: l' => b' ← f b x; foldM f b' l'
  end.

(** ** Executions *)
Fixpoint exec {A} (p : prog A) (tr : list event) (a : A) : Prop :=
  match p with
  | Ret b => tr = [] ∧ a = b
  | Do r k => ∃ resp tr', tr = Ev r resp :: tr' ∧ exec (k resp) tr' a
  end.

Lemma exec_ret {A} (b : A) tr a : exec (mret b) tr a ↔ tr = [] ∧ a = b.
Proof. done. Qed.

Lemma exec_call {R} (r : req R) tr a : exec (call r) tr a ↔ tr = [Ev r a].
Proof.
  simpl. split.
  - intros (resp & tr' & -> & -> & ->). done.
  - intros ->. by exists a, [].
Qed.

Lemma exec_bind {A B} (p : prog A) (f : A → prog B) tr b :
  exec (p ≫= f) tr b ↔ ∃ tr1 tr2 a, tr = tr1 ++ tr2 ∧ exec p tr1 a ∧ exec (f a) tr2 b.
Proof.
  unfold mbind, prog_bind. revert tr. induction p as [a|R r k IH]; intros tr; simpl.
  - split.
    + intros H. exists [], tr, a. done.
    + intros (tr1 & tr2 & a' & -> & [-> ->] & H). done.
  - split.
    + intros (resp & tr' & -> & H). apply IH in H as (tr1 & tr2 & a & -> & H1 & H2).
      exists (Ev r resp :: tr1), tr2, a. split; [done|]. split; [|done]. by exists resp, tr1.
    + intros (tr1 & tr2 & a & -> & (resp & tr' & -> & H1) & H2).
      exists resp, (tr' ++ tr2). split; [done|]. apply IH. by exists tr', tr2, a.
Qed.

(** Break an execution hypothesis into the executions of its parts. *)
Tactic Notation "exec_step" hyp(H) "as" simple_intropattern(p) :=
  apply exec_bind in H;
  let tr1 := fresh "tr" in let tr2 := fresh "tr" in let x := fresh "x" in
  let H1 := fresh "H" in let He := fresh "He" in
  destruct H as (tr1 & tr2 & x & He & H1 & H);
  cbv beta in H; apply exec_call in H1; subst tr1; revert H; revert dependent x;
  intros p He H; try subst; cbv beta iota zeta in H.
Ltac exec_inv1 :=
  match goal with
  | H : exec (mret _) _ _ |- _ => apply exec_ret in H as [? ?]; subst
  | H : exec (Ret _) _ _ |- _ => destruct H as [? ?]; subst
  | H : exec (call _) _ _ |- _ => apply exec_call in H; subst
  | H : exec (_ ≫= _) _ _ |- _ =>
      let tr1 := fresh "tr" in let tr2 := fresh "tr" in let x := fresh "x" in
      let H1 := fresh "H" in
      apply exec_bind in H as (tr1 & tr2 & x & ? & H1 & H); subst
  end.
Ltac exec_inv := repeat (exec_inv1; cbv beta iota zeta in * |-).

(** ** Every request of a program satisfies a predicate *)
Definition always (P : event → Prop) {A} (p : prog A) : Prop :=
  ∀ tr a, exec p tr a → Forall P tr.

Section always.
Context (P : event → Prop).

Lemma always_ret {A} (a : A) : always P (mret a).
Proof. intros tr b [-> _]. constructor. Qed.

Lemma always_call {R} (r : req R) : (∀ resp, P (Ev r resp)) → always P (call r).
Proof. intros H tr a E. apply exec_call in E as ->. by repeat constructor. Qed.

Lemma always_bind {A B} (p : prog A) (f : A → prog B) :
  always P p → (∀ a, always P (f a)) → always P (p ≫= f).
Proof.
  intros Hp Hf tr b E. apply exec_bind in E as (tr1 & tr2 & a & -> & H1 & H2).
  apply Forall_app. split; [by eapply Hp|by eapply Hf].
Qed.

Lemma always_foldM {A B} (f : B → A → prog B) l b :
  (∀ b x, always P (f b x)) → always P (foldM f b l).
Proof.
  intros Hf. revert b. induction l; intros b; simpl; [apply always_ret|].
  apply always_bind; auto.
Qed.

Lemma always_if {A} (b : bool) (p q : prog A) :
  always P p → always P q → always P (if b then p else q).
Proof. by destruct b. Qed.
End always.

Lemma always_impl (P Q : event → Prop) {A} (p : prog A) :
  (∀ e, P e → Q e) → always P p → always Q p.
Proof. intros HPQ Hp tr a E. eapply Forall_impl; [by eapply Hp|done]. Qed.

Create HintDb prog.
#[export] Hint Resolve always_ret always_call always_bind always_foldM : prog.

(** ** Postconditions

    [posts p Q]: whatever is answered, every execution of [p] ends with [Q] of its
    trace and its value. *)
Definition posts {A} (p : prog A) (Q : list event → A → Prop) : Prop :=
  ∀ tr a, exec p tr a → Q tr a.

Lemma posts_conseq {A} (p : prog A) (Q Q' : list event → A → Prop) :
  posts p Q → (∀ tr a, Q tr a → Q' tr a) → posts p Q'.
Proof. intros Hp HQ tr a Hx. by apply HQ, Hp. Qed.

Lemma posts_ret {A} (a : A) (Q : list event → A → Prop) : Q [] a → posts (mret a) Q.
Proof. intros HQ tr b [-> ->]. done. Qed.

Lemma posts_bind {A B} (p : prog A) (f : A → prog B) (Q1 : list event → A → Prop) Q2 :
  posts p Q1 → (∀ t1 a, Q1 t1 a → posts (f a) (λ t2 b, Q2 (t1 ++ t2) b)) → posts (p ≫= f) Q2.
Proof.
  intros Hp Hf tr b Hx. apply exec_bind in Hx as (t1 & t2 & a & -> & H1 & H2). by eapply Hf; [apply Hp|].
Qed.

Lemma posts_call {R A} (rq : req R) (f : R → prog A) (Q : list event → A → Prop) :
  (∀ x, posts (f x) (λ t b, Q (Ev rq x :: t) b)) → posts (call rq ≫= f) Q.
Proof.
  intros Hf. eapply (posts_bind _ _ (λ t x, t = [Ev rq x])); [by intros t x ->%exec_call|].
  intros t x ->. apply Hf.
Qed.

(** A loop keeps an invariant of its accumulator and of the trace so far. *)
Lemma posts_foldM {A B} (f : B → A → prog B) (I : list event → B → Prop) l b :
  I [] b →
  (∀ t b x, x ∈ l → I t b → posts (f b x) (λ t' b', I (t ++ t') b')) → posts (foldM f b l) I.
Proof.
  intros HI Hf. change (posts (foldM f b l) (λ t b', I ([] ++ t) b')). revert HI. generalize (@nil event).
  revert b. induction l as [|x l IH]; intros b t HI; simpl.
  { apply posts_ret. by rewrite app_nil_r. }
  eapply posts_bind; [apply Hf; [apply list_elem_of_here|exact HI]|]. intros t1 b1 H1. cbv beta in H1.
  eapply posts_conseq; [apply IH; [intros; by apply Hf; [apply list_elem_of_further|]|exact H1]|].
  intros t2 b2. by rewrite app_assoc.
Qed.

(** A step that may fail, from its two outcomes. *)
Lemma exec_try {A B} (p : prog (res A)) (f : A → prog (res B)) tr y :
  exec (try_bind p f) tr y ↔
  (∃ t1 t2 a, tr = t1 ++ t2 ∧ exec p t1 (Ok a) ∧ exec (f a) t2 y) ∨
  (∃ e, exec p tr (Err e) ∧ y = Err e).
Proof.
  unfold try_bind. rewrite exec_bind. split.
  - intros (t1 & t2 & [a|e] & -> & H1 & H2); [left; by exists t1, t2, a|].
    right. destruct H2 as [-> ->]. exists e. by rewrite app_nil_r.
  - intros [(t1 & t2 & a & -> & H1 & H2)|(e & H1 & ->)]; [by exists t1, t2, (Ok a)|].
    exists tr, [], (Err e). split; [by rewrite app_nil_r|done].
Qed.
Lemma exec_try_ok {A B} (p : prog (res A)) (f : A → prog (res B)) tr b :
  exec (try_bind p f) tr (Ok b) →
  ∃ t1 t2 a, tr = t1 ++ t2 ∧ exec p t1 (Ok a) ∧ exec (f a) t2 (Ok b).
Proof. intros [H|(e & _ & [=])]%exec_try. exact H. Qed.
Lemma exec_wrap_ok {A} msg (p : prog (res A)) tr a : exec (wrap_err msg p) tr (Ok a) → exec p tr (Ok a).
Proof.
  unfold wrap_err. intros (t1 & t2 & [x|e] & -> & H1 & [-> [=]])%exec_bind; subst. by rewrite app_nil_r.
Qed.

Lemma exec_wrap_err {A} msg (p : prog (res A)) tr e :
  exec (wrap_err msg p) tr (Err e) → ∃ e', exec p tr (Err e') ∧ e = wrapf msg e'.
Proof.
  unfold wrap_err. intros (t1 & t2 & [x|e'] & -> & H1 & [-> [=]])%exec_bind; subst. exists e'. by rewrite app_nil_r.
Qed.

Lemma always_try P {A B} (p : prog (res A)) (f : A → prog (res B)) :
  always P p → (∀ a, always P (f a)) → always P (try_bind p f).
Proof. intros Hp Hf. apply always_bind; [done|]. intros [a|e]; [apply Hf|apply always_ret]. Qed.
Lemma always_wrap P {A} msg (p : prog (res A)) : always P p → always P (wrap_err msg p).
Proof. intros Hp. apply always_bind; [done|]. intros a. apply always_ret. Qed.

(** Structural proof of [always]: split binds and branches, close calls. *)
Ltac prove_always :=
  repeat match goal with
  | |- always _ (mret _) => apply always_ret
  | |- always _ (Ret _) => apply always_ret
  | |- always _ (try_bind _ _) => apply always_try; [|intros ?; cbv beta]
  | |- always _ (wrap_err _ _) => apply always_wrap
  | |- always _ (_ ≫= _) => apply always_bind; [|intros ?; cbv beta]
  | |- always _ (call _) => apply always_call; intros ?; simpl
  | |- always _ (foldM _ _ _) => apply always_foldM; intros ? ?
  | |- always _ (if _ then _ else _) => apply always_if
  | |- always _ (match ?x with _ => _ end) => destruct x
  | |- always _ (let '(_, _) := ?x in _) => destruct x
  | |- always _ _ => solve [auto with prog]
  end; try done.

(** An idle server: nothing is stored, every write succeeds as sent, no time passes. *)
Definition echo {R} (r : req R) : R :=
  match r in req R return R with
  | Get _ _ _ => Err not_found
  | ListObjs _ _ _ => Ok []
  | Create _ _ x | Update _ _ x | StatusUpdate _ _ x | PatchFinalizers _ _ x | StatusPatch _ _ _ x => Ok x
  | Delete _ _ _ | DeleteAllOf _ _ _ => Ok tt
  | Eventf _ _ _ _ _ | Sleep _ | Invalidate => tt
  | Now => 0%Z
  | RESTConfigFromKubeConfig b => Ok b
  | NewClient cfg => Ok (RemoteClient cfg)
  | SetOwnerReference _ x | SetControllerReference _ x => Ok x
  | WaitOrDone _ => None
  | ServerResources _ => Ok []
  end.

(** ** Running a program against a server

    [run] replays a program against a deterministic server; every such run is an
    execution. *)
Section run.
Context {W : Type} (h : ∀ R, req R → W → R * W).

Fixpoint run {A} (p : prog A) (w : W) : list event * A * W :=
  match p with
  | Ret a => ([], a, w)
  | Do r k =>
      let '(resp, w') := h _ r w in
      let '(tr, a, w'') := run (k resp) w' in
      (Ev r resp :: tr, a, w'')
  end.

Lemma run_exec {A} (p : prog A) w : exec p (run p w).1.1 (run p w).1.2.
Proof.
  revert w. induction p as [a|R r k IH]; intros w; simpl; [done|].
  destruct (h R r w) as [resp w'] eqn:E.
  specialize (IH resp w'). destruct (run (k resp) w') as [[tr a] w''].
  simpl in *. eauto.
Qed.

Lemma run_bind {A B} (p : prog A) (f : A → prog B) w :
  run (p ≫= f) w =
    let '(t1, a, w1) := run p w in let '(t2, b, w2) := run (f a) w1 in (t1 ++ t2, b, w2).
Proof.
  unfold mbind, prog_bind. revert w. induction p as [a|R r k IH]; intros w; simpl.
  - by destruct (run (f a) w) as [[? ?] ?].
  - destruct (h R r w) as [x w1]. rewrite IH. destruct (run (k x) w1) as [[t1 a] w2].
    by destruct (run (f a) w2) as [[? ?] ?].
Qed.
Lemma run_call {R A} (r : req R) (f : R → prog A) w :
  run (call r ≫= f) w = let '(x, w1) := h R r w in let '(t, b, w2) := run (f x) w1 in (Ev r x :: t, b, w2).
Proof. rewrite run_bind. simpl. destruct (h R r w) as [x w1]. by destruct (run (f x) w1) as [[? ?] ?]. Qed.

(** What a run leaves of the world. *)
Definition final {A} (p : prog A) (w : W) : W := (run p w).2.
Lemma final_ret {A} (a : A) w : final (mret a) w = w.
Proof. done. Qed.
Lemma final_bind {A B} (p : prog A) (f : A → prog B) w :
  final (p ≫= f) w = final (f (run p w).1.2) (final p w).
Proof. unfold final. rewrite run_bind. destruct (run p w) as [[t a] w1]. simpl.
  by destruct (run (f a) w1) as [[? ?] ?]. Qed.
Lemma final_call {R A} (r : req R) (f : R → prog A) w :
  final (call r ≫= f) w = final (f (h R r w).1) (h R r w).2.
Proof. unfold final. rewrite run_call. destruct (h R r w) as [x w1]. simpl. by destruct (run (f x) w1) as [[? ?] ?]. Qed.
Lemma final_try {A B} (p : prog (res A)) (f : A → prog (res B)) w :
  final (try_bind p f) w =
    match (run p w).1.2 with Ok a => final (f a) (final p w) | Err _ => final p w end.
Proof. unfold try_bind. rewrite final_bind. by destruct (run p w).1.2. Qed.
End run.

(** Every program can return: executions exist whatever the server answers. *)
Lemma exec_total {W} (h : ∀ R, req R → W → R * W) {A} (p : prog A) (w : W) :
  ∃ tr a, exec p tr a.
Proof. eexists _, _. apply (run_exec h p w). Qed.

(** ** Properties of single requests

    The classes of requests the safety theorems speak about. *)

(** A request that can change an object of some cluster. *)
Definition mutates {R} (r : req R) : bool :=
  match r with
  | Create _ _ _ | Update _ _ _ | StatusUpdate _ _ _ | PatchFinalizers _ _ _ | Delete _ _ _
  | DeleteAllOf _ _ _ | StatusPatch _ _ _ _ => true
  | _ => false
  end.
Definition ev_mutates (e : event) : bool := match e with Ev r _ => mutates r end.

(** The kind of object a mutating request writes, and through which client. *)
Definition target {R} (r : req R) : option (kind * client) :=
  match r with
  | Create k c _ | Update k c _ | StatusUpdate k c _ | PatchFinalizers k c _ | Delete k c _
  | DeleteAllOf k c _ | StatusPatch k c _ _ => Some (k, c)
  | _ => None
  end.
Definition ev_target (e : event) : option (kind * client) := match e with Ev r _ => target r end.

Definition read_only (e : event) : Prop := ev_target e = None.

Lemma exec_always {A} (P : event → Prop) (p : prog A) tr a : exec p tr a → always P p → Forall P tr.
Proof. intros H Ha. by eapply Ha. Qed.

(** An event that some prefix rules out comes from the rest. *)
Lemma elem_of_rest {P : event → Prop} {tr1 tr2 e} :
  Forall P tr1 → ¬ P e → e ∈ tr1 ++ tr2 → e ∈ tr2.
Proof.
  intros H Hn [Hin|Hin]%elem_of_app; [|done]. rewrite Forall_forall in H. by apply H in Hin.
Qed.

(** An event that a stage rules out comes in what follows the stage. *)
Lemma split_past {P : event → Prop} {t1 t2 pre e post} :
  Forall P t1 → ¬ P e → pre ++ e :: post = t1 ++ t2 → ∃ pre', pre = t1 ++ pre' ∧ t2 = pre' ++ e :: post.
Proof.
  intros HP He Heq. apply app_eq_inv in Heq as [(k & -> & Hk)|(k & -> & Hk)]; [by exists k|].
  destruct k as [|e' k]; [exists []; rewrite !app_nil_r; done|]. exfalso. simplify_eq/=.
  apply Forall_app in HP as [_ HP]. by apply Forall_cons in HP as [? _].
Qed.

(** An event of two stages is in the first or in the second. *)
Lemma stage_of {e : event} {t1 t2 pre post} :
  pre ++ e :: post = t1 ++ t2 →
  (∃ q, t1 = pre ++ e :: q) ∨ ∃ p, pre = t1 ++ p ∧ t2 = p ++ e :: post.
Proof.
  intros Heq. apply app_eq_inv in Heq as [(k & -> & Hk)|(k & -> & Hk)]; [right; by exists k|].
  destruct k as [|e' k]; simplify_eq/=; [right; exists []; by rewrite !app_nil_r|left; by exists k].
Qed.

(** Split an execution of a two-way branch. *)
Lemma exec_if {A} (b : bool) (p q : prog A) tr a :
  exec (if b then p else q) tr a → (b = true ∧ exec p tr a) ∨ (b = false ∧ exec q tr a).
Proof. destruct b; auto. Qed.

(** The workspace a status write sends. *)
Definition wsd_status (e : event) : option WorkspaceDeployment :=
  match e with Ev r _ => match r with StatusUpdate KWSD _ w => Some w | _ => None end end.

(** The workspace a response delivers. *)
Definition wsd_received (e : event) : option WorkspaceDeployment :=
  match e with
  | Ev r x =>
      match r in req R return R → option WorkspaceDeployment with
      | Get KWSD _ _ | Update KWSD _ _ | StatusUpdate KWSD _ _ =>
          λ x, match x with Ok w => Some w | Err _ => None end
      | _ => λ _, None
      end x
  end.
(** The workspace an [Update] sends. *)
Definition wsd_updated (e : event) : option WorkspaceDeployment :=
  match e with Ev r _ => match r with Update KWSD _ w => Some w | _ => None end end.

(** The key under which a single workspace is asked for. *)
Definition asks {R} (r : req R) : option ObjectKey := match r with Get KWSD _ key => Some key | _ => None end.
Definition wsd_asked (e : event) : option ObjectKey := match e with Ev r _ => asks r end.

(** An event that neither reads nor writes a single workspace. *)
Definition calm (e : event) : Prop :=
  (wsd_received e = None ∧ wsd_asked e = None) ∧ ∀ c, ev_target e ≠ Some (KWSD, c).

Ltac prove_calm := prove_always; try (split; [by split|intros; discriminate]).

(** Membership of an event in a concrete trace. *)
Ltac in_trace :=
  first
    [ eassumption
    | apply list_elem_of_here
    | apply list_elem_of_further; in_trace
    | apply elem_of_app; first [left; in_trace | right; in_trace] ].

(** The answer of a read, of whatever kind. *)
Definition get_answer (e : event) : option (sigT (λ k, res (obj k))) :=
  match e with
  | Ev r x =>
      match r in req R return R → option (sigT (λ k, res (obj k))) with
      | Get k _ _ => λ x, Some (existT k x)
      | _ => λ _, None
      end x
  end.
Lemma get_event_inj k c c' key key' (x y : res (obj k)) :
  Ev (Get k c key) x = Ev (Get k c' key') y → x = y.
Proof.
  intros H. apply (f_equal get_answer) in H. cbn in H. apply (inj Some) in H.
  by apply (Eqdep_dec.inj_pair2_eq_dec _ kind_eq_dec) in H.
Qed.
Lemma get_head_inj k c c' key key' (x y : res (obj k)) t t' :
  Ev (Get k c key) x :: t = [Ev (Get k c' key') y] ++ t' → x = y ∧ t = t'.
Proof.
  intros H. split.
  - apply (f_equal head) in H. cbn in H. apply (inj Some) in H. by apply get_event_inj in H.
  - by apply (f_equal tail) in H.
Qed.

(** ** Events justified by what came before them *)
Definition justified (P : list event → event → Prop) (tr : list event) : Prop :=
  ∀ pre e post, tr = pre ++ e :: post → P pre e.

Lemma justified_nil P : justified P [].
Proof. intros pre e post He. by destruct pre. Qed.
Lemma justified_app P t1 t2 : justified P t1 → justified (λ pre, P (t1 ++ pre)) t2 → justified P (t1 ++ t2).
Proof.
  intros H1 H2 pre e post He. symmetry in He. apply stage_of in He as [(q & ->)|(p & -> & ->)]; [by eapply H1|].
  by eapply H2.
Qed.
Lemma justified_cons P e t : P [] e → justified (λ pre, P (e :: pre)) t → justified P (e :: t).
Proof.
  intros He Ht. apply (justified_app P [e]); [|done].
  intros [|e' pre] e2 post; [by intros [= <- _]|by intros [= _ Hx]; destruct pre].
Qed.
Lemma justified_impl (P Q : list event → event → Prop) tr :
  (∀ pre e, P pre e → Q pre e) → justified P tr → justified Q tr.
Proof. intros HPQ HP pre e post He. apply HPQ. by eapply HP. Qed.
Lemma justified_forall (Q : event → Prop) (P : list event → event → Prop) tr :
  Forall Q tr → (∀ pre e, Q e → P pre e) → justified P tr.
Proof.
  intros HQ HP pre e post ->. apply HP. rewrite Forall_forall in HQ. apply HQ. in_trace.
Qed.

Lemma reads_not_mutates e : read_only e → ev_mutates e = false.
Proof. unfold read_only. destruct e as [R rq x]. by destruct rq. Qed.
(** Writes after a stage of reads. *)
Lemma justified_reads (Q : list event → event → Prop) t1 t2 :
  Forall read_only t1 → justified (λ pre e, ev_mutates e = true → Q (t1 ++ pre) e) t2 →
  justified (λ pre e, ev_mutates e = true → Q pre e) (t1 ++ t2).
Proof.
  intros H1 H2. apply justified_app; [|done]. eapply justified_forall; [exact H1|].
  intros pre e He%reads_not_mutates. by rewrite He.
Qed.
Lemma justified_only_reads (Q : list event → event → Prop) t :
  Forall read_only t → justified (λ pre e, ev_mutates e = true → Q pre e) t.
Proof. intros Ht. rewrite <- (app_nil_r t). apply justified_reads; [done|apply justified_nil]. Qed.

(** ** Monitors

    A safety property of handlers is a monitor: a state that follows the events
    and a test of each event in the state reached.  [safe s p Q]: run from monitor
    state [s], every event of [p] passes, and [Q] holds of the state reached and
    the value returned. *)
Section monitor.
Context {S : Type} (step : S → event → S) (ok : S → event → Prop).

Fixpoint accepts (s : S) (tr : list event) : Prop :=
  match tr with
  | [] => True
  | e :: tr => ok s e ∧ accepts (step s e) tr
  end.
Definition after (s : S) (tr : list event) : S := foldl step s tr.
Definition safe {A} (s : S) (p : prog A) (Q : S → A → Prop) : Prop :=
  ∀ tr a, exec p tr a → accepts s tr ∧ Q (after s tr) a.

Lemma accepts_app s tr1 tr2 : accepts s (tr1 ++ tr2) ↔ accepts s tr1 ∧ accepts (after s tr1) tr2.
Proof. revert s. induction tr1 as [|e tr1 IH]; intros s; simpl; [tauto|]. rewrite IH. tauto. Qed.

(** What [accepts] says of one event of a trace. *)
Lemma accepts_event s tr1 e tr2 : accepts s (tr1 ++ e :: tr2) → ok (after s tr1) e.
Proof. rewrite accepts_app. by intros [_ [H _]]. Qed.

Lemma safe_ret {A} s (a : A) (Q : S → A → Prop) : Q s a → safe s (mret a) Q.
Proof. intros HQ tr b [-> ->]%exec_ret. done. Qed.

Lemma safe_bind {A B} s (p : prog A) (f : A → prog B) Q1 Q2 :
  safe s p Q1 → (∀ s' a, Q1 s' a → safe s' (f a) Q2) → safe s (p ≫= f) Q2.
Proof.
  intros Hp Hf tr b H. apply exec_bind in H as (tr1 & tr2 & a & -> & H1 & H2).
  apply Hp in H1 as [Ha HQ]. apply (Hf _ _ HQ) in H2 as [Ha2 HQ2].
  split; [by apply accepts_app|]. unfold after in *. by rewrite foldl_app.
Qed.

Lemma safe_call {R A} s (rq : req R) (f : R → prog A) Q :
  (∀ x, ok s (Ev rq x) ∧ safe (step s (Ev rq x)) (f x) Q) → safe s (call rq ≫= f) Q.
Proof.
  intros H. eapply (safe_bind _ _ _ (λ s' x, s' = step s (Ev rq x) ∧ ok s (Ev rq x))).
  - intros tr x ->%exec_call. simpl. destruct (H x). done.
  - intros s' x [-> _]. apply H.
Qed.

Lemma safe_conseq {A} s (p : prog A) (Q1 Q2 : S → A → Prop) :
  safe s p Q1 → (∀ s' a, Q1 s' a → Q2 s' a) → safe s p Q2.
Proof. intros Hp HQ tr a H. apply Hp in H as [? ?]. auto. Qed.

(** Events the monitor does not see. *)
Definition neutral (e : event) : Prop := ∀ s, ok s e ∧ step s e = s.

Lemma neutral_trace s tr : Forall neutral tr → accepts s tr ∧ after s tr = s.
Proof.
  induction 1 as [|e tr He Htr IH]; [done|]. simpl. destruct (He s) as [? Hs]. unfold after in *. simpl.
  rewrite Hs. destruct IH. done.
Qed.

Lemma safe_neutral {A} s (p : prog A) (Q : S → A → Prop) :
  always neutral p → (∀ tr a, exec p tr a → Q s a) → safe s p Q.
Proof.
  intros Hp HQ tr a H. destruct (neutral_trace s tr) as [Ha Hs]; [by eapply Hp|].
  split; [done|]. rewrite Hs. by eapply HQ.
Qed.

(** A neutral program in front. *)
Lemma safe_skip {A B} s (p : prog A) (f : A → prog B) Q :
  always neutral p → (∀ tr a, exec p tr a → safe s (f a) Q) → safe s (p ≫= f) Q.
Proof.
  intros Hp Hf. eapply (safe_bind _ _ _ (λ s' a, s' = s ∧ ∃ tr, exec p tr a)).
  - apply safe_neutral; [done|]. eauto.
  - intros s' a [-> [tr He]]. by eapply Hf.
Qed.
End monitor.

(** ** Assumptions and guarantees

    [upholds given ok p Q]: as long as every event is [given], every event of [p] is
    [ok] and the value returned satisfies [Q]. *)
Section upholds.
Context (given ok : event → Prop).
Definition upholds {A} (p : prog A) (Q : A → Prop) : Prop :=
  ∀ tr a, exec p tr a → Forall given tr → Forall ok tr ∧ Q a.

Lemma upholds_ret {A} (a : A) (Q : A → Prop) : Q a → upholds (mret a) Q.
Proof. intros HQ tr b [-> ->] _. by split. Qed.
Lemma upholds_bind {A B} (p : prog A) (f : A → prog B) (Q1 : A → Prop) (Q2 : B → Prop) :
  upholds p Q1 → (∀ a, Q1 a → upholds (f a) Q2) → upholds (p ≫= f) Q2.
Proof.
  intros Hp Hf tr b Hx Hg. apply exec_bind in Hx as (t1 & t2 & a & -> & H1 & H2). apply Forall_app in Hg as [G1 G2].
  destruct (Hp _ _ H1 G1) as [O1 Ha]. destruct (Hf a Ha _ _ H2 G2) as [O2 Hb]. split; [by apply Forall_app|done].
Qed.
Lemma upholds_call {R A} (rq : req R) (f : R → prog A) (Q : A → Prop) :
  (∀ x, given (Ev rq x) → ok (Ev rq x) ∧ upholds (f x) Q) → upholds (call rq ≫= f) Q.
Proof.
  intros Hf. eapply (upholds_bind _ _ (λ x, given (Ev rq x))).
  - intros tr x ->%exec_call Hx.
    rewrite Forall_singleton in Hx. rewrite Forall_singleton. split; [by apply Hf|exact Hx].
  - intros x Hx. by apply Hf.
Qed.
Lemma upholds_conseq {A} (p : prog A) (Q1 Q2 : A → Prop) :
  upholds p Q1 → (∀ a, Q1 a → Q2 a) → upholds p Q2.
Proof. intros Hp HQ tr a Hx Hg. destruct (Hp _ _ Hx Hg). auto. Qed.

(** A program whose events are all [ok], alone and in front of another. *)
Lemma upholds_always {A} (p : prog A) (Q : A → Prop) :
  always ok p → (∀ tr a, exec p tr a → Q a) → upholds p Q.
Proof. intros Hp HQ tr a Hx _. split; [by eapply Hp|by eapply HQ]. Qed.
Lemma upholds_front {A B} (p : prog A) (f : A → prog B) (Q : B → Prop) :
  always ok p → (∀ tr a, exec p tr a → upholds (f a) Q) → upholds (p ≫= f) Q.
Proof.
  intros Hp Hf. eapply (upholds_bind _ _ (λ a, ∃ tr, exec p tr a)); [apply upholds_always; eauto|].
  intros a [tr Hx]. by eapply Hf.
Qed.
End upholds.
