(* ===== verification/Gpu.v ===== *)
(** * GPU offerings and availability ([internal/gpu/offering.go], ADR-0002)

    The derivation of the GPU offerings of a cluster and the evaluation of a GPU
    selector against its nodes and pods.  Go's [int64] additions wrap. *)

From S2P Require Import Prelude GoString Api QuantityNano.

Definition DefaultModelLabel : string := "exalsius.ai/gpu-model".
Definition DefaultVendorLabel : string := "exalsius.ai/gpu-vendor".
Definition ResourceNvidiaGPU : string := "nvidia.com/gpu".
Definition ResourceAMDGPU : string := "amd.com/gpu".

Definition defaultProductLabels : gmap string (list string) :=
  <[GPUVendorNVIDIA := ["nvidia.com/gpu.product"]]>
  {[ GPUVendorAMD := ["amd.com/gpu.product-name"; "amd.com/gpu.device-id"] ]}.

Definition gpuLabelPrefixes : list string :=
  ["nvidia.com/"; "amd.com/"; "gpu.hami.io/"; "exalsius.ai/gpu"].

Record VendorResource := { vendor : GPUVendor; resourceName : string }.
Definition vendorResources : list VendorResource :=
  [ {| vendor := GPUVendorNVIDIA; resourceName := ResourceNvidiaGPU |};
    {| vendor := GPUVendorAMD; resourceName := ResourceAMDGPU |} ].

Definition ResourceForVendor (v : GPUVendor) : string :=
  match find_first (λ vr, bool_decide (vendor vr = v)) vendorResources with
  | Some vr => resourceName vr
  | None => ""
  end.

Record Offering := {
  o_Vendor : GPUVendor;
  o_Model : string;
  o_Profile : string;
  o_ResourceName : string;
  o_Total : Z;
  o_Nodes : Z;
  o_Selector : StrMap;
  o_Labels : StrMap
}.

Record Options := {
  ModelLabel : string;
  VendorLabel : string;
  ProductLabels : option (gmap string (list string))
}.
Definition no_options : Options := {| ModelLabel := ""; VendorLabel := ""; ProductLabels := None |}.

Definition modelLabel (o : Options) : string :=
  if bool_decide (ModelLabel o ≠ "") then ModelLabel o else DefaultModelLabel.
Definition vendorLabel (o : Options) : string :=
  if bool_decide (VendorLabel o ≠ "") then VendorLabel o else DefaultVendorLabel.
Definition productLabels (o : Options) (v : GPUVendor) : list string :=
  match ProductLabels o with
  | Some m => default [] (m !! v)
  | None => default [] (defaultProductLabels !! v)
  end.

Record offeringKey := { key_vendor : string; key_profile : string; key_resource : string; key_selector : string }.
#[export] Instance offeringKey_eq_dec : EqDecision offeringKey.
Proof. solve_decision. Defined.
#[export] Instance offeringKey_countable : Countable offeringKey.
Proof.
  refine (inj_countable' (λ k, (key_vendor k, key_profile k, key_resource k, key_selector k))
            (λ t, {| key_vendor := t.1.1.1; key_profile := t.1.1.2; key_resource := t.1.2; key_selector := t.2 |}) _).
  by intros [].
Defined.

Fixpoint first_label (n : Node) (ks : list string) : string * StrMap :=
  match ks with
  | [] => ("", None)
  | k :: ks' =>
      let v := mget (n_Labels n) k in
      if bool_decide (v ≠ "") then (v, Some {[ k := v ]}) else first_label n ks'
  end.

Definition resolveModelSelector (n : Node) (modelLabel : string) (productKeys : list string) : string * StrMap :=
  let m := mget (n_Labels n) modelLabel in
  if bool_decide (m ≠ "") then (m, Some {[ modelLabel := m ]}) else first_label n productKeys.

Definition selectorIdentity (sel : StrMap) : string :=
  let m := default ∅ sel in
  if bool_decide (m = ∅) then "" else write_entries m (sorted_keys m).

Definition nodeIsSchedulable (n : Node) : bool :=
  if n_Unschedulable n then false
  else forallb (λ c, negb (bool_decide (c.1 = "Ready") && bool_decide (c.2 ≠ "True"))) (n_Conditions n).

Definition gpuLabels (n : Node) : StrMap :=
  let out := filter (λ kv : string * string, existsb (HasPrefix kv.1) gpuLabelPrefixes = true) (n_Labels n) in
  if bool_decide (out = ∅) then None else Some out.

Definition podConsumes (p : Pod) : bool :=
  if bool_decide (p_NodeName p = "") then false
  else negb (bool_decide (p_Phase p = "Succeeded") || bool_decide (p_Phase p = "Failed")).

Definition nodeMatchesSelector (n : Node) (selector : gmap string string) : bool :=
  forallb (λ kv, bool_decide (mget (n_Labels n) kv.1 = kv.2)) (map_to_list selector).

Definition BuildSelector (model : string) (raw : StrMap) (opts : Options) : gmap string string :=
  let sel := if bool_decide (model ≠ "") then {[ modelLabel opts := model ]} else ∅ in
  map_assign sel (default ∅ raw).

Definition NodeSelectorForModel (model : string) (opts : Options) : gmap string string :=
  {[ modelLabel opts := model ]}.

Definition FindByModel (offerings : list Offering) (model : string) : option Offering :=
  find_first (λ o, bool_decide (o_Model o = model)) offerings.

Section derive.
Context `{QuantityOps}.

Definition gpuAllocatable (n : Node) (rn : string) : Z :=
  match n_Allocatable n !! rn with Some q => q_Value q | None => 0 end.

(** *** DeriveOfferings *)
Definition derive_vendor (opts : Options) (n : Node) (byKey : gmap offeringKey Offering)
    (vr : VendorResource) : gmap offeringKey Offering :=
  let count := gpuAllocatable n (resourceName vr) in
  if (count <=? 0)%Z then byKey
  else
    let v := mget (n_Labels n) (vendorLabel opts) in
    let vd := if bool_decide (v ≠ "") then v else vendor vr in
    let '(model, selector) := resolveModelSelector n (modelLabel opts) (productLabels opts vd) in
    let key := {| key_vendor := vd; key_profile := ""; key_resource := resourceName vr;
                  key_selector := selectorIdentity selector |} in
    let o := match byKey !! key with
             | Some o => o
             | None => {| o_Vendor := vd; o_Model := model; o_Profile := "";
                          o_ResourceName := resourceName vr; o_Total := 0; o_Nodes := 0;
                          o_Selector := selector; o_Labels := gpuLabels n |}
             end in
    <[key := {| o_Vendor := o_Vendor o; o_Model := o_Model o; o_Profile := o_Profile o;
                o_ResourceName := o_ResourceName o; o_Total := int64_wrap (o_Total o + count);
                o_Nodes := int32_wrap (o_Nodes o + 1); o_Selector := o_Selector o;
                o_Labels := o_Labels o |}]> byKey.

Definition derive_node (opts : Options) (byKey : gmap offeringKey Offering) (n : Node) :=
  if nodeIsSchedulable n then foldl (derive_vendor opts n) byKey vendorResources else byKey.

Definition offering_le (a b : Offering) : Prop :=
  (* not (less b a) *)
  (if bool_decide (o_Model b ≠ o_Model a) then negb (str_ltb (o_Model b) (o_Model a))
   else negb (str_ltb (o_ResourceName b) (o_ResourceName a))) = true.
#[global] Instance offering_le_dec : RelDecision offering_le.
Proof. intros a b. unfold offering_le. apply _. Defined.

(** [iter] is the order in which Go happens to iterate over the map; equal
    elements keep that order. *)
Definition DeriveOfferings (iter : list Offering → list Offering)
    (nodes : list Node) (opts : Options) : list Offering :=
  let byKey := foldl (derive_node opts) ∅ nodes in
  merge_sort offering_le (iter ((map_to_list byKey).*2)).

(** *** Availability of a selector *)
Record avail_acc := { matched : gmap string string; total : Z; av_Found : bool;
                      av_ResourceName : string; av_Vendor : GPUVendor }.
Record SelectorAvailability := {
  Found : bool; Free : Z; sa_ResourceName : string; sa_Vendor : GPUVendor }.

Definition avail_vendor (n : Node) (st : avail_acc) (vr : VendorResource) : avail_acc :=
  let c := gpuAllocatable n (resourceName vr) in
  if (0 <? c)%Z then
    {| matched := <[n_Name n := resourceName vr]> (matched st);
       total := int64_wrap (total st + c);
       av_Found := true;
       av_ResourceName := if bool_decide (av_ResourceName st = "") then resourceName vr else av_ResourceName st;
       av_Vendor := if bool_decide (av_ResourceName st = "") then vendor vr else av_Vendor st |}
  else st.

Definition avail_node (sel : gmap string string) (st : avail_acc) (n : Node) : avail_acc :=
  if negb (nodeIsSchedulable n) || negb (nodeMatchesSelector n sel) then st
  else foldl (avail_vendor n) st vendorResources.

Definition used_container (rn : string) (used : Z) (c : ResourceList) : Z :=
  match c !! rn with Some q => int64_wrap (used + q_Value q) | None => used end.
Definition used_pod (matched : gmap string string) (used : Z) (p : Pod) : Z :=
  match matched !! p_NodeName p with
  | Some rn => if podConsumes p then foldl (used_container rn) used (p_Containers p) else used
  | None => used
  end.

Definition avail_acc0 : avail_acc :=
  {| matched := ∅; total := 0; av_Found := false; av_ResourceName := ""; av_Vendor := "" |}.
Definition clamp (free : Z) : Z := if (free <? 0)%Z then 0 else free.

Definition AvailabilityForSelector (nodes : list Node) (pods : list Pod)
    (sel : gmap string string) : SelectorAvailability :=
  if bool_decide (sel = ∅) then {| Found := false; Free := 0; sa_ResourceName := ""; sa_Vendor := "" |}
  else
    let st := foldl (avail_node sel) avail_acc0 nodes in
    if negb (av_Found st) then
      {| Found := false; Free := 0; sa_ResourceName := av_ResourceName st; sa_Vendor := av_Vendor st |}
    else
      let used := foldl (used_pod (matched st)) 0%Z pods in
      {| Found := true; Free := clamp (int64_wrap (total st - used));
         sa_ResourceName := av_ResourceName st; sa_Vendor := av_Vendor st |}.

(** *** Availability of a model *)
Definition model_vendor (n : Node) (st : gmap string string * Z * bool) (vr : VendorResource) :=
  let c := gpuAllocatable n (resourceName vr) in
  if (0 <? c)%Z then
    (<[n_Name n := resourceName vr]> st.1.1, int64_wrap (st.1.2 + c), true)
  else st.
Definition model_node (opts : Options) (model : string) (st : gmap string string * Z * bool) (n : Node) :=
  if negb (nodeIsSchedulable n) || negb (bool_decide (mget (n_Labels n) (modelLabel opts) = model)) then st
  else foldl (model_vendor n) st vendorResources.

Definition AvailableForModel (nodes : list Node) (pods : list Pod) (model : string) (opts : Options) : Z * bool :=
  let '(matched, total, found) := foldl (model_node opts model) (∅, 0%Z, false) nodes in
  if negb found then (0%Z, false)
  else
    let used := foldl (used_pod matched) 0%Z pods in
    (clamp (int64_wrap (total - used)), true).
End derive.

(** ** Specification vocabulary *)
Section spec.
Context `{QuantityOps}.

(** The node carries every label of the selector. *)
Definition satisfies (n : Node) (sel : gmap string string) : Prop :=
  ∀ k v, sel !! k = Some v → mget (n_Labels n) k = v.

Definition positive (n : Node) (vr : VendorResource) : bool := (0 <? gpuAllocatable n (resourceName vr))%Z.
Definition has_gpu (n : Node) : bool := existsb (positive n) vendorResources.
(** A node the gate counts: schedulable, matching, with a GPU resource. *)
Definition gate_node (sel : gmap string string) (n : Node) : bool :=
  nodeIsSchedulable n && nodeMatchesSelector n sel && has_gpu n.

(** GPUs a node offers over all vendors; the resource it offers them under. *)
Definition capacity (n : Node) : Z :=
  zsum (λ vr, if positive n vr then gpuAllocatable n (resourceName vr) else 0%Z) vendorResources.
Definition node_resource (n : Node) : string :=
  match find_first (positive n) vendorResources with Some vr => resourceName vr | None => "" end.
(** The node does not mix GPU vendors. *)
Definition single_vendor (n : Node) : Prop :=
  ∀ vr1 vr2, vr1 ∈ vendorResources → vr2 ∈ vendorResources →
    positive n vr1 = true → positive n vr2 = true → vr1 = vr2.

Definition requested (rn : string) (c : ResourceList) : Z :=
  match c !! rn with Some q => q_Value q | None => 0%Z end.
(** GPUs a pod holds on the nodes the gate counts. *)
Definition pod_use (sel : gmap string string) (nodes : list Node) (p : Pod) : Z :=
  match find_first (λ n, gate_node sel n && bool_decide (n_Name n = p_NodeName p)) nodes with
  | Some n => if podConsumes p then zsum (requested (node_resource n)) (p_Containers p) else 0%Z
  | None => 0%Z
  end.

Lemma nodeMatchesSelector_spec n sel : nodeMatchesSelector n sel = true ↔ satisfies n sel.
Proof.
  unfold nodeMatchesSelector, satisfies. rewrite forallb_forall. split.
  - intros Hall k v Hk. specialize (Hall (k, v)).
    rewrite <- list_elem_of_In, elem_of_map_to_list in Hall.
    by apply bool_decide_eq_true in Hall.
  - intros Hall [k v] Hin. apply list_elem_of_In, elem_of_map_to_list in Hin.
    apply bool_decide_eq_true. by apply Hall.
Qed.

Lemma gate_node_spec sel n :
  gate_node sel n = true ↔ nodeIsSchedulable n = true ∧ satisfies n sel ∧
    ∃ vr, vr ∈ vendorResources ∧ (0 < gpuAllocatable n (resourceName vr))%Z.
Proof.
  unfold gate_node, has_gpu. rewrite !andb_true_iff, nodeMatchesSelector_spec, existsb_exists.
  unfold positive. setoid_rewrite Z.ltb_lt. setoid_rewrite list_elem_of_In. tauto.
Qed.

(** *** The loop over the nodes *)
Lemma avail_vendor_found n l st :
  av_Found (foldl (avail_vendor n) st l) = av_Found st || existsb (positive n) l.
Proof.
  revert st. induction l as [|vr l IH]; intros st; simpl; [by rewrite orb_false_r|].
  rewrite IH. unfold avail_vendor, positive. case_match; simpl; [by rewrite orb_true_r|done].
Qed.

Lemma avail_node_cases sel st n :
  avail_node sel st n = if gate_node sel n then foldl (avail_vendor n) st vendorResources else st.
Proof.
  unfold avail_node, gate_node. destruct (nodeIsSchedulable n), (nodeMatchesSelector n sel); simpl; try done.
  destruct (has_gpu n) eqn:E; [done|]. unfold has_gpu, positive in E. simpl in E.
  rewrite orb_false_r in E. apply orb_false_iff in E as [E1 E2].
  unfold vendorResources; simpl. unfold avail_vendor; simpl. by rewrite E1, E2.
Qed.

Lemma avail_nodes_found sel nodes st :
  av_Found (foldl (avail_node sel) st nodes) = av_Found st || existsb (gate_node sel) nodes.
Proof.
  revert st. induction nodes as [|n nodes IH]; intros st; simpl; [by rewrite orb_false_r|].
  rewrite IH, avail_node_cases. destruct (gate_node sel n) eqn:E; [|done].
  rewrite avail_vendor_found. unfold gate_node, has_gpu in E.
  apply andb_true_iff in E as [_ ->]. by rewrite !orb_true_r.
Qed.

Lemma avail_vendor_total n l st t :
  total st = int64_wrap t →
  total (foldl (avail_vendor n) st l) =
  int64_wrap (t + zsum (λ vr, if positive n vr then gpuAllocatable n (resourceName vr) else 0%Z) l).
Proof.
  revert st t. induction l as [|vr l IH]; intros st t Ht.
  - unfold zsum; simpl. rewrite Ht. f_equal; lia.
  - rewrite zsum_cons. simpl. unfold avail_vendor at 2, positive at 1. case_match.
    + rewrite (IH _ (t + gpuAllocatable n (resourceName vr))%Z); [f_equal; lia|].
      simpl. by rewrite Ht, int64_wrap_add_l.
    + rewrite (IH _ t Ht). f_equal; lia.
Qed.

Lemma avail_nodes_total sel nodes st t :
  total st = int64_wrap t →
  total (foldl (avail_node sel) st nodes) =
  int64_wrap (t + zsum (λ n, if gate_node sel n then capacity n else 0%Z) nodes).
Proof.
  revert st t. induction nodes as [|n nodes IH]; intros st t Ht.
  - unfold zsum; simpl. rewrite Ht. f_equal; lia.
  - rewrite zsum_cons; simpl. rewrite avail_node_cases. destruct (gate_node sel n).
    + rewrite (IH _ (t + capacity n)%Z); [f_equal; lia|]. by apply avail_vendor_total.
    + rewrite (IH _ t Ht). f_equal; lia.
Qed.

Lemma avail_vendor_matched_ne n l st x :
  n_Name n ≠ x → matched (foldl (avail_vendor n) st l) !! x = matched st !! x.
Proof.
  intros Hx. revert st. induction l as [|vr l IH]; intros st; simpl; [done|].
  rewrite IH. unfold avail_vendor. case_match; [|done]. simpl. by rewrite lookup_insert_ne.
Qed.

Lemma avail_nodes_matched_ne sel nodes st x :
  (∀ n, n ∈ nodes → gate_node sel n = true → n_Name n ≠ x) →
  matched (foldl (avail_node sel) st nodes) !! x = matched st !! x.
Proof.
  revert st. induction nodes as [|n nodes IH]; intros st Hx; simpl; [done|].
  rewrite IH; [|intros; apply Hx; [set_solver|done]].
  rewrite avail_node_cases. destruct (gate_node sel n) eqn:E; [|done].
  apply avail_vendor_matched_ne, Hx; [set_solver|done].
Qed.

Lemma avail_vendor_matched_eq n st :
  has_gpu n = true → single_vendor n →
  matched (foldl (avail_vendor n) st vendorResources) !! n_Name n = Some (node_resource n).
Proof.
  intros Hg Hs. unfold has_gpu, node_resource, vendorResources in *; simpl in *.
  set (vn := {| vendor := GPUVendorNVIDIA; resourceName := ResourceNvidiaGPU |}) in *.
  set (va := {| vendor := GPUVendorAMD; resourceName := ResourceAMDGPU |}) in *.
  assert (Hne : positive n vn = true → positive n va = false).
  { intros H1. destruct (positive n va) eqn:E; [|done].
    assert (vn = va); [|done]. apply Hs; [unfold vendorResources; set_solver..|done|done]. }
  unfold avail_vendor at 1 2. fold (positive n vn) (positive n va).
  destruct (positive n vn) eqn:E1.
  - rewrite Hne by done. simpl. by rewrite lookup_insert_eq.
  - destruct (positive n va) eqn:E2; [|done]. simpl. by rewrite lookup_insert_eq.
Qed.

Lemma avail_nodes_matched_eq sel nodes st n :
  NoDup (n_Name <$> nodes) → n ∈ nodes → gate_node sel n = true → single_vendor n →
  matched (foldl (avail_node sel) st nodes) !! n_Name n = Some (node_resource n).
Proof.
  revert st. induction nodes as [|m nodes IH]; intros st Hnd Hin Hg Hs; [set_solver|].
  rewrite fmap_cons, NoDup_cons in Hnd. destruct Hnd as [Hm Hnd]. simpl.
  apply elem_of_cons in Hin as [->|Hin]; [|by apply IH].
  rewrite avail_nodes_matched_ne.
  - rewrite avail_node_cases, Hg. apply avail_vendor_matched_eq; [|done].
    unfold gate_node in Hg. by apply andb_true_iff in Hg as [_ Hg].
  - intros n' Hn' _ Heq. apply Hm. rewrite <- Heq. by apply list_elem_of_fmap_2.
Qed.

Lemma avail_nodes_matched sel nodes x :
  NoDup (n_Name <$> nodes) → (∀ n, n ∈ nodes → single_vendor n) →
  matched (foldl (avail_node sel) avail_acc0 nodes) !! x =
  node_resource <$> find_first (λ n, gate_node sel n && bool_decide (n_Name n = x)) nodes.
Proof.
  intros Hnd Hs. destruct (find_first _ nodes) as [n|] eqn:E; simpl.
  - apply find_first_Some in E as (Hin & Hb & _).
    apply andb_true_iff in Hb as [Hg Hx]. apply bool_decide_eq_true in Hx as <-.
    apply avail_nodes_matched_eq; auto.
  - rewrite avail_nodes_matched_ne; [done|]. intros n Hin Hg Hx.
    apply find_first_None in E. rewrite Forall_forall in E. specialize (E n Hin).
    simpl in E. rewrite Hg, bool_decide_eq_true_2 in E; done.
Qed.

(** *** The loop over the pods *)
Lemma used_containers rn l u :
  foldl (used_container rn) (int64_wrap u) l = int64_wrap (u + zsum (requested rn) l).
Proof.
  apply foldl_wrap_step. intros acc c. unfold used_container, requested.
  case_match; [apply int64_wrap_add_l|f_equal; lia].
Qed.

Lemma used_pods sel nodes pods u :
  NoDup (n_Name <$> nodes) → (∀ n, n ∈ nodes → single_vendor n) →
  foldl (used_pod (matched (foldl (avail_node sel) avail_acc0 nodes))) (int64_wrap u) pods =
  int64_wrap (u + zsum (pod_use sel nodes) pods).
Proof.
  intros Hnd Hs. apply foldl_wrap_step. intros acc p. unfold used_pod, pod_use.
  rewrite avail_nodes_matched by done.
  destruct (find_first _ nodes); simpl; [|f_equal; lia].
  destruct (podConsumes p); [apply used_containers|f_equal; lia].
Qed.

Definition gate_capacity (sel : gmap string string) (nodes : list Node) : Z :=
  zsum (λ n, if gate_node sel n then capacity n else 0%Z) nodes.
Definition gate_usage (sel : gmap string string) (nodes : list Node) (pods : list Pod) : Z :=
  zsum (pod_use sel nodes) pods.

(** A selector is found exactly when some schedulable node carries all its
    labels and advertises a GPU resource. *)
Lemma availability_found_iff nodes pods sel :
  Found (AvailabilityForSelector nodes pods sel) = true ↔
  sel ≠ ∅ ∧ ∃ n, n ∈ nodes ∧ nodeIsSchedulable n = true ∧ satisfies n sel ∧
    ∃ vr, vr ∈ vendorResources ∧ (0 < gpuAllocatable n (resourceName vr))%Z.
Proof.
  unfold AvailabilityForSelector. case_bool_decide as Hsel; [naive_solver|].
  rewrite avail_nodes_found. simpl.
  destruct (existsb (gate_node sel) nodes) eqn:E; simpl.
  - apply existsb_exists in E as (n & Hin & Hg). apply list_elem_of_In in Hin.
    apply gate_node_spec in Hg. split; [intros _; split; [done|]; by exists n|done].
  - split; [done|]. intros [_ (n & Hin & Hr)]. rewrite <- gate_node_spec in Hr.
    assert (existsb (gate_node sel) nodes = true); [|congruence].
    apply existsb_exists. exists n. by rewrite <- list_elem_of_In.
Qed.

Lemma availability_free nodes pods sel :
  NoDup (n_Name <$> nodes) → (∀ n, n ∈ nodes → single_vendor n) →
  (0 ≤ gate_capacity sel nodes < 2 ^ 63)%Z → (0 ≤ gate_usage sel nodes pods < 2 ^ 63)%Z →
  Found (AvailabilityForSelector nodes pods sel) = true →
  Free (AvailabilityForSelector nodes pods sel) =
    Z.max 0 (gate_capacity sel nodes - gate_usage sel nodes pods).
Proof.
  intros Hnd Hs Hc Hu. unfold AvailabilityForSelector. case_bool_decide; [done|].
  case_match; [done|]. intros _. simpl.
  rewrite (avail_nodes_total sel nodes avail_acc0 0) by done.
  pose proof (used_pods sel nodes pods 0 Hnd Hs) as Hup. change (int64_wrap 0) with 0%Z in Hup.
  rewrite Hup.
  rewrite !Z.add_0_l. fold (gate_capacity sel nodes) (gate_usage sel nodes pods).
  rewrite (int64_wrap_id (gate_capacity sel nodes)) by (unfold int64_range; lia).
  rewrite (int64_wrap_id (gate_usage sel nodes pods)) by (unfold int64_range; lia).
  rewrite int64_wrap_id by (unfold int64_range; lia).
  unfold clamp. case_match eqn:E; lia.
Qed.

(** C15: the free count of the GPU gate is the allocatable GPUs of the
    schedulable nodes matching the selector minus the GPUs the pods on those
    nodes request, never below zero (on clusters whose nodes do not mix
    vendors, while the sums fit an int64). *)
Theorem availability_free_spec nodes pods sel :
  NoDup (n_Name <$> nodes) → (∀ n, n ∈ nodes → single_vendor n) →
  (0 ≤ gate_capacity sel nodes < 2 ^ 63)%Z → (0 ≤ gate_usage sel nodes pods < 2 ^ 63)%Z →
  Found (AvailabilityForSelector nodes pods sel) = true →
  Free (AvailabilityForSelector nodes pods sel) =
    Z.max 0 (gate_capacity sel nodes - gate_usage sel nodes pods).
Proof. apply availability_free. Qed.

(** *** The resource the gate reports *)
(** The resource and vendor reported belong to a node that matches. *)
Definition acc_ok (sel : gmap string string) (nodes : list Node) (st : avail_acc) : Prop :=
  (av_Found st = false ∧ av_ResourceName st = "") ∨
  ∃ n vr, n ∈ nodes ∧ gate_node sel n = true ∧ vr ∈ vendorResources ∧ positive n vr = true ∧
    av_ResourceName st = resourceName vr ∧ av_Vendor st = vendor vr.

Lemma vendorResources_nonempty vr : vr ∈ vendorResources → resourceName vr ≠ "".
Proof. unfold vendorResources. intros [->|[->|Hin%elem_of_nil]%elem_of_cons]%elem_of_cons; done. Qed.

Lemma avail_vendor_ok sel nodes n l st :
  n ∈ nodes → gate_node sel n = true → (∀ vr, vr ∈ l → vr ∈ vendorResources) →
  acc_ok sel nodes st → acc_ok sel nodes (foldl (avail_vendor n) st l).
Proof.
  intros Hin Hg. revert st. induction l as [|vr l IH]; intros st Hl Hok; simpl; [done|].
  apply IH; [set_solver|]. unfold avail_vendor. case_match eqn:E; [|done]. right.
  destruct Hok as [[_ Hr]|(m & vr' & H1 & H2 & H3 & H4 & H5 & H6)].
  - exists n, vr. simpl. rewrite bool_decide_eq_true_2 by done. split_and!; try done. set_solver.
  - exists m, vr'. simpl. rewrite bool_decide_eq_false_2; [done|].
    rewrite H5. by apply vendorResources_nonempty.
Qed.

Lemma avail_nodes_ok sel all nodes st :
  (∀ n, n ∈ nodes → n ∈ all) → acc_ok sel all st → acc_ok sel all (foldl (avail_node sel) st nodes).
Proof.
  revert st. induction nodes as [|n nodes IH]; intros st Hsub Hok; simpl; [done|].
  apply IH; [set_solver|]. rewrite avail_node_cases. destruct (gate_node sel n) eqn:E; [|done].
  apply avail_vendor_ok; [set_solver|done|done|done].
Qed.

(** passing the existence gate means placeable: when the gate finds the
    selector, some schedulable node carries every label of exactly that
    selector (the one injected as the chart's nodeSelector) and advertises the
    very extended resource the chart is told to request. *)
Theorem gate_found_placeable nodes pods sel :
  Found (AvailabilityForSelector nodes pods sel) = true →
  ∃ n, n ∈ nodes ∧ nodeIsSchedulable n = true ∧ satisfies n sel ∧
    (0 < gpuAllocatable n (sa_ResourceName (AvailabilityForSelector nodes pods sel)))%Z ∧
    ResourceForVendor (sa_Vendor (AvailabilityForSelector nodes pods sel)) =
      sa_ResourceName (AvailabilityForSelector nodes pods sel).
Proof.
  intros HF. pose proof HF as Hx. revert HF Hx. unfold AvailabilityForSelector at 1 2.
  case_bool_decide as Hsel; [done|]. case_match eqn:E; [done|]. intros _ _.
  apply negb_false_iff in E.
  destruct (avail_nodes_ok sel nodes nodes avail_acc0) as [[Hf _]|(n & vr & Hin & Hg & Hvr & Hpos & Hr & Hv)];
    [done|by left|congruence|].
  apply gate_node_spec in Hg as (Hs & Hsat & _).
  exists n. unfold AvailabilityForSelector. rewrite bool_decide_eq_false_2 by done. rewrite E. simpl.
  rewrite Hr, Hv. split_and!; try done; [by apply Z.ltb_lt|].
  unfold vendorResources in Hvr.
  by apply elem_of_cons in Hvr as [->|[->|Hnil%elem_of_nil]%elem_of_cons].
Qed.
End spec.

(** ** AvailabilityForSelector generalises AvailableForModel *)
Section equivalence.
Context `{QuantityOps}.

Definition acc_sim (st : avail_acc) (st' : gmap string string * Z * bool) : Prop :=
  matched st = st'.1.1 ∧ total st = st'.1.2 ∧ av_Found st = st'.2.

Lemma vendor_sim n l st st' :
  acc_sim st st' → acc_sim (foldl (avail_vendor n) st l) (foldl (model_vendor n) st' l).
Proof.
  revert st st'. induction l as [|vr l IH]; intros st st' Hs; simpl; [done|]. apply IH.
  destruct Hs as (H1 & H2 & H3). unfold avail_vendor, model_vendor, acc_sim.
  case_match; simpl; [by rewrite H1, H2|done].
Qed.

Lemma matches_singleton n k v : nodeMatchesSelector n {[ k := v ]} = bool_decide (mget (n_Labels n) k = v).
Proof.
  unfold nodeMatchesSelector. rewrite map_to_list_singleton. simpl. by rewrite andb_true_r.
Qed.

Lemma nodes_sim opts model nodes st st' :
  acc_sim st st' →
  acc_sim (foldl (avail_node {[ modelLabel opts := model ]}) st nodes)
          (foldl (model_node opts model) st' nodes).
Proof.
  revert st st'. induction nodes as [|n nodes IH]; intros st st' Hs; simpl; [done|]. apply IH.
  unfold avail_node, model_node. rewrite matches_singleton. case_match; [done|]. by apply vendor_sim.
Qed.

(** C40: a request by model and the same request written as a label selector
    see the same GPUs: AvailableForModel is AvailabilityForSelector at the
    selector the model name stands for. *)
Theorem available_for_model_is_selector nodes pods model opts :
  let sa := AvailabilityForSelector nodes pods (NodeSelectorForModel model opts) in
  AvailableForModel nodes pods model opts = (Free sa, Found sa).
Proof.
  unfold AvailabilityForSelector, AvailableForModel, NodeSelectorForModel.
  rewrite bool_decide_eq_false_2 by (intros Hm; apply (f_equal size) in Hm; by rewrite map_size_singleton in Hm).
  destruct (nodes_sim opts model nodes avail_acc0 (∅, 0%Z, false)) as (H1 & H2 & H3); [done|].
  destruct (foldl (model_node opts model) _ nodes) as [[m t] f]. simpl in *.
  rewrite H1, H2, H3. by destruct f.
Qed.
End equivalence.

(** ** Concrete clusters *)
Definition gpu_node (name : string) (labels : gmap string string) (rn : string) (count : Z) : Node :=
  {| n_Name := name; n_Labels := labels; n_Unschedulable := false; n_Conditions := [("Ready", "True")];
     n_Allocatable := {[ rn := units count ]} |}.
Definition gpu_pod (node rn : string) (count : Z) : Pod :=
  {| p_NodeName := node; p_Phase := "Running"; p_Containers := [ {[ rn := units count ]} ] |}.
Definition h100 : gmap string string := {[ DefaultModelLabel := "H100" ]}.

Lemma nvidia_node_single_vendor name labels count :
  single_vendor (gpu_node name labels ResourceNvidiaGPU count).
Proof.
  intros vr1 vr2 H1 H2. unfold vendorResources in *.
  apply elem_of_cons in H1 as [->|[->|[]%elem_of_nil]%elem_of_cons];
  apply elem_of_cons in H2 as [->|[->|[]%elem_of_nil]%elem_of_cons]; try done;
  unfold positive, gpuAllocatable; simpl; rewrite !lookup_singleton_ne by done; done.
Qed.

Lemma availability_free_spec_witness :
  Free (AvailabilityForSelector [gpu_node "n1" h100 ResourceNvidiaGPU 8]
          [gpu_pod "n1" ResourceNvidiaGPU 3] h100) = 5%Z.
Proof.
  rewrite availability_free_spec.
  - vm_compute. reflexivity.
  - apply NoDup_singleton.
  - intros n ->%list_elem_of_singleton. apply nvidia_node_single_vendor.
  - vm_compute. split; [discriminate|reflexivity].
  - vm_compute. split; [discriminate|reflexivity].
  - vm_compute. reflexivity.
Defined.

Lemma gate_found_placeable_witness :
  ∃ n, n ∈ [gpu_node "n1" h100 ResourceNvidiaGPU 8] ∧ nodeIsSchedulable n = true ∧ satisfies n h100.
Proof.
  destruct (gate_found_placeable [gpu_node "n1" h100 ResourceNvidiaGPU 8] [] h100)
    as (n & H1 & H2 & H3 & _); [vm_compute; reflexivity|].
  exists n. split; [exact H1|split; [exact H2|exact H3]].
Defined.

(** The capacity half of the gate does not look at one vendor's resource: with a
    raw selector that matches nodes of two vendors, an NVIDIA node with every GPU
    taken and an AMD node with eight free, the gate reports eight free GPUs but
    tells the chart to request [nvidia.com/gpu], of which none is free. *)
Theorem mixed_vendor_capacity_overcounted :
  let pool : gmap string string := {[ "pool" := "gpu" ]} in
  let nodes := [gpu_node "n1" pool ResourceNvidiaGPU 8; gpu_node "n2" pool ResourceAMDGPU 8] in
  let pods := [gpu_pod "n1" ResourceNvidiaGPU 8] in
  let sa := AvailabilityForSelector nodes pods pool in
  Found sa = true ∧ Free sa = 8%Z ∧ sa_ResourceName sa = ResourceNvidiaGPU ∧
  zsum (λ n, gpuAllocatable n ResourceNvidiaGPU) nodes =
    zsum (λ p, zsum (requested ResourceNvidiaGPU) (p_Containers p)) pods.
Proof. by vm_compute. Qed.
