(* ===== verification/Offerings.v ===== *)
(** * What the GPU offerings say ([internal/gpu/offering.go], [DeriveOfferings])

    The offerings a cluster advertises group its GPUs, in order, without loss; and
    the gate of the workspace controller accepts what is advertised. *)

From Stdlib Require Import Ascii.
From S2P Require Import Prelude GoString Api QuantityNano Gpu.

Section offerings.
Context `{QuantityOps}.

(** ** The GPUs of a cluster: one contribution per schedulable node and resource *)
Definition contribution : Type := Node * VendorResource.
Definition ct_count (c : contribution) : Z := gpuAllocatable c.1 (resourceName c.2).
Definition contributions_of (n : Node) : list contribution :=
  if nodeIsSchedulable n then pair n <$> filter (λ vr, positive n vr = true) vendorResources else [].
Definition contributions (nodes : list Node) : list contribution := nodes ≫= contributions_of.
(** The GPUs of the schedulable nodes, over all vendors. *)
Definition cluster_gpus (nodes : list Node) : Z :=
  zsum (λ n, if nodeIsSchedulable n then capacity n else 0%Z) nodes.

Context (opts : Options).
Definition ct_vendor (c : contribution) : GPUVendor :=
  let v := mget (n_Labels c.1) (vendorLabel opts) in
  if bool_decide (v ≠ "") then v else vendor c.2.
Definition ct_model (c : contribution) : string * StrMap :=
  resolveModelSelector c.1 (modelLabel opts) (productLabels opts (ct_vendor c)).
Definition ct_key (c : contribution) : offeringKey :=
  {| key_vendor := ct_vendor c; key_profile := ""; key_resource := resourceName c.2;
     key_selector := selectorIdentity (ct_model c).2 |}.
Definition of_key (k : offeringKey) (cs : list contribution) : list contribution :=
  filter (λ c, ct_key c = k) cs.
(** The offering that a group of contributions makes up: described by the first,
    counting all. *)
Definition offering_of (cs : list contribution) : option Offering :=
  match cs with
  | [] => None
  | c :: _ =>
      Some {| o_Vendor := ct_vendor c; o_Model := (ct_model c).1; o_Profile := "";
              o_ResourceName := resourceName c.2; o_Total := int64_wrap (zsum ct_count cs);
              o_Nodes := int32_wrap (Z.of_nat (length cs)); o_Selector := (ct_model c).2;
              o_Labels := gpuLabels c.1 |}
  end.

(** ** The loop groups *)
Definition derive_step (m : gmap offeringKey Offering) (c : contribution) : gmap offeringKey Offering :=
  derive_vendor opts c.1 m c.2.

Lemma derive_skip n m vr : positive n vr = false → derive_vendor opts n m vr = m.
Proof. unfold positive, derive_vendor. intros Hp%Z.ltb_ge. case_match eqn:E; [done|]. lia. Qed.
Lemma derive_vendors n l m :
  foldl (derive_vendor opts n) m l = foldl derive_step m (pair n <$> filter (λ vr, positive n vr = true) l).
Proof.
  revert m. induction l as [|vr l IH]; intros m; [done|]. cbn [foldl]. rewrite filter_cons. case_decide as Hp.
  - cbn [fmap list_fmap foldl]. apply IH.
  - rewrite derive_skip by (by destruct (positive n vr)). apply IH.
Qed.
Lemma derive_contributions nodes m : foldl (derive_node opts) m nodes = foldl derive_step m (contributions nodes).
Proof.
  revert m. induction nodes as [|n nodes IH]; intros m; [done|].
  unfold contributions. cbn [foldl]. rewrite bind_cons, foldl_app, IH. f_equal.
  unfold derive_node, contributions_of. destruct (nodeIsSchedulable n); [apply derive_vendors|done].
Qed.

Lemma contribution_positive c nodes : c ∈ contributions nodes → (0 < ct_count c)%Z.
Proof.
  unfold contributions, contributions_of. intros (n & Hc & _)%list_elem_of_bind.
  destruct (nodeIsSchedulable n); [|by apply not_elem_of_nil in Hc].
  apply list_elem_of_fmap in Hc as (vr & -> & [Hp _]%list_elem_of_filter). by apply Z.ltb_lt in Hp.
Qed.

(** One step: the contribution joins the group of its key. *)
Definition grow (o : Offering) (count : Z) : Offering :=
  {| o_Vendor := o_Vendor o; o_Model := o_Model o; o_Profile := o_Profile o; o_ResourceName := o_ResourceName o;
     o_Total := int64_wrap (o_Total o + count); o_Nodes := int32_wrap (o_Nodes o + 1);
     o_Selector := o_Selector o; o_Labels := o_Labels o |}.
Definition seed (c : contribution) : Offering :=
  {| o_Vendor := ct_vendor c; o_Model := (ct_model c).1; o_Profile := ""; o_ResourceName := resourceName c.2;
     o_Total := 0; o_Nodes := 0; o_Selector := (ct_model c).2; o_Labels := gpuLabels c.1 |}.
Lemma derive_step_eq m c :
  (0 < ct_count c)%Z →
  derive_step m c = <[ct_key c := grow (default (seed c) (m !! ct_key c)) (ct_count c)]> m.
Proof.
  intros Hc. unfold derive_step, derive_vendor. change (gpuAllocatable c.1 (resourceName c.2)) with (ct_count c).
  cbv zeta. rewrite (proj2 (Z.leb_gt _ _) Hc). unfold ct_key, seed, ct_model, ct_vendor. cbv zeta.
  destruct (resolveModelSelector _ _ _). simpl. by destruct (m !! _).
Qed.
Lemma offering_of_app cs c :
  offering_of (cs ++ [c]) = Some (grow (default (seed c) (offering_of cs)) (ct_count c)).
Proof.
  destruct cs as [|c0 cs]; cbn [app offering_of default from_option id]; unfold grow, seed;
    cbn [o_Vendor o_Model o_Profile o_ResourceName o_Total o_Nodes o_Selector o_Labels].
  - do 3 f_equal. unfold zsum. simpl. lia.
  - rewrite int64_wrap_add_l, int32_wrap_add_l. f_equal. f_equal.
    + f_equal. rewrite !zsum_cons, zsum_app, zsum_cons. change (zsum ct_count []) with 0%Z. lia.
    + f_equal. cbn [length]. rewrite length_app. cbn [length]. lia.
Qed.
Lemma derive_lookup cs k :
  (∀ c, c ∈ cs → 0 < ct_count c)%Z → foldl derive_step ∅ cs !! k = offering_of (of_key k cs).
Proof.
  revert k. induction cs as [|c cs IH] using rev_ind; intros k Hcs; [done|].
  rewrite foldl_app. cbn [foldl]. rewrite derive_step_eq by (apply Hcs; set_solver).
  rewrite IH by set_solver. unfold of_key at 2. rewrite filter_app, filter_cons, filter_nil. case_decide as Hk.
  - subst k. by rewrite lookup_insert_eq, offering_of_app.
  - rewrite lookup_insert_ne, app_nil_r by done. apply IH. set_solver.
Qed.

(** ** The order of the result *)
Lemma offering_le_iff a b :
  offering_le a b ↔ str_ltb (o_Model a) (o_Model b) = true ∨
    o_Model a = o_Model b ∧ str_ltb (o_ResourceName b) (o_ResourceName a) = false.
Proof.
  unfold offering_le. case_bool_decide as Hm; rewrite negb_true_iff.
  - split; [|intros [Hl|[He _]]; [by apply str_ltb_asym|congruence]].
    intros Hf. left. destruct (str_ltb (o_Model a) (o_Model b)) eqn:E; [done|].
    by destruct Hm; apply str_ltb_tricho.
  - rewrite Hm, str_ltb_irrefl. naive_solver.
Qed.
#[global] Instance offering_le_total : Total offering_le.
Proof.
  intros a b. rewrite !offering_le_iff.
  destruct (str_ltb (o_Model a) (o_Model b)) eqn:E1; [tauto|].
  destruct (str_ltb (o_Model b) (o_Model a)) eqn:E2; [tauto|].
  pose proof (str_ltb_tricho _ _ E1 E2) as ->.
  destruct (str_ltb (o_ResourceName b) (o_ResourceName a)) eqn:E3; [|tauto]. apply str_ltb_asym in E3. tauto.
Qed.
#[global] Instance offering_le_trans : Transitive offering_le.
Proof.
  intros a b c. rewrite !offering_le_iff. intros [H1|[H1 H2]] [H3|[H3 H4]].
  - left. by eapply str_ltb_trans.
  - left. by rewrite <- H3.
  - left. by rewrite H1.
  - right. split; [congruence|]. destruct (str_ltb (o_ResourceName c) (o_ResourceName a)) eqn:E; [|done].
    destruct (str_ltb (o_ResourceName b) (o_ResourceName c)) eqn:E2.
    + by rewrite (str_ltb_trans _ _ _ E2 E) in H2.
    + pose proof (str_ltb_tricho _ _ E2 H4) as Heq. congruence.
Qed.

Definition keys_of (cs : list contribution) : list offeringKey := remove_dups (ct_key <$> cs).
Lemma derived_values iter nodes :
  (∀ l, iter l ≡ₚ l) →
  DeriveOfferings iter nodes opts ≡ₚ
    omap (λ k, offering_of (of_key k (contributions nodes))) (keys_of (contributions nodes)).
Proof.
  intros Hi. unfold DeriveOfferings. cbv zeta. rewrite merge_sort_Permutation, Hi, derive_contributions.
  set (cs := contributions nodes).
  assert (Hp : ∀ c, c ∈ cs → (0 < ct_count c)%Z) by (intros c; apply contribution_positive).
  rewrite <- (omap_lookup_values _ (keys_of cs)).
  - apply reflexive_eq, list_omap_ext, Forall_Forall2_diag, Forall_forall. intros k _. by apply derive_lookup.
  - apply NoDup_remove_dups.
  - intros k Hk. rewrite derive_lookup in Hk by done. apply elem_of_remove_dups, list_elem_of_fmap.
    unfold of_key in Hk. destruct (filter _ cs) as [|c l] eqn:E; [by destruct Hk|].
    exists c. assert (c ∈ filter (λ c, ct_key c = k) cs) as [??]%list_elem_of_filter by (rewrite E; by left). done.
Qed.

(** ** Sums over the contributions *)
Lemma contributions_sum (P : Node → bool) nodes :
  zsum (λ c, if P c.1 then ct_count c else 0%Z) (contributions nodes) =
  zsum (λ n, if nodeIsSchedulable n && P n then capacity n else 0%Z) nodes.
Proof.
  induction nodes as [|n nodes IH]; [done|]. unfold contributions in *.
  rewrite bind_cons, zsum_app, zsum_cons, IH. f_equal. unfold contributions_of, capacity.
  destruct (nodeIsSchedulable n); [|done]. rewrite zsum_fmap, zsum_filter. unfold ct_count. simpl.
  destruct (positive n {| vendor := GPUVendorNVIDIA; resourceName := ResourceNvidiaGPU |}),
    (positive n {| vendor := GPUVendorAMD; resourceName := ResourceAMDGPU |}), (P n); reflexivity.
Qed.
Lemma contributions_total nodes : zsum ct_count (contributions nodes) = cluster_gpus nodes.
Proof.
  etrans; [apply (contributions_sum (λ _, true))|]. unfold cluster_gpus. apply zsum_ext.
  intros n _. by rewrite andb_true_r.
Qed.
Lemma contributions_match sel nodes :
  zsum (λ c, if nodeMatchesSelector c.1 sel then ct_count c else 0%Z) (contributions nodes) = gate_capacity sel nodes.
Proof.
  rewrite (contributions_sum (λ n, nodeMatchesSelector n sel)). unfold gate_capacity. apply zsum_ext.
  intros n _. unfold gate_node, has_gpu, capacity.
  destruct (nodeIsSchedulable n && nodeMatchesSelector n sel); [|done]. simpl.
  destruct (positive n {| vendor := GPUVendorNVIDIA; resourceName := ResourceNvidiaGPU |}),
    (positive n {| vendor := GPUVendorAMD; resourceName := ResourceAMDGPU |}); reflexivity.
Qed.
Lemma group_le nodes k : (zsum ct_count (of_key k (contributions nodes)) ≤ cluster_gpus nodes)%Z.
Proof.
  rewrite <- contributions_total. unfold of_key. rewrite zsum_filter. apply zsum_le. intros c Hc.
  apply contribution_positive in Hc. case_decide; lia.
Qed.
Lemma group_nonneg nodes k : (0 ≤ zsum ct_count (of_key k (contributions nodes)))%Z.
Proof. apply zsum_nonneg. intros c [_ Hc%contribution_positive]%list_elem_of_filter. lia. Qed.
End offerings.

(** C17: The advertised offerings are the cluster's GPUs, grouped.  They are sorted by
    model and resource; there is one for every vendor, resource and selector some
    schedulable node contributes to, described by the first such node and counting
    all of them; and together they count every GPU of the schedulable nodes once. *)
Theorem offerings_spec `{QuantityOps} opts iter nodes :
  (∀ l, iter l ≡ₚ l) →
  let cs := contributions nodes in
  let out := DeriveOfferings iter nodes opts in
  StronglySorted offering_le out ∧
  out ≡ₚ omap (λ k, offering_of opts (of_key opts k cs)) (keys_of opts cs) ∧
  ((cluster_gpus nodes < 2 ^ 63)%Z → zsum o_Total out = cluster_gpus nodes).
Proof.
  intros Hi cs out. pose proof (derived_values opts iter nodes Hi) as Hv.
  split_and!; [apply StronglySorted_merge_sort; apply _|done|].
  intros Hb. rewrite (zsum_perm _ _ _ Hv), <- contributions_total. fold cs. etrans.
  2: { apply (zsum_partition (ct_key opts) ct_count (keys_of opts cs) cs); [apply NoDup_remove_dups|].
    intros c Hc. by apply elem_of_remove_dups, list_elem_of_fmap_2. }
  change (zsum o_Total (omap (λ k, offering_of opts (of_key opts k cs)) (keys_of opts cs)) =
          zsum (λ k, zsum ct_count (of_key opts k cs)) (keys_of opts cs)).
  assert (Hks : ∀ k, k ∈ keys_of opts cs → of_key opts k cs ≠ []).
  { intros k [c [-> Hc]]%elem_of_remove_dups%list_elem_of_fmap He. apply (not_elem_of_nil c).
    rewrite <- He. by apply list_elem_of_filter. }
  induction (keys_of opts cs) as [|k ks IH]; [done|]. rewrite zsum_cons, <- IH by (intros; apply Hks; by right).
  pose proof (group_le opts nodes k) as Hle. pose proof (group_nonneg opts nodes k) as H0. fold cs in Hle, H0.
  pose proof (Hks k ltac:(by left)) as Hk. cbn [omap list_omap].
  destruct (of_key opts k cs) as [|c l]; [done|]. cbn [offering_of]. rewrite (zsum_cons o_Total).
  cbn [o_Total]. by rewrite int64_wrap_id by (unfold int64_range; lia).
Qed.

(** ** The selector of an offering *)
Section selector.
Context `{QuantityOps} (opts : Options).

(** The labels that may become selectors are label keys, which hold no ['=']. *)
Definition label_keys : Prop :=
  no_byte "="%char (modelLabel opts) ∧ ∀ v, Forall (no_byte "="%char) (productLabels opts v).

Lemma first_label_cases n ks m sel :
  first_label n ks = (m, Some sel) →
  ∃ k, k ∈ ks ∧ sel = {[ k := m ]} ∧ mget (n_Labels n) k = m.
Proof.
  induction ks as [|k ks IH]; [done|]. simpl. case_bool_decide; intros Hf; simplify_eq.
  - exists k. split_and!; [by left|done|done].
  - destruct (IH Hf) as (k' & ? & ? & ?). exists k'. split_and!; [by right|done|done].
Qed.
Lemma selector_cases c m sel :
  label_keys → ct_model opts c = (m, Some sel) →
  ∃ k, no_byte "="%char k ∧ sel = {[ k := m ]} ∧ mget (n_Labels c.1) k = m.
Proof.
  intros [Hm Hp]. unfold ct_model, resolveModelSelector. case_bool_decide; intros Hf.
  - simplify_eq. eauto.
  - apply first_label_cases in Hf as (k & Hk & -> & Hl). exists k. split_and!; [|done|done].
    specialize (Hp (ct_vendor opts c)). rewrite Forall_forall in Hp. by apply Hp.
Qed.

Lemma singleton_identity (k v : string) : selectorIdentity (Some {[ k := v ]}) = k +:+ "=" +:+ v +:+ ";".
Proof.
  unfold selectorIdentity. cbn [default from_option id]. rewrite bool_decide_false by apply map_non_empty_singleton.
  assert (sorted_keys {[ k := v ]} = [k]) as ->.
  { apply Permutation_singleton_r. rewrite sorted_keys_perm, dom_singleton_L. by rewrite elements_singleton. }
  simpl. unfold mget. by rewrite lookup_singleton_eq.
Qed.
(** Nodes grouped under a selector carry it. *)
Lemma same_group_matches c c' m sel :
  label_keys → ct_model opts c = (m, Some sel) → ct_key opts c' = ct_key opts c →
  nodeMatchesSelector c'.1 sel = true.
Proof.
  intros Hl Hc Hk. apply (f_equal key_selector) in Hk. cbn [ct_key key_selector] in Hk. rewrite Hc in Hk.
  destruct (selector_cases c m sel Hl Hc) as (k & Hnk & -> & _). cbn [snd] in Hk. rewrite singleton_identity in Hk.
  destruct (ct_model opts c') as [m' [sel'|]] eqn:Hc'; cbn [snd] in Hk.
  2: { unfold selectorIdentity in Hk. simpl in Hk. by destruct k. }
  destruct (selector_cases c' m' sel' Hl Hc') as (k' & Hnk' & -> & Hv'). rewrite singleton_identity in Hk.
  apply (split_at_byte "=") in Hk as [-> Hk]; [|done|done]. apply sapp_inj_r in Hk as ->.
  rewrite matches_singleton. by apply bool_decide_true.
Qed.

Lemma offering_in_gate iter nodes o sel :
  (∀ l, iter l ≡ₚ l) → label_keys → o ∈ DeriveOfferings iter nodes opts → o_Selector o = Some sel →
  sel ≠ ∅ ∧ ∃ cs, o_Total o = int64_wrap (zsum ct_count cs) ∧ (0 < zsum ct_count cs ≤ gate_capacity sel nodes)%Z.
Proof.
  intros Hi Hl Ho Hs. rewrite (derived_values opts iter nodes Hi) in Ho.
  apply list_elem_of_omap in Ho as (k & _ & Hk). destruct (of_key opts k (contributions nodes)) as [|c l] eqn:E; [done|].
  simpl in Hk. simplify_eq. cbn [o_Selector] in Hs. destruct (ct_model opts c) as [m s] eqn:Em. simpl in Hs. subst s.
  split; [destruct (selector_cases c m sel Hl Em) as (? & _ & -> & _); apply map_non_empty_singleton|].
  exists (c :: l). split; [done|]. rewrite <- E.
  assert (Hc : c ∈ of_key opts k (contributions nodes)) by (rewrite E; by left).
  apply list_elem_of_filter in Hc as [<- Hc].
  split.
  - rewrite E, zsum_cons. apply contribution_positive in Hc.
    assert (0 ≤ zsum ct_count l)%Z; [|lia]. apply zsum_nonneg. intros c' Hc'.
    assert (Hin : c' ∈ of_key opts (ct_key opts c) (contributions nodes)) by (rewrite E; by right).
    apply list_elem_of_filter in Hin as [_ ?%contribution_positive]. lia.
  - rewrite <- contributions_match. unfold of_key. rewrite zsum_filter. apply zsum_le. intros c' Hc'.
    apply contribution_positive in Hc'. case_decide as Hk; [|case_match; lia].
    by rewrite (same_group_matches c c' m sel Hl Em Hk).
Qed.
End selector.

(** C16: What the inventory advertises passes the gate.  A workspace that asks for an
    offering by the selector advertised is found a match on the same nodes, and the
    gate counts at least the advertised GPUs free, less those the pods on matching
    nodes hold. *)
Theorem advertised_is_accepted `{QuantityOps} opts iter nodes pods o sel :
  (∀ l, iter l ≡ₚ l) → label_keys opts → NoDup (n_Name <$> nodes) → (∀ n, n ∈ nodes → single_vendor n) →
  (gate_capacity sel nodes < 2 ^ 63)%Z → (0 ≤ gate_usage sel nodes pods < 2 ^ 63)%Z →
  o ∈ DeriveOfferings iter nodes opts → o_Selector o = Some sel →
  let sa := AvailabilityForSelector nodes pods sel in
  Found sa = true ∧ (0 < o_Total o)%Z ∧ (o_Total o - gate_usage sel nodes pods ≤ Free sa)%Z.
Proof.
  intros Hi Hl Hnd Hsv Hc Hu Ho Hs sa.
  destruct (offering_in_gate opts iter nodes o sel Hi Hl Ho Hs) as (Hne & cs & Ht & Hpos).
  rewrite int64_wrap_id in Ht by (unfold int64_range; lia).
  assert (Hf : Found sa = true).
  { apply availability_found_iff. split; [done|]. destruct (existsb (gate_node sel) nodes) eqn:E.
    - apply existsb_exists in E as (n & Hn & Hg). exists n. split; [by apply list_elem_of_In|]. by apply gate_node_spec.
    - assert (gate_capacity sel nodes = 0%Z); [|lia]. unfold gate_capacity.
      rewrite <- not_true_iff_false, existsb_exists in E.
      rewrite (zsum_ext _ (λ _, 0%Z)); [clear; induction nodes; [done|rewrite zsum_cons; lia]|].
      intros n Hn. destruct (gate_node sel n) eqn:Eg; [|done]. destruct E. exists n.
      split; [by apply list_elem_of_In|done]. }
  split; [done|]. split; [lia|]. unfold sa. rewrite availability_free by (done || lia). lia.
Qed.

(** ** On concrete nodes: two labelled H100 nodes, one known by its product label *)
Definition rtx : gmap string string := {[ "nvidia.com/gpu.product" := "RTX" ]}.
Definition gpu_cluster : list Node :=
  [gpu_node "n1" h100 ResourceNvidiaGPU 8; gpu_node "n2" rtx ResourceNvidiaGPU 2; gpu_node "n3" h100 ResourceNvidiaGPU 8].
Definition advertised : list Offering := DeriveOfferings id gpu_cluster no_options.

Lemma default_label_keys : label_keys no_options.
Proof.
  split; [vm_compute; reflexivity|]. intros v. unfold productLabels, defaultProductLabels. cbn [ProductLabels no_options].
  destruct (decide (v = GPUVendorNVIDIA)) as [->|H1]; [rewrite lookup_insert_eq; simpl; by repeat constructor|].
  rewrite lookup_insert_ne by done.
  destruct (decide (v = GPUVendorAMD)) as [->|H2]; [rewrite lookup_singleton_eq; simpl; by repeat constructor|].
  rewrite lookup_singleton_ne by done. constructor.
Qed.

Lemma offerings_spec_witness :
  (λ o, (o_Model o, o_Total o, o_Nodes o)) <$> advertised = [("H100", 16%Z, 2%Z); ("RTX", 2%Z, 1%Z)] ∧
  zsum o_Total advertised = cluster_gpus gpu_cluster.
Proof.
  split; [vm_compute; reflexivity|].
  destruct (offerings_spec no_options id gpu_cluster) as (_ & _ & H); [reflexivity|]. apply H. vm_compute. reflexivity.
Defined.
Lemma advertised_is_accepted_witness :
  let sa := AvailabilityForSelector gpu_cluster [gpu_pod "n1" ResourceNvidiaGPU 4] h100 in
  Found sa = true ∧ (16 - 4 ≤ Free sa)%Z.
Proof.
  destruct (nth_error advertised 0) as [o|] eqn:E; [|vm_compute in E; discriminate].
  destruct (advertised_is_accepted no_options id gpu_cluster [gpu_pod "n1" ResourceNvidiaGPU 4] o h100) as (H1 & _ & H2).
  - reflexivity.
  - exact default_label_keys.
  - refine (bool_decide_unpack _ _). vm_compute. exact I.
  - intros n Hn. apply elem_of_cons in Hn as [->|[->|[->|[]%elem_of_nil]%elem_of_cons]%elem_of_cons];
      apply nvidia_node_single_vendor.
  - vm_compute. reflexivity.
  - vm_compute. split; [discriminate|reflexivity].
  - apply list_elem_of_In, (nth_error_In _ 0), E.
  - vm_compute in E. by injection E as <-.
  - split; [exact H1|]. replace 16%Z with (o_Total o) by (vm_compute in E; by injection E as <-). exact H2.
Defined.
