(* ===== verification/Values.v ===== *)
(** * Helm values: merging, serialising and injecting resources

    [internal/controller/workspaces/merge.go] and [inject.go].  A
    [map[string]any] is a tree: every map the code links into it is either fresh
    or already at its only place in the tree, so the writes the code makes
    through an alias of an inner map are writes to the subtree at that path.  A
    nil map is [None]. *)

From S2P Require Import Prelude GoString Api Prog.
From Stdlib Require Import Ascii.

Abbreviation GoMap := (gmap string json).

(** ** merge.go *)
Definition or_else {A} (user class : option A) : option A :=
  match user with Some x => Some x | None => class end.

Definition mergeResources (classDefaults : WorkspaceResourceSpec)
    (userOverrides : option WorkspaceResourceSpec) : WorkspaceResourceSpec :=
  let c := PerReplica classDefaults in
  match userOverrides with
  | None =>
      {| Replicas := Replicas classDefaults;
         PerReplica := {| CPU := CPU c; Memory := Memory c; Storage := Storage c; GPUCount := GPUCount c;
                          GPUVendor_ := GPUVendor_ c; GPUType := None; GPUNodeSelector := None |} |}
  | Some u =>
      let p := PerReplica u in
      {| Replicas := or_else (Replicas u) (Replicas classDefaults);
         PerReplica := {| CPU := or_else (CPU p) (CPU c);
                          Memory := or_else (Memory p) (Memory c);
                          Storage := or_else (Storage p) (Storage c);
                          GPUCount := or_else (GPUCount p) (GPUCount c);
                          GPUVendor_ := or_else (GPUVendor_ p) (GPUVendor_ c);
                          GPUType := or_else (GPUType p) None;
                          GPUNodeSelector := or_else (GPUNodeSelector p) None |} |}
  end.

(** [json.Unmarshal(raw, &m)] into a [map[string]any]: [null] sets the map to
    nil, an object fills it, anything else is a type error. *)
Definition cannot_unmarshal (what : string) : error :=
  errorf ("json: cannot unmarshal " +:+ what +:+ " into Go value of type map[string]interface {}").
Definition Unmarshal_map (raw : RawJSON) : res (option GoMap) :=
  match raw with
  | RawEmpty => Err (errorf "unexpected end of JSON input")
  | RawBad e => Err (errorf e)
  | RawVal JNull => Ok None
  | RawVal (JObj m) => Ok (Some m)
  | RawVal (JBool _) => Err (cannot_unmarshal "bool")
  | RawVal (JNum _) | RawVal (JFloat _) => Err (cannot_unmarshal "number")
  | RawVal (JStr _) => Err (cannot_unmarshal "string")
  | RawVal (JArr _) => Err (cannot_unmarshal "array")
  end.

(** [p != nil && len(p.Raw) > 0]. *)
Definition raw_present (r : option RawJSON) : option RawJSON :=
  match r with Some RawEmpty => None | _ => r end.

(** The result of a call that can also panic. *)
Inductive outcome (A : Type) := Returns (r : res A) | Panics.
Arguments Returns {_} _.
Arguments Panics {_}.

(** [for k, v := range userMap { merged[k] = v }]: writing to a nil map panics. *)
Definition assign_all (merged userMap : option GoMap) : outcome (option GoMap) :=
  match merged, default ∅ userMap with
  | Some m, u => Returns (Ok (Some (u ∪ m)))
  | None, u => if bool_decide (u = ∅) then Returns (Ok None) else Panics
  end.

Definition mergeValuesMap (classDefaults userValues : option RawJSON) : outcome (option GoMap) :=
  match (match raw_present classDefaults with
         | Some raw => Unmarshal_map raw
         | None => Ok (Some ∅)
         end) with
  | Err e => Returns (Err (wrapf "failed to unmarshal class default values" e))
  | Ok merged =>
      match raw_present userValues with
      | Some raw =>
          match Unmarshal_map raw with
          | Err e => Returns (Err (wrapf "failed to unmarshal user values" e))
          | Ok userMap => assign_all merged userMap
          end
      | None => Returns (Ok merged)
      end
  end.

(** The serialised string is represented by what it parses to. *)
Definition serializeValues (merged : option GoMap) : res RawJSON :=
  let m := default ∅ merged in
  if bool_decide (m = ∅) then Ok RawEmpty else Ok (RawVal (JObj m)).

Definition mergeValues (classDefaults userValues : option RawJSON) : outcome RawJSON :=
  match mergeValuesMap classDefaults userValues with
  | Returns (Ok m) => Returns (serializeValues m)
  | Returns (Err e) => Returns (Err e)
  | Panics => Panics
  end.

(** ** inject.go: paths *)
Definition squote : ascii := "'"%char.
Definition dquote_char : ascii := ascii_of_nat 34.
Definition string_of_char (c : ascii) : string := String c "".
(** [%q] of a byte. *)
Definition quote_char (c : ascii) : string :=
  if bool_decide (c = squote) then "'" +:+ backslash +:+ "''"
  else if bool_decide (c = dquote_char) then "'" +:+ dquote +:+ "'"
  else "'" +:+ quote_byte c +:+ "'".

(** Up to the next [quote]: the key and what follows the closing quote. *)
Fixpoint scan_quoted (q : ascii) (s : string) : option (string * string) :=
  match s with
  | EmptyString => None
  | String c s' =>
      if bool_decide (c = q) then Some ("", s')
      else match scan_quoted q s' with
           | Some (key, rest) => Some (String c key, rest)
           | None => None
           end
  end.

(** [flushBare]. *)
Definition flushBare (out : list string) (buf : string) (emitted : bool) : list string * bool :=
  if bool_decide (buf = "") then (out, emitted) else (out ++ [buf], true).

(** The scanning loop from the rest of the path; [None] when the fuel ends. *)
Fixpoint parse_loop (fuel : nat) (s rest : string) (out : list string) (buf : string)
    (emittedSinceDot : bool) : option (res (list string)) :=
  match fuel with
  | O => None
  | S fuel =>
      match rest with
      | EmptyString =>
          let '(out, emitted) := flushBare out buf emittedSinceDot in
          if negb emitted then Some (Err (errorf ("path " +:+ quote s +:+ " ends with a trailing dot")))
          else if bool_decide (out = []) then Some (Err (errorf ("path " +:+ quote s +:+ " yielded no segments")))
          else Some (Ok out)
      | String c rest' =>
          if bool_decide (c = "."%char) then
            let '(out, emitted) := flushBare out buf emittedSinceDot in
            if negb emitted then Some (Err (errorf ("empty segment in path " +:+ quote s)))
            else match rest' with
                 | EmptyString => Some (Err (errorf ("path " +:+ quote s +:+ " ends with a trailing dot")))
                 | _ => parse_loop fuel s rest' out "" false
                 end
          else if bool_decide (c = "["%char) then
            let '(out, emitted) := flushBare out buf emittedSinceDot in
            match rest' with
            | EmptyString => Some (Err (errorf ("path " +:+ quote s +:+ " has unclosed bracket")))
            | String q body =>
                if negb (bool_decide (q = dquote_char)) && negb (bool_decide (q = squote)) then
                  Some (Err (errorf ("bracket segment in path " +:+ quote s +:+ " must use single or double quotes")))
                else match scan_quoted q body with
                | None => Some (Err (errorf ("path " +:+ quote s +:+ " has unterminated bracket-quoted segment")))
                | Some (key, after) =>
                    if bool_decide (key = "") then
                      Some (Err (errorf ("path " +:+ quote s +:+ " has empty bracket-quoted segment")))
                    else match after with
                    | String close rest'' =>
                        if negb (bool_decide (close = "]"%char)) then
                          Some (Err (errorf ("path " +:+ quote s +:+ " is missing closing bracket")))
                        else match rest'' with
                        | String d _ =>
                            if negb (bool_decide (d = "."%char)) && negb (bool_decide (d = "["%char)) then
                              Some (Err (errorf ("path " +:+ quote s +:+ " has unexpected char " +:+ quote_char d
                                                 +:+ " after bracket segment")))
                            else parse_loop fuel s rest'' (out ++ [key]) "" true
                        | EmptyString => parse_loop fuel s rest'' (out ++ [key]) "" true
                        end
                    | EmptyString => Some (Err (errorf ("path " +:+ quote s +:+ " is missing closing bracket")))
                    end
                end
            end
          else parse_loop fuel s rest' out (buf +:+ string_of_char c) emittedSinceDot
      end
  end.

Definition out_of_fuel : error := errorf "out of fuel".
Definition parsePath (s : string) : res (list string) :=
  if bool_decide (s = "") then Err (errorf "path is empty")
  else default (Err out_of_fuel) (parse_loop (S (len s)) s s [] "" false).

(** ** inject.go: writing values *)
Definition as_map (v : option json) : option GoMap :=
  match v with Some (JObj m) => Some m | _ => None end.
Definition not_nil (v : option json) : bool :=
  match v with Some JNull | None => false | Some _ => true end.

(** The walk below [cur]; [overwritten] is the flag the loop carries, which the
    return at the leaf does not use. *)
Fixpoint set_nested (cur : GoMap) (path : list string) (value : json) (overwritten : bool)
    : GoMap * option json * bool :=
  match path with
  | [] => (cur, None, overwritten)
  | [seg] => (<[seg := value]> cur, cur !! seg, not_nil (cur !! seg))
  | seg :: rest =>
      let '(next, overwritten) := match as_map (cur !! seg) with
                                  | Some next => (next, overwritten)
                                  | None => (∅, overwritten || not_nil (cur !! seg))
                                  end in
      let '(next', prev, o) := set_nested next rest value overwritten in
      (<[seg := JObj next']> cur, prev, o)
  end.
Definition setNestedValue (m : GoMap) (path : list string) (value : json) : GoMap * option json * bool :=
  match path with
  | [] => (m, None, false)
  | _ => set_nested m path value false
  end.

(** The value at a path. *)
Fixpoint get_nested (m : GoMap) (path : list string) : option json :=
  match path with
  | [] => None
  | [seg] => m !! seg
  | seg :: rest => match as_map (m !! seg) with Some next => get_nested next rest | None => None end
  end.

Definition exalsiusValuesKey : string := "_exalsius".
Definition fieldReplicas : string := "replicas".
Definition fieldStorage : string := "storage".
Definition fieldGPUCount : string := "gpuCount".
Definition fieldGPUVendor : string := "gpuVendor".
Definition fieldGPUType : string := "gpuType".
Definition resourceCPU : string := "cpu".
Definition resourceMemory : string := "memory".

Definition injectNodeSelector (values : option GoMap) (selector : gmap string string) : option GoMap :=
  match values with
  | None => None
  | Some m =>
      if bool_decide (selector = ∅) then Some m
      else Some (setNestedValue m [exalsiusValuesKey; "scheduling"; "nodeSelector"] (JObj (JStr <$> selector))).1.1
  end.

Definition injectGPUResourceName (values : option GoMap) (resourceName : string) : option GoMap :=
  match values with
  | None => None
  | Some m =>
      if bool_decide (resourceName = "") then Some m
      else Some (setNestedValue m [exalsiusValuesKey; "resources"; "perReplica"; "gpuResourceName"]
                   (JStr resourceName)).1.1
  end.

Record resourceInjectionWarning := { wr_Path : string; wr_Field : string; wr_Previous : option json }.
Definition warning_String (w : resourceInjectionWarning) : string :=
  "operator overwrote spec.values." +:+ wr_Path w +:+ " (" +:+ wr_Field w +:+
  ") — use spec.resources.perReplica." +:+ wr_Field w +:+ " instead".

(** [iter] is the order in which Go iterates over the field map. *)
Definition injectionFieldPaths (m : option ResourceInjectionMap) : list (string * list InjectionPath) :=
  match m with
  | None => []
  | Some m =>
      [(fieldReplicas, im_Replicas m); (resourceCPU, im_CPU m); (resourceMemory, im_Memory m);
       (fieldStorage, im_Storage m); (fieldGPUCount, im_GPUCount m); (fieldGPUVendor, im_GPUVendor m);
       (fieldGPUType, im_GPUType m)]
  end.

Fixpoint first_bad_path (field : string) (paths : list InjectionPath) : option error :=
  match paths with
  | [] => None
  | p :: ps =>
      match parsePath p with
      | Err e => Some (wrapf ("resourceInjection." +:+ field +:+ " path " +:+ quote p) e)
      | Ok _ => first_bad_path field ps
      end
  end.
Fixpoint first_bad_field (l : list (string * list InjectionPath)) : option error :=
  match l with
  | [] => None
  | (field, paths) :: l =>
      match first_bad_path field paths with Some e => Some e | None => first_bad_field l end
  end.
Definition validateInjectionPaths
    (iter : list (string * list InjectionPath) → list (string * list InjectionPath))
    (m : option ResourceInjectionMap) : option error :=
  match m with
  | None => None
  | Some _ => first_bad_field (iter (injectionFieldPaths m))
  end.

Section inject.
Context `{QuantityOps}.

Definition entry {A} (name : string) (f : A → json) (v : option A) : list (string * json) :=
  match v with Some x => [(name, f x)] | None => [] end.
(** The non-nil fields, in the order the code appends them. *)
Definition injection_entries (resolved : WorkspaceResourceSpec) : list (string * json) :=
  let p := PerReplica resolved in
  entry fieldReplicas JNum (Replicas resolved) ++
  entry resourceCPU (λ q, JStr (q_String q)) (CPU p) ++
  entry resourceMemory (λ q, JStr (q_String q)) (Memory p) ++
  entry fieldStorage (λ q, JStr (q_String q)) (Storage p) ++
  entry fieldGPUCount JNum (GPUCount p) ++
  entry fieldGPUVendor JStr (GPUVendor_ p) ++
  entry fieldGPUType JStr (GPUType p).

(** Step (1): [_exalsius.resources]. *)
Definition write_entry (st : GoMap * GoMap) (e : string * json) : GoMap * GoMap :=
  let '(resourcesNode, perReplica) := st in
  if bool_decide (e.1 = fieldReplicas) then (<[fieldReplicas := e.2]> resourcesNode, perReplica)
  else (resourcesNode, <[e.1 := e.2]> perReplica).
Definition inject_standard (values : GoMap) (entries : list (string * json)) : GoMap :=
  let exalsius := default ∅ (as_map (values !! exalsiusValuesKey)) in
  let resourcesNode := default ∅ (as_map (exalsius !! "resources")) in
  let perReplica := default ∅ (as_map (resourcesNode !! "perReplica")) in
  let '(resourcesNode, perReplica) := foldl write_entry (resourcesNode, perReplica) entries in
  <[exalsiusValuesKey := JObj
     (<["resources" := JObj (<["perReplica" := JObj perReplica]> resourcesNode)]> exalsius)]> values.

(** Step (2): the class's own paths. *)
Definition paths_of (im : ResourceInjectionMap) (name : string) : list InjectionPath :=
  if bool_decide (name = fieldReplicas) then im_Replicas im
  else if bool_decide (name = resourceCPU) then im_CPU im
  else if bool_decide (name = resourceMemory) then im_Memory im
  else if bool_decide (name = fieldStorage) then im_Storage im
  else if bool_decide (name = fieldGPUCount) then im_GPUCount im
  else if bool_decide (name = fieldGPUVendor) then im_GPUVendor im
  else if bool_decide (name = fieldGPUType) then im_GPUType im
  else [].
Definition inject_path (e : string * json) (st : GoMap * list resourceInjectionWarning) (p : InjectionPath) :=
  let '(values, warnings) := st in
  match parsePath p with
  | Err err =>
      (values, warnings ++ [{| wr_Path := p; wr_Field := e.1;
                               wr_Previous := Some (JStr ("PARSE ERROR: " +:+ e_text err)) |}])
  | Ok segs =>
      let '(values', prev, overwrote) := setNestedValue values segs e.2 in
      (values', if overwrote : bool
                then warnings ++ [{| wr_Path := p; wr_Field := e.1; wr_Previous := prev |}]
                else warnings)
  end.
Definition inject_entry (im : ResourceInjectionMap) (st : GoMap * list resourceInjectionWarning) (e : string * json) :=
  foldl (inject_path e) st (paths_of im e.1).

Definition injectResources (values : option GoMap) (resolved : WorkspaceResourceSpec)
    (im : option ResourceInjectionMap) : option GoMap * list resourceInjectionWarning :=
  match values with
  | None => (None, [])
  | Some m =>
      let entries := injection_entries resolved in
      let m := inject_standard m entries in
      match im with
      | None => (Some m, [])
      | Some im => let '(m, warnings) := foldl (inject_entry im) (m, []) entries in (Some m, warnings)
      end
  end.
End inject.

(** ** Paths *)

Definition no_char (f : ascii → bool) (s : string) : Prop := sall (λ c, negb (f c)) s = true.
Definition is_dot (c : ascii) : bool := bool_decide (c = "."%char).
Definition is_bracket (c : ascii) : bool := bool_decide (c = "["%char).

(** One segment as it can be written: bare, or quoted in brackets, the latter
    with or without a dot before it. *)
Inductive segment :=
  | Bare (name : string)
  | Quoted (dotted : bool) (q : ascii) (name : string).
Definition seg_name (g : segment) : string := match g with Bare n => n | Quoted _ _ n => n end.
Definition seg_ok (g : segment) : Prop :=
  seg_name g ≠ "" ∧
  match g with
  | Bare n => no_char is_dot n ∧ no_char is_bracket n
  | Quoted _ q n => (q = dquote_char ∨ q = squote) ∧ no_char (λ c, bool_decide (c = q)) n
  end.
Definition bracketed (q : ascii) (n : string) : string := String "[" (String q (n +:+ String q "]")).
Definition render_next (g : segment) : string :=
  match g with
  | Bare n => "." +:+ n
  | Quoted true q n => "." +:+ bracketed q n
  | Quoted false q n => bracketed q n
  end.
Definition render_first (g : segment) : string :=
  match g with Bare n => n | Quoted _ q n => bracketed q n end.
Definition render_rest (l : list segment) : string := foldr (λ g acc, render_next g +:+ acc) "" l.
Definition render_path (l : list segment) : string :=
  match l with [] => "" | g :: l => render_first g +:+ render_rest l end.

Lemma scan_quoted_length q s key rest : scan_quoted q s = Some (key, rest) → (len rest < len s)%nat.
Proof.
  revert key rest. induction s as [|c s IH]; intros key rest H; simpl in *; [done|].
  case_bool_decide; simplify_eq; [lia|]. destruct (scan_quoted q s) as [[k r]|]; simplify_eq.
  specialize (IH _ _ eq_refl). lia.
Qed.

Lemma scan_quoted_app q n rest :
  no_char (λ c, bool_decide (c = q)) n → scan_quoted q (n +:+ String q rest) = Some (n, rest).
Proof.
  induction n as [|c n IH]; intros H; simpl in *; [by rewrite bool_decide_eq_true_2|].
  apply andb_true_iff in H as [H1 H2]. apply negb_true_iff in H1. rewrite H1. by rewrite IH.
Qed.

Ltac if_err := match goal with |- context [if ?b then Some (Err _) else _] => destruct b; [done|] end.

(** The loop consumes a character at every turn: the fuel never runs out. *)
Lemma parse_loop_total n s rest out buf em : (len rest < n)%nat → parse_loop n s rest out buf em ≠ None.
Proof.
  revert rest out buf em. induction n as [|n IH]; intros rest out buf em Hn; [lia|].
  destruct rest as [|c rest']; simpl in Hn |- *.
  - destruct (flushBare out buf em) as [o e]. by repeat case_match.
  - case_bool_decide; [|case_bool_decide; [|apply IH; lia]].
    + destruct (flushBare out buf em) as [o e]. destruct e; [|done]. simpl.
      destruct rest'; [done|]. apply IH. lia.
    + destruct (flushBare out buf em) as [o e]. destruct rest' as [|q body]; [done|].
      if_err. destruct (scan_quoted q body) as [[key after]|] eqn:Hs; [|done].
      apply scan_quoted_length in Hs. simpl in Hn. if_err.
      destruct after as [|close rest'']; [done|]. if_err. simpl in Hs.
      destruct rest''; [apply IH; simpl; lia|]. if_err. apply IH. simpl in *. lia.
Qed.

Lemma parse_loop_mono n k s rest out buf em r :
  parse_loop n s rest out buf em = Some r → parse_loop (n + k) s rest out buf em = Some r.
Proof.
  revert rest out buf em. induction n as [|n IH]; intros rest out buf em Hn; [done|].
  destruct rest as [|c rest']; simpl in *; [done|].
  repeat (case_match; simplify_eq; try done); by apply IH.
Qed.

Lemma parse_loop_enough n s rest out buf em r :
  parse_loop n s rest out buf em = Some r → parse_loop (S (len rest)) s rest out buf em = Some r.
Proof.
  intros H. destruct (parse_loop (S (len rest)) s rest out buf em) as [r'|] eqn:E.
  - apply (parse_loop_mono _ n) in E. apply (parse_loop_mono _ (S (len rest))) in H.
    rewrite Nat.add_comm in H. congruence.
  - exfalso. by eapply parse_loop_total; [|exact E]; lia.
Qed.

Section parse.
Variable s : string.

(** [parses rest out buf em l]: from this state the loop returns [l]. *)
Definition parses (rest : string) (out : list string) (buf : string) (em : bool) (l : list string) : Prop :=
  ∃ n, parse_loop n s rest out buf em = Some (Ok l).

Lemma parses_bare b rest out buf em l :
  no_char is_dot b → no_char is_bracket b →
  parses rest out (buf +:+ b) em l → parses (b +:+ rest) out buf em l.
Proof.
  revert buf. induction b as [|c b IH]; intros buf H1 H2 H.
  - by rewrite sapp_nil_r in H.
  - unfold no_char in *; simpl in H1, H2. apply andb_true_iff in H1 as [Hc1 H1], H2 as [Hc2 H2].
    destruct (IH (buf +:+ string_of_char c)) as [n Hn]; [done|done|by rewrite sapp_assoc|].
    exists (S n). simpl. unfold is_dot, is_bracket in *.
    apply negb_true_iff in Hc1, Hc2. by rewrite Hc1, Hc2.
Qed.

Lemma parses_bracket q key rest out buf em l :
  q = dquote_char ∨ q = squote → no_char (λ c, bool_decide (c = q)) key → key ≠ "" →
  rest = "" ∨ (∃ r, rest = String "." r) ∨ (∃ r, rest = String "[" r) →
  parses rest ((flushBare out buf em).1 ++ [key]) "" true l →
  parses (bracketed q key +:+ rest) out buf em l.
Proof.
  intros Hq Hkey Hne Hrest [n Hn]. exists (S n). simpl.
  destruct (flushBare out buf em) as [o e]; simpl in *.
  replace (negb (bool_decide (q = dquote_char)) && negb (bool_decide (q = squote))) with false
    by (destruct Hq as [->| ->]; by vm_compute).
  rewrite sapp_assoc. simpl. rewrite scan_quoted_app by done. rewrite bool_decide_eq_false_2 by done.
  simpl. destruct Hrest as [->|[[r ->]|[r ->]]]; done.
Qed.

Lemma parses_dot rest out buf em l :
  (flushBare out buf em).2 = true → rest ≠ "" →
  parses rest (flushBare out buf em).1 "" false l → parses (String "." rest) out buf em l.
Proof.
  intros He Hr [n Hn]. exists (S n). simpl. destruct (flushBare out buf em) as [o e]; simpl in *.
  rewrite He. simpl. by destruct rest.
Qed.

Lemma parses_end out buf em :
  (flushBare out buf em).2 = true → (flushBare out buf em).1 ≠ [] →
  parses "" out buf em (flushBare out buf em).1.
Proof.
  intros He Ho. exists 1%nat. simpl. destruct (flushBare out buf em) as [o e]; simpl in *.
  rewrite He. simpl. by rewrite bool_decide_eq_false_2.
Qed.
End parse.

Lemma render_next_start g :
  (∃ r, render_next g = String "." r) ∨ (∃ r, render_next g = String "[" r).
Proof. destruct g as [n|[] q n]; simpl; eauto. Qed.

Lemma render_rest_start l :
  render_rest l = "" ∨ (∃ r, render_rest l = String "." r) ∨ (∃ r, render_rest l = String "[" r).
Proof.
  destruct l as [|g l]; [by left|right]. simpl.
  destruct (render_next_start g) as [[r ->]|[r ->]]; simpl; eauto.
Qed.

(** The segments after a complete one. *)
Lemma parses_render_rest s gs out buf em :
  Forall seg_ok gs → (flushBare out buf em).2 = true → (flushBare out buf em).1 ≠ [] →
  parses s (render_rest gs) out buf em ((flushBare out buf em).1 ++ (seg_name <$> gs)).
Proof.
  revert out buf em. induction gs as [|g gs IH]; intros out buf em Hok He Ho.
  - simpl. rewrite app_nil_r. by apply parses_end.
  - apply Forall_cons in Hok as [[Hne Hg] Hok]. set (o := (flushBare out buf em).1) in *.
    assert (Hq : ∀ q n o' b e', seg_name g = n → (q = dquote_char ∨ q = squote) →
               no_char (λ c, bool_decide (c = q)) n → (flushBare o' b e').1 = o →
               parses s (bracketed q n +:+ render_rest gs) o' b e' (o ++ (seg_name <$> g :: gs))).
    { intros q n o' b e' Hn Hq Hc Ho'. apply parses_bracket; [done|done|congruence|apply render_rest_start|].
      rewrite Ho'. simpl. rewrite Hn. specialize (IH (o ++ [n]) "" true Hok eq_refl).
      simpl in IH. rewrite <- app_assoc in IH. apply IH. by destruct o. }
    destruct g as [n|d q n]; simpl in Hne, Hg |- *.
    + apply parses_dot; [done| |].
      { destruct n; [done|]. done. }
      destruct Hg as [H1 H2]. apply parses_bare; [done|done|].
      specialize (IH o n false Hok). unfold flushBare in IH. rewrite bool_decide_eq_false_2 in IH by done.
      simpl in IH. rewrite <- app_assoc in IH. fold o. apply IH; [done|]. by destruct o.
    + destruct Hg as [Hq' Hc], d.
      * apply parses_dot; [done|done|]. by apply (Hq q n).
      * by apply (Hq q n).
Qed.

(** C32: A path written from any non-empty list of segments parses back to their
    names; bracket quoting carries every name, dots and slashes included. *)
Theorem parsePath_render g gs :
  Forall seg_ok (g :: gs) → parsePath (render_path (g :: gs)) = Ok (seg_name <$> g :: gs).
Proof.
  intros Hall. pose proof Hall as Hok. apply Forall_cons in Hok as [[Hne Hg] Hok].
  assert (Hp : parses (render_path (g :: gs)) (render_path (g :: gs)) [] "" false (seg_name <$> g :: gs)).
  { destruct g as [n|d q n]; simpl in Hne, Hg |- *.
    - destruct Hg as [H1 H2]. apply parses_bare; [done|done|]. simpl.
      pose proof (parses_render_rest (n +:+ render_rest gs) gs [] n false Hok) as H.
      unfold flushBare in H. rewrite bool_decide_eq_false_2 in H by done. by apply H.
    - destruct Hg as [Hq Hc].
      pose proof (parses_bracket (bracketed q n +:+ render_rest gs) q n (render_rest gs) [] "" false) as H.
      apply H; [done|done|done|apply render_rest_start|]. simpl.
      by apply (parses_render_rest _ gs [n] "" true Hok). }
  destruct Hp as [k Hk]. apply parse_loop_enough in Hk. unfold parsePath.
  rewrite bool_decide_eq_false_2; [by rewrite Hk|].
  destruct g as [n|d q n]; [|done]. simpl in *. by destruct n.
Qed.

Lemma parsePath_render_witness :
  parsePath (render_path [Bare "singleuser"; Quoted false dquote_char "nvidia.com/gpu"; Bare "limit"]) =
  Ok ["singleuser"; "nvidia.com/gpu"; "limit"].
Proof.
  rewrite parsePath_render; [reflexivity|].
  repeat constructor; try discriminate; try (vm_compute; reflexivity).
Defined.

(** ** Nested writes *)

(** The paths part at some segment. *)
Fixpoint diverge (p p' : list string) : bool :=
  match p, p' with
  | x :: p, y :: p' => if bool_decide (x = y) then diverge p p' else true
  | _, _ => false
  end.

Definition written (m : GoMap) (path : list string) (v : json) : GoMap := (setNestedValue m path v).1.1.

Lemma set_nested_cons m seg seg' rest v o :
  set_nested m (seg :: seg' :: rest) v o =
  let next := default ∅ (as_map (m !! seg)) in
  let o := match as_map (m !! seg) with Some _ => o | None => o || not_nil (m !! seg) end in
  let r := set_nested next (seg' :: rest) v o in
  (<[seg := JObj r.1.1]> m, r.1.2, r.2).
Proof.
  change (set_nested m (seg :: seg' :: rest) v o) with
    (let '(next, overwritten) := match as_map (m !! seg) with
                                 | Some next => (next, o)
                                 | None => (∅, o || not_nil (m !! seg))
                                 end in
     let '(next', prev, o) := set_nested next (seg' :: rest) v overwritten in
     (<[seg := JObj next']> m, prev, o)).
  destruct (as_map (m !! seg)); simpl default; cbv zeta; by destruct (set_nested _ (seg' :: rest) v _) as [[??]?].
Qed.

Lemma set_nested_flag m path v o o' : (set_nested m path v o).1.1 = (set_nested m path v o').1.1.
Proof.
  revert m o o'. induction path as [|seg [|seg' rest] IH]; intros m o o'; [done|done|].
  rewrite !set_nested_cons. cbv zeta. cbn [fst]. do 2 f_equal. apply IH.
Qed.

Lemma written_leaf m seg v : written m [seg] v = <[seg := v]> m.
Proof. done. Qed.

Lemma written_cons m seg seg' rest v :
  written m (seg :: seg' :: rest) v =
  <[seg := JObj (written (default ∅ (as_map (m !! seg))) (seg' :: rest) v)]> m.
Proof.
  unfold written. change (setNestedValue m (seg :: seg' :: rest) v)
    with (set_nested m (seg :: seg' :: rest) v false).
  change (setNestedValue ?m' (seg' :: rest) v) with (set_nested m' (seg' :: rest) v false).
  rewrite set_nested_cons. cbv zeta. cbn [fst]. do 2 f_equal. apply set_nested_flag.
Qed.

Lemma get_nested_cons m seg seg' rest :
  get_nested m (seg :: seg' :: rest) =
  match as_map (m !! seg) with Some next => get_nested next (seg' :: rest) | None => None end.
Proof. done. Qed.

Lemma get_nested_empty p : get_nested ∅ p = None.
Proof. destruct p as [|x [|y p]]; simpl; rewrite ?lookup_empty; done. Qed.

(** [setNestedValue] stores the value at its path, whatever was in the way, and
    changes nothing at any path that parts from it. *)
Lemma get_written m path v : path ≠ [] → get_nested (written m path v) path = Some v.
Proof.
  revert m. induction path as [|seg [|seg' rest] IH]; intros m H; [done| |].
  - rewrite written_leaf. simpl. apply lookup_insert_eq.
  - rewrite written_cons, get_nested_cons, lookup_insert_eq. simpl as_map. cbv beta iota. by apply IH.
Qed.

Lemma get_written_frame m path path' v :
  diverge path path' = true → get_nested (written m path v) path' = get_nested m path'.
Proof.
  revert m path'. induction path as [|seg [|seg' rest] IH]; intros m path' Hd; [done| |];
    destruct path' as [|seg2 rest2]; try done; simpl in Hd; case_bool_decide as Hs; subst; try done.
  - rewrite written_leaf. destruct rest2; simpl; by rewrite !lookup_insert_ne.
  - rewrite written_cons. destruct rest2 as [|y rest2]; [done|].
    rewrite !get_nested_cons, lookup_insert_eq. simpl as_map. cbv beta iota.
    rewrite (IH _ (y :: rest2) Hd). destruct (as_map (m !! seg2)); [done|]. apply (get_nested_empty (y :: rest2)).
  - rewrite written_cons. destruct rest2; simpl; by rewrite !lookup_insert_ne.
Qed.

(** After a write the path reads back the value, and a path that diverges from it reads
    what it read before. *)
Theorem setNestedValue_spec m path v :
  path ≠ [] →
  get_nested (setNestedValue m path v).1.1 path = Some v ∧
  (∀ path', diverge path path' = true →
     get_nested (setNestedValue m path v).1.1 path' = get_nested m path').
Proof. intros H. split; [by apply get_written|]. intros p Hd. by apply get_written_frame. Qed.

Lemma setNestedValue_spec_witness :
  get_nested (setNestedValue {[ "hub" := JStr "x" ]} ["hub"; "cpu"] (JNum 2)).1.1 ["hub"; "cpu"] = Some (JNum 2).
Proof. apply (setNestedValue_spec {[ "hub" := JStr "x" ]} ["hub"; "cpu"] (JNum 2)). discriminate. Defined.

(** Replacing a non-map node on the way to the leaf is not reported. *)
Theorem setNestedValue_replaced_node_not_reported seg seg' x v :
  setNestedValue {[ seg := JStr x ]} [seg; seg'] v = (<[seg := JObj {[ seg' := v ]}]> {[ seg := JStr x ]}, None, false).
Proof.
  change (setNestedValue ?m [seg; seg'] v) with (set_nested m [seg; seg'] v false).
  rewrite set_nested_cons, lookup_singleton_eq. cbv zeta. simpl as_map. cbv beta iota. simpl default.
  simpl. by rewrite lookup_empty.
Qed.

(** ** Injection *)
Section injection.
Context `{QuantityOps}.

Definition std_path (field : string) : list string :=
  if bool_decide (field = fieldReplicas) then [exalsiusValuesKey; "resources"; fieldReplicas]
  else [exalsiusValuesKey; "resources"; "perReplica"; field].

Lemma entries_names resolved :
  NoDup (injection_entries resolved).*1 ∧
  Forall (λ n, n ∈ [fieldReplicas; resourceCPU; resourceMemory; fieldStorage; fieldGPUCount; fieldGPUVendor; fieldGPUType])
    (injection_entries resolved).*1.
Proof.
  unfold injection_entries, entry. destruct resolved as [r [c m s g v t ns]]. simpl.
  destruct r, c, m, s, g, v, t; split; refine (bool_decide_unpack _ _); vm_compute; exact I.
Qed.

Lemma write_entries_lookup es rn pr :
  NoDup es.*1 →
  let st := foldl write_entry (rn, pr) es in
  (∀ e, e ∈ es → (if bool_decide (e.1 = fieldReplicas) then st.1 else st.2) !! e.1 = Some e.2) ∧
  (∀ k, k ∉ es.*1 → st.1 !! k = rn !! k ∧ st.2 !! k = pr !! k).
Proof.
  revert rn pr. induction es as [|e es IH]; intros rn pr Hnd; [split; [set_solver|done]|].
  apply NoDup_cons in Hnd as [Hn Hnd].
  change (foldl write_entry (rn, pr) (e :: es)) with (foldl write_entry (write_entry (rn, pr) e) es).
  destruct (write_entry (rn, pr) e) as [rn' pr'] eqn:E.
  destruct (IH rn' pr' Hnd) as (I1 & I3). cbv zeta. unfold write_entry in E. split.
  - intros x [->|Hx]%elem_of_cons; [|by apply I1].
    destruct (I3 e.1 Hn) as [J1 J2].
    case_bool_decide as Hr; simplify_eq; rewrite ?J1, ?J2, <- ?Hr; apply lookup_insert_eq.
  - intros k Hk. destruct (I3 k ltac:(set_solver)) as [-> ->].
    case_bool_decide; simplify_eq; split; try done; rewrite lookup_insert_ne; set_solver.
Qed.

Lemma inject_standard_spec values es :
  NoDup es.*1 →
  (∀ e, e ∈ es → get_nested (inject_standard values es) (std_path e.1) = Some e.2) ∧
  (∀ k, k ≠ exalsiusValuesKey → inject_standard values es !! k = values !! k).
Proof.
  intros Hnd. unfold inject_standard.
  set (ex := default ∅ (as_map (values !! exalsiusValuesKey))).
  set (rn := default ∅ (as_map (ex !! "resources"))).
  set (pr := default ∅ (as_map (rn !! "perReplica"))).
  destruct (write_entries_lookup es rn pr Hnd) as (H1 & _).
  destruct (foldl write_entry (rn, pr) es) as [rn' pr']. simpl in H1. split.
  - intros e He. specialize (H1 e He). unfold std_path. case_bool_decide as Hr.
    + rewrite Hr in H1. rewrite !get_nested_cons, lookup_insert_eq. simpl as_map. cbv beta iota.
      rewrite get_nested_cons, lookup_insert_eq. simpl as_map. cbv beta iota. simpl.
      by rewrite lookup_insert_ne.
    + rewrite !get_nested_cons, lookup_insert_eq. simpl as_map. cbv beta iota.
      rewrite get_nested_cons, lookup_insert_eq. simpl as_map. cbv beta iota.
      rewrite get_nested_cons, lookup_insert_eq. simpl as_map. cbv beta iota. done.
  - intros k Hk. by rewrite lookup_insert_ne.
Qed.

(** The parsed extra paths of every injected entry. *)
Definition extra_paths (im : option ResourceInjectionMap) (es : list (string * json)) : list (list string) :=
  match im with
  | None => []
  | Some im => es ≫= λ e, paths_of im e.1 ≫= λ p, match parsePath p with Ok segs => [segs] | Err _ => [] end
  end.

Lemma inject_path_frame e st p path' :
  (∀ segs, parsePath p = Ok segs → diverge segs path' = true) →
  get_nested (inject_path e st p).1 path' = get_nested st.1 path'.
Proof.
  intros Hd. destruct st as [values w]. unfold inject_path. destruct (parsePath p) as [segs|err]; [|done].
  pose proof (get_written_frame values segs path' e.2 (Hd _ eq_refl)) as Hf. unfold written in Hf.
  by destruct (setNestedValue values segs e.2) as [[v' prev] o].
Qed.

Lemma foldl_frame {A} (f : GoMap * list resourceInjectionWarning → A → _) l st path' :
  (∀ st x, x ∈ l → get_nested (f st x).1 path' = get_nested st.1 path') →
  get_nested (foldl f st l).1 path' = get_nested st.1 path'.
Proof.
  revert st. induction l as [|x l IH]; intros st Hf; [done|]. simpl.
  rewrite IH by (intros; apply Hf; set_solver). apply Hf. set_solver.
Qed.

(** C31: Resolved resources always reach the chart at [_exalsius.resources], whatever
    the user wrote there, unless one of the class's own paths overwrites that
    place; and every value outside [_exalsius] and the class's paths is the
    user's. *)
Theorem injectResources_spec values resolved im :
  let es := injection_entries resolved in
  let r := (injectResources (Some values) resolved im).1 in
  ∃ values', r = Some values' ∧
  (∀ e, e ∈ es → Forall (λ q, diverge q (std_path e.1) = true) (extra_paths im es) →
     get_nested values' (std_path e.1) = Some e.2) ∧
  (∀ k p, k ≠ exalsiusValuesKey → Forall (λ q, diverge q (k :: p) = true) (extra_paths im es) →
     get_nested values' (k :: p) = get_nested values (k :: p)).
Proof.
  intros es. unfold injectResources.
  destruct (entries_names resolved) as [Hnd Hin].
  destruct (inject_standard_spec values es Hnd) as [H1 H2].
  assert (H3 : ∀ k p, k ≠ exalsiusValuesKey →
            get_nested (inject_standard values es) (k :: p) = get_nested values (k :: p)).
  { intros k p Hk. destruct p; simpl; by rewrite H2. }
  fold es. destruct im as [im|].
  - assert (Hf : ∀ path', Forall (λ q, diverge q path' = true) (extra_paths (Some im) es) →
              get_nested (foldl (inject_entry im) (inject_standard values es, []) es).1 path' =
              get_nested (inject_standard values es) path').
    { intros path' Hd. apply (foldl_frame (inject_entry im)). intros st e He.
      apply (foldl_frame (inject_path e)). intros st' p Hp. apply inject_path_frame. intros segs Hs.
      rewrite Forall_forall in Hd. apply Hd. simpl. apply list_elem_of_bind. exists e.
      split; [|done]. apply list_elem_of_bind. exists p. split; [|done]. rewrite Hs. set_solver. }
    destruct (foldl (inject_entry im) _ es) as [m w] eqn:E. cbn [fst] in Hf. exists m. split_and!; [done| |].
    + intros e He Hd. rewrite Hf by done. by apply H1.
    + intros k p Hk Hd. rewrite Hf by done. by apply H3.
  - eexists. split_and!; [done| |].
    + intros e He _. by apply H1.
    + intros k p Hk _. by apply H3.
Qed.
End injection.

(** ** The placement selector the chart receives *)
Definition node_selector_path : list string := [exalsiusValuesKey; "scheduling"; "nodeSelector"].

(** After both injections the chart's node selector is exactly the selector. *)
Lemma node_selector_injected m sel rn :
  sel ≠ ∅ →
  ∃ m', injectGPUResourceName (injectNodeSelector (Some m) sel) rn = Some m' ∧
    get_nested m' node_selector_path = Some (JObj (JStr <$> sel)).
Proof.
  intros Hs. unfold injectNodeSelector. rewrite bool_decide_eq_false_2 by done.
  pose proof (get_written m node_selector_path (JObj (JStr <$> sel)) ltac:(done)) as Hg.
  unfold injectGPUResourceName. case_bool_decide; [eauto|]. eexists. split; [done|].
  change (setNestedValue ?a ?p ?v).1.1 with (written a p v). by rewrite get_written_frame.
Qed.

Lemma injectResources_Some `{QuantityOps} m resolved im :
  ∃ m', (injectResources (Some m) resolved im).1 = Some m'.
Proof.
  unfold injectResources. destruct im as [im|]; [|eauto].
  destruct (foldl _ _ _) as [m' w]. eauto.
Qed.

Lemma injectResources_None `{QuantityOps} resolved im : injectResources None resolved im = (None, []).
Proof. done. Qed.

(** ** Merging *)

(** The top-level entries a values source contributes. *)
Definition source_entries (r : option RawJSON) : option GoMap :=
  match raw_present r with
  | None => Some ∅
  | Some (RawVal (JObj m)) => Some m
  | Some (RawVal JNull) => Some ∅
  | _ => None
  end.

(** C34: User values win key by key at the top level; a source that is not an object
    is an error; the only panic is a user entry on top of class defaults that
    are literally [null]. *)
Theorem mergeValuesMap_spec class user :
  match mergeValuesMap class user with
  | Returns (Ok m) =>
      ∃ c u, source_entries class = Some c ∧ source_entries user = Some u ∧
        ∀ k, default ∅ m !! k = match u !! k with Some v => Some v | None => c !! k end
  | Returns (Err _) => source_entries class = None ∨ source_entries user = None
  | Panics => class = Some (RawVal JNull) ∧ ∃ u, source_entries user = Some u ∧ u ≠ ∅
  end.
Proof.
  assert (Hun : ∀ (u c : GoMap) k, (u ∪ c) !! k = match u !! k with Some v => Some v | None => c !! k end).
  { intros u c k. rewrite lookup_union. by destruct (u !! k), (c !! k). }
  unfold mergeValuesMap, source_entries, raw_present, assign_all.
  destruct class as [[|?|[| | | | | |c]]|], user as [[|?|[| | | | | |u]]|]; simpl; try (by auto);
    repeat (case_bool_decide; simpl; subst); try (by auto);
    try (eexists _, _; split_and!; [done|done|]; intros k; rewrite ?Hun, ?lookup_empty; by repeat case_match);
    split; try done; eauto.
Qed.

(** What the user's own request says. *)
Definition own_resource {A} (user : option WorkspaceResourceSpec) (f : ResourceRequirements → option A) : option A :=
  match user with Some u => f (PerReplica u) | None => None end.

(** A workspace's GPU model and raw selector are never inherited from its class;
    everything else is the user's value or, failing that, the class's. *)
Theorem mergeResources_spec class user :
  let p := PerReplica (mergeResources class user) in
  GPUType p = own_resource user GPUType ∧ GPUNodeSelector p = own_resource user GPUNodeSelector ∧
  CPU p = or_else (own_resource user CPU) (CPU (PerReplica class)) ∧
  Memory p = or_else (own_resource user Memory) (Memory (PerReplica class)) ∧
  Storage p = or_else (own_resource user Storage) (Storage (PerReplica class)) ∧
  GPUCount p = or_else (own_resource user GPUCount) (GPUCount (PerReplica class)) ∧
  GPUVendor_ p = or_else (own_resource user GPUVendor_) (GPUVendor_ (PerReplica class)) ∧
  Replicas (mergeResources class user) = or_else (match user with Some u => Replicas u | None => None end) (Replicas class).
Proof.
  destruct user as [u|]; simpl; split_and!; try done; unfold or_else; by case_match.
Qed.
