(* ===== verification/Feasibility.v ===== *)
(** * Cluster-wide feasibility ([internal/controller/workspaces/feasibility.go])

    Replicas times per-replica demand against allocatable minus requests.  GPU
    counts are machine integers: [int32] in the API, [int64] in the sums, both
    wrapping. *)

From S2P Require Import Prelude GoString Api QuantityNano Prog Gpu Values.

Definition resourceEphemeralStorage : string := "ephemeral-storage".
Definition resourceNvidiaGPU : string := "nvidia.com/gpu".
Definition resourceAMDGPU : string := "amd.com/gpu".
Definition nodeLabelGPUProduct : string := "nvidia.com/gpu.product".
Definition nodeLabelGPUModel : string := "nvidia.com/gpu.model".

Record aggregate := { cpu : Quantity; memory : Quantity; storage : Quantity; gpu : Z }.

Section feasibility.
Context `{QuantityOps}.

(** *** Small helpers *)
Definition quantityFor (l : ResourceList) (name : string) : Quantity :=
  match l !! name with Some q => q | None => zero_quantity end.
Definition quantityValue (q : option Quantity) : Quantity :=
  match q with Some q => q | None => zero_quantity end.
Definition quantityValueInt (l : ResourceList) (name : string) : Z := q_Value (quantityFor l name).
Definition int32Value (p : option Z) : Z := match p with Some z => z | None => 0 end.
Definition subtract (dst src : Quantity) : Quantity := if q_IsZero src then dst else q_Sub dst src.
Definition multiplyQuantity (q : Quantity) (factor : Z) : Quantity :=
  if bool_decide (factor = 1%Z) then q
  else if bool_decide (factor = 0%Z) then zero_quantity
  else q_NewMilli (int64_wrap (q_MilliValue q * factor)) (q_Format q).

(** *** Demand *)
Definition totalsFromPerReplica (per : ResourceRequirements) (replicas : Z) : ResourceTotals :=
  {| rt_CPU := (λ q, multiplyQuantity q replicas) <$> CPU per;
     rt_Memory := (λ q, multiplyQuantity q replicas) <$> Memory per;
     rt_Storage := (λ q, multiplyQuantity q replicas) <$> Storage per;
     rt_GPUCount := (λ c, int32_wrap (c * replicas)) <$> GPUCount per;
     rt_GPUVendor := GPUVendor_ per;
     rt_GPUType := GPUType per |}.

Definition no_totals : ResourceTotals :=
  {| rt_CPU := None; rt_Memory := None; rt_Storage := None; rt_GPUCount := None;
     rt_GPUVendor := None; rt_GPUType := None |}.

(** [a.Cmp(b) > 0]. *)
Definition exceeds (a b : Quantity) : bool := match q_Cmp a b with Gt => true | _ => false end.

Definition computeMissing (demand available : aggregate) : option ResourceTotals :=
  let short d a := if exceeds d a then Some (q_Sub d a) else None in
  let missing := {|
    rt_CPU := short (cpu demand) (cpu available);
    rt_Memory := short (memory demand) (memory available);
    rt_Storage := short (storage demand) (storage available);
    rt_GPUCount := if (gpu available <? gpu demand)%Z
                   then Some (int32_wrap (int64_wrap (gpu demand - gpu available))) else None;
    rt_GPUVendor := None; rt_GPUType := None |} in
  let any := exceeds (cpu demand) (cpu available) || exceeds (memory demand) (memory available)
             || exceeds (storage demand) (storage available) || (gpu available <? gpu demand)%Z in
  if any then Some missing else None.

Definition aggregateToTotals (a : aggregate) (vendor : option GPUVendor) (gpuType : option string) : ResourceTotals :=
  {| rt_CPU := Some (cpu a); rt_Memory := Some (memory a); rt_Storage := Some (storage a);
     rt_GPUCount := Some (int32_wrap (gpu a)); rt_GPUVendor := vendor; rt_GPUType := gpuType |}.

(** *** Supply *)
Definition vendor_is (vendor : option GPUVendor) (v : GPUVendor) : bool :=
  match vendor with None => true | Some w => bool_decide (w = v) end.
Definition is_nil {A} (o : option A) : bool := match o with None => true | Some _ => false end.

Definition type_matches (n : Node) (gpuType : option string) : bool :=
  match gpuType with
  | Some t =>
      if bool_decide (t ≠ "") then
        let product := ToLower (mget (n_Labels n) nodeLabelGPUProduct) in
        let model := ToLower (mget (n_Labels n) nodeLabelGPUModel) in
        Contains product (ToLower t) || Contains model (ToLower t)
      else true
  | None => true
  end.
Definition nodeGPUMatches (n : Node) (vendor : option GPUVendor) (gpuType : option string) : Z * bool :=
  if negb (type_matches n gpuType) then (0%Z, false)
  else
    let count := 0%Z in
    let count := if vendor_is vendor GPUVendorNVIDIA
                 then int64_wrap (count + quantityValueInt (n_Allocatable n) resourceNvidiaGPU) else count in
    let count := if vendor_is vendor GPUVendorAMD
                 then int64_wrap (count + quantityValueInt (n_Allocatable n) resourceAMDGPU) else count in
    (count, (0 <? count)%Z || (is_nil vendor && is_nil gpuType)).

Definition podConsumesResources (p : Pod) : bool :=
  if bool_decide (p_NodeName p = "") then false
  else negb (bool_decide (p_Phase p = "Succeeded") || bool_decide (p_Phase p = "Failed")).

Definition podContainerGPUCount (req : ResourceList) : Z :=
  let count := match req !! resourceNvidiaGPU with Some v => int64_wrap (0 + q_Value v) | None => 0%Z end in
  match req !! resourceAMDGPU with Some v => int64_wrap (count + q_Value v) | None => count end.

Definition podGPUMatchesNode (p : Pod) (nodes : list Node) (vendor : option GPUVendor) (gpuType : option string) : bool :=
  match find_first (λ n, bool_decide (n_Name n = p_NodeName p)) nodes with
  | Some n => (nodeGPUMatches n vendor gpuType).2
  | None => false
  end.

Definition add_node (vendor : option GPUVendor) (gpuType : option string) (a : aggregate) (n : Node) : aggregate :=
  if negb (nodeIsSchedulable n) then a
  else
    let alloc := n_Allocatable n in
    let '(gpuCount, gpuOk) := nodeGPUMatches n vendor gpuType in
    {| cpu := q_Add (cpu a) (quantityFor alloc resourceCPU);
       memory := q_Add (memory a) (quantityFor alloc resourceMemory);
       storage := q_Add (storage a) (quantityFor alloc resourceEphemeralStorage);
       gpu := if gpuOk : bool then int64_wrap (gpu a + gpuCount) else gpu a |}.

Definition sub_container (matches : bool) (a : aggregate) (req : ResourceList) : aggregate :=
  let g := podContainerGPUCount req in
  {| cpu := subtract (cpu a) (quantityFor req resourceCPU);
     memory := subtract (memory a) (quantityFor req resourceMemory);
     storage := subtract (storage a) (quantityFor req resourceEphemeralStorage);
     gpu := if ((0 <? g)%Z && matches)%bool then int64_wrap (gpu a - g) else gpu a |}.
Definition sub_pod (nodes : list Node) (vendor : option GPUVendor) (gpuType : option string)
    (a : aggregate) (p : Pod) : aggregate :=
  if negb (podConsumesResources p) then a
  else foldl (sub_container (podGPUMatchesNode p nodes vendor gpuType)) a (p_Containers p).

Definition available_capacity (nodes : list Node) (pods : list Pod)
    (vendor : option GPUVendor) (gpuType : option string) : aggregate :=
  let a := foldl (add_node vendor gpuType)
             {| cpu := zero_quantity; memory := zero_quantity; storage := zero_quantity; gpu := 0 |} nodes in
  let a := foldl (sub_pod nodes vendor gpuType) a pods in
  {| cpu := cpu a; memory := memory a; storage := storage a;
     gpu := if (gpu a <? 0)%Z then 0 else gpu a |}.

(** *** The verdict *)
Definition formatFeasibilityMessage (fits : bool) (demanded : WorkspaceResourceSpec)
    (missing : option ResourceTotals) : string :=
  let replicas := default 1%Z (Replicas demanded) in
  if fits then "Cluster has capacity for " +:+ itoa replicas +:+ " replica(s)"
  else
    let missing := default no_totals missing in
    let part (suffix : string) (q : option Quantity) :=
      match q with Some q => [q_String q +:+ suffix] | None => [] end in
    let gpuLabel :=
      match GPUType (PerReplica demanded), GPUVendor_ (PerReplica demanded) with
      | Some t, v => if bool_decide (t ≠ "") then t +:+ " GPU"
                     else match v with Some v => v +:+ " GPU" | None => "GPU" end
      | None, Some v => v +:+ " GPU"
      | None, None => "GPU"
      end in
    let parts := part " CPU" (rt_CPU missing) ++ part " memory" (rt_Memory missing) ++
                 part " storage" (rt_Storage missing) ++
                 match rt_GPUCount missing with Some g => [itoa g +:+ " " +:+ gpuLabel] | None => [] end in
    "Insufficient capacity for " +:+ itoa replicas +:+ " replica(s); missing " +:+ Join parts ", ".

Definition demand_aggregate (t : ResourceTotals) : aggregate :=
  {| cpu := quantityValue (rt_CPU t); memory := quantityValue (rt_Memory t);
     storage := quantityValue (rt_Storage t); gpu := int32Value (rt_GPUCount t) |}.

Definition feasibility_status (nodes : list Node) (pods : list Pod) (demanded : WorkspaceResourceSpec)
    (now : Z) : FeasibilityStatus :=
  let per := PerReplica demanded in
  let totalDemand := totalsFromPerReplica per (default 1%Z (Replicas demanded)) in
  let available := available_capacity nodes pods (GPUVendor_ per) (GPUType per) in
  let missing := computeMissing (demand_aggregate totalDemand) available in
  let fits := is_nil missing in
  {| fs_Fits := fits; fs_EvaluatedAt := now; fs_Demanded := totalDemand;
     fs_Available := aggregateToTotals available (GPUVendor_ per) (GPUType per);
     fs_Missing := missing;
     fs_Message := formatFeasibilityMessage fits demanded missing |}.

Definition computeFeasibility (regionalClient : client) (demanded : WorkspaceResourceSpec)
    : prog (res FeasibilityStatus) :=
  nodes ← call (ListObjs KNode regionalClient list_all);
  match nodes with
  | Err err => mret (Err (wrapf "failed to list nodes" err))
  | Ok nodes =>
      pods ← call (ListObjs KPod regionalClient list_all);
      match pods with
      | Err err => mret (Err (wrapf "failed to list pods" err))
      | Ok pods => now ← call Now; mret (Ok (feasibility_status nodes pods demanded now))
      end
  end.
End feasibility.

(** ** Specification *)
Section spec.
Context {Ops : QuantityOps} {QL : QuantityLaws Ops}.

(** A node takes pods when it is not cordoned and no Ready condition of it says
    otherwise; a pod uses what it requests while it is bound to a node and has not
    ended. *)
Definition takes_pods (n : Node) : bool :=
  negb (n_Unschedulable n) && bool_decide (Forall (λ c, c.1 = "Ready" → c.2 = "True") (n_Conditions n)).
Definition uses_node (p : Pod) : bool := bool_decide (p_NodeName p ≠ "" ∧ p_Phase p ∉ ["Succeeded"; "Failed"]).
Definition amount (l : ResourceList) (name : string) : Z := match l !! name with Some q => q_nano q | None => 0%Z end.

Lemma takes_pods_spec n : nodeIsSchedulable n = takes_pods n.
Proof.
  unfold nodeIsSchedulable, takes_pods. destruct (n_Unschedulable n); [done|]. cbn [negb andb].
  induction (n_Conditions n) as [|[t v] l IH]; [by rewrite bool_decide_true|]. cbn [forallb fst snd]. rewrite IH.
  rewrite (bool_decide_ext _ _ (Forall_cons (λ c : string * string, c.1 = "Ready" → c.2 = "True") (t, v) l)). cbn [fst snd].
  repeat case_bool_decide; cbn; naive_solver.
Qed.
Lemma uses_node_spec p : podConsumesResources p = uses_node p.
Proof.
  unfold podConsumesResources, uses_node.
  assert (Hp : p_Phase p ∈ ["Succeeded"; "Failed"] ↔ p_Phase p = "Succeeded" ∨ p_Phase p = "Failed").
  { rewrite elem_of_cons, list_elem_of_singleton. done. }
  repeat case_bool_decide; cbn; tauto.
Qed.
Lemma amount_spec l name : q_nano (quantityFor l name) = amount l name.
Proof. unfold quantityFor, amount. by destruct (l !! name). Qed.

(** Supply and use of one resource, in nano-units.  Every pod that uses a node is
    counted, on whatever node it runs. *)
Definition node_supply (name : string) (n : Node) : Z :=
  if takes_pods n then amount (n_Allocatable n) name else 0.
Definition pod_request (name : string) (p : Pod) : Z :=
  if uses_node p then zsum (λ c, amount c name) (p_Containers p) else 0.
Definition capacity_left (name : string) (nodes : list Node) (pods : list Pod) : Z :=
  zsum (node_supply name) nodes - zsum (pod_request name) pods.

(** GPUs in the scope of a vendor and a model.  A node is in scope when one of its
    model labels contains the model asked for, whatever the case, and it has GPUs of
    the vendor (or neither is asked for). *)
Definition vendor_resources (v : option GPUVendor) : list string :=
  (if bool_decide (v = None ∨ v = Some GPUVendorNVIDIA) then ["nvidia.com/gpu"] else []) ++
  (if bool_decide (v = None ∨ v = Some GPUVendorAMD) then ["amd.com/gpu"] else []).
Definition node_count (v : option GPUVendor) (n : Node) : Z :=
  int64_wrap (zsum (λ r, q_Value (quantityFor (n_Allocatable n) r)) (vendor_resources v)).
Definition model_ok (t : option string) (n : Node) : bool :=
  bool_decide (default "" t = "") ||
  existsb (λ label, Contains (ToLower (mget (n_Labels n) label)) (ToLower (default "" t)))
    ["nvidia.com/gpu.product"; "nvidia.com/gpu.model"].
Definition in_scope (v : option GPUVendor) (t : option string) (n : Node) : bool :=
  model_ok t n && ((0 <? node_count v n)%Z || bool_decide (v = None ∧ t = None)).
Definition node_gpus (v : option GPUVendor) (t : option string) (n : Node) : Z :=
  if takes_pods n && in_scope v t n then node_count v n else 0.

Definition container_gpus (c : ResourceList) : Z :=
  Z.max 0 (int64_wrap (zsum (λ r, match c !! r with Some q => q_Value q | None => 0%Z end)
                         ["nvidia.com/gpu"; "amd.com/gpu"])).
Definition pod_in_scope (nodes : list Node) (v : option GPUVendor) (t : option string) (p : Pod) : bool :=
  match find_first (λ n, bool_decide (n_Name n = p_NodeName p)) nodes with
  | Some n => in_scope v t n
  | None => false
  end.
Definition pod_gpus (nodes : list Node) (v : option GPUVendor) (t : option string) (p : Pod) : Z :=
  if uses_node p && pod_in_scope nodes v t p then zsum container_gpus (p_Containers p) else 0.
Definition gpus_left (nodes : list Node) (pods : list Pod) (v : option GPUVendor) (t : option string) : Z :=
  zsum (node_gpus v t) nodes - zsum (pod_gpus nodes v t) pods.

Lemma type_matches_spec n t : type_matches n t = model_ok t n.
Proof.
  unfold type_matches, model_ok. destruct t as [t|]; cbn [default]; [|done].
  destruct (decide (t = "")) as [->|Ht]; [done|].
  rewrite (bool_decide_eq_true_2 _ Ht), (bool_decide_eq_false_2 _ Ht). cbn [existsb orb].
  by rewrite orb_false_r.
Qed.

Lemma vendor_is_spec v x : vendor_is v x = bool_decide (v = None ∨ v = Some x).
Proof.
  destruct v as [v|]; cbn [vendor_is].
  - apply bool_decide_ext. split; [by intros ->; right|by intros [?|[= ->]]].
  - symmetry. apply bool_decide_eq_true_2. by left.
Qed.

Lemma node_matches_spec n v t :
  nodeGPUMatches n v t = (if model_ok t n then node_count v n else 0%Z, in_scope v t n).
Proof.
  unfold nodeGPUMatches, in_scope. rewrite type_matches_spec. destruct (model_ok t n); [|done].
  cbn [negb andb]. cbv zeta. rewrite !vendor_is_spec.
  assert (Hb : is_nil v && is_nil t = bool_decide (v = None ∧ t = None)).
  { by destruct v, t; symmetry; first [apply bool_decide_eq_true_2|apply bool_decide_eq_false_2; intros [? ?]]. }
  rewrite Hb. unfold node_count, vendor_resources, quantityValueInt.
  repeat case_bool_decide; cbn [app]; rewrite ?zsum_cons; change (zsum _ []) with 0%Z;
    rewrite ?int64_wrap_add_l, ?Z.add_0_l, ?Z.add_0_r; done.
Qed.

Lemma pod_matches_spec p nodes v t : podGPUMatchesNode p nodes v t = pod_in_scope nodes v t p.
Proof.
  unfold podGPUMatchesNode, pod_in_scope. destruct (find_first _ nodes) as [n|]; [|done].
  by rewrite node_matches_spec.
Qed.

Lemma container_count_spec c : Z.max 0 (podContainerGPUCount c) = container_gpus c.
Proof.
  unfold podContainerGPUCount, container_gpus. rewrite !zsum_cons. change (zsum _ []) with 0%Z.
  unfold resourceNvidiaGPU, resourceAMDGPU.
  destruct (c !! "nvidia.com/gpu") as [q|], (c !! "amd.com/gpu") as [r|];
    rewrite ?int64_wrap_add_l, ?Z.add_0_l, ?Z.add_0_r; done.
Qed.

Lemma subtract_nano d s : q_nano (subtract d s) = (q_nano d - q_nano s)%Z.
Proof.
  unfold subtract. rewrite law_IsZero. case_bool_decide as Hz; [rewrite Hz; lia|apply law_Sub].
Qed.

(** One resource of the aggregate, with the lemma that reads it off the loops. *)
Section resource.
Context (sel : aggregate → Quantity) (name : string).
Hypothesis Hadd : ∀ v t a n, q_nano (sel (add_node v t a n)) = (q_nano (sel a) + node_supply name n)%Z.
Hypothesis Hsub : ∀ m a c, q_nano (sel (sub_container m a c)) = (q_nano (sel a) + - amount c name)%Z.
Hypothesis Hgpu : ∀ a g, sel {| cpu := cpu a; memory := memory a; storage := storage a; gpu := g |} = sel a.
Hypothesis Hzero : ∀ g, sel {| cpu := zero_quantity; memory := zero_quantity; storage := zero_quantity; gpu := g |}
                        = zero_quantity.

Lemma zsum_opp {A} (f : A → Z) l : zsum (λ x, - f x)%Z l = (- zsum f l)%Z.
Proof. induction l as [|x l IH]; [done|]. rewrite !zsum_cons, IH. lia. Qed.

Lemma available_resource nodes pods v t :
  q_nano (sel (available_capacity nodes pods v t)) = capacity_left name nodes pods.
Proof.
  unfold available_capacity. rewrite Hgpu.
  rewrite (foldl_measure (λ a, q_nano (sel a)) _ (λ p, - pod_request name p)%Z).
  - rewrite (foldl_measure (λ a, q_nano (sel a)) _ (node_supply name)) by (intros; apply Hadd).
    rewrite Hzero, zsum_opp. unfold capacity_left. simpl. lia.
  - intros a p. unfold sub_pod, pod_request. rewrite uses_node_spec. destruct (uses_node p); simpl; [|lia].
    rewrite (foldl_measure (λ a, q_nano (sel a)) _ (λ c, - amount c name)%Z) by (intros; apply Hsub).
    by rewrite zsum_opp.
Qed.
End resource.

Ltac resource_side :=
  intros; unfold add_node, sub_container, node_supply; rewrite ?takes_pods_spec; simpl;
  try (destruct (takes_pods _); simpl; [|lia]; destruct (nodeGPUMatches _ _ _); simpl; by rewrite law_Add, amount_spec);
  try (rewrite subtract_nano, amount_spec; lia); try done.

Lemma available_cpu nodes pods v t :
  q_nano (cpu (available_capacity nodes pods v t)) = capacity_left resourceCPU nodes pods.
Proof. apply (available_resource cpu); resource_side. Qed.
Lemma available_memory nodes pods v t :
  q_nano (memory (available_capacity nodes pods v t)) = capacity_left resourceMemory nodes pods.
Proof. apply (available_resource memory); resource_side. Qed.
Lemma available_storage nodes pods v t :
  q_nano (storage (available_capacity nodes pods v t)) = capacity_left resourceEphemeralStorage nodes pods.
Proof. apply (available_resource storage); resource_side. Qed.

Lemma available_gpu nodes pods v t :
  int64_range (gpus_left nodes pods v t) →
  gpu (available_capacity nodes pods v t) = Z.max 0 (gpus_left nodes pods v t).
Proof.
  intros Hr. unfold available_capacity. cbn [gpu].
  rewrite (foldl_wrap_measure gpu _ (λ p, - pod_gpus nodes v t p)%Z pods _ (zsum (node_gpus v t) nodes)).
  - rewrite zsum_opp. fold (gpus_left nodes pods v t).
    replace (zsum (node_gpus v t) nodes + - zsum (pod_gpus nodes v t) pods)%Z
      with (gpus_left nodes pods v t) by (unfold gpus_left; lia).
    rewrite int64_wrap_id by done. destruct (Z.ltb_spec (gpus_left nodes pods v t) 0); lia.
  - intros a p u Hu. unfold sub_pod, pod_gpus. rewrite uses_node_spec. destruct (uses_node p); simpl; [|by rewrite Hu; f_equal; lia].
    rewrite pod_matches_spec. destruct (pod_in_scope nodes v t p).
    + rewrite <- zsum_opp.
      apply (foldl_wrap_measure gpu); [|done]. intros a' c u' Hu'. rewrite <- container_count_spec. unfold sub_container. simpl.
      rewrite andb_true_r. destruct (Z.ltb_spec 0 (podContainerGPUCount c)); rewrite Hu';
        [rewrite Z.max_r by lia|rewrite Z.max_l by lia; f_equal; lia].
      unfold Z.sub. by rewrite int64_wrap_add_l.
    + transitivity (int64_wrap (u + zsum (λ _ : ResourceList, 0%Z) (p_Containers p))).
      * apply (foldl_wrap_measure gpu); [|done]. intros a' c u' Hu'. simpl.
        rewrite andb_false_r, Hu'. f_equal; lia.
      * f_equal. assert (zsum (λ _ : ResourceList, 0%Z) (p_Containers p) = 0%Z); [|lia].
        induction (p_Containers p); [done|]. by rewrite zsum_cons.
  - transitivity (int64_wrap (0 + zsum (node_gpus v t) nodes)); [|f_equal; lia].
    apply (foldl_wrap_measure gpu); [|done]. intros a n u Hu. unfold add_node, node_gpus. rewrite takes_pods_spec.
    destruct (takes_pods n); simpl; [|rewrite Hu; f_equal; lia].
    rewrite node_matches_spec. destruct (in_scope v t n) eqn:Hi; cbn [gpu]; rewrite Hu; [|f_equal; lia].
    unfold in_scope in Hi. apply andb_true_iff in Hi as [-> _]. by rewrite int64_wrap_add_l.
Qed.

Lemma exceeds_spec a b : exceeds a b = (q_nano b <? q_nano a)%Z.
Proof.
  unfold exceeds. rewrite law_Cmp. destruct (Z.compare_spec (q_nano a) (q_nano b)); symmetry;
    rewrite ?Z.ltb_lt, ?Z.ltb_ge; lia.
Qed.

Lemma shortfall_spec d a c :
  q_nano a = c →
  q_nano <$> (if exceeds d a then Some (q_Sub d a) else None) =
  (if (c <? q_nano d)%Z then Some (q_nano d - c)%Z else None).
Proof. intros <-. rewrite exceeds_spec. case_match; [|done]. simpl. by rewrite law_Sub. Qed.

Lemma computeMissing_None d a :
  computeMissing d a = None ↔
  (q_nano (cpu d) ≤ q_nano (cpu a) ∧ q_nano (memory d) ≤ q_nano (memory a) ∧
   q_nano (storage d) ≤ q_nano (storage a) ∧ gpu d ≤ gpu a)%Z.
Proof.
  unfold computeMissing. rewrite !exceeds_spec.
  destruct (Z.ltb_spec (q_nano (cpu a)) (q_nano (cpu d))), (Z.ltb_spec (q_nano (memory a)) (q_nano (memory d))),
    (Z.ltb_spec (q_nano (storage a)) (q_nano (storage d))), (Z.ltb_spec (gpu a) (gpu d)); simpl;
    split; intros Hx; first [done|lia|discriminate].
Qed.

(** Scaling keeps the value exactly while milli-values stay in range. *)
Lemma multiplyQuantity_nano q m f :
  q_nano q = (m * 1000000)%Z → int64_range m → int64_range (m * f) →
  q_nano (multiplyQuantity q f) = (q_nano q * f)%Z.
Proof.
  intros Hq Hm Hf. unfold multiplyQuantity. case_bool_decide as H1; [subst; lia|].
  case_bool_decide as H0; [subst; simpl; lia|].
  rewrite law_NewMilli, (law_MilliValue q m) by done. rewrite int64_wrap_id by done. lia.
Qed.

(** What [r] replicas ask for, in nano-units, and when milli-units can carry it. *)
Definition wanted (r : Z) (o : option Quantity) : Z :=
  match o with Some q => (q_nano q * r)%Z | None => 0%Z end.
Definition scalable (r : Z) (o : option Quantity) : Prop :=
  match o with
  | Some q => r = 1%Z ∨ ∃ m, q_nano q = (m * 1000000)%Z ∧ int64_range m ∧ int64_range (m * r)
  | None => True
  end.
Definition shortfall (demand left : Z) : option Z :=
  if (left <? demand)%Z then Some (demand - left)%Z else None.

Lemma wanted_spec r o :
  scalable r o → q_nano (quantityValue ((λ q, multiplyQuantity q r) <$> o)) = wanted r o.
Proof.
  destruct o as [q|]; [|done]. cbn. intros [->|(m & ? & ? & ?)]; [|by apply (multiplyQuantity_nano q m)].
  unfold multiplyQuantity. rewrite bool_decide_eq_true_2 by done. lia.
Qed.

Lemma gpus_wanted_spec r o :
  int32Value ((λ c, int32_wrap (c * r)) <$> o) = int32_wrap (default 0%Z o * r).
Proof. destruct o as [c|]; [done|]. cbn [fmap option_fmap option_map default int32Value]. by rewrite Z.mul_0_l. Qed.

Lemma gpu_gap d a : int32_range d → (0 ≤ a < d)%Z → int32_wrap (int64_wrap (d - a)) = (d - a)%Z.
Proof.
  unfold int32_range. intros Hd Ha.
  rewrite int64_wrap_id by (unfold int64_range; lia). apply int32_wrap_id. unfold int32_range. lia.
Qed.

Lemma computeMissing_Some d a m :
  computeMissing d a = Some m → int32_range (gpu d) → (0 ≤ gpu a)%Z →
  q_nano <$> rt_CPU m = shortfall (q_nano (cpu d)) (q_nano (cpu a)) ∧
  q_nano <$> rt_Memory m = shortfall (q_nano (memory d)) (q_nano (memory a)) ∧
  q_nano <$> rt_Storage m = shortfall (q_nano (storage d)) (q_nano (storage a)) ∧
  rt_GPUCount m = shortfall (gpu d) (gpu a).
Proof.
  unfold computeMissing. destruct (_ || _); [|done]. intros Hm Hd Ha. apply (inj Some) in Hm as <-.
  cbn [rt_CPU rt_Memory rt_Storage rt_GPUCount]. split_and!; [by apply shortfall_spec..|].
  unfold shortfall. destruct (Z.ltb_spec (gpu a) (gpu d)); [|done]. f_equal. by apply gpu_gap.
Qed.

(** C30: The verdict compares, resource by resource, what all replicas ask for with what
    the cluster has left, and what is reported missing is exactly the shortfall of
    each resource, GPUs included.  The demand is replicas (one by default) times the
    per-replica amount, the GPU count as an [int32] product; it is exact when there is
    one replica or when the amount is a whole number of milli-units whose product
    fits [int64].  What is left is the allocatable amount of the schedulable nodes,
    less the requests of every pod bound to a node and not ended: pods on nodes that
    are not schedulable are subtracted too, GPUs never below zero. *)
Theorem feasibility_fits_iff nodes pods demanded now :
  let per := PerReplica demanded in
  let r := default 1%Z (Replicas demanded) in
  let s := feasibility_status nodes pods demanded now in
  let left name := capacity_left name nodes pods in
  let gpus := int32_wrap (default 0%Z (GPUCount per) * r) in
  let gpus_free := Z.max 0 (gpus_left nodes pods (GPUVendor_ per) (GPUType per)) in
  Forall (scalable r) [CPU per; Memory per; Storage per] →
  int64_range (gpus_left nodes pods (GPUVendor_ per) (GPUType per)) →
  (fs_Fits s = true ↔
    (wanted r (CPU per) ≤ left "cpu" ∧ wanted r (Memory per) ≤ left "memory" ∧
     wanted r (Storage per) ≤ left "ephemeral-storage" ∧ gpus ≤ gpus_free)%Z) ∧
  (fs_Fits s = true ↔ fs_Missing s = None) ∧
  (∀ m, fs_Missing s = Some m →
     q_nano <$> rt_CPU m = shortfall (wanted r (CPU per)) (left "cpu") ∧
     q_nano <$> rt_Memory m = shortfall (wanted r (Memory per)) (left "memory") ∧
     q_nano <$> rt_Storage m = shortfall (wanted r (Storage per)) (left "ephemeral-storage") ∧
     rt_GPUCount m = shortfall gpus gpus_free).
Proof.
  intros per r s left gpus gpus_free Hs Hg. unfold s, feasibility_status. cbn [fs_Fits fs_Missing].
  set (a := available_capacity nodes pods _ _). set (d := demand_aggregate _).
  apply Forall_cons in Hs as [Hc Hs]. apply Forall_cons in Hs as [Hm Hs]. apply Forall_cons in Hs as [Hst _].
  assert (Hdc : q_nano (cpu d) = wanted r (CPU per)) by exact (wanted_spec _ _ Hc).
  assert (Hdm : q_nano (memory d) = wanted r (Memory per)) by exact (wanted_spec _ _ Hm).
  assert (Hds : q_nano (storage d) = wanted r (Storage per)) by exact (wanted_spec _ _ Hst).
  assert (Hdg : gpu d = gpus) by exact (gpus_wanted_spec r (GPUCount per)).
  assert (Hac : q_nano (cpu a) = left "cpu") by apply available_cpu.
  assert (Ham : q_nano (memory a) = left "memory") by apply available_memory.
  assert (Has : q_nano (storage a) = left "ephemeral-storage") by apply available_storage.
  assert (Hag : gpu a = gpus_free) by (by apply available_gpu).
  split_and!.
  - transitivity (computeMissing d a = None); [by destruct (computeMissing d a)|].
    by rewrite computeMissing_None, Hdc, Hdm, Hds, Hdg, Hac, Ham, Has, Hag.
  - by destruct (computeMissing d a).
  - intros m Hm'. apply computeMissing_Some in Hm'; [|rewrite Hdg; apply int32_wrap_range|rewrite Hag; lia].
    by rewrite Hdc, Hdm, Hds, Hdg, Hac, Ham, Has, Hag in Hm'.
Qed.
End spec.

Definition gpu_request (replicas gpus : Z) : WorkspaceResourceSpec :=
  {| Replicas := Some replicas;
     PerReplica := {| CPU := None; Memory := None; Storage := None; GPUCount := Some gpus;
                      GPUVendor_ := None; GPUType := None; GPUNodeSelector := None |} |}.

(** The GPU demand is an [int32] product: 8 GPUs on 2^29 replicas wraps to zero and
    fits an empty cluster. *)
Theorem gpu_demand_overflow_fits :
  fs_Fits (feasibility_status [] [] (gpu_request (2 ^ 29) 8) 0) = true.
Proof. vm_compute. reflexivity. Qed.

Definition cpu_list (n : Z) : ResourceList := {[ "cpu" := {| q_nano := n * 1000000000; q_Format := DecimalSI |} ]}.
Definition cpu_node (name : string) (cordoned : bool) : Node :=
  {| n_Name := name; n_Labels := ∅; n_Unschedulable := cordoned; n_Conditions := [];
     n_Allocatable := cpu_list 8 |}.
Definition cpu_pod (node : string) : Pod :=
  {| p_NodeName := node; p_Phase := "Running"; p_Containers := [cpu_list 8] |}.
Definition cpu_request (n : Z) : WorkspaceResourceSpec :=
  {| Replicas := Some 2%Z;
     PerReplica := {| CPU := Some {| q_nano := n * 1000000000; q_Format := DecimalSI |}; Memory := None; Storage := None;
                      GPUCount := Some 8%Z; GPUVendor_ := None; GPUType := None; GPUNodeSelector := None |} |}.
Definition one_cpu : WorkspaceResourceSpec :=
  {| Replicas := None;
     PerReplica := {| CPU := Some {| q_nano := 1000000000; q_Format := DecimalSI |}; Memory := None; Storage := None;
                      GPUCount := None; GPUVendor_ := None; GPUType := None; GPUNodeSelector := None |} |}.
(** Pods that still run on a cordoned node take capacity from the other nodes: an
    empty schedulable node with 8 CPUs does not fit one CPU while 8 are in use there. *)
Theorem cordoned_pods_still_count :
  fs_Fits (feasibility_status [cpu_node "a" false] [] one_cpu 0) = true ∧
  fs_Fits (feasibility_status [cpu_node "a" false; cpu_node "b" true] [cpu_pod "b"] one_cpu 0) = false.
Proof. vm_compute. by split. Qed.

(** Two replicas of six CPUs and eight GPUs each on one node of eight CPUs: four CPUs
    and sixteen GPUs are missing. *)
Lemma feasibility_fits_iff_witness :
  fs_Fits (feasibility_status [cpu_node "a" false] [] (cpu_request 6) 0) = false ∧
  ∃ m, fs_Missing (feasibility_status [cpu_node "a" false] [] (cpu_request 6) 0) = Some m ∧
    q_nano <$> rt_CPU m = Some 4000000000%Z ∧ rt_Memory m = None ∧ rt_Storage m = None ∧ rt_GPUCount m = Some 16%Z.
Proof.
  destruct (feasibility_fits_iff [cpu_node "a" false] [] (cpu_request 6) 0) as (Hf & Hn & Hm).
  - apply Forall_cons. split; [|by repeat constructor]. right. exists 6000%Z. by vm_compute.
  - by vm_compute.
  - destruct (fs_Fits _) eqn:E.
    { exfalso. destruct Hf as [Hf _]. specialize (Hf eq_refl) as (Hf & _). vm_compute in Hf. by apply Hf. }
    split; [done|]. destruct (fs_Missing _) as [m|] eqn:E'; [|by destruct Hn as [_ Hn]; specialize (Hn eq_refl)].
    exists m. split; [done|]. specialize (Hm m eq_refl) as (H1 & H2 & H3 & H4). split; [exact H1|].
    split; [by destruct (rt_Memory m)|]. split; [by destruct (rt_Storage m)|]. exact H4.
Defined.
