(* ===== verification/Cluster.v ===== *)
(** * Child clusters: their client and the workspace namespace

    [internal/controller/infra/common/regional.go] (the client of a cluster and the lookups of regional clusters) and
    [internal/controller/workspaces/namespace.go]. *)

From S2P Require Import Prelude GoString Api Naming Prog.

(** ** regional.go *)
Definition GetClusterClientForCD (managementClient : client) (namespace cdName : string) : prog (res client) :=
  let kubeconfigSecretName := cdName +:+ "-kubeconfig" in
  secret ← call (Get KSecret managementClient {| k_Namespace := namespace; k_Name := kubeconfigSecretName |});
  match secret with
  | Err err => mret (Err (wrapf ("failed to get cluster kubeconfig secret " +:+ quote kubeconfigSecretName) err))
  | Ok s =>
      match sec_Data s !! "value" with
      | None => mret (Err (errorf ("cluster kubeconfig secret " +:+ quote kubeconfigSecretName
                                   +:+ " does not contain key 'value'")))
      | Some bytes =>
          cfg ← call (RESTConfigFromKubeConfig bytes);
          match cfg with
          | Err err => mret (Err (wrapf ("failed to create REST config for cluster " +:+ quote cdName) err))
          | Ok cfg =>
              c ← call (NewClient cfg);
              match c with
              | Err err => mret (Err (wrapf ("failed to create client for cluster " +:+ quote cdName) err))
              | Ok c => mret (Ok c)
              end
          end
      end
  end.

Definition LabelKOFRegionalClusterName : string := "k0rdent.mirantis.com/kof-regional-cluster-name".
Definition LabelKOFClusterName : string := "k0rdent.mirantis.com/kof-cluster-name".
Definition LabelKOFClusterRole : string := "k0rdent.mirantis.com/kof-cluster-role".

(** The first of several matches is used. *)
Definition FindRegionalClusterDeployment (c : client) (namespace regionalClusterName : string)
    : prog (res ClusterDeployment) :=
  cds ← call (ListObjs KCD c {| lo_InNamespace := Some namespace;
                                lo_MatchingLabels := {[ LabelKOFClusterName := regionalClusterName ]};
                                lo_MatchingFields := ∅; lo_HasLabels := [] |});
  match cds with
  | Err err => mret (Err (wrapf ("failed to list ClusterDeployments for regional cluster " +:+
                                 quote regionalClusterName) err))
  | Ok [] => mret (Err (errorf ("no ClusterDeployment found with label " +:+ LabelKOFClusterName +:+ "=" +:+
                                regionalClusterName +:+ " in namespace " +:+ namespace)))
  | Ok (cd :: _) => mret (Ok cd)
  end.

Definition FindRegionalClusterDeploymentsByRole (c : client) (namespace : string)
    : prog (res (list ClusterDeployment)) :=
  wrap_err ("failed to list regional ClusterDeployments in namespace " +:+ namespace)
    (call (ListObjs KCD c {| lo_InNamespace := Some namespace;
                             lo_MatchingLabels := {[ LabelKOFClusterRole := "regional" ]};
                             lo_MatchingFields := ∅; lo_HasLabels := [] |})).

(** The workspace's ClusterDeployment. *)
Definition cd_key (wsd : WorkspaceDeployment) : ObjectKey :=
  {| k_Namespace := r_Namespace (w_CDRef wsd); k_Name := r_Name (w_CDRef wsd) |}.

(** ** namespace.go *)
Definition getChildClusterClient (managementClient : client) (wsd : WorkspaceDeployment) : prog (res client) :=
  GetClusterClientForCD managementClient (r_Namespace (w_CDRef wsd)) (r_Name (w_CDRef wsd)).

(** The labels after [applyMissingLabels], and whether anything changed. *)
Definition applyMissingLabels (obj : Namespace) (desired : gmap string string) : Namespace * bool :=
  let old := m_Labels (ns_meta obj) in
  let labels := match old with
                | None => if bool_decide (desired = ∅) then None else Some ∅
                | Some l => Some l
                end in
  let changed := negb (forallb (λ kv, bool_decide (smget labels kv.1 = kv.2)) (map_to_list desired)) in
  let write l := filter (λ kv : string * string, mget l kv.1 ≠ kv.2) desired ∪ l in
  ({| ns_meta := set_labels (write <$> labels) (ns_meta obj) |}, changed).

Definition ns_key (name : string) : ObjectKey := {| k_Namespace := ""; k_Name := name |}.

Definition ensureWorkspaceNamespace (childClient : client) (wsd : WorkspaceDeployment)
    (meshLabels : StrMap) : prog (res bool) :=
  let nsName := workspaceNamespaceName wsd in
  let desired := workspaceNamespaceLabels (w_Name wsd) meshLabels in
  ns ← call (Get KNamespace childClient (ns_key nsName));
  match ns with
  | Err err =>
      if IsNotFound err then
        r ← call (Create KNamespace childClient {| ns_meta := new_meta nsName "" (Some desired) |});
        match r with
        | Err err => if IsAlreadyExists err then mret (Ok false) else mret (Err err)
        | Ok _ => mret (Ok true)
        end
      else mret (Err err)
  | Ok ns =>
      if deleting (ns_meta ns) then mret (Ok false)
      else
        let '(ns', changed) := applyMissingLabels ns desired in
        if changed : bool then
          r ← call (Update KNamespace childClient ns');
          match r with Err err => mret (Err err) | Ok _ => mret (Ok true) end
        else mret (Ok true)
  end.

Definition deleteWorkspaceNamespace (childClient : client) (wsd : WorkspaceDeployment) : prog (res bool) :=
  let nsName := workspaceNamespaceName wsd in
  ns ← call (Get KNamespace childClient (ns_key nsName));
  match ns with
  | Err err => if IsNotFound err then mret (Ok true) else mret (Err err)
  | Ok ns =>
      if deleting (ns_meta ns) then mret (Ok true)
      else
        r ← call (Delete KNamespace childClient ns);
        match r with
        | Err err => if IsNotFound err then mret (Ok true) else mret (Err err)
        | Ok _ => mret (Ok true)
        end
  end.

(** ** Lemmas *)

(** Building a client only reads. *)
Lemma cluster_client_reads c ns cd : always read_only (GetClusterClientForCD c ns cd).
Proof. unfold GetClusterClientForCD. prove_always. Qed.
Lemma child_client_reads c wsd : always read_only (getChildClusterClient c wsd).
Proof. apply cluster_client_reads. Qed.
#[export] Hint Resolve cluster_client_reads child_client_reads : prog.

(** A client for a cluster is built from the kubeconfig stored in that cluster's
    own secret. *)
Lemma cluster_client_source c ns cd tr cl :
  exec (GetClusterClientForCD c ns cd) tr (Ok cl) →
  ∃ s bytes cfg,
    tr = [Ev (Get KSecret c {| k_Namespace := ns; k_Name := cd +:+ "-kubeconfig" |}) (Ok s);
          Ev (RESTConfigFromKubeConfig bytes) (Ok cfg); Ev (NewClient cfg) (Ok cl)] ∧
    sec_Data s !! "value" = Some bytes.
Proof.
  unfold GetClusterClientForCD. intros H. exec_inv. destruct x as [s|]; exec_inv; [|done].
  destruct (sec_Data s !! "value") as [bytes|] eqn:E; exec_inv; [|done].
  destruct x as [cfg|]; exec_inv; [|done]. destruct x as [cl'|]; exec_inv; [|done].
  simplify_eq. by exists s, bytes, cfg.
Qed.

(** The namespace's labels afterwards: every desired label has its value, every
    other label is untouched, and [changed] tells whether anything was written. *)
Lemma applyMissingLabels_spec obj desired :
  let '(obj', changed) := applyMissingLabels obj desired in
  (∀ k v, desired !! k = Some v → smget (m_Labels (ns_meta obj')) k = v) ∧
  (∀ k, desired !! k = None → smget (m_Labels (ns_meta obj')) k = smget (m_Labels (ns_meta obj)) k) ∧
  (changed = false ↔ ∀ k v, desired !! k = Some v → smget (m_Labels (ns_meta obj)) k = v).
Proof.
  unfold applyMissingLabels. set (old := m_Labels (ns_meta obj)).
  set (labels := match old with None => _ | Some l => Some l end).
  assert (Hl : ∀ k, smget labels k = smget old k).
  { intros k. unfold labels. destruct old; [done|]. by destruct (bool_decide _). }
  assert (Hw : ∀ k, smget ((λ l, filter (λ kv : string * string, mget l kv.1 ≠ kv.2) desired ∪ l) <$> labels) k =
               match desired !! k with Some v => v | None => smget old k end).
  { intros k. rewrite <- Hl. unfold smget. destruct labels as [l|] eqn:El; simpl.
    - unfold mget at 1. rewrite lookup_union, map_lookup_filter.
      destruct (desired !! k) as [v|] eqn:Ed; simpl; [|by unfold mget; destruct (l !! k)].
      case_guard as Hg; simpl.
      + by destruct (l !! k).
      + unfold mget in *. by destruct (l !! k).
    - destruct (desired !! k) as [v|] eqn:Ed; [|done]. unfold labels in El.
      destruct old; [done|]. case_bool_decide; [subst; by rewrite lookup_empty in Ed|done]. }
  simpl. split_and!.
  - intros k v Hk. by rewrite Hw, Hk.
  - intros k Hk. by rewrite Hw, Hk.
  - rewrite negb_false_iff, forallb_forall. split.
    + intros Hall k v Hk. specialize (Hall (k, v)). rewrite <- list_elem_of_In, elem_of_map_to_list in Hall.
      apply Hall, bool_decide_eq_true in Hk. simpl in Hk. by rewrite <- Hl.
    + intros Hall [k v] Hin. apply list_elem_of_In, elem_of_map_to_list in Hin.
      apply bool_decide_eq_true. simpl. rewrite Hl. by apply Hall.
Qed.

Definition has_labels (ns : Namespace) (desired : gmap string string) : Prop :=
  ∀ k v, desired !! k = Some v → smget (m_Labels (ns_meta ns)) k = v.

(** The workspace namespace is ready only when this run has seen it on the child
    cluster, not terminating, carrying the identity label and the mesh labels. *)
Theorem namespace_ready_is_labelled c wsd mesh tr :
  exec (ensureWorkspaceNamespace c wsd mesh) tr (Ok true) →
  let desired := workspaceNamespaceLabels (w_Name wsd) mesh in
  (∃ ns r, Ev (Create KNamespace c ns) (Ok r) ∈ tr ∧
     m_Name (ns_meta ns) = workspaceNamespaceName wsd ∧ has_labels ns desired) ∨
  (∃ ns, Ev (Get KNamespace c (ns_key (workspaceNamespaceName wsd))) (Ok ns) ∈ tr ∧
     deleting (ns_meta ns) = false ∧
     (has_labels ns desired ∨
      ∃ ns' r, Ev (Update KNamespace c ns') (Ok r) ∈ tr ∧ has_labels ns' desired ∧
        deleting (ns_meta ns') = false)).
Proof.
  intros H desired. unfold ensureWorkspaceNamespace in H. exec_inv. destruct x as [ns|err].
  - apply exec_if in H as [[_ H]|[Hd H]]; exec_inv; [done|].
    pose proof (applyMissingLabels_spec ns desired) as Hs.
    assert (Hdel : deleting (ns_meta (applyMissingLabels ns desired).1) = deleting (ns_meta ns)) by done.
    fold desired in H. destruct (applyMissingLabels ns desired) as [ns' changed].
    destruct Hs as (Hs1 & _ & Hs3). right. exists ns. destruct changed; exec_inv.
    + destruct x as [r|]; exec_inv; [|done]. split_and!; [in_trace|done|]. right. exists ns', r.
      simpl in Hdel. split_and!; [in_trace|done|congruence].
    + split_and!; [in_trace|done|]. left. intros k v. by apply Hs3.
  - destruct (IsNotFound err); exec_inv; [|done]. destruct x as [r|err'].
    + exec_inv. left. eexists _, r. split_and!; [in_trace|done|].
      intros k v Hk. by apply mget_Some.
    + destruct (IsAlreadyExists err'); exec_inv; done.
Qed.

Lemma namespace_ready_is_labelled_witness :
  let wsd := example_wsd "ns" "w" "cd" in
  let desired := workspaceNamespaceLabels "w" None in
  let ns := {| ns_meta := new_meta "ws-w" "" (Some desired) |} in
  ∃ ns', has_labels ns' desired.
Proof.
  intros wsd desired ns.
  destruct (namespace_ready_is_labelled MgmtClient wsd None
    [Ev (Get KNamespace MgmtClient (ns_key "ws-w")) (Err not_found); Ev (Create KNamespace MgmtClient ns) (Ok ns)])
    as [(ns' & _ & _ & _ & H)|(ns' & _ & _ & [H|(ns2 & _ & _ & H & _)])].
  - repeat (eexists _, _; split; [reflexivity|]). split; reflexivity.
  - exists ns'. exact H.
  - exists ns'. exact H.
  - exists ns2. exact H.
Defined.
