(* ===== verification/ClusterDeployments.v ===== *)
(** * ClusterDeployments of a colony

    [internal/controller/infra/clusterdeployment/clusterdeployment.go] and the
    accessors of [api/infra/v1/colony_types.go].  The operator writes some fields of
    a ClusterDeployment and leaves the others to k0rdent (KCM). *)

From S2P Require Import Prelude GoString Api InfraApi Json Prog Cluster.

(** ** Library code: the JSON forms of the k0rdent and core types,
    k0rdent's condition type, and [meta.SetStatusCondition], which stamps a change of
    status with the time. *)
Class InfraLib := {
  UnmarshalClusterDeploymentSpec : string → res CDSpec;
  MarshalClusterDeploymentSpec : CDSpec → res string;
  MarshalObjectReference : ObjectReference → res string;
  ReadyCondition : string;
  SetStatusCondition : Z → list Condition → Condition → list Condition
}.

Section accessors.
Context `{InfraLib}.

Definition GetClusterDeploymentSpec (cc : ColonyCluster) : res (option CDSpec) :=
  match cc_ClusterDeploymentSpec cc with
  | None => Ok None
  | Some raw =>
      match UnmarshalClusterDeploymentSpec raw with
      | Err err => Err (wrapf "failed to unmarshal ClusterDeploymentSpec" err)
      | Ok spec => Ok (Some spec)
      end
  end.
Definition SetClusterDeploymentSpec (cc : ColonyCluster) (spec : option CDSpec) : res ColonyCluster :=
  let with_raw raw := {| cc_ClusterName := cc_ClusterName cc; cc_ClusterDeploymentSpec := raw;
                         cc_ClusterLabels := cc_ClusterLabels cc;
                         cc_ClusterAnnotations := cc_ClusterAnnotations cc |} in
  match spec with
  | None => Ok (with_raw None)
  | Some spec =>
      match MarshalClusterDeploymentSpec spec with
      | Err err => Err (wrapf "failed to marshal ClusterDeploymentSpec" err)
      | Ok raw => Ok (with_raw (Some raw))
      end
  end.
End accessors.

(** ** Managed fields *)
Record Managed := {
  newConfig : option RawJSON;
  newCredential : string;
  newTemplate : string;
  newServiceSpec : ServiceSpec;
  newPropagateCredentials : bool;
  colonyLabels : StrMap;
  colonyAnnotations : StrMap
}.

(** A copy that is never nil. *)
Definition mergeLabels (existingLabels newLabels : StrMap) : StrMap :=
  Some (map_assign (default ∅ existingLabels) (default ∅ newLabels)).
Definition mergeAnnotations (existingAnnotations newAnnotations : StrMap) : StrMap :=
  Some (map_assign (default ∅ existingAnnotations) (default ∅ newAnnotations)).

(** One pass over the managed fields of the object just read: the object to write,
    and [changed]. *)
Definition sync_fields (m : Managed) (latest : ClusterDeployment) : ClusterDeployment * bool :=
  let s := cd_Spec latest in
  let mergedLabels := mergeLabels (m_Labels (cd_meta latest)) (colonyLabels m) in
  let mergedAnnotations := mergeAnnotations (m_Annotations (cd_meta latest)) (colonyAnnotations m) in
  let config_changed := negb (jsonConfigsEqual (cds_Config s) (newConfig m)) in
  let changed :=
    config_changed
    || bdec (cds_Credential s ≠ newCredential m)
    || bdec (cds_Template s ≠ newTemplate m)
    || bdec (cds_ServiceSpec s ≠ newServiceSpec m)
    || bdec (cds_PropagateCredentials s ≠ newPropagateCredentials m)
    || bdec (m_Labels (cd_meta latest) ≠ mergedLabels)
    || bdec (m_Annotations (cd_meta latest) ≠ mergedAnnotations) in
  ({| cd_APIVersion := cd_APIVersion latest; cd_Kind := cd_Kind latest;
      cd_meta := set_annotations mergedAnnotations (set_labels mergedLabels (cd_meta latest));
      cd_Spec := {| cds_Config := if config_changed then newConfig m else cds_Config s;
                    cds_Credential := newCredential m;
                    cds_Template := newTemplate m;
                    cds_ServiceSpec := newServiceSpec m;
                    cds_PropagateCredentials := newPropagateCredentials m;
                    cds_Rest := cds_Rest s |};
      cd_StatusServices := cd_StatusServices latest;
      cd_Conditions := cd_Conditions latest |}, changed).

Definition ObjectKeyFromObject (m : ObjectMeta) : ObjectKey := {| k_Namespace := m_Namespace m; k_Name := m_Name m |}.

Definition Millisecond : Z := 1000000.
Definition maxRetries : nat := 5.
Definition initialBackoff : Z := 100 * Millisecond.

(** The attempts left, the backoff so far. *)
Fixpoint update_attempts (c : client) (key : ObjectKey) (m : Managed) (attempts : nat) (backoff : Z)
    : prog (res (option ClusterDeployment)) :=
  match attempts with
  | O => mret (Err (errorf "failed to update ClusterDeployment after 5 attempts"))
  | S attempts =>
      latest ←? wrap_err "failed to get latest ClusterDeployment" (call (Get KCD c key));
      let '(synced, changed) := sync_fields m latest in
      if negb changed then mret (Ok None)
      else
        x ← call (Update KCD c synced);
        match x with
        | Err err =>
            if IsConflict err then
              _ ← call (Sleep backoff);
              update_attempts c key m attempts (2 * backoff)
            else mret (Err (wrapf "failed to update ClusterDeployment" err))
        | Ok updated => mret (Ok (Some updated))
        end
  end.
Definition updateManagedFields (c : client) (existing : ClusterDeployment) (m : Managed)
    : prog (res (option ClusterDeployment)) :=
  update_attempts c (ObjectKeyFromObject (cd_meta existing)) m maxRetries initialBackoff.

(** ** EnsureClusterDeployment *)
Definition managed_fields (spec : CDSpec) (cc : ColonyCluster) : Managed :=
  {| newConfig := cds_Config spec; newCredential := cds_Credential spec; newTemplate := cds_Template spec;
     newServiceSpec := cds_ServiceSpec spec; newPropagateCredentials := cds_PropagateCredentials spec;
     colonyLabels := cc_ClusterLabels cc; colonyAnnotations := cc_ClusterAnnotations cc |}.
Definition deployment_name (colony : Colony) (cc : ColonyCluster) : string :=
  col_Name colony +:+ "-" +:+ cc_ClusterName cc.
Definition new_deployment (colony : Colony) (cc : ColonyCluster) (spec : CDSpec) : ClusterDeployment :=
  {| cd_APIVersion := ""; cd_Kind := "";
     cd_meta := set_annotations (cc_ClusterAnnotations cc)
                  (new_meta (deployment_name colony cc) (col_Namespace colony) (cc_ClusterLabels cc));
     cd_Spec := spec; cd_StatusServices := []; cd_Conditions := [] |}.
Definition set_cd_meta (m : ObjectMeta) (cd : ClusterDeployment) : ClusterDeployment :=
  {| cd_APIVersion := cd_APIVersion cd; cd_Kind := cd_Kind cd; cd_meta := m; cd_Spec := cd_Spec cd;
     cd_StatusServices := cd_StatusServices cd; cd_Conditions := cd_Conditions cd |}.

Definition reference (cd : ClusterDeployment) : ObjectReference :=
  {| or_APIVersion := cd_APIVersion cd; or_Kind := cd_Kind cd; or_Namespace := m_Namespace (cd_meta cd);
     or_Name := m_Name (cd_meta cd) |}.
Definition same_target (a b : ObjectReference) : bool :=
  bdec (or_Name a = or_Name b) && bdec (or_Namespace a = or_Namespace b).
(** The reference is appended in memory only. *)
Definition add_reference (ref : ObjectReference) (colony : Colony) : Colony :=
  if existsb (λ r, same_target r ref) (col_Refs colony) then colony
  else upd_col_status (set_ClusterDeploymentRefs (col_Refs colony ++ [ref])) colony.

(** The ClusterDeployment as it now is. *)
Definition ensure_deployment (c : client) (clusterDeployment : ClusterDeployment) (m : Managed)
    : prog (res ClusterDeployment) :=
  x ← call (Get KCD c (ObjectKeyFromObject (cd_meta clusterDeployment)));
  match x with
  | Err err => if IsNotFound err then call (Create KCD c clusterDeployment) else mret (Err err)
  | Ok existing =>
      updated ←? updateManagedFields c existing m;
      mret (Ok (default existing updated))
  end.

Definition EnsureClusterDeployment `{InfraLib} (c : client) (colony : Colony) (cc : ColonyCluster)
    : prog (Colony * option error) :=
  match GetClusterDeploymentSpec cc with
  | Err err => mret (colony, Some err)
  | Ok None => mret (colony, None)
  | Ok (Some spec) =>
      let cd := new_deployment colony cc spec in
      owned ← call (SetControllerReference (col_meta colony) (cd_meta cd));
      match owned with
      | Err err => mret (colony, Some (wrapf "failed to set owner reference on ClusterDeployment" err))
      | Ok meta =>
          actual ← ensure_deployment c (set_cd_meta meta cd) (managed_fields spec cc);
          match actual with
          | Err err => mret (colony, Some err)
          | Ok actual => mret (add_reference (reference actual) colony, None)
          end
      end
  end.

(** ** DeletePVCForClusterDeployment *)
Definition etcd_pvc (name namespace : string) : PersistentVolumeClaim :=
  {| pvc_meta := new_meta ("etcd-data-kmc-" +:+ name +:+ "-etcd-0") namespace None |}.
Fixpoint delete_regional_pvc (c : client) (namespace : string) (pvc : PersistentVolumeClaim)
    (regionalCDs : list ClusterDeployment) : prog (res unit) :=
  match regionalCDs with
  | [] => mret (Ok tt)
  | rcd :: rest =>
      regionalClient ← GetClusterClientForCD c namespace (m_Name (cd_meta rcd));
      match regionalClient with
      | Err _ => delete_regional_pvc c namespace pvc rest
      | Ok regionalClient =>
          x ← call (Delete KPVC regionalClient pvc);
          match x with
          | Err err => if IsNotFound err then delete_regional_pvc c namespace pvc rest else mret (Err err)
          | Ok _ => mret (Ok tt)
          end
      end
  end.
Definition DeletePVCForClusterDeployment (c : client) (name namespace : string) : prog (res unit) :=
  let pvc := etcd_pvc name namespace in
  x ← call (Delete KPVC c pvc);
  match x with
  | Ok _ => mret (Ok tt)
  | Err err =>
      if negb (IsNotFound err) then mret (Err err)
      else
        regionalCDs ← FindRegionalClusterDeploymentsByRole c namespace;
        match regionalCDs with
        | Err _ => mret (Ok tt)
        | Ok regionalCDs => delete_regional_pvc c namespace pvc regionalCDs
        end
  end.

(** ** WaitForClusterDeletion

    [ticks] is how many ticks of the timer are served before the timeout's case is. *)
Fixpoint WaitForClusterDeletion (c : client) (clusterDeployment : ObjectMeta) (ticks : nat) : prog (res unit) :=
  match ticks with
  | O => mret (Err (errorf ("timeout waiting for cluster " +:+ m_Name clusterDeployment +:+ " deletion")))
  | S ticks =>
      x ← call (Get KCD c (ObjectKeyFromObject clusterDeployment));
      let gone := match x with Err err => IsNotFound err | Ok _ => false end in
      if gone then
        _ ← DeletePVCForClusterDeployment c (m_Name clusterDeployment) (m_Namespace clusterDeployment);
        mret (Ok tt)
      else WaitForClusterDeletion c clusterDeployment ticks
  end.

(** ** CleanupOrphanedClusterDeployments *)
Definition expectedClusterNames (colony : Colony) : list string :=
  deployment_name colony <$> ColonyClusters (col_Spec colony).
Definition ref_key (ref : ObjectReference) : ObjectKey :=
  {| k_Namespace := or_Namespace ref; k_Name := or_Name ref |}.

(** What one orphaned reference turns out to be. *)
Inductive orphan := OrphanGone | OrphanPending.
Definition cleanup_ref (c : client) (ref : ObjectReference) : prog (res orphan) :=
  x ← call (Get KCD c (ref_key ref));
  match x with
  | Err err =>
      if IsNotFound err then
        (* a failure to delete the PVC is logged *)
        _ ← DeletePVCForClusterDeployment c (or_Name ref) (or_Namespace ref);
        mret (Ok OrphanGone)
      else mret (Err err)
  | Ok cd =>
      if deleting (cd_meta cd) then mret (Ok OrphanPending)
      else
        y ← call (Delete KCD c cd);
        match y with
        | Err err => if negb (IsNotFound err) then mret (Err err) else mret (Ok OrphanPending)
        | Ok _ => mret (Ok OrphanPending)
        end
  end.
(** The deleted references and the number of pending deletions. *)
Fixpoint cleanup_refs (c : client) (expected : list string) (refs deletedRefs : list ObjectReference)
    (pending : nat) : prog (res (list ObjectReference * nat)) :=
  match refs with
  | [] => mret (Ok (deletedRefs, pending))
  | ref :: refs =>
      if bdec (or_Name ref ∈ expected) then cleanup_refs c expected refs deletedRefs pending
      else
        o ←? cleanup_ref c ref;
        match o with
        | OrphanGone => cleanup_refs c expected refs (deletedRefs ++ [ref]) pending
        | OrphanPending => cleanup_refs c expected refs deletedRefs (S pending)
        end
  end.
Definition drop_refs (deletedRefs refs : list ObjectReference) : list ObjectReference :=
  filter (λ ref, existsb (same_target ref) deletedRefs = false) refs.
(** The colony as it now is, and whether deletions are pending. *)
Definition CleanupOrphanedClusterDeployments (c : client) (colony : Colony) : prog (res (Colony * bool)) :=
  x ←? cleanup_refs c (expectedClusterNames colony) (col_Refs colony) [] 0;
  let '(deletedRefs, pending) := x in
  let hasPendingDeletions := bdec (0 < pending)%nat in
  if bdec (deletedRefs = []) then mret (Ok (colony, hasPendingDeletions))
  else
    let colony' := upd_col_status (set_ClusterDeploymentRefs (drop_refs deletedRefs (col_Refs colony))) colony in
    patched ←? wrap_err "failed to update Colony status after cleanup" (call (StatusPatch KColony c colony colony'));
    mret (Ok (patched, hasPendingDeletions)).
