(* ===== verification/Discovery.v ===== *)
(** * Control planes: where a cluster's API server is, and telling the cluster

    [internal/controller/infra/common/service_discovery.go], the colony's part of
    [infra/common/regional.go], and [infra/cilium/api_endpoint_configmap.go]. *)

From Stdlib Require Import Ascii.
From S2P Require Import Prelude GoString Api InfraApi Prog Values Cluster ClusterDeployments.

(** ** regional.go *)
Definition IsRegionalChild (colonyCluster : ColonyCluster) : bool * string :=
  match cc_ClusterLabels colonyCluster with
  | None => (false, "")
  | Some labels =>
      match labels !! LabelKOFRegionalClusterName with
      | None => (false, "")
      | Some regionalName => if bdec (regionalName = "") then (false, "") else (true, regionalName)
      end
  end.
Definition GetColonyClusterByName (colony : Colony) (clusterName : string) : option ColonyCluster :=
  find_first (λ cc, bdec (cc_ClusterName cc = clusterName)) (ColonyClusters (col_Spec colony)).

(** The client ([None] is nil), [isRegional] and the error. *)
Definition ResolveRegionalClient (managementClient : client) (colony : Colony) (clusterName : string)
    : prog (option client * bool * option error) :=
  match GetColonyClusterByName colony clusterName with
  | None => mret (None, false, None)
  | Some colonyCluster =>
      let '(isRegional, regionalName) := IsRegionalChild colonyCluster in
      if negb isRegional then mret (None, false, None)
      else
        regionalCD ← FindRegionalClusterDeployment managementClient (col_Namespace colony) regionalName;
        match regionalCD with
        | Err err =>
            mret (None, true, Some (wrapf ("failed to find regional ClusterDeployment for " +:+ quote regionalName) err))
        | Ok regionalCD =>
            regionalClient ← GetClusterClientForCD managementClient (col_Namespace colony) (m_Name (cd_meta regionalCD));
            match regionalClient with
            | Err err =>
                mret (None, true, Some (wrapf ("failed to get regional cluster client for " +:+ quote regionalName) err))
            | Ok regionalClient => mret (Some regionalClient, true, None)
            end
        end
  end.

(** ** service_discovery.go *)
Definition api_name (name : string) : bool := bdec (name = "api") || bdec (name = "kube-apiserver").
Definition api_number (port : Z) : bool := bdec (port = 30443%Z) || bdec (port = 6443%Z).
Definition is_api_port (p : ServicePort) : bool := api_name (sp_Name p) || api_number (sp_Port p).
Definition is_konnectivity_port (p : ServicePort) : bool :=
  bdec (sp_Name p = "konnectivity") || bdec (sp_Port p = 30132%Z) || bdec (sp_Port p = 8132%Z).

Definition ValidateControlPlanePorts (service : Service) : option error :=
  let hasAPIPort := existsb is_api_port (svc_Ports service) in
  let hasKonnectivityPort := existsb is_konnectivity_port (svc_Ports service) in
  if negb hasAPIPort then
    Some (errorf "API server port not found (expected port named 'api' or ports 30443/6443)")
  else if negb hasKonnectivityPort then
    Some (errorf "konnectivity port not found (expected port named 'konnectivity' or ports 30132/8132)")
  else None.

Definition no_cluster_ip (service : Service) : bool :=
  bdec (svc_ClusterIP service = "") || bdec (svc_ClusterIP service = "None").

Definition control_plane_labels (colonyName clusterName : string) : gmap string string :=
  <["app" := "k0smotron"]> (<["component" := "cluster"]> {[ "cluster" := colonyName +:+ "-" +:+ clusterName ]}).
Definition DiscoverControlPlaneService (c : client) (namespace colonyName clusterName : string) : prog (res Service) :=
  services ← call (ListObjs KService c {| lo_InNamespace := Some namespace;
                                          lo_MatchingLabels := control_plane_labels colonyName clusterName;
                                          lo_MatchingFields := ∅; lo_HasLabels := [] |});
  match services with
  | Err err => mret (Err (wrapf "failed to list control plane services" err))
  | Ok [] => mret (Err (errorf "control plane service not found yet (cluster still provisioning)"))
  | Ok (service :: _) =>
      if no_cluster_ip service then
        mret (Err (errorf ("control plane service " +:+ m_Name (svc_meta service) +:+ " has no ClusterIP (type: "
                           +:+ svc_Type service +:+ ")")))
      else
        match ValidateControlPlanePorts service with
        | Some err =>
            mret (Err (wrapf ("control plane service " +:+ m_Name (svc_meta service) +:+ " port validation failed") err))
        | None => mret (Ok service)
        end
  end.

Definition GetAPIServerPort (service : Service) : Z :=
  match find_first (λ p, api_name (sp_Name p)) (svc_Ports service) with
  | Some p => sp_Port p
  | None =>
      match find_first (λ p, api_number (sp_Port p)) (svc_Ports service) with
      | Some p => sp_Port p
      | None => 30443
      end
  end.

Definition ServiceTypeLoadBalancer : string := "LoadBalancer".
Definition ServiceTypeNodePort : string := "NodePort".
Definition GetServiceExternalAddress (service : Service) : option string :=
  if bdec (svc_Type service ≠ ServiceTypeLoadBalancer) then None
  else
    match svc_Ingress service with
    | [] => None
    | ingress :: _ =>
        if bdec (ing_Hostname ingress ≠ "") then Some (ing_Hostname ingress)
        else if bdec (ing_IP ingress ≠ "") then Some (ing_IP ingress)
        else None
    end.

Definition ExtractClusterNameFromDeploymentName (deploymentName colonyName : string) : string :=
  let prefix := colonyName +:+ "-" in
  if (len deploymentName <=? len prefix)%nat then ""
  else if bdec (slice deploymentName 0 (len prefix) ≠ prefix) then ""
  else slice deploymentName (len prefix) (len deploymentName).

Definition GetCAPICluster (c : client) (namespace name : string) : prog (res (option Cluster)) :=
  x ← call (Get KCluster c {| k_Namespace := namespace; k_Name := name |});
  match x with
  | Err err => if IsNotFound err then mret (Ok None)
               else mret (Err (wrapf ("failed to get CAPI Cluster " +:+ namespace +:+ "/" +:+ name) err))
  | Ok cluster => mret (Ok (Some cluster))
  end.

(** [net.JoinHostPort] brackets a host with a colon. *)
Definition joinHostPort (host : string) (port : Z) : string :=
  match index_byte ":"%char host with
  | Some _ => "[" +:+ host +:+ "]:" +:+ itoa port
  | None => host +:+ ":" +:+ itoa port
  end.

Definition ErrControlPlaneEndpointNotReady : error := errorf "control plane endpoint not published yet".
Definition DetermineAPIEndpoint (service : Service) (capiCluster : option Cluster) : res string :=
  if no_cluster_ip service then
    Err (errorf ("service " +:+ m_Name (svc_meta service) +:+ " has no valid ClusterIP"))
  else
    let apiPort := GetAPIServerPort service in
    match GetServiceExternalAddress service with
    | Some externalAddress => Ok (joinHostPort externalAddress apiPort)
    | None =>
        if bdec (svc_Type service = ServiceTypeNodePort) then
          let not_ready := Err (wrapf ("service " +:+ m_Name (svc_meta service) +:+
                                       " is NodePort but CAPI Cluster has no controlPlaneEndpoint")
                                      ErrControlPlaneEndpointNotReady) in
          match capiCluster with
          | None => not_ready
          | Some cluster =>
              if bdec (cl_Host cluster = "") then not_ready
              else
                let port := if bdec (cl_Port cluster = 0%Z) then apiPort else cl_Port cluster in
                Ok (joinHostPort (cl_Host cluster) port)
          end
        else Ok (joinHostPort (svc_ClusterIP service) apiPort)
    end.

(** ** api_endpoint_configmap.go *)
Definition ConfigMapName : string := "cp-api-endpoint".
Definition ConfigMapNamespace : string := "kube-system".

Definition parseEndpoint (endpoint : string) : res (string * string) :=
  if HasPrefix endpoint "[" then
    match index_byte "]"%char endpoint with
    | None => Err (errorf ("invalid IPv6 endpoint format: " +:+ endpoint))
    | Some closeBracket =>
        let host := slice endpoint 1 closeBracket in
        match String.get (closeBracket + 1) endpoint with
        | Some ":"%char => Ok (host, slice endpoint (closeBracket + 2) (len endpoint))
        | _ => Err (errorf ("missing port in IPv6 endpoint: " +:+ endpoint))
        end
    end
  else
    match split_byte ":"%char endpoint with
    | [host; port] =>
        if bdec (host = "") || bdec (port = "")
        then Err (errorf ("host or port is empty in endpoint: " +:+ endpoint))
        else Ok (host, port)
    | _ => Err (errorf ("invalid endpoint format, expected host:port, got: " +:+ endpoint))
    end.

Definition getClientForChildCluster (managementClient : client) (colony : Colony) (clusterName : string)
    : prog (res client) :=
  let kubeconfigSecretName := col_Name colony +:+ "-" +:+ clusterName +:+ "-kubeconfig" in
  s ←? wrap_err ("failed to get kubeconfig secret " +:+ quote kubeconfigSecretName)
         (call (Get KSecret managementClient {| k_Namespace := col_Namespace colony; k_Name := kubeconfigSecretName |}));
  match sec_Data s !! "value" with
  | None => mret (Err (errorf ("kubeconfig secret " +:+ quote kubeconfigSecretName +:+
                               " does not contain key 'value'")))
  | Some bytes =>
      cfg ←? wrap_err ("failed to create REST config for cluster " +:+ quote clusterName)
               (call (RESTConfigFromKubeConfig bytes));
      wrap_err ("failed to create client for cluster " +:+ quote clusterName) (call (NewClient cfg))
  end.

Definition endpoint_data (host port : string) : gmap string string := <["host" := host]> {[ "port" := port ]}.
Definition new_configmap (colony : Colony) (clusterName host port : string) : ConfigMap :=
  {| cm_meta := new_meta ConfigMapName ConfigMapNamespace
                  (Some (<["app.kubernetes.io/managed-by" := "exalsius-operator"]>
                        (<["exalsius.ai/colony" := col_Name colony]> {[ "exalsius.ai/cluster" := clusterName ]})));
     cm_Data := Some (endpoint_data host port) |}.
Definition lift_err (msg : string) {A} (x : res A) : outcome unit :=
  Returns (match x with Ok _ => Ok tt | Err err => Err (wrapf msg err) end).

(** Writing to the nil [Data] of an existing ConfigMap panics. *)
Definition write_configmap (childClient : client) (colony : Colony) (clusterName host port : string)
    : prog (outcome unit) :=
  existingCM ← call (Get KConfigMap childClient {| k_Namespace := ConfigMapNamespace; k_Name := ConfigMapName |});
  match existingCM with
  | Ok existingCM =>
      if bdec (smget (cm_Data existingCM) "host" = host) && bdec (smget (cm_Data existingCM) "port" = port)
      then mret (Returns (Ok tt))
      else
        match cm_Data existingCM with
        | None => mret Panics
        | Some data =>
            x ← call (Update KConfigMap childClient
                        {| cm_meta := cm_meta existingCM; cm_Data := Some (<["port" := port]> (<["host" := host]> data)) |});
            mret (lift_err "failed to update ConfigMap" x)
        end
  | Err err =>
      if negb (IsNotFound err) then mret (Returns (Err (wrapf "failed to get ConfigMap" err)))
      else
        x ← call (Create KConfigMap childClient (new_configmap colony clusterName host port));
        mret (lift_err "failed to create ConfigMap" x)
  end.
Definition EnsureAPIEndpointConfigMap (managementClient : client) (colony : Colony)
    (clusterName exposedEndpoint : string) (regionalClient : option client) : prog (outcome unit) :=
  match parseEndpoint exposedEndpoint with
  | Err err => mret (Returns (Err (wrapf ("failed to parse endpoint " +:+ quote exposedEndpoint) err)))
  | Ok (host, port) =>
      let kubeconfigClient := default managementClient regionalClient in
      childClient ← getClientForChildCluster kubeconfigClient colony clusterName;
      match childClient with
      | Err err => mret (Returns (Err (wrapf "failed to get client for child cluster" err)))
      | Ok childClient => write_configmap childClient colony clusterName host port
      end
  end.
