(* ===== verification/ServiceSets.v ===== *)
(** * The workspace's ServiceSet ([internal/controller/workspaces/service_apply.go]) *)

From S2P Require Import Prelude GoString Api Naming Prog.

Definition defaultStateManagementProvider : string := "ksm-projectsveltos".
Definition defaultDeployTimeout : Z := 15 * Minute.
Definition adapterLabel : string := "ksm.k0rdent.mirantis.com/adapter".
Definition adapterValue : string := "kcm-controller-manager".

(** Timeouts go through [Duration.String] and [time.ParseDuration], which is the
    identity on durations. *)
Definition parseDuration (d : Z) : Z := if bool_decide (d = 0%Z) then (15 * Minute)%Z else d.

Definition workspace_service (wsd : WorkspaceDeployment) (wsc : WorkspaceClass) (mergedValues : RawJSON)
    : ServiceWithValues :=
  {| sw_Name := serviceEntryName wsd;
     sw_Namespace := workspaceNamespaceName wsd;
     sw_Template := t_Name (wsc_ServiceTemplate (wsc_Spec wsc));
     sw_Values := mergedValues;
     sw_HelmOptions :=
       {| h_Wait := true;
          h_Timeout := parseDuration (default defaultDeployTimeout (wsc_DeployTimeout (wsc_Spec wsc)));
          h_CreateNamespace := false |} |}.

Definition set_services (l : list ServiceWithValues) (ss : ServiceSet) : ServiceSet :=
  {| ss_meta := ss_meta ss; ss_Cluster := ss_Cluster ss; ss_Provider := ss_Provider ss;
     ss_Services := l; ss_Deployed := ss_Deployed ss; ss_Status := ss_Status ss |}.

Definition new_serviceset (name ns cluster : string) (labels : gmap string string) (svc : ServiceWithValues)
    : ServiceSet :=
  {| ss_meta := new_meta name ns (Some labels); ss_Cluster := cluster;
     ss_Provider := defaultStateManagementProvider; ss_Services := [svc]; ss_Deployed := false; ss_Status := [] |}.

Definition ss_key (wsd : WorkspaceDeployment) : ObjectKey :=
  {| k_Namespace := r_Namespace (w_CDRef wsd); k_Name := serviceSetName wsd |}.

Definition set_ss_meta (m : ObjectMeta) (ss : ServiceSet) : ServiceSet :=
  {| ss_meta := m; ss_Cluster := ss_Cluster ss; ss_Provider := ss_Provider ss;
     ss_Services := ss_Services ss; ss_Deployed := ss_Deployed ss; ss_Status := ss_Status ss |}.

(** [None] is success. *)
Definition ensureWorkspaceServiceSet (c : client) (wsd : WorkspaceDeployment) (wsc : WorkspaceClass)
    (mergedValues : RawJSON) : prog (option error) :=
  let svc := workspace_service wsd wsc mergedValues in
  existing ← call (Get KSS c (ss_key wsd));
  match existing with
  | Ok existing =>
      r ← call (Update KSS c (set_services [svc] existing));
      match r with
      | Err err => mret (Some (wrapf "failed to update ServiceSet" err))
      | Ok _ => mret None
      end
  | Err err =>
      if negb (IsNotFound err) then mret (Some (wrapf "failed to get ServiceSet" err))
      else
        let ss := new_serviceset (serviceSetName wsd) (r_Namespace (w_CDRef wsd)) (r_Name (w_CDRef wsd))
                    {[ adapterLabel := adapterValue ]} svc in
        o ← call (SetOwnerReference (w_meta wsd) (ss_meta ss));
        match o with
        | Err err => mret (Some (wrapf "failed to set owner reference on ServiceSet" err))
        | Ok m =>
            r ← call (Create KSS c (set_ss_meta m ss));
            match r with
            | Err err => mret (Some (wrapf "failed to create ServiceSet" err))
            | Ok _ => mret None
            end
        end
  end.

Definition ignore_not_found (r : res unit) : option error :=
  match r with
  | Ok _ => None
  | Err err => if IsNotFound err then None else Some err
  end.

Definition ensureWorkspaceServiceSetDeleted (c : client) (wsd : WorkspaceDeployment) : prog (res bool) :=
  let recheck :=
    again ← call (Get KSS c (ss_key wsd));
    match again with
    | Err err => if IsNotFound err then mret (Ok true)
                 else mret (Err (wrapf "failed to re-check ServiceSet" err))
    | Ok _ => mret (Ok false)
    end in
  ss ← call (Get KSS c (ss_key wsd));
  match ss with
  | Err err => if IsNotFound err then mret (Ok true) else mret (Err (wrapf "failed to get ServiceSet" err))
  | Ok ss =>
      if negb (deleting (ss_meta ss)) then
        r ← call (Delete KSS c ss);
        match ignore_not_found r with
        | Some err => mret (Err (wrapf "failed to delete ServiceSet" err))
        | None => recheck
        end
      else recheck
  end.

Definition forceDeleteWorkspaceServiceSet (c : client) (wsd : WorkspaceDeployment) : prog (option error) :=
  let drop_finalizers ss :=
    if bool_decide (m_Finalizers (ss_meta ss) ≠ []) then
      r ← call (PatchFinalizers KSS c (set_ss_meta (set_finalizers [] (ss_meta ss)) ss));
      match r with
      | Err err => if IsNotFound err then mret None
                   else mret (Some (wrapf "failed to clear ServiceSet finalizers" err))
      | Ok _ => mret None
      end
    else mret None in
  ss ← call (Get KSS c (ss_key wsd));
  match ss with
  | Err err => if IsNotFound err then mret None else mret (Some (wrapf "failed to get ServiceSet" err))
  | Ok ss =>
      if negb (deleting (ss_meta ss)) then
        r ← call (Delete KSS c ss);
        match ignore_not_found r with
        | Some err => mret (Some (wrapf "failed to delete ServiceSet" err))
        | None => drop_finalizers ss
        end
      else drop_finalizers ss
  end.

(** ** Lemmas *)

(** What these handlers may write: ServiceSets through [c]. *)
Definition writes_only (k : kind) (c : client) (e : event) : Prop :=
  ev_target e = None ∨ ev_target e = Some (k, c).

Lemma ensure_ss_writes c wsd wsc v : always (writes_only KSS c) (ensureWorkspaceServiceSet c wsd wsc v).
Proof. unfold ensureWorkspaceServiceSet. prove_always; by (left + right). Qed.
Lemma ensure_ss_deleted_writes c wsd : always (writes_only KSS c) (ensureWorkspaceServiceSetDeleted c wsd).
Proof. unfold ensureWorkspaceServiceSetDeleted. prove_always; by (left + right). Qed.
Lemma force_delete_writes c wsd : always (writes_only KSS c) (forceDeleteWorkspaceServiceSet c wsd).
Proof. unfold forceDeleteWorkspaceServiceSet. prove_always; by (left + right). Qed.

(** The write of a ServiceSet an event stands for. *)
Definition ss_written (e : event) : option ServiceSet :=
  match e with
  | Ev r _ =>
      match r with
      | Create KSS _ x => Some x
      | Update KSS _ x => Some x
      | StatusUpdate KSS _ x => Some x
      | PatchFinalizers KSS _ x => Some x
      | _ => None
      end
  end.

(** What is written deploys the one service. *)
Lemma serviceset_writes c wsd wsc v tr r :
  exec (ensureWorkspaceServiceSet c wsd wsc v) tr r →
  Forall (λ e, match ss_written e with
               | Some ss => ss_Services ss = [workspace_service wsd wsc v]
               | None => ev_target e = None
               end) tr.
Proof.
  revert tr r. change (always (λ e, match ss_written e with
    | Some ss => ss_Services ss = [workspace_service wsd wsc v] | None => ev_target e = None end)
    (ensureWorkspaceServiceSet c wsd wsc v)).
  unfold ensureWorkspaceServiceSet. prove_always.
Qed.

(** Whatever this handler writes deploys exactly one service: the workspace's
    release, in its own namespace, from the class's template, with the merged
    values.  Success means the server accepted that write: an update of the
    ServiceSet it had, or, when it had none, the creation of one on the workspace's
    cluster with the workspace as owner. *)
Theorem serviceset_write_spec c wsd wsc v tr r :
  exec (ensureWorkspaceServiceSet c wsd wsc v) tr r →
  let svc := workspace_service wsd wsc v in
  Forall (λ e, match ss_written e with
               | Some ss => ss_Services ss = [svc]
               | None => ev_target e = None
               end) tr ∧
  (r = None →
     (∃ old x, tr = [Ev (Get KSS c (ss_key wsd)) (Ok old); Ev (Update KSS c (set_services [svc] old)) (Ok x)]) ∨
     (∃ err m x, let ss := new_serviceset (serviceSetName wsd) (r_Namespace (w_CDRef wsd)) (r_Name (w_CDRef wsd))
                             {[ adapterLabel := adapterValue ]} svc in
        IsNotFound err = true ∧
        tr = [Ev (Get KSS c (ss_key wsd)) (Err err); Ev (SetOwnerReference (w_meta wsd) (ss_meta ss)) (Ok m);
              Ev (Create KSS c (set_ss_meta m ss)) (Ok x)])).
Proof.
  intros H svc. split; [by eapply serviceset_writes|].
  intros ->. unfold ensureWorkspaceServiceSet in H. fold svc in H. exec_inv. destruct x as [ss|err].
  - exec_inv. destruct x as [ss'|]; exec_inv; [|done]. left. by eexists _, _.
  - destruct (IsNotFound err) eqn:E; cbn [negb] in H; exec_inv; [|done]. destruct x as [m|]; exec_inv; [|done].
    destruct x as [ss'|]; exec_inv; [|done]. right. by eexists _, _, _.
Qed.

(** "Gone" is never guessed: the API server said NotFound for exactly this
    ServiceSet in this run, and nothing was requested after that. *)
Definition not_found_ss (c : client) (wsd : WorkspaceDeployment) (e : event) : Prop :=
  ∃ err, e = Ev (Get KSS c (ss_key wsd)) (Err err) ∧ IsNotFound err = true.

(** The last look at the ServiceSet decides. *)
Lemma recheck_spec c wsd tr r :
  exec (again ← call (Get KSS c (ss_key wsd));
        match again with
        | Err err => if IsNotFound err then mret (Ok true)
                     else mret (Err (wrapf "failed to re-check ServiceSet" err))
        | Ok _ => mret (Ok false)
        end) tr r →
  ∃ e, tr = [e] ∧ read_only e ∧
    match r with
    | Ok true => not_found_ss c wsd e
    | Ok false => ∃ ss, e = Ev (Get KSS c (ss_key wsd)) (Ok ss)
    | Err _ => ∃ err, e = Ev (Get KSS c (ss_key wsd)) (Err err) ∧ IsNotFound err = false
    end.
Proof.
  intros H. exec_inv. destruct x as [ss|err]; [exec_inv; eexists; split; [done|]; split; [done|]; by exists ss|].
  destruct (IsNotFound err) eqn:En; exec_inv; eexists; (split; [done|]; split; [done|]); by exists err.
Qed.

Lemma gone_last c wsd tr :
  exec (ensureWorkspaceServiceSetDeleted c wsd) tr (Ok true) →
  ∃ pre e, tr = pre ++ [e] ∧ not_found_ss c wsd e.
Proof.
  unfold ensureWorkspaceServiceSetDeleted. cbv zeta. intros H. exec_step H as [ss|err].
  - apply exec_if in H as [[_ H]|[_ H]].
    + exec_step H as r. destruct (ignore_not_found r); [exec_inv; done|].
      apply recheck_spec in H as (e & -> & _ & He). subst. by eexists [_; _], e.
    + apply recheck_spec in H as (e & -> & _ & He). subst. by eexists [_], e.
  - destruct (IsNotFound err) eqn:En; exec_inv; [|done]. eexists [], _. split; [done|]. by exists err.
Qed.

(** The three answers of the deletion step and what it may do: "gone" ends with
    NotFound for exactly this ServiceSet; "not yet" ends with the ServiceSet still
    there; an error is an answer other than NotFound.  It mutates nothing but the
    ServiceSet it read, which it deletes only when nobody has yet. *)
Theorem serviceset_gone_is_observed c wsd tr r :
  exec (ensureWorkspaceServiceSetDeleted c wsd) tr r →
  match r with
  | Ok true => ∃ pre e, tr = pre ++ [e] ∧ not_found_ss c wsd e
  | Ok false => ∃ pre ss, tr = pre ++ [Ev (Get KSS c (ss_key wsd)) (Ok ss)]
  | Err _ => ∃ R rq (x : res R) err, Ev rq x ∈ tr ∧ x = Err err ∧ IsNotFound err = false
  end ∧
  (∀ e, e ∈ tr → ev_target e ≠ None →
     ∃ ss x, e = Ev (Delete KSS c ss) x ∧ Ev (Get KSS c (ss_key wsd)) (Ok ss) ∈ tr ∧ deleting (ss_meta ss) = false).
Proof.
  intros H. split.
  - destruct r as [[|]|err0]; [by apply gone_last|..]; unfold ensureWorkspaceServiceSetDeleted in H; cbv zeta in H;
      exec_step H as [ss|err].
    + apply exec_if in H as [[_ H]|[_ H]].
      * exec_step H as r. destruct (ignore_not_found r); [exec_inv; done|].
        apply recheck_spec in H as (e & -> & _ & ss' & ->). subst. by eexists [_; _], ss'.
      * apply recheck_spec in H as (e & -> & _ & ss' & ->). subst. by eexists [_], ss'.
    + destruct (IsNotFound err); by exec_inv.
    + apply exec_if in H as [[_ H]|[_ H]].
      * exec_step H as r. destruct (ignore_not_found r) as [err'|] eqn:Ei.
        -- destruct r as [|err1]; [done|]. simpl in Ei. destruct (IsNotFound err1) eqn:En; [done|].
           exists unit, (Delete KSS c ss), (Err err1), err1. subst. split_and!; [in_trace|done|done].
        -- apply recheck_spec in H as (e & -> & _ & err1 & -> & En). subst.
           exists _, (Get KSS c (ss_key wsd)), (Err err1), err1. split_and!; [in_trace|done|done].
      * apply recheck_spec in H as (e & -> & _ & err1 & -> & En). subst.
        exists _, (Get KSS c (ss_key wsd)), (Err err1), err1. split_and!; [in_trace|done|done].
    + destruct (IsNotFound err) eqn:En; exec_inv; [done|].
      exists _, (Get KSS c (ss_key wsd)), (Err err), err. split_and!; [in_trace|done|done].
  - intros e Hin Ht. unfold ensureWorkspaceServiceSetDeleted in H. cbv zeta in H. exec_step H as [ss|err].
    + apply exec_if in H as [[Hd H]|[_ H]]; [exec_step H as x|].
      * apply negb_true_iff in Hd. subst.
        destruct (elem_of_cons [Ev (Delete KSS c ss) x] e (Ev (Get KSS c (ss_key wsd)) (Ok ss))) as [_ _].
        apply elem_of_app in Hin as [Hin|Hin]; [apply list_elem_of_singleton in Hin as ->; done|].
        apply elem_of_app in Hin as [Hin|Hin].
        -- apply list_elem_of_singleton in Hin as ->. exists ss, x. split_and!; [done|in_trace|done].
        -- exfalso. destruct (ignore_not_found x); [exec_inv; set_solver|].
           apply recheck_spec in H as (e' & -> & Hr & _). apply list_elem_of_singleton in Hin as ->. done.
      * subst. apply elem_of_app in Hin as [Hin|Hin]; [apply list_elem_of_singleton in Hin as ->; done|].
        apply recheck_spec in H as (e' & -> & Hr & _). apply list_elem_of_singleton in Hin as ->. done.
    + subst. apply elem_of_app in Hin as [Hin|Hin]; [apply list_elem_of_singleton in Hin as ->; done|].
      destruct (IsNotFound err); exec_inv; set_solver.
Qed.

(** Forced deletion that succeeds leaves nothing to wait for: the ServiceSet was
    absent, or its deletion is requested or under way and its finalizers are
    dropped (or it disappeared meanwhile). *)
Theorem force_delete_leaves_nothing c wsd tr :
  exec (forceDeleteWorkspaceServiceSet c wsd) tr None →
  (∃ e, e ∈ tr ∧ not_found_ss c wsd e) ∨
  ∃ ss, Ev (Get KSS c (ss_key wsd)) (Ok ss) ∈ tr ∧
    (deleting (ss_meta ss) = true ∨ ∃ r, Ev (Delete KSS c ss) r ∈ tr ∧ ignore_not_found r = None) ∧
    (m_Finalizers (ss_meta ss) = [] ∨
     ∃ ss' r, Ev (PatchFinalizers KSS c ss') r ∈ tr ∧ m_Finalizers (ss_meta ss') = [] ∧
       match r with Ok _ => True | Err err => IsNotFound err = true end).
Proof.
  unfold forceDeleteWorkspaceServiceSet. cbv zeta. intros H. exec_step H as [ss|err].
  - right. exists ss. split; [in_trace|].
    assert (Hd : ∀ t0 t1, exec (if bool_decide (m_Finalizers (ss_meta ss) ≠ []) then
        r ← call (PatchFinalizers KSS c (set_ss_meta (set_finalizers [] (ss_meta ss)) ss));
        match r with
        | Err err => if IsNotFound err then mret None
                     else mret (Some (wrapf "failed to clear ServiceSet finalizers" err))
        | Ok _ => mret None
        end else mret None) t1 None →
      m_Finalizers (ss_meta ss) = [] ∨
      ∃ ss' r, Ev (PatchFinalizers KSS c ss') r ∈ t0 ++ t1 ∧ m_Finalizers (ss_meta ss') = [] ∧
        match r with Ok _ => True | Err err => IsNotFound err = true end).
    { intros t0 t1 Hx. case_bool_decide as Hf; [|by left].
      right. exec_step Hx as r. eexists _, r. split_and!; [in_trace|done|].
      destruct r as [|err]; [done|]. by destruct (IsNotFound err); exec_inv. }
    apply exec_if in H as [[Hn H]|[Hn H]].
    + exec_step H as r. destruct (ignore_not_found r) eqn:Er; [exec_inv; done|]. split.
      * right. exists r. split; [in_trace|done].
      * subst. rewrite app_assoc. by apply Hd.
    + split; [left; by destruct (deleting (ss_meta ss))|]. subst. by apply Hd.
  - destruct (IsNotFound err) eqn:En; exec_inv; [|done]. left. eexists. split; [in_trace|]. by exists err.
Qed.

(** ** Concrete runs *)
Definition example_serviceset : ServiceSet :=
  new_serviceset (serviceSetName (example_wsd "ns" "w" "cd")) "ns" "cd" ∅
    {| sw_Name := ""; sw_Namespace := ""; sw_Template := ""; sw_Values := RawEmpty;
       sw_HelmOptions := {| h_Wait := true; h_Timeout := 0; h_CreateNamespace := true |} |}.

Lemma serviceset_gone_is_observed_witness :
  let wsd := example_wsd "ns" "w" "cd" in
  ∃ ss x, Ev (Delete KSS MgmtClient example_serviceset) (Ok tt) = Ev (Delete KSS MgmtClient ss) x ∧
    deleting (ss_meta ss) = false.
Proof.
  pose (k := ss_key (example_wsd "ns" "w" "cd")).
  destruct (serviceset_gone_is_observed MgmtClient (example_wsd "ns" "w" "cd")
    [Ev (Get KSS MgmtClient k) (Ok example_serviceset); Ev (Delete KSS MgmtClient example_serviceset) (Ok tt);
     Ev (Get KSS MgmtClient k) (Err not_found)] (Ok true)) as [_ H].
  - repeat (eexists _, _; split; [reflexivity|]). split; reflexivity.
  - destruct (H (Ev (Delete KSS MgmtClient example_serviceset) (Ok tt))) as (ss & x & H1 & _ & H2);
      [in_trace|discriminate|]. exists ss, x. split; [exact H1|exact H2].
Defined.

Lemma force_delete_leaves_nothing_witness :
  let k := ss_key (example_wsd "ns" "w" "cd") in
  let tr := [Ev (Get KSS MgmtClient k) (Ok example_serviceset); Ev (Delete KSS MgmtClient example_serviceset) (Ok tt)] in
  (∃ e, e ∈ tr ∧ not_found_ss MgmtClient (example_wsd "ns" "w" "cd") e) ∨
  ∃ ss, Ev (Get KSS MgmtClient k) (Ok ss) ∈ tr ∧
    (deleting (ss_meta ss) = true ∨ ∃ r, Ev (Delete KSS MgmtClient ss) r ∈ tr ∧ ignore_not_found r = None).
Proof.
  intros k tr. destruct (force_delete_leaves_nothing MgmtClient (example_wsd "ns" "w" "cd") tr) as [H|(ss & H1 & H2 & _)].
  - repeat (eexists _, _; split; [reflexivity|]). split; reflexivity.
  - left. exact H.
  - right. exists ss. split; [exact H1|exact H2].
Defined.

Lemma serviceset_write_spec_witness :
  let wsd := example_wsd "ns" "w" "cd" in
  let svc := workspace_service wsd (example_class []) RawEmpty in
  let tr := [Ev (Get KSS MgmtClient (ss_key wsd)) (Ok example_serviceset);
             Ev (Update KSS MgmtClient (set_services [svc] example_serviceset)) (Ok example_serviceset)] in
  Forall (λ e, match ss_written e with Some ss => ss_Services ss = [svc] | None => ev_target e = None end) tr.
Proof.
  intros wsd svc tr. apply (serviceset_write_spec MgmtClient wsd (example_class []) RawEmpty tr None).
  repeat (eexists _, _; split; [reflexivity|]). split; reflexivity.
Defined.
