(* ===== verification/Failure.v ===== *)
(** * Conditions and failure forensics

    setCondition of [workspacedeployment_controller.go] and all of
    [failurecontext.go]. *)

From S2P Require Import Prelude GoString Api Naming Prog ServiceSets.

(** The fields of the reconciler the handlers branch on. *)
Record Reconciler := {
  has_Recorder : bool;
  has_APIReader : bool;
  r_Mesh : MeshConfig
}.

(** ** setCondition *)
Fixpoint update_condition (conds : list Condition) (c : Condition) : list Condition :=
  match conds with
  | [] => [c]
  | e :: rest =>
      if bool_decide (c_Type e = c_Type c) then
        (if bool_decide (c_Status e ≠ c_Status c) then c
         else {| c_Type := c_Type c; c_Status := c_Status c; c_Reason := c_Reason c; c_Message := c_Message c;
                 c_ObservedGeneration := c_ObservedGeneration c;
                 c_LastTransitionTime := c_LastTransitionTime e |}) :: rest
      else e :: update_condition rest c
  end.
Definition stamp (now : Z) (c : Condition) : Condition :=
  {| c_Type := c_Type c; c_Status := c_Status c; c_Reason := c_Reason c; c_Message := c_Message c;
     c_ObservedGeneration := c_ObservedGeneration c; c_LastTransitionTime := now |}.
Definition setCondition (wsd : WorkspaceDeployment) (c : Condition) : prog WorkspaceDeployment :=
  now ← call Now;
  mret (upd_status (λ s, set_Conditions (update_condition (s_Conditions s) (stamp now c)) s) wsd).

(** A condition literal of the controller. *)
Definition mk_condition (wsd : WorkspaceDeployment) (typ : string) (st : ConditionStatus) (reason msg : string) : Condition :=
  {| c_Type := typ; c_Status := st; c_Reason := reason; c_Message := msg;
     c_ObservedGeneration := w_Generation wsd; c_LastTransitionTime := 0 |}.

(** ** failurecontext.go *)
Definition maxRecentEvents : nat := 5.
Definition EventTypeWarning : string := "Warning".
Definition EventTypeNormal : string := "Normal".

(** [sort.Slice] leaves the order of equal timestamps open; they keep their order. *)
Definition event_newer (a b : Event) : Prop := (ev_LastTimestamp b ≤ ev_LastTimestamp a)%Z.
#[export] Instance event_newer_dec : RelDecision event_newer.
Proof. intros a b. unfold event_newer. apply _. Defined.

Definition summarize (ev : Event) : EventSummary :=
  {| es_LastSeen := ev_LastTimestamp ev; es_Type := ev_Type ev; es_Reason := ev_Reason ev;
     es_Message := ev_Message ev |}.

Definition recentEvents (r : Reconciler) (wsd : WorkspaceDeployment) : prog (list EventSummary) :=
  if negb (has_APIReader r) then mret []
  else
    events ← call (ListObjs KEvent UncachedReader
      {| lo_InNamespace := Some (w_Namespace wsd); lo_MatchingLabels := ∅;
         lo_MatchingFields := <["involvedObject.name" := w_Name wsd]>
                              {[ "involvedObject.kind" := WorkspaceDeploymentKind ]};
         lo_HasLabels := [] |});
    match events with
    | Err _ => mret []
    | Ok items => mret (summarize <$> take maxRecentEvents (merge_sort event_newer items))
    end.

Definition summarize_service (svc : ServiceState) : ServiceStateSummary :=
  {| sss_Name := sv_Name svc; sss_State := sv_State svc; sss_FailureMessage := sv_FailureMessage svc |}.

Definition buildFailureContext (r : Reconciler) (wsd : WorkspaceDeployment) (reason message : string)
    : prog FailureContext :=
  let phase := if bool_decide (w_Phase wsd = PhaseUnset) then PhasePending else w_Phase wsd in
  ss ← call (Get KSS MgmtClient (ss_key wsd));
  let summary := match ss with
                 | Ok ss => Some {| sum_Name := m_Name (ss_meta ss); sum_Deployed := ss_Deployed ss;
                                    sum_Services := summarize_service <$> ss_Status ss |}
                 | Err _ => None
                 end in
  now ← call Now;
  let current := {| es_LastSeen := now; es_Type := EventTypeWarning; es_Reason := reason; es_Message := message |} in
  older ← recentEvents r wsd;
  mret {| PhaseWhenFailed := phase; fc_Reason := reason; fc_ServiceSetStatus := summary;
          fc_RecentEvents := take maxRecentEvents (current :: older) |}.

Definition wsd_key (wsd : WorkspaceDeployment) : ObjectKey :=
  {| k_Namespace := w_Namespace wsd; k_Name := w_Name wsd |}.

(** [r.Recorder.Eventf], when a recorder is configured. *)
Definition record_event (r : Reconciler) (wsd : WorkspaceDeployment) (typ reason action msg : string) : prog unit :=
  if has_Recorder r then call (Eventf (wsd_key wsd) typ reason action msg) else mret tt.

Definition markFailed (r : Reconciler) (wsd : WorkspaceDeployment) (reason message : string)
    : prog WorkspaceDeployment :=
  match w_Phase wsd, s_FailureContext (w_Status wsd) with
  | PhaseFailed, Some _ => mret (upd_status (set_Message message) wsd)
  | _, _ =>
      _ ← record_event r wsd EventTypeWarning reason "Reconcile" message;
      fc ← buildFailureContext r wsd reason message;
      mret (upd_status (λ s, set_Message message (set_Phase PhaseFailed (set_FailureContext (Some fc) s))) wsd)
  end.

(** ** Lemmas *)

Lemma setCondition_reads wsd c : always read_only (setCondition wsd c).
Proof. unfold setCondition. prove_always. Qed.
Lemma recentEvents_reads r wsd : always read_only (recentEvents r wsd).
Proof. unfold recentEvents. prove_always. Qed.
#[export] Hint Resolve setCondition_reads recentEvents_reads : prog.
Lemma buildFailureContext_reads r wsd reason msg : always read_only (buildFailureContext r wsd reason msg).
Proof. unfold buildFailureContext. prove_always. Qed.
#[export] Hint Resolve buildFailureContext_reads : prog.
Lemma record_event_reads r wsd t x a m : always read_only (record_event r wsd t x a m).
Proof. unfold record_event. prove_always. Qed.
#[export] Hint Resolve record_event_reads : prog.
Lemma markFailed_reads r wsd reason msg : always read_only (markFailed r wsd reason msg).
Proof. unfold markFailed. prove_always. Qed.
#[export] Hint Resolve markFailed_reads : prog.

(** What an execution of [setCondition] returns. *)
Lemma setCondition_exec wsd c tr w' :
  exec (setCondition wsd c) tr w' →
  ∃ now, tr = [Ev Now now] ∧
    w' = upd_status (λ s, set_Conditions (update_condition (s_Conditions s) (stamp now c)) s) wsd.
Proof. unfold setCondition. intros H. exec_inv. by exists x. Qed.

(** The parts of a workspace a condition write leaves alone. *)
Definition same_but_conditions (w w' : WorkspaceDeployment) : Prop :=
  w_meta w' = w_meta w ∧ w_Spec w' = w_Spec w ∧
  set_Conditions [] (w_Status w') = set_Conditions [] (w_Status w).
Lemma setCondition_frame wsd c tr w' : exec (setCondition wsd c) tr w' → same_but_conditions wsd w'.
Proof. intros (now & _ & ->)%setCondition_exec. by unfold same_but_conditions. Qed.
Lemma same_but_conditions_phase w w' : same_but_conditions w w' → w_Phase w' = w_Phase w.
Proof. intros (_ & _ & H). by apply (f_equal s_Phase) in H. Qed.

Lemma update_condition_types conds c :
  (c_Type <$> update_condition conds c) =
  if bool_decide (c_Type c ∈ c_Type <$> conds) then c_Type <$> conds else (c_Type <$> conds) ++ [c_Type c].
Proof.
  induction conds as [|e rest IH]; [by rewrite bool_decide_eq_false_2 by set_solver|].
  cbn [update_condition]. rewrite !fmap_cons. destruct (decide (c_Type e = c_Type c)) as [He|He].
  - rewrite (bool_decide_eq_true_2 (c_Type e = _)) by done.
    rewrite (bool_decide_eq_true_2 (_ ∈ _)) by (rewrite He; apply list_elem_of_here).
    clear IH. rewrite He. by case_bool_decide.
  - rewrite (bool_decide_eq_false_2 (c_Type e = _)), fmap_cons, IH by done.
    case_bool_decide as H1; case_bool_decide as H2; first [done|exfalso; set_solver].
Qed.

Lemma update_condition_find conds c :
  find_first (λ e, bool_decide (c_Type e = c_Type c)) (update_condition conds c) =
  Some match find_first (λ e, bool_decide (c_Type e = c_Type c)) conds with
       | Some e => if bool_decide (c_Status e ≠ c_Status c) then c else stamp (c_LastTransitionTime e) c
       | None => c
       end.
Proof.
  induction conds as [|e rest IH]; simpl; [by rewrite bool_decide_eq_true_2|].
  destruct (bool_decide (c_Type e = c_Type c)) eqn:He; simpl; [|by rewrite He].
  destruct (bool_decide (c_Status e ≠ c_Status c)); simpl; by rewrite bool_decide_eq_true_2.
Qed.

Lemma update_condition_others conds c t :
  t ≠ c_Type c →
  find_first (λ e, bool_decide (c_Type e = t)) (update_condition conds c) =
  find_first (λ e, bool_decide (c_Type e = t)) conds.
Proof.
  intros Ht. induction conds as [|e rest IH]; simpl; [by rewrite bool_decide_eq_false_2|].
  destruct (decide (c_Type e = c_Type c)) as [He|He].
  - rewrite bool_decide_eq_true_2 by done. simpl. rewrite (bool_decide_eq_false_2 (c_Type e = t)) by congruence.
    destruct (bool_decide (c_Status e ≠ c_Status c)); simpl; by rewrite bool_decide_eq_false_2.
  - rewrite (bool_decide_eq_false_2 (c_Type e = c_Type c)) by done. simpl. by rewrite IH.
Qed.

(** A workspace never carries two conditions of one type; after a write the
    type's condition is the one written, its transition time moves exactly when
    the status flips (or the type is new), and no other type is touched. *)
Theorem setCondition_spec wsd c tr w' :
  exec (setCondition wsd c) tr w' →
  let find w t := find_first (λ e, bool_decide (c_Type e = t)) (s_Conditions (w_Status w)) in
  NoDup (c_Type <$> s_Conditions (w_Status wsd)) →
  NoDup (c_Type <$> s_Conditions (w_Status w')) ∧
  (∃ now, find w' (c_Type c) = Some (stamp (match find wsd (c_Type c) with
      | Some e => if bool_decide (c_Status e ≠ c_Status c) then now else c_LastTransitionTime e
      | None => now end) c)) ∧
  (∀ t, t ≠ c_Type c → find w' t = find wsd t).
Proof.
  intros (now & _ & ->)%setCondition_exec find Hnd. unfold find. simpl. split_and!.
  - rewrite update_condition_types. case_bool_decide as Hin; [done|]. simpl in Hin.
    apply NoDup_app. split_and!; [done|set_solver|apply NoDup_singleton].
  - exists now. etransitivity; [apply (update_condition_find _ (stamp now c))|]. simpl.
    destruct (find_first _ _) as [e|]; [|done]. by destruct (bool_decide (c_Status e ≠ c_Status c)).
  - intros t Ht. by apply update_condition_others.
Qed.

Lemma setCondition_spec_witness :
  NoDup (c_Type <$> s_Conditions (w_Status
    (upd_status (λ s, set_Conditions (update_condition (s_Conditions s)
       (stamp 7 (mk_condition (example_wsd "ns" "w" "cd") "Ready" CondTrue "R" "m"))) s) (example_wsd "ns" "w" "cd")))).
Proof.
  pose proof (setCondition_spec (example_wsd "ns" "w" "cd")
    (mk_condition (example_wsd "ns" "w" "cd") "Ready" CondTrue "R" "m") [Ev Now 7%Z]) as H.
  eapply H; [|apply NoDup_nil_2]. exists 7%Z, []. split; [reflexivity|]. split; reflexivity.
Defined.

(** What a failed workspace keeps. *)
Lemma markFailed_frame r wsd reason msg tr w' :
  exec (markFailed r wsd reason msg) tr w' →
  w_meta w' = w_meta wsd ∧ w_Spec w' = w_Spec wsd ∧ w_Phase w' = PhaseFailed.
Proof.
  unfold markFailed. intros H. assert (Hb : ∀ p : prog FailureContext, exec (_ ← record_event r wsd EventTypeWarning
      reason "Reconcile" msg; fc ← p; mret (upd_status (λ s, set_Message msg (set_Phase PhaseFailed
        (set_FailureContext (Some fc) s))) wsd)) tr w' → w_meta w' = w_meta wsd ∧ w_Spec w' = w_Spec wsd ∧
        w_Phase w' = PhaseFailed).
  { intros p Hx. apply exec_bind in Hx as (? & ? & ? & _ & _ & Hx).
    apply exec_bind in Hx as (? & ? & ? & _ & _ & [_ ->]). done. }
  destruct (w_Phase wsd) eqn:Ep; try (by eapply Hb).
  destruct (s_FailureContext (w_Status wsd)); [|by eapply Hb]. exec_inv. done.
Qed.

(** [markFailed]: the workspace is Failed with the message; the first capture
    stands; a new capture records the phase the failure happened in and leads
    with the failure's own event, never more than five. *)
Theorem markFailed_spec r wsd reason msg tr w' :
  exec (markFailed r wsd reason msg) tr w' →
  w_meta w' = w_meta wsd ∧ w_Spec w' = w_Spec wsd ∧
  w_Phase w' = PhaseFailed ∧ s_Message (w_Status w') = msg ∧
  s_Conditions (w_Status w') = s_Conditions (w_Status wsd) ∧
  ∃ fc, s_FailureContext (w_Status w') = Some fc ∧
    (w_Phase wsd = PhaseFailed ∧ s_FailureContext (w_Status wsd) = Some fc ∧ tr = [] ∨
     ¬ (w_Phase wsd = PhaseFailed ∧ is_Some (s_FailureContext (w_Status wsd))) ∧
     PhaseWhenFailed fc = (if bool_decide (w_Phase wsd = PhaseUnset) then PhasePending else w_Phase wsd) ∧
     fc_Reason fc = reason ∧ (1 ≤ length (fc_RecentEvents fc) ≤ 5)%nat ∧
     ∃ e, head (fc_RecentEvents fc) = Some e ∧ es_Reason e = reason ∧ es_Message e = msg).
Proof.
  unfold markFailed. intros H.
  assert (Hcap : exec (_ ← record_event r wsd EventTypeWarning reason "Reconcile" msg;
      fc ← buildFailureContext r wsd reason msg;
      mret (upd_status (λ s, set_Message msg (set_Phase PhaseFailed (set_FailureContext (Some fc) s))) wsd)) tr w' →
    ∃ fc, w' = upd_status (λ s, set_Message msg (set_Phase PhaseFailed (set_FailureContext (Some fc) s))) wsd ∧
      PhaseWhenFailed fc = (if bool_decide (w_Phase wsd = PhaseUnset) then PhasePending else w_Phase wsd) ∧
      fc_Reason fc = reason ∧ (1 ≤ length (fc_RecentEvents fc) ≤ 5)%nat ∧
      ∃ e, head (fc_RecentEvents fc) = Some e ∧ es_Reason e = reason ∧ es_Message e = msg).
  { intros Hx. unfold buildFailureContext in Hx. exec_inv. eexists. split; [done|].
    cbn [PhaseWhenFailed fc_Reason fc_RecentEvents].
    split_and!; [done|done|..].
    - simpl. lia.
    - simpl. rewrite length_take. lia.
    - eexists. split; [reflexivity|done]. }
  assert (Hfin : w_Phase wsd = PhaseFailed ∧ is_Some (s_FailureContext (w_Status wsd)) ∨
                 ¬ (w_Phase wsd = PhaseFailed ∧ is_Some (s_FailureContext (w_Status wsd)))).
  { destruct (decide (w_Phase wsd = PhaseFailed)), (s_FailureContext (w_Status wsd)); naive_solver. }
  destruct Hfin as [[Hp [fc Hfc]]|Hn].
  - rewrite Hp, Hfc in H. exec_inv. simpl. split_and!; try done. exists fc. split; [done|]. by left.
  - destruct Hcap as (fc & -> & Hx).
    { destruct (w_Phase wsd), (s_FailureContext (w_Status wsd)); try done. destruct Hn. eauto. }
    simpl. split_and!; try done. exists fc. split; [done|]. by right.
Qed.

Lemma markFailed_spec_witness :
  ∃ w', w_Phase w' = PhaseFailed.
Proof.
  set (w := upd_status (λ s, set_FailureContext (Some {| PhaseWhenFailed := PhasePending; fc_Reason := "r";
              fc_ServiceSetStatus := None; fc_RecentEvents := [] |}) (set_Phase PhaseFailed s)) (example_wsd "ns" "w" "cd")).
  eexists. apply (markFailed_spec {| has_Recorder := false; has_APIReader := false;
      r_Mesh := {| Mode := MeshModeNone; WaypointEnabled := false; WaypointNamespace := "" |} |} w "r" "m" []).
  split; [reflexivity|]. reflexivity.
Defined.
