(* ===== verification/Prerequisites.v ===== *)
(** * Prerequisites ([internal/controller/workspaces/prerequisites.go])

    Evaluation and installation of the shared prerequisite ServiceSets. *)

From S2P Require Import Prelude GoString Api Naming Prog Values Cluster ServiceSets.

Definition labelPrerequisiteRole : string := "workspaces.exalsius.ai/role".
Definition labelPrerequisiteRoleValue : string := "prerequisite".
Definition labelPrerequisiteCluster : string := "workspaces.exalsius.ai/cluster-deployment".
Definition labelPrerequisiteTemplate : string := "workspaces.exalsius.ai/template".

Definition isPrerequisiteServiceSet (ss : ServiceSet) : bool :=
  bool_decide (smget (m_Labels (ss_meta ss)) labelPrerequisiteRole = labelPrerequisiteRoleValue).

Definition prereq_name (p : PrerequisiteSpec) : string := t_Name (pr_ServiceTemplate p).
Definition prereq_key (wsd : WorkspaceDeployment) (template : string) : ObjectKey :=
  {| k_Namespace := r_Namespace (w_CDRef wsd);
     k_Name := prerequisiteServiceSetName (r_Name (w_CDRef wsd)) template |}.

(** ** ensurePrerequisiteServiceSet *)
Definition prerequisite_timeout (wsc : WorkspaceClass) : Z :=
  let timeout := default defaultDeployTimeout (wsc_DeployTimeout (wsc_Spec wsc)) in
  parseDuration (default timeout (wsc_PrerequisiteDeployTimeout (wsc_Spec wsc))).

(** The inline values: [json.Marshal] of what was parsed; a nil map prints
    [null]. *)
Definition prerequisite_values (prereq : PrerequisiteSpec) : res RawJSON :=
  match raw_present (pr_Values prereq) with
  | None => Ok RawEmpty
  | Some raw =>
      match Unmarshal_map raw with
      | Err err => Err (wrapf ("failed to unmarshal prerequisite values for " +:+ prereq_name prereq) err)
      | Ok None => Ok (RawVal JNull)
      | Ok (Some m) => Ok (RawVal (JObj m))
      end
  end.

Definition prerequisite_serviceset (wsd : WorkspaceDeployment) (wsc : WorkspaceClass)
    (prereq : PrerequisiteSpec) (values : RawJSON) : ServiceSet :=
  let cd := r_Name (w_CDRef wsd) in
  let templateName := prereq_name prereq in
  new_serviceset (prerequisiteServiceSetName cd templateName) (r_Namespace (w_CDRef wsd)) cd
    (<[adapterLabel := adapterValue]>
     (<[labelPrerequisiteRole := labelPrerequisiteRoleValue]>
      (<[labelPrerequisiteCluster := sanitizeLabelValue cd]>
       {[ labelPrerequisiteTemplate := sanitizeLabelValue templateName ]})))
    {| sw_Name := sanitizeServiceEntryName templateName;
       sw_Namespace := effectivePrerequisiteNamespace prereq;
       sw_Template := templateName;
       sw_Values := values;
       sw_HelmOptions := {| h_Wait := true; h_Timeout := prerequisite_timeout wsc; h_CreateNamespace := true |} |}.

Definition ensurePrerequisiteServiceSet (c : client) (wsd : WorkspaceDeployment) (wsc : WorkspaceClass)
    (prereq : PrerequisiteSpec) : prog (option error) :=
  let ssName := prerequisiteServiceSetName (r_Name (w_CDRef wsd)) (prereq_name prereq) in
  existing ← call (Get KSS c (prereq_key wsd (prereq_name prereq)));
  match existing with
  | Ok _ => mret None
  | Err err =>
      if negb (IsNotFound err) then mret (Some (wrapf ("failed to get prerequisite ServiceSet " +:+ ssName) err))
      else
        match prerequisite_values prereq with
        | Err err => mret (Some err)
        | Ok values =>
            r ← call (Create KSS c (prerequisite_serviceset wsd wsc prereq values));
            match r with
            | Err err =>
                if IsAlreadyExists err then mret None
                else mret (Some (wrapf ("failed to create prerequisite ServiceSet " +:+ ssName) err))
            | Ok _ => mret None
            end
        end
  end.

(** ** evaluatePrerequisites *)
Inductive PrerequisitesVerdict :=
  | PrerequisitesVerdictSatisfied
  | PrerequisitesVerdictInstalling
  | PrerequisitesVerdictMissing
  | PrerequisitesVerdictFailed
  | PrerequisitesVerdictInvalid
  | PrerequisitesVerdictConflict.
#[export] Instance PrerequisitesVerdict_eq_dec : EqDecision PrerequisitesVerdict.
Proof. solve_decision. Defined.

Definition readPrerequisiteSSState (ss : ServiceSet) (templateName : string) : ServiceStateKind * string :=
  match find_first (λ svc, bool_decide (sv_Template svc = templateName)) (ss_Status ss) with
  | Some svc => (sv_State svc, sv_FailureMessage svc)
  | None => (StateOther "", "")
  end.
Definition readPrerequisiteSSNamespace (ss : ServiceSet) (templateName : string) : string :=
  match find_first (λ svc, bool_decide (sw_Template svc = templateName)) (ss_Services ss) with
  | Some svc => sw_Namespace svc
  | None => ""
  end.
Definition prerequisiteNamespaceConflict (explicitNS incumbentNS : string) : bool :=
  bool_decide (explicitNS ≠ "") && bool_decide (incumbentNS ≠ "") && bool_decide (incumbentNS ≠ explicitNS).
Definition prerequisiteConflictMsgFragment : string := " is already installed in namespace ".
Definition prerequisiteConflictMessage (template incumbentNS source requestedNS : string) : string :=
  "prerequisite " +:+ quote template +:+ prerequisiteConflictMsgFragment +:+ quote incumbentNS +:+
  " (source: " +:+ source +:+ "); this class requests namespace " +:+ quote requestedNS.

(** What the ClusterDeployment knows, by template. *)
Record colony_view := {
  colonyDeployed : gset string;
  colonyKnown : gset string;
  colonyNamespace : gmap string string
}.
Definition add_status_service (v : colony_view) (svc : ServiceState) : colony_view :=
  {| colonyDeployed := if bool_decide (sv_State svc = StateDeployed) then {[ sv_Template svc ]} ∪ colonyDeployed v
                       else colonyDeployed v;
     colonyKnown := {[ sv_Template svc ]} ∪ colonyKnown v;
     colonyNamespace := <[sv_Template svc := sv_Namespace svc]> (colonyNamespace v) |}.
Definition add_spec_service (v : colony_view) (svc : ServiceRef) : colony_view :=
  {| colonyDeployed := colonyDeployed v;
     colonyKnown := {[ sr_Template svc ]} ∪ colonyKnown v;
     colonyNamespace := match colonyNamespace v !! sr_Template svc with
                        | Some _ => colonyNamespace v
                        | None => <[sr_Template svc := sr_Namespace svc]> (colonyNamespace v)
                        end |}.
Definition colony_services (cd : ClusterDeployment) : colony_view :=
  let v := foldl add_status_service {| colonyDeployed := ∅; colonyKnown := ∅; colonyNamespace := ∅ |}
             (cd_StatusServices cd) in
  foldl add_spec_service v (cd_SpecServices cd).

Definition prereq_status (p : PrerequisiteSpec) (source : PrerequisiteSource) (ns : string)
    (phase : PrerequisitePhase) (msg : string) : PrerequisiteStatus :=
  {| ps_Name := prereq_name p; ps_Phase := Some phase; ps_Source := source; ps_Namespace := ns; ps_Message := msg |}.

(** [if overall != Failed && overall != Conflict { overall = v }]. *)
Definition lower_verdict (overall v : PrerequisitesVerdict) : PrerequisitesVerdict :=
  match overall with
  | PrerequisitesVerdictFailed | PrerequisitesVerdictConflict => overall
  | _ => v
  end.

(** One turn of the loop on the answer for the prerequisite's own ServiceSet:
    the status appended and the verdict carried on. *)
Definition with_own_ss (p : PrerequisiteSpec) (ss : ServiceSet) (overall : PrerequisitesVerdict)
    : PrerequisiteStatus * PrerequisitesVerdict :=
  let name := prereq_name p in
  let ns := readPrerequisiteSSNamespace ss name in
  if prerequisiteNamespaceConflict (pr_Namespace p) ns then
    (prereq_status p SourceWorkspace ns PrereqFailed
       (prerequisiteConflictMessage name ns "workspace" (pr_Namespace p)), PrerequisitesVerdictConflict)
  else
    let '(state, msg) := readPrerequisiteSSState ss name in
    match state with
    | StateDeployed => (prereq_status p SourceWorkspace ns PrereqSatisfied "", overall)
    | StateFailed =>
        (prereq_status p SourceWorkspace ns PrereqFailed msg,
         if bool_decide (overall ≠ PrerequisitesVerdictConflict) then PrerequisitesVerdictFailed else overall)
    | StateOther _ =>
        (prereq_status p SourceWorkspace ns PrereqInstalling "", lower_verdict overall PrerequisitesVerdictInstalling)
    end.

Definition without_own_ss (v : colony_view) (p : PrerequisiteSpec) (overall : PrerequisitesVerdict)
    : PrerequisiteStatus * PrerequisitesVerdict :=
  let name := prereq_name p in
  let ns := mget (colonyNamespace v) name in
  let conflict := prerequisiteNamespaceConflict (pr_Namespace p) ns in
  let conflicted := (prereq_status p SourceColony ns PrereqFailed
                       (prerequisiteConflictMessage name ns "colony" (pr_Namespace p)),
                     PrerequisitesVerdictConflict) in
  if bool_decide (name ∈ colonyDeployed v) then
    if conflict then conflicted else (prereq_status p SourceColony ns PrereqSatisfied "", overall)
  else if bool_decide (name ∈ colonyKnown v) then
    if conflict then conflicted
    else (prereq_status p SourceColony ns PrereqInstalling "", lower_verdict overall PrerequisitesVerdictInstalling)
  else (prereq_status p SourceWorkspace (effectivePrerequisiteNamespace p) PrereqPending "",
        lower_verdict overall PrerequisitesVerdictMissing).

Definition version_constraint_message : string :=
  "versionConstraint is not yet implemented; specify the exact ServiceTemplate name in prereq.serviceTemplate.name".

Fixpoint evaluate_loop (c : client) (wsd : WorkspaceDeployment) (v : colony_view)
    (prereqs : list PrerequisiteSpec) (overall : PrerequisitesVerdict) (statuses : list PrerequisiteStatus)
    : prog (res (PrerequisitesVerdict * list PrerequisiteStatus)) :=
  match prereqs with
  | [] => mret (Ok (overall, statuses))
  | p :: rest =>
      if bool_decide (t_VersionConstraint (pr_ServiceTemplate p) ≠ "") then
        mret (Ok (PrerequisitesVerdictInvalid,
                  [prereq_status p SourceUnset "" PrereqFailed version_constraint_message]))
      else
        ss ← call (Get KSS c (prereq_key wsd (prereq_name p)));
        match ss with
        | Ok ss =>
            let '(st, overall) := with_own_ss p ss overall in
            evaluate_loop c wsd v rest overall (statuses ++ [st])
        | Err err =>
            if IsNotFound err then
              let '(st, overall) := without_own_ss v p overall in
              evaluate_loop c wsd v rest overall (statuses ++ [st])
            else
              mret (Err (wrapf ("failed to get prerequisite ServiceSet " +:+
                k_Name (prereq_key wsd (prereq_name p))) err))
        end
  end.

Definition evaluatePrerequisites (c : client) (wsd : WorkspaceDeployment) (wsc : WorkspaceClass)
    : prog (res (PrerequisitesVerdict * list PrerequisiteStatus)) :=
  cd ← call (Get KCD c (cd_key wsd));
  match cd with
  | Err err =>
      if IsNotFound err then
        mret (Err (errorf ("ClusterDeployment " +:+ r_Namespace (w_CDRef wsd) +:+ "/" +:+ r_Name (w_CDRef wsd)
                           +:+ " not found")))
      else mret (Err err)
  | Ok cd =>
      evaluate_loop c wsd (colony_services cd) (wsc_Prerequisites (wsc_Spec wsc)) PrerequisitesVerdictSatisfied []
  end.

Definition status_failed (s : PrerequisiteStatus) : bool := bool_decide (ps_Phase s = Some PrereqFailed).
Definition firstConflictPrerequisite (statuses : list PrerequisiteStatus) : option PrerequisiteStatus :=
  find_first (λ s, status_failed s && Contains (ps_Message s) prerequisiteConflictMsgFragment) statuses.

(** ** Lemmas *)

Lemma ensure_prereq_writes c wsd wsc p : always (writes_only KSS c) (ensurePrerequisiteServiceSet c wsd wsc p).
Proof. unfold ensurePrerequisiteServiceSet. prove_always; by (left + right). Qed.

Lemma evaluate_loop_reads c wsd v ps o sts : always read_only (evaluate_loop c wsd v ps o sts).
Proof.
  revert o sts. induction ps as [|p ps IH]; intros o sts; [apply always_ret|].
  cbn [evaluate_loop]. apply always_if; [apply always_ret|]. apply always_bind; [by apply always_call|].
  intros [ss|err]; [|apply always_if; [|apply always_ret]].
  - destruct (with_own_ss p ss o). apply IH.
  - destruct (without_own_ss v p o). apply IH.
Qed.
Lemma evaluatePrerequisites_reads c wsd wsc : always read_only (evaluatePrerequisites c wsd wsc).
Proof.
  unfold evaluatePrerequisites. prove_always. intros; apply evaluate_loop_reads.
Qed.
#[export] Hint Resolve evaluate_loop_reads evaluatePrerequisites_reads : prog.

(** *** The verdict as a fold

    [combine] is how the loop folds one prerequisite's own verdict into the
    overall one. *)
Definition combine (overall v : PrerequisitesVerdict) : PrerequisitesVerdict :=
  match v with
  | PrerequisitesVerdictSatisfied => overall
  | PrerequisitesVerdictConflict => PrerequisitesVerdictConflict
  | PrerequisitesVerdictFailed => if bool_decide (overall ≠ PrerequisitesVerdictConflict) then v else overall
  | _ => lower_verdict overall v
  end.

(** The requested namespace against the one reported. *)
Definition conflicts (p : PrerequisiteSpec) (s : PrerequisiteStatus) : bool :=
  prerequisiteNamespaceConflict (pr_Namespace p) (ps_Namespace s).

(** The status [s] and verdict [v] one prerequisite [p] gets. *)
Definition outcome_ok (p : PrerequisiteSpec) (sv : PrerequisiteStatus * PrerequisitesVerdict) : Prop :=
  let '(s, v) := sv in
  ps_Name s = prereq_name p ∧
  (conflicts p s = true ↔ v = PrerequisitesVerdictConflict) ∧
  match v with
  | PrerequisitesVerdictSatisfied => ps_Phase s = Some PrereqSatisfied
  | PrerequisitesVerdictInstalling => ps_Phase s = Some PrereqInstalling
  | PrerequisitesVerdictMissing => ps_Phase s = Some PrereqPending
  | PrerequisitesVerdictFailed => ps_Phase s = Some PrereqFailed
  | PrerequisitesVerdictConflict => ps_Phase s = Some PrereqFailed ∧
      Contains (ps_Message s) prerequisiteConflictMsgFragment = true
  | PrerequisitesVerdictInvalid => False
  end.

Lemma conflict_message_contains t i s r :
  Contains (prerequisiteConflictMessage t i s r) prerequisiteConflictMsgFragment = true.
Proof. unfold prerequisiteConflictMessage. apply contains_app_l, contains_mid. Qed.

Lemma with_own_ss_combine p ss o :
  let r := with_own_ss p ss PrerequisitesVerdictSatisfied in
  with_own_ss p ss o = (r.1, combine o r.2) ∧ outcome_ok p r.
Proof.
  unfold with_own_ss. destruct (prerequisiteNamespaceConflict _ _) eqn:E.
  - split; [done|]. split_and!; try done. apply conflict_message_contains.
  - destruct (readPrerequisiteSSState ss (prereq_name p)) as [st msg].
    assert (Hc : ∀ ph m, conflicts p (prereq_status p SourceWorkspace
      (readPrerequisiteSSNamespace ss (prereq_name p)) ph m) = false) by done.
    destruct st; (split; [by destruct o|]); unfold outcome_ok; cbn [fst snd]; rewrite Hc; done.
Qed.

Lemma without_own_ss_combine v p o :
  let r := without_own_ss v p PrerequisitesVerdictSatisfied in
  without_own_ss v p o = (r.1, combine o r.2) ∧ outcome_ok p r.
Proof.
  unfold without_own_ss. cbv zeta.
  assert (Hp : conflicts p (prereq_status p SourceWorkspace (effectivePrerequisiteNamespace p) PrereqPending "") = false).
  { unfold conflicts, prerequisiteNamespaceConflict, effectivePrerequisiteNamespace. simpl.
    destruct (bool_decide (pr_Namespace p ≠ "")); simpl; [|done].
    rewrite (bool_decide_eq_false_2 (pr_Namespace p ≠ pr_Namespace p)) by auto. by destruct (bool_decide _). }
  assert (Hc : ∀ ph m, conflicts p (prereq_status p SourceColony (mget (colonyNamespace v) (prereq_name p)) ph m) =
    prerequisiteNamespaceConflict (pr_Namespace p) (mget (colonyNamespace v) (prereq_name p))) by done.
  destruct (bool_decide (prereq_name p ∈ colonyDeployed v)), (bool_decide (prereq_name p ∈ colonyKnown v)),
    (prerequisiteNamespaceConflict _ _); (split; [by destruct o|]); unfold outcome_ok; cbn [fst snd];
    rewrite ?Hc, ?Hp; split_and!; try done; apply conflict_message_contains.
Qed.

(** One turn of the loop, on an answer of the run. *)
Definition seen_outcome (c : client) (wsd : WorkspaceDeployment) (v : colony_view) (tr : list event)
    (p : PrerequisiteSpec) (r : PrerequisiteStatus * PrerequisitesVerdict) : Prop :=
  t_VersionConstraint (pr_ServiceTemplate p) = "" ∧
  ∃ x, Ev (Get KSS c (prereq_key wsd (prereq_name p))) x ∈ tr ∧
    match x with
    | Ok ss => r = with_own_ss p ss PrerequisitesVerdictSatisfied
    | Err err => IsNotFound err = true ∧ r = without_own_ss v p PrerequisitesVerdictSatisfied
    end.
Lemma seen_outcome_mono c wsd v tr tr' p r :
  (∀ e, e ∈ tr → e ∈ tr') → seen_outcome c wsd v tr p r → seen_outcome c wsd v tr' p r.
Proof. intros Hsub (Hc & x & Hx & Hr). split; [done|]. exists x. auto. Qed.
Lemma seen_outcome_ok c wsd v tr p r : seen_outcome c wsd v tr p r → outcome_ok p r.
Proof.
  intros (_ & [ss|err] & _ & Hr); [subst r|destruct Hr as [_ ->]].
  - apply (with_own_ss_combine p ss PrerequisitesVerdictSatisfied).
  - apply (without_own_ss_combine v p PrerequisitesVerdictSatisfied).
Qed.

(** The loop stops at a version constraint; without one it is a fold over its turns. *)
Lemma evaluate_loop_seen c wsd v ps o sts tr o' sts' :
  exec (evaluate_loop c wsd v ps o sts) tr (Ok (o', sts')) →
  (o' = PrerequisitesVerdictInvalid ∧ ∃ p, p ∈ ps ∧ t_VersionConstraint (pr_ServiceTemplate p) ≠ "" ∧
     sts' = [prereq_status p SourceUnset "" PrereqFailed version_constraint_message]) ∨
  ∃ rs, sts' = sts ++ rs.*1 ∧ o' = foldl combine o rs.*2 ∧ Forall2 (seen_outcome c wsd v tr) ps rs.
Proof.
  revert o sts tr. induction ps as [|p ps IH]; intros o sts tr H.
  - cbn [evaluate_loop] in H. exec_inv. simplify_eq. right. exists []. by rewrite app_nil_r.
  - cbn [evaluate_loop] in H. apply exec_if in H as [[Hv H]|[Hv H]].
    { exec_inv. simplify_eq. left. split; [done|]. exists p. apply bool_decide_eq_true in Hv.
      split; [set_solver|by split]. }
    apply bool_decide_eq_false, dec_stable in Hv. apply exec_bind in H as (t1 & tr' & x & -> & ->%exec_call & H).
    set (t := Ev (Get KSS c (prereq_key wsd (prereq_name p))) x :: tr').
    assert (Hstep : ∃ r, exec (evaluate_loop c wsd v ps (combine o r.2) (sts ++ [r.1])) tr' (Ok (o', sts')) ∧
      seen_outcome c wsd v t p r).
    { destruct x as [ss|err].
      - destruct (with_own_ss_combine p ss o) as (E & Ho). rewrite E in H. eexists. split; [exact H|].
        split; [done|]. eexists. split; [apply list_elem_of_here|done].
      - destruct (IsNotFound err) eqn:En; [|exec_inv; done].
        destruct (without_own_ss_combine v p o) as (E & Ho). rewrite E in H. eexists. split; [exact H|].
        split; [done|]. eexists. split; [apply list_elem_of_here|done]. }
    destruct Hstep as ([st k] & Hx & Hm). cbn [fst snd] in *.
    apply IH in Hx as [[-> (q & Hq & Hq')]|(rs & -> & -> & HF)].
    { left. split; [done|]. exists q. split; [set_solver|done]. }
    right. exists ((st, k) :: rs). rewrite <- app_assoc. split_and!; try done. constructor; [exact Hm|].
    eapply Forall2_impl; [exact HF|]. intros ? ?. apply seen_outcome_mono. intros e He. by apply list_elem_of_further.
Qed.
Lemma evaluate_loop_spec c wsd v ps o sts tr o' sts' :
  exec (evaluate_loop c wsd v ps o sts) tr (Ok (o', sts')) →
  (o' = PrerequisitesVerdictInvalid ∧ ∃ p, p ∈ ps ∧ t_VersionConstraint (pr_ServiceTemplate p) ≠ "" ∧
     sts' = [prereq_status p SourceUnset "" PrereqFailed version_constraint_message]) ∨
  ∃ rs, sts' = sts ++ rs.*1 ∧ o' = foldl combine o rs.*2 ∧ Forall2 outcome_ok ps rs.
Proof.
  intros [?|(rs & Hs & Ho & HF)]%evaluate_loop_seen; [by left|right]. exists rs. split_and!; [done..|].
  eapply Forall2_impl; [exact HF|]. intros ? ?. apply seen_outcome_ok.
Qed.

(** The templates the ClusterDeployment reports deployed. *)
Lemma colony_deployed_spec cd name :
  name ∈ colonyDeployed (colony_services cd) →
  ∃ svc, svc ∈ cd_StatusServices cd ∧ sv_Template svc = name ∧ sv_State svc = StateDeployed.
Proof.
  unfold colony_services. cbv zeta.
  assert (Hspec : ∀ l v, colonyDeployed (foldl add_spec_service v l) = colonyDeployed v).
  { induction l as [|x l IH]; intros v; [done|]. cbn [foldl]. by rewrite IH. }
  rewrite Hspec.
  assert (Hst : ∀ l v, name ∈ colonyDeployed (foldl add_status_service v l) → name ∈ colonyDeployed v ∨
            ∃ svc, svc ∈ l ∧ sv_Template svc = name ∧ sv_State svc = StateDeployed).
  { induction l as [|x l IH]; intros v Hin; [by left|]. cbn [foldl] in Hin.
    apply IH in Hin as [Hin|(svc & Hs & Hx)]; [|right; exists svc; split; [by apply list_elem_of_further|done]].
    cbn [colonyDeployed add_status_service] in Hin. case_bool_decide as Hd; [|by left].
    apply elem_of_union in Hin as [->%elem_of_singleton|Hin]; [|by left].
    right. exists x. split; [apply list_elem_of_here|done]. }
  intros [Hin|?]%Hst; [by apply not_elem_of_empty in Hin|done].
Qed.

(** The run has seen a prerequisite installed: its own ServiceSet reports it deployed, or
    there is none and the workspace's ClusterDeployment does. *)
Definition seen_installed (c : client) (wsd : WorkspaceDeployment) (cd : ClusterDeployment) (tr : list event)
    (p : PrerequisiteSpec) : Prop :=
  (∃ ss svc, Ev (Get KSS c (prereq_key wsd (prereq_name p))) (Ok ss) ∈ tr ∧ svc ∈ ss_Status ss ∧
     sv_Template svc = prereq_name p ∧ sv_State svc = StateDeployed) ∨
  (∃ err svc, Ev (Get KSS c (prereq_key wsd (prereq_name p))) (Err err) ∈ tr ∧ IsNotFound err = true ∧
     svc ∈ cd_StatusServices cd ∧ sv_Template svc = prereq_name p ∧ sv_State svc = StateDeployed).
Lemma satisfied_seen c wsd cd tr p r :
  seen_outcome c wsd (colony_services cd) tr p r → r.2 = PrerequisitesVerdictSatisfied → seen_installed c wsd cd tr p.
Proof.
  intros (_ & [ss|err] & Hx & Hr) Hv; [subst r; left|destruct Hr as [Hn ->]; right].
  - unfold with_own_ss in Hv. destruct (prerequisiteNamespaceConflict _ _); [done|].
    unfold readPrerequisiteSSState in Hv. destruct (find_first _ (ss_Status ss)) as [svc|] eqn:Ef; [|done].
    apply find_first_Some in Ef as (Hin & Ht & _). apply bool_decide_eq_true in Ht. exists ss, svc.
    split_and!; [done..|]. by destruct (sv_State svc).
  - unfold without_own_ss in Hv. cbv zeta in Hv. case_bool_decide as Hd.
    + apply colony_deployed_spec in Hd as (svc & ? & ? & ?). by exists err, svc.
    + by repeat case_match.
Qed.

Lemma seen_installed_mono c wsd cd tr tr' p :
  (∀ e, e ∈ tr → e ∈ tr') → seen_installed c wsd cd tr p → seen_installed c wsd cd tr' p.
Proof.
  intros Hsub [(ss & svc & H1 & H2)|(err & svc & H1 & H2)]; [left; exists ss, svc|right; exists err, svc]; auto.
Qed.
Lemma all_seen c wsd cd tr ps rs :
  Forall2 (seen_outcome c wsd (colony_services cd) tr) ps rs →
  Forall (λ v, v = PrerequisitesVerdictSatisfied) rs.*2 → Forall (seen_installed c wsd cd tr) ps.
Proof.
  induction 1 as [|p r ps rs Hp HF IH]; intros Hall; [constructor|].
  rewrite fmap_cons in Hall. apply Forall_cons in Hall as [Hr Hall].
  constructor; [by eapply satisfied_seen|by apply IH].
Qed.

(** *** What the fold says *)
Abbreviation Sat := PrerequisitesVerdictSatisfied.
Abbreviation Confl := PrerequisitesVerdictConflict.
Abbreviation Faild := PrerequisitesVerdictFailed.

Lemma combine_conflict o v : combine o v = Confl ↔ o = Confl ∨ Confl = v.
Proof. destruct o, v; simpl; split; intros; destruct_or?; try done; auto. Qed.
Lemma combine_failed o v : combine o v = Faild ↔ o ≠ Confl ∧ Confl ≠ v ∧ (o = Faild ∨ Faild = v).
Proof. destruct o, v; simpl; split; intros; destruct_and?; destruct_or?; try done; auto. Qed.
Lemma combine_satisfied o v : combine o v = Sat ↔ o = Sat ∧ v = Sat.
Proof. destruct o, v; simpl; split; intros; destruct_and?; try done; auto. Qed.
Lemma combine_or o v : combine o v = o ∨ combine o v = v.
Proof. destruct o, v; auto. Qed.

Lemma combine_fold vs o :
  let r := foldl combine o vs in
  (r = Confl ↔ o = Confl ∨ Confl ∈ vs) ∧
  (r = Faild ↔ o ≠ Confl ∧ Confl ∉ vs ∧ (o = Faild ∨ Faild ∈ vs)) ∧
  (r = Sat ↔ o = Sat ∧ Forall (λ v, v = Sat) vs) ∧
  (r ∈ o :: vs).
Proof.
  revert o. induction vs as [|v vs IH]; intros o; cbn [foldl].
  - rewrite Forall_nil. set_solver.
  - destruct (IH (combine o v)) as (I1 & I2 & I3 & I4). cbv zeta in *. rewrite I1, I2, I3, Forall_cons.
    rewrite !elem_of_cons in *. rewrite ?not_elem_of_cons.
    rewrite (combine_conflict o v), (combine_failed o v), (combine_satisfied o v).
    split_and!; [tauto|tauto|tauto|].
    destruct I4 as [->|I4]; [|tauto]. destruct (combine_or o v) as [->| ->]; tauto.
Qed.

(** Reading the outcomes off the loop's lists. *)
Section outcomes.
Context (ps : list PrerequisiteSpec) (rs : list (PrerequisiteStatus * PrerequisitesVerdict)).
Hypothesis HF : Forall2 outcome_ok ps rs.

Lemma outcome_verdict v :
  v ∈ rs.*2 ↔ ∃ i p s, ps !! i = Some p ∧ rs !! i = Some (s, v) ∧ outcome_ok p (s, v).
Proof.
  rewrite list_elem_of_fmap. split.
  - intros ([s v'] & -> & [i Hi]%list_elem_of_lookup).
    destruct (Forall2_lookup_r _ _ _ _ _ HF Hi) as (p & Hp & Ho). eauto 10.
  - intros (i & p & s & Hp & Hi & _). exists (s, v). split; [done|]. by eapply list_elem_of_lookup_2.
Qed.
Lemma outcome_status s :
  s ∈ rs.*1 ↔ ∃ i p v, ps !! i = Some p ∧ rs !! i = Some (s, v) ∧ outcome_ok p (s, v).
Proof.
  rewrite list_elem_of_fmap. split.
  - intros ([s' v] & -> & [i Hi]%list_elem_of_lookup).
    destruct (Forall2_lookup_r _ _ _ _ _ HF Hi) as (p & Hp & Ho). eauto 10.
  - intros (i & p & v & Hp & Hi & _). exists (s, v). split; [done|]. by eapply list_elem_of_lookup_2.
Qed.
Lemma outcome_exists v ph :
  (∀ p s, outcome_ok p (s, v) → ps_Phase s = Some ph) → v ∈ rs.*2 → Exists (λ s, ps_Phase s = Some ph) rs.*1.
Proof.
  intros Hph (i & p & s & Hp & Hi & Ho)%outcome_verdict. apply Exists_exists.
  exists s. split; [|by eapply Hph]. apply outcome_status. eauto 10.
Qed.
Lemma outcome_names : ps_Name <$> rs.*1 = prereq_name <$> ps.
Proof.
  rewrite <- list_fmap_compose. induction HF as [|p [s v] ps' rs' Ho HF' IH]; [done|].
  rewrite !fmap_cons. f_equal; [apply Ho|by apply IH].
Qed.
Lemma outcome_conflict :
  Confl ∈ rs.*2 ↔ ∃ i p s, ps !! i = Some p ∧ rs.*1 !! i = Some s ∧ conflicts p s = true.
Proof.
  rewrite outcome_verdict. setoid_rewrite list_lookup_fmap. split.
  - intros (i & p & s & Hp & Hi & Ho). exists i, p, s. rewrite Hi. split_and!; [done|done|by apply Ho].
  - intros (i & p & s & Hp & Hi & Hc). destruct (rs !! i) as [[s' v]|] eqn:E; simplify_eq/=.
    pose proof (Forall2_lookup_lr _ _ _ _ _ _ HF Hp E) as Ho.
    assert (v = Confl) as -> by by apply Ho. eauto 10.
Qed.
Lemma outcome_first_conflict : Confl ∈ rs.*2 → is_Some (firstConflictPrerequisite rs.*1).
Proof.
  intros (i & p & s & Hp & Hi & Ho)%outcome_verdict. apply find_first_is_Some. exists s.
  split; [apply outcome_status; eauto 10|]. destruct Ho as (_ & _ & Hph & Hm).
  unfold status_failed. rewrite Hph, Hm. by rewrite bool_decide_eq_true_2.
Qed.
Lemma outcome_failed :
  Confl ∈ rs.*2 ∨ Faild ∈ rs.*2 ↔ Exists (λ s, ps_Phase s = Some PrereqFailed) rs.*1.
Proof.
  split.
  - intros [Hi|Hi]; (eapply outcome_exists; [|exact Hi]); intros p s (_ & _ & Ho); [apply Ho|exact Ho].
  - rewrite Exists_exists. intros (s & (i & p & v & Hp & Hi & Ho)%outcome_status & Hph).
    assert (Hin : v ∈ rs.*2) by (apply outcome_verdict; eauto 10).
    destruct Ho as (_ & _ & Ho). destruct v; try congruence; auto. done.
Qed.
Lemma outcome_satisfied :
  Forall (λ v, v = Sat) rs.*2 ↔ Forall (λ s, ps_Phase s = Some PrereqSatisfied) rs.*1.
Proof.
  rewrite !Forall_forall. split.
  - intros Hall s (i & p & v & Hp & Hi & Ho)%outcome_status.
    assert (v = Sat) as -> by (apply Hall, outcome_verdict; eauto 10). apply Ho.
  - intros Hall v (i & p & s & Hp & Hi & Ho)%outcome_verdict.
    assert (Hs : ps_Phase s = Some PrereqSatisfied) by (apply Hall, outcome_status; eauto 10).
    destruct Ho as (_ & _ & Ho). destruct v; try done; try congruence. destruct Ho. congruence.
Qed.
End outcomes.

(** C26: The verdict that drives the workspace's state machine.  It is Invalid exactly when
    some prerequisite carries a version constraint (not implemented, and reported as
    the only status).  Otherwise there is one status per prerequisite, in order, and
    a namespace conflict anywhere is reported as such and outranks every other
    failure; any failure outranks waiting; Missing and Installing have a status that
    says so.  The verdict is Satisfied exactly when every status is, and then the run
    has seen each prerequisite deployed, in its own ServiceSet or, where there is
    none, in the status of the workspace's cluster. *)
Theorem prerequisite_verdict_spec c wsd wsc tr v sts :
  exec (evaluatePrerequisites c wsd wsc) tr (Ok (v, sts)) →
  let ps := wsc_Prerequisites (wsc_Spec wsc) in
  (v = PrerequisitesVerdictInvalid ↔ Exists (λ p, t_VersionConstraint (pr_ServiceTemplate p) ≠ "") ps) ∧
  (v ≠ PrerequisitesVerdictInvalid →
   ps_Name <$> sts = prereq_name <$> ps ∧
   (v = Confl ↔ ∃ i p s, ps !! i = Some p ∧ sts !! i = Some s ∧ conflicts p s = true) ∧
   (v = Confl → is_Some (firstConflictPrerequisite sts)) ∧
   ((v = Confl ∨ v = Faild) ↔ Exists (λ s, ps_Phase s = Some PrereqFailed) sts) ∧
   (v = Sat ↔ Forall (λ s, ps_Phase s = Some PrereqSatisfied) sts) ∧
   (v = Sat → ∃ cd, Ev (Get KCD c (cd_key wsd)) (Ok cd) ∈ tr ∧ Forall (seen_installed c wsd cd tr) ps) ∧
   (v = PrerequisitesVerdictMissing → Exists (λ s, ps_Phase s = Some PrereqPending) sts) ∧
   (v = PrerequisitesVerdictInstalling → Exists (λ s, ps_Phase s = Some PrereqInstalling) sts)).
Proof.
  intros H ps. unfold evaluatePrerequisites in H. apply exec_bind in H as (t1 & t2 & [cd|err] & -> & ->%exec_call & H);
    [|destruct (IsNotFound err); exec_inv; done].
  fold ps in H. apply evaluate_loop_seen in H as [[-> (p & Hp & Hc & _)]|(rs & -> & -> & HS)].
  { split; [|done]. split; [intros _|done]. apply Exists_exists. by exists p. }
  assert (HF : Forall2 outcome_ok ps rs) by (eapply Forall2_impl; [exact HS|]; intros ? ?; apply seen_outcome_ok).
  rewrite app_nil_l. destruct (combine_fold rs.*2 Sat) as (C1 & C2 & C3 & C4).
  assert (Hlast : ∀ v ph, v ≠ Sat → (∀ p s, outcome_ok p (s, v) → ps_Phase s = Some ph) →
            foldl combine Sat rs.*2 = v → Exists (λ s, ps_Phase s = Some ph) rs.*1).
  { intros v ph Hv Ho Hr. rewrite Hr in C4. apply elem_of_cons in C4 as [?|Hi]; [done|].
    eapply outcome_exists; [exact HF|exact Ho|exact Hi]. }
  split.
  { split.
    - intros Hr. rewrite Hr in C4. apply elem_of_cons in C4 as [?|Hi]; [done|].
      by apply (outcome_verdict ps rs HF) in Hi as (? & ? & ? & _ & _ & _ & _ & []).
    - intros (p & [i Hi]%list_elem_of_lookup & Hc)%Exists_exists.
      by apply (Forall2_lookup_l _ _ _ _ _ HS) in Hi as (? & _ & ? & _). }
  intros _. split_and!.
  - by apply outcome_names.
  - rewrite C1, <- (outcome_conflict ps rs HF). naive_solver.
  - rewrite C1. intros [?|Hi]; [done|]. by eapply outcome_first_conflict.
  - rewrite C1, C2, <- (outcome_failed ps rs HF). destruct (decide (Confl ∈ rs.*2)); naive_solver.
  - rewrite C3, <- (outcome_satisfied ps rs HF). naive_solver.
  - rewrite C3. intros [_ Hall]. exists cd. split; [in_trace|]. apply (all_seen _ _ _ _ _ _ HS) in Hall.
    eapply Forall_impl; [exact Hall|]. intros p Hp. eapply seen_installed_mono; [|exact Hp].
    intros e He. by apply list_elem_of_further.
  - apply Hlast; [done|]. by intros p s (_ & _ & Ho).
  - apply Hlast; [done|]. by intros p s (_ & _ & Ho).
Qed.

(** ** Concrete runs *)
Definition example_prereq (name ns : string) : PrerequisiteSpec :=
  {| pr_ServiceTemplate := example_template name; pr_Namespace := ns; pr_Values := None |}.
(** Break a goal that a program runs along a concrete trace. *)
Ltac exec_run := repeat (eexists _, _; split; [reflexivity|]); try (split; reflexivity).

(** A class with two prerequisites: the first has its own ServiceSet, which reports it
    deployed; the cluster provides the second. *)
Definition two_prereqs : WorkspaceClass := example_class [example_prereq "gpu-operator" ""; example_prereq "kuberay" "ray"].
Definition deployed_as (name ns : string) : ServiceState :=
  {| sv_Name := name; sv_Namespace := ns; sv_Template := name; sv_State := StateDeployed; sv_FailureMessage := "" |}.
Definition providing_cd (svcs : list ServiceState) : ClusterDeployment :=
  let cd := example_cd "cd" "ns" in
  {| cd_APIVersion := cd_APIVersion cd; cd_Kind := cd_Kind cd; cd_meta := cd_meta cd; cd_Spec := cd_Spec cd;
     cd_StatusServices := svcs; cd_Conditions := cd_Conditions cd |}.
Definition own_operator : ServiceSet :=
  let ss := prerequisite_serviceset (example_wsd "ns" "w" "cd") two_prereqs (example_prereq "gpu-operator" "") RawEmpty in
  {| ss_meta := ss_meta ss; ss_Cluster := ss_Cluster ss; ss_Provider := ss_Provider ss; ss_Services := ss_Services ss;
     ss_Deployed := ss_Deployed ss; ss_Status := [deployed_as "gpu-operator" "default"] |}.
(** The run when the cluster reports the second in namespace [ns]. *)
Definition verdict_trace (ns : string) : list event :=
  let wsd := example_wsd "ns" "w" "cd" in
  [Ev (Get KCD MgmtClient (cd_key wsd)) (Ok (providing_cd [deployed_as "kuberay" ns]));
   Ev (Get KSS MgmtClient (prereq_key wsd "gpu-operator")) (Ok own_operator);
   Ev (Get KSS MgmtClient (prereq_key wsd "kuberay")) (Err not_found)].
Definition reads_cluster (e : event) : bool :=
  match e with Ev r _ => match r with Get KCD _ _ => true | _ => false end end.
Definition conflict_statuses : list PrerequisiteStatus :=
  [prereq_status (example_prereq "gpu-operator" "") SourceWorkspace "default" PrereqSatisfied "";
   prereq_status (example_prereq "kuberay" "ray") SourceColony "other" PrereqFailed
     (prerequisiteConflictMessage "kuberay" "other" "colony" "ray")].
Lemma prerequisite_verdict_spec_witness :
  Forall (seen_installed MgmtClient (example_wsd "ns" "w" "cd") (providing_cd [deployed_as "kuberay" "ray"])
            (verdict_trace "ray")) (wsc_Prerequisites (wsc_Spec two_prereqs)) ∧
  ∃ sts, exec (evaluatePrerequisites MgmtClient (example_wsd "ns" "w" "cd") two_prereqs) (verdict_trace "other")
           (Ok (Confl, sts)) ∧
    ∃ i p s, wsc_Prerequisites (wsc_Spec two_prereqs) !! i = Some p ∧ sts !! i = Some s ∧ conflicts p s = true.
Proof.
  split.
  - destruct (prerequisite_verdict_spec MgmtClient (example_wsd "ns" "w" "cd") two_prereqs (verdict_trace "ray") Sat
                [prereq_status (example_prereq "gpu-operator" "") SourceWorkspace "default" PrereqSatisfied "";
                 prereq_status (example_prereq "kuberay" "ray") SourceColony "ray" PrereqSatisfied ""])
      as (_ & (_ & _ & _ & _ & _ & Hs & _)); [|discriminate|].
    + do 3 (eexists _, _; split; [reflexivity|]). split; [reflexivity|]. vm_compute. reflexivity.
    + destruct (Hs eq_refl) as (cd & Hcd & Hall). apply elem_of_cons in Hcd as [Hcd|Hcd].
      * apply get_event_inj in Hcd. apply (inj Ok) in Hcd. by subst cd.
      * apply elem_of_cons in Hcd as [Hcd|Hcd]; [by apply (f_equal reads_cluster) in Hcd|].
        apply elem_of_cons in Hcd as [Hcd|Hcd]; [by apply (f_equal reads_cluster) in Hcd|]. by apply elem_of_nil in Hcd.
  - assert (Hx : exec (evaluatePrerequisites MgmtClient (example_wsd "ns" "w" "cd") two_prereqs) (verdict_trace "other")
                   (Ok (Confl, conflict_statuses))).
    { do 3 (eexists _, _; split; [reflexivity|]). split; [reflexivity|]. vm_compute. reflexivity. }
    exists conflict_statuses. split; [exact Hx|].
    destruct (prerequisite_verdict_spec _ _ _ _ _ _ Hx) as (_ & (_ & Hc & _)); [discriminate|]. by apply Hc.
Defined.

(** A prerequisite nobody provides is left uninstalled as long as a later one is
    still installing: the later turn replaces the verdict Missing by Installing,
    on which the controller creates nothing. *)
Theorem missing_prerequisite_waits_for_installing :
  let wsd := example_wsd "ns" "w" "cd" in
  let wsc := example_class [example_prereq "gpu-operator" ""; example_prereq "kuberay" ""] in
  let installing := prerequisite_serviceset wsd wsc (example_prereq "kuberay" "") RawEmpty in
  ∃ sts,
    exec (evaluatePrerequisites MgmtClient wsd wsc)
      [Ev (Get KCD MgmtClient (cd_key wsd)) (Ok (example_cd "cd" "ns"));
       Ev (Get KSS MgmtClient (prereq_key wsd "gpu-operator")) (Err not_found);
       Ev (Get KSS MgmtClient (prereq_key wsd "kuberay")) (Ok installing)]
      (Ok (PrerequisitesVerdictInstalling, sts)) ∧
    ps_Phase <$> sts = [Some PrereqPending; Some PrereqInstalling].
Proof.
  eexists. split.
  - do 3 (eexists _, _; split; [reflexivity|]). split; [reflexivity|]. vm_compute. reflexivity.
  - reflexivity.
Qed.

(** ** Installation *)

(** C35: Installing a prerequisite writes at most one object, a new ServiceSet under
    the name every workspace on that cluster computes for the template; one that
    exists is never modified.  The new object is recognised as a prerequisite by
    the watch mapper and carries valid label values. *)
Theorem prerequisite_install_spec c wsd wsc p tr r :
  exec (ensurePrerequisiteServiceSet c wsd wsc p) tr r →
  (∀ e, e ∈ tr → ev_mutates e = true →
     (∃ err, Ev (Get KSS c (prereq_key wsd (prereq_name p))) (Err err) ∈ tr ∧ IsNotFound err = true) ∧
     ∃ v resp, e = Ev (Create KSS c (prerequisite_serviceset wsd wsc p v)) resp ∧ prerequisite_values p = Ok v) ∧
  (r = None →
     (∃ ss, Ev (Get KSS c (prereq_key wsd (prereq_name p))) (Ok ss) ∈ tr) ∨
     ∃ v resp, Ev (Create KSS c (prerequisite_serviceset wsd wsc p v)) resp ∈ tr ∧
       match resp with Ok _ => True | Err err => IsAlreadyExists err = true end).
Proof.
  unfold ensurePrerequisiteServiceSet. cbv zeta. intros H. exec_step H as [ss|err].
  { exec_inv. split.
    - intros e [->|[]%elem_of_nil]%elem_of_cons; done.
    - intros _. left. exists ss. in_trace. }
  destruct (IsNotFound err) eqn:En; cbn [negb] in H; exec_inv.
  2: { split; [|done]. intros e [->|[]%elem_of_nil]%elem_of_cons; done. }
  destruct (prerequisite_values p) as [v|perr] eqn:Ev; exec_inv.
  2: { split; [|done]. intros ? [->|[]%elem_of_nil]%elem_of_cons; done. }
  split.
  - intros e He Hm. split; [exists err; split; [in_trace|done]|].
    assert (tr0 = []) as -> by (destruct x as [|e']; [|destruct (IsAlreadyExists e')]; exec_inv; done).
    apply elem_of_cons in He as [->|[->|[]%elem_of_nil]%elem_of_cons]; [done|]. eauto.
  - intros ->. right. exists v, x. split; [in_trace|]. destruct x as [|e']; [done|].
    destruct (IsAlreadyExists e'); exec_inv; done.
Qed.

Lemma prerequisite_serviceset_role wsd wsc p v :
  isPrerequisiteServiceSet (prerequisite_serviceset wsd wsc p v) = true.
Proof.
  unfold isPrerequisiteServiceSet. apply bool_decide_eq_true. simpl. unfold smget. simpl.
  rewrite mget_insert_ne by done. apply mget_insert.
Qed.

Lemma prerequisite_install_spec_witness :
  ∃ ss, Ev (Get KSS MgmtClient (prereq_key (example_wsd "ns" "w" "cd") "kuberay")) (Ok ss) ∈
    [Ev (Get KSS MgmtClient (prereq_key (example_wsd "ns" "w" "cd") "kuberay"))
       (Ok (new_serviceset "x" "ns" "cd" ∅
              {| sw_Name := ""; sw_Namespace := ""; sw_Template := ""; sw_Values := RawEmpty;
                 sw_HelmOptions := {| h_Wait := true; h_Timeout := 0; h_CreateNamespace := true |} |}))].
Proof.
  set (ss := new_serviceset _ _ _ _ _).
  destruct (prerequisite_install_spec MgmtClient (example_wsd "ns" "w" "cd") (example_class [])
    (example_prereq "kuberay" "") [Ev (Get KSS MgmtClient (prereq_key (example_wsd "ns" "w" "cd") "kuberay")) (Ok ss)] None)
    as [_ H].
  - exists (Ok ss), []. split; [reflexivity|split; reflexivity].
  - destruct (H eq_refl) as [Hx|(v & resp & Hin & _)]; [exact Hx|].
    exfalso. apply elem_of_cons in Hin as [Hin|Hin%elem_of_nil]; [discriminate Hin|exact Hin].
Defined.
