(* ===== verification/Routes.v ===== *)
(** * Access routes and bounded remote cleanup

    [internal/controller/workspaces/routes.go], [routes_sweeper.go], the
    RouteProvider interface of [routing/provider.go], and the grace-period
    helpers of [workspacedeployment_controller.go]. *)

From S2P Require Import Prelude GoString Api Naming Prog ServiceSets Failure.

(** ** Results *)
Record Result := { RequeueAfter : Z }.
Definition no_requeue : Result := {| RequeueAfter := 0 |}.
Definition requeueInterval : Z := 15 * Second.
Definition requeue : Result := {| RequeueAfter := requeueInterval |}.

(** [r.Status().Update(ctx, wsd)] and [r.Update(ctx, wsd)]: on success the server's
    answer replaces the object in hand. *)
Definition status_update (wsd : WorkspaceDeployment) : prog (WorkspaceDeployment * option error) :=
  resp ← call (StatusUpdate KWSD MgmtClient wsd);
  match resp with Ok wsd' => mret (wsd', None) | Err err => mret (wsd, Some err) end.
Definition update_wsd (wsd : WorkspaceDeployment) : prog (WorkspaceDeployment * option error) :=
  resp ← call (Update KWSD MgmtClient wsd);
  match resp with Ok wsd' => mret (wsd', None) | Err err => mret (wsd, Some err) end.

(** ** routing/provider.go: the interface *)
Class RouteProvider := {
  EnsureRoutes : WorkspaceDeployment → list AccessEndpoint → prog (res (list AccessEntry));
  CleanupRoutes : WorkspaceDeployment → list AccessEndpoint → prog (res unit)
}.

(** What the workspace controller relies on: a provider does not touch single
    workspaces and writes no ServiceSet. *)
Definition provider_event (e : event) : Prop := calm e ∧ ∀ c, ev_target e ≠ Some (KSS, c).
Class RouteProviderLaws (rp : RouteProvider) := {
  ensure_routes_frame : ∀ wsd eps, always provider_event (EnsureRoutes wsd eps);
  cleanup_routes_frame : ∀ wsd eps, always provider_event (CleanupRoutes wsd eps)
}.

(** One entry per endpoint, under its name. *)
Class RouteProviderEntries (rp : RouteProvider) :=
  ensure_routes_entries wsd eps tr l :
    exec (EnsureRoutes wsd eps) tr (Ok l) → ae_Name <$> l = ep_Name <$> eps.

(** ** The grace period *)
Definition remoteCleanupGracePeriod : Z := 10 * Minute.
Definition ReasonCleanupAbandoned : string := "CleanupAbandoned".

Definition remoteCleanupGraceExpired (wsd : WorkspaceDeployment) : prog bool :=
  match m_DeletionTimestamp (w_meta wsd) with
  | None => mret false
  | Some t => now ← call Now; mret (remoteCleanupGracePeriod <? now - t)%Z
  end.

Definition abandonCleanup (r : Reconciler) (wsd : WorkspaceDeployment) (step : string) (cause : error) : prog unit :=
  record_event r wsd EventTypeWarning ReasonCleanupAbandoned "Delete"
    ("Abandoned " +:+ step +:+ " for cluster " +:+ quote (r_Name (w_CDRef wsd)) +:+
     " after failing for 10m0s; deleting anyway, leftover resources may need manual cleanup: " +:+ e_text cause).

(** ** routes.go *)
Definition ConditionRoutesReady : string := "RoutesReady".
Definition IsInfraNotReady (e : error) : bool := bool_decide (e_code e = EInfraNotReady).

(** [allReady] and [notReadyMsg] after the loop. *)
Definition scan_entry (st : bool * string) (e : AccessEntry) : bool * string :=
  if ae_Ready e then st
  else (false,
        if bool_decide (st.2 = "") then
          (if bool_decide (ae_Message e ≠ "") then "Endpoint " +:+ quote (ae_Name e) +:+ ": " +:+ ae_Message e
           else "Endpoint " +:+ quote (ae_Name e) +:+ " is not routed yet")
        else st.2).

Definition routes_condition (wsd : WorkspaceDeployment) (entries : list AccessEntry) : bool * Condition :=
  let '(allReady, notReadyMsg) := foldl scan_entry (true, "") entries in
  (allReady,
   if allReady
   then mk_condition wsd ConditionRoutesReady CondTrue "RoutesReady"
          ("All " +:+ itoa (Z.of_nat (length entries)) +:+ " access endpoint(s) are routed")
   else mk_condition wsd ConditionRoutesReady CondFalse "RoutingInProgress" notReadyMsg).

Definition routes_unchanged (wsd : WorkspaceDeployment) (entries : list AccessEntry) (c : Condition) : bool :=
  bool_decide (s_Access (w_Status wsd) = entries) &&
  match find_first (λ e, bool_decide (c_Type e = ConditionRoutesReady)) (s_Conditions (w_Status wsd)) with
  | Some prev => bool_decide (c_Status prev = c_Status c) && bool_decide (c_Reason prev = c_Reason c) &&
                 bool_decide (c_Message prev = c_Message c)
  | None => false
  end.

Definition reconcileRoutes (rp : option RouteProvider) (wsd : WorkspaceDeployment) (wsc : WorkspaceClass)
    : prog (Result * bool * option error) :=
  match rp, wsc_AccessEndpoints (wsc_Spec wsc) with
  | Some rp, (_ :: _) as endpoints =>
      entries ← EnsureRoutes wsd endpoints;
      match entries with
      | Err err =>
          let '(reason, message) :=
            if IsInfraNotReady err
            then ("RoutingInfraNotReady", "Routing infrastructure is not ready: " +:+ e_text err)
            else ("RoutingError", "Failed to ensure routes: " +:+ e_text err) in
          wsd ← setCondition wsd (mk_condition wsd ConditionRoutesReady CondFalse reason message);
          _ ← status_update wsd;
          mret (requeue, true, None)
      | Ok entries =>
          let '(allReady, condition) := routes_condition wsd entries in
          let finish := if negb allReady then mret (requeue, true, None) else mret (no_requeue, false, None) in
          if negb (routes_unchanged wsd entries condition) then
            wsd ← setCondition (upd_status (set_Access entries) wsd) condition;
            u ← status_update wsd;
            match u.2 with
            | Some err => mret (no_requeue, true, Some err)
            | None => finish
            end
          else finish
      end
  | _, _ => mret (no_requeue, false, None)
  end.

Definition class_key (wsd : WorkspaceDeployment) : ObjectKey :=
  {| k_Namespace := ""; k_Name := WorkspaceClassRef (w_Spec wsd) |}.

Definition cleanupRoutes (r : Reconciler) (rp : option RouteProvider) (wsd : WorkspaceDeployment) : prog bool :=
  match rp with
  | None => mret true
  | Some rp =>
      wsc ← call (Get KWSC MgmtClient (class_key wsd));
      let endpoints := match wsc with Ok wsc => wsc_AccessEndpoints (wsc_Spec wsc) | Err _ => [] end in
      res ← CleanupRoutes wsd endpoints;
      match res with
      | Ok _ => mret true
      | Err err =>
          expired ← remoteCleanupGraceExpired wsd;
          if expired : bool then _ ← abandonCleanup r wsd "route cleanup" err; mret true
          else mret false
      end
  end.

(** ** routes_sweeper.go *)
Class OrphanSweeper := {
  SweepOrphans : (string → bool) → prog (res unit)
}.
Definition active_workspaces (items : list WorkspaceDeployment) (name : string) : bool :=
  existsb (λ w, bool_decide (w_Name w = name)) items.
(** One sweep; a failed listing sweeps nothing. *)
Definition sweepOnce `{OrphanSweeper} : prog unit :=
  wsds ← call (ListObjs KWSD MgmtClient list_all);
  match wsds with
  | Err _ => mret tt
  | Ok items => _ ← SweepOrphans (active_workspaces items); mret tt
  end.

(** [Start]: one sweep, then one per tick until the context ends; [ticks] of them
    come before. *)
Definition defaultSweepInterval : Z := 10 * Minute.
Definition sweep_interval (interval : Z) : Z := if (interval <=? 0)%Z then defaultSweepInterval else interval.
Fixpoint sweep_ticks `{OrphanSweeper} (ticks : nat) : prog unit :=
  match ticks with
  | O => mret tt
  | S ticks => _ ← sweepOnce; sweep_ticks ticks
  end.
Definition Start `{OrphanSweeper} (ticks : nat) : prog unit := _ ← sweepOnce; sweep_ticks ticks.

(** ** Lemmas *)

Lemma grace_reads wsd : always read_only (remoteCleanupGraceExpired wsd).
Proof. unfold remoteCleanupGraceExpired. prove_always. Qed.
Lemma abandon_reads r wsd step cause : always read_only (abandonCleanup r wsd step cause).
Proof. apply record_event_reads. Qed.
#[export] Hint Resolve grace_reads abandon_reads : prog.

(** Cleaning up routes touches nothing the provider may not touch. *)
Lemma cleanup_routes_events r rp wsd :
  (∀ p, rp = Some p → RouteProviderLaws p) → always provider_event (cleanupRoutes r rp wsd).
Proof.
  intros Hl. unfold cleanupRoutes, abandonCleanup, record_event, remoteCleanupGraceExpired.
  destruct rp as [p|]; [|apply always_ret].
  assert (RouteProviderLaws p) by by apply Hl.
  prove_always; try apply cleanup_routes_frame;
    (split; [split; [reflexivity|intros; discriminate]|intros; discriminate]).
Qed.

(** A grace period is read off the clock and the deletion timestamp. *)
Lemma grace_exec wsd tr b t :
  exec (remoteCleanupGraceExpired wsd) tr b → m_DeletionTimestamp (w_meta wsd) = Some t →
  ∃ now, tr = [Ev Now now] ∧ b = (remoteCleanupGracePeriod <? now - t)%Z.
Proof. unfold remoteCleanupGraceExpired. intros H Ht. rewrite Ht in H. exec_inv. by exists x. Qed.

(** The scan: ready exactly when every entry is, and otherwise a message. *)
Lemma scan_ready st entries :
  (foldl scan_entry st entries).1 = st.1 && forallb ae_Ready entries.
Proof.
  revert st. induction entries as [|e l IH]; intros st; simpl; [by rewrite andb_true_r|].
  rewrite IH. unfold scan_entry. destruct (ae_Ready e); simpl; [done|by rewrite andb_false_r].
Qed.

(** A status write that keeps the phase, the spec and the metadata. *)
Definition keeps_phase (wsd : WorkspaceDeployment) (e : event) : Prop :=
  match wsd_status e with
  | Some w => w_Phase w = w_Phase wsd ∧ w_meta w = w_meta wsd ∧ w_Spec w = w_Spec wsd
  | None => provider_event e
  end.

Lemma calm_no_status e : calm e → wsd_status e = None.
Proof. intros [_ Ht]. destruct e as [R req x]. destruct req as [| | | |k c y| | | | | | | | | | | | | |]; try done.
  destruct k; try done. by destruct (Ht c). Qed.
Lemma provider_keeps_phase wsd e : provider_event e → keeps_phase wsd e.
Proof. intros H. unfold keeps_phase. by rewrite (calm_no_status e (proj1 H)). Qed.

(** A condition write followed by the status write. *)
Lemma condition_status_keeps wsd w c tr1 w' tr2 x :
  exec (setCondition w c) tr1 w' → exec (status_update w') tr2 x →
  w_Phase w = w_Phase wsd → w_meta w = w_meta wsd → w_Spec w = w_Spec wsd →
  Forall (keeps_phase wsd) (tr1 ++ tr2).
Proof.
  intros (now & -> & ->)%setCondition_exec Hu H1 H2 H3. unfold status_update in Hu. exec_inv.
  destruct x0; exec_inv; by repeat constructor.
Qed.

(** A provider error or a broken route never changes a workspace's phase: the
    only write is the status, with the phase it had. *)
Theorem routes_keep_phase rp wsd wsc tr res :
  (∀ p, rp = Some p → RouteProviderLaws p) →
  exec (reconcileRoutes rp wsd wsc) tr res → Forall (keeps_phase wsd) tr.
Proof.
  intros Hl. unfold reconcileRoutes. intros H.
  destruct rp as [p|]; [|exec_inv; constructor].
  destruct (wsc_AccessEndpoints (wsc_Spec wsc)) as [|ep eps]; [exec_inv; constructor|].
  assert (Hp : RouteProviderLaws p) by by apply Hl.
  apply exec_bind in H as (tr1 & tr2 & x & -> & Hens & H). apply Forall_app. split.
  { apply ensure_routes_frame in Hens. eapply Forall_impl; [exact Hens|]. apply provider_keeps_phase. }
  clear Hens. cbv beta in H. destruct x as [entries|err].
  - destruct (routes_condition wsd entries) as [ready cond]. cbv zeta in H.
    apply exec_if in H as [[_ H]|[_ H]]; [|destruct ready; cbn [negb] in H; exec_inv; constructor].
    apply exec_bind in H as (tr3 & tr4 & w & -> & Hc & H).
    apply exec_bind in H as (tr5 & tr6 & u & -> & Hu & H).
    rewrite app_assoc. apply Forall_app. split; [by eapply condition_status_keeps|].
    destruct (u.2); [exec_inv; constructor|]. destruct ready; cbn [negb] in H; exec_inv; constructor.
  - destruct (if IsInfraNotReady err then _ else _) as [reason message].
    apply exec_bind in H as (tr3 & tr4 & w & -> & Hc & H).
    apply exec_bind in H as (tr5 & tr6 & u & -> & Hu & H).
    exec_inv. rewrite app_nil_r. by eapply condition_status_keeps.
Qed.

(** A provider for concrete runs. *)
Definition null_provider : RouteProvider :=
  {| EnsureRoutes _ _ := mret (Ok []); CleanupRoutes _ _ := mret (Ok tt) |}.
#[export] Instance null_provider_laws : RouteProviderLaws null_provider.
Proof. split; intros; apply always_ret. Qed.

Lemma routes_keep_phase_witness : Forall (keeps_phase (example_wsd "ns" "w" "cd")) [].
Proof.
  apply (routes_keep_phase (Some null_provider) (example_wsd "ns" "w" "cd")
    {| wsc_meta := new_meta "c" "" None;
       wsc_Spec := {| wsc_ServiceTemplate := {| t_Name := ""; t_Namespace := ""; t_VersionConstraint := "" |};
                      wsc_DefaultResources := {| Replicas := None; PerReplica := {| CPU := None; Memory := None;
                        Storage := None; GPUCount := None; GPUVendor_ := None; GPUType := None; GPUNodeSelector := None |} |};
                      wsc_Prerequisites := []; wsc_AccessEndpoints := []; wsc_DeployTimeout := None;
                      wsc_PrerequisiteDeployTimeout := None; wsc_DefaultValues := None; wsc_ResourceInjection := None |};
       wsc_Valid := true; wsc_ValidationError := ""; wsc_ObservedGeneration := 1 |} [] (no_requeue, false, None)).
  - intros p [= <-]. apply null_provider_laws.
  - split; reflexivity.
Defined.
