(* ===== verification/Gateway.v ===== *)
(** * The Gateway API route provider

    [internal/controller/workspaces/routing/gatewayapi]: provider.go, portpool.go
    and sweep.go.  The Gateway is only read; routes, mirror Services and mirror
    namespaces are written on the regional cluster, and one label on the child's
    Service.  Object comparison and condition lookup are library code, so they
    are parameters. *)

From S2P Require Import Prelude GoString Api Naming Prog Cluster ServiceSets Failure Routes.

(** ** The Kubernetes library *)
Class KubeLib := {
  IsStatusConditionTrue : list Condition → string → bool;
  DeepDerivative : list ServicePort → list ServicePort → bool;
  DeepEqual : HTTPRouteSpec → HTTPRouteSpec → bool
}.
(** What the library documents: [DeepEqual] is equality, and [DeepDerivative] ignores
    the fields its first argument leaves unset and the elements beyond its length. *)
Definition unset_or_same (want got : ServicePort) : Prop :=
  (sp_Name want = "" ∨ sp_Name got = sp_Name want) ∧
  (sp_Port want = 0%Z ∨ sp_Port got = sp_Port want) ∧
  (sp_Protocol want = "" ∨ sp_Protocol got = sp_Protocol want) ∧
  (sp_TargetPort want = "" ∨ sp_TargetPort got = sp_TargetPort want) ∧
  (sp_NodePort want = 0%Z ∨ sp_NodePort got = sp_NodePort want).
Class KubeLaws `{KubeLib} := {
  deep_equal_eq : ∀ a b, DeepEqual a b = true → a = b;
  deep_derivative_cons : ∀ d ds got, DeepDerivative (d :: ds) got = true →
    ∃ g gs, got = g :: gs ∧ unset_or_same d g
}.

(** ** Configuration *)
Definition DefaultGatewayName : string := "istio-ingressgateway".
Definition DefaultGatewayNamespace : string := "istio-system".
Definition maxHostnameLabel : nat := 63.
Definition labelIstioGlobal : string := "istio.io/global".
Definition labelIstioGlobalValue : string := "true".
Definition msgAwaitingAcceptance : string := "waiting for the gateway to accept the route".
Definition GatewayConditionProgrammed : string := "Programmed".
Definition RouteConditionAccepted : string := "Accepted".
Definition RouteConditionResolvedRefs : string := "ResolvedRefs".
Definition HTTPProtocolType : string := "HTTP".
Definition HTTPSProtocolType : string := "HTTPS".
Definition TCPProtocolType : string := "TCP".

Record Config := { GatewayName : string; GatewayNamespace : string; Mesh : MeshConfig }.
Definition New (cfg : Config) : Config :=
  {| GatewayName := if bool_decide (GatewayName cfg = "") then DefaultGatewayName else GatewayName cfg;
     GatewayNamespace := if bool_decide (GatewayNamespace cfg = "") then DefaultGatewayNamespace
                         else GatewayNamespace cfg;
     Mesh := Mesh cfg |}.

Record gatewayContext := {
  gc_regionalClient : client;
  gc_domain : string;
  gc_scheme : string;
  gc_gateway : Gateway
}.

(** [&routing.InfraNotReadyError{Reason: ...}]. *)
Definition InfraNotReadyError (reason : string) : error := {| e_code := EInfraNotReady; e_text := reason |}.

(** [string(protocol)]. *)
Definition protocol_string (p : RouteProtocol) : string :=
  match p with HTTP => "HTTP" | TCP => "TCP" | SSH => "SSH" end.

(** ** tenantDomainFromGateway *)
Fixpoint tenant_domain (ls : list Listener) (httpDomain : string) : string * string :=
  match ls with
  | [] => if bool_decide (httpDomain ≠ "") then (httpDomain, "http") else ("", "")
  | l :: ls =>
      match l_Hostname l with
      | None => tenant_domain ls httpDomain
      | Some host =>
          if negb (HasPrefix host "*.") then tenant_domain ls httpDomain
          else if bool_decide (l_Protocol l = HTTPSProtocolType) then (TrimPrefix host "*.", "https")
          else if bool_decide (l_Protocol l = HTTPProtocolType) then
            tenant_domain ls (if bool_decide (httpDomain = "") then TrimPrefix host "*." else httpDomain)
          else tenant_domain ls httpDomain
      end
  end.
Definition tenantDomainFromGateway (gw : Gateway) : string * string := tenant_domain (gw_Listeners gw) "".

(** ** Labels healed in place: the map afterwards, and whether it changed *)
Definition heal_labels (old : StrMap) (desired : gmap string string) : gmap string string * bool :=
  let l := default ∅ old in
  (filter (λ kv : string * string, mget l kv.1 ≠ kv.2) desired ∪ l,
   negb (forallb (λ kv, bool_decide (mget l kv.1 = kv.2)) (map_to_list desired))).

(** ** The port pool *)
Record poolListener := { pl_section : string; pl_port : Z }.

(** [sort.Slice] by port; listeners of equal port keep their order. *)
Definition port_le (a b : poolListener) : Prop := (pl_port a ≤ pl_port b)%Z.
#[export] Instance port_le_dec : RelDecision port_le.
Proof. intros a b. unfold port_le. apply _. Defined.
Definition tcpListeners (gw : Gateway) : list poolListener :=
  merge_sort port_le
    ((λ l, {| pl_section := l_Name l; pl_port := l_Port l |}) <$>
       filter (λ l, l_Protocol l = TCPProtocolType) (gw_Listeners gw)).

Definition poolPort (pool : list poolListener) (section : string) : option Z :=
  pl_port <$> find_first (λ l, bool_decide (pl_section l = section)) pool.
Definition poolURL (protocol : RouteProtocol) (domain : string) (port : Z) : string :=
  ToLower (protocol_string protocol) +:+ "://" +:+ domain +:+ ":" +:+ itoa port.

(** The section a route holds on the tenant Gateway, or "". *)
Fixpoint allocated_ref (refs : list ParentReference) (routeNamespace gwName gwNamespace : string) : string :=
  match refs with
  | [] => ""
  | ref :: refs =>
      match pref_SectionName ref with
      | Some section =>
          if bool_decide (pref_Name ref ≠ gwName) then allocated_ref refs routeNamespace gwName gwNamespace
          else if bool_decide (default routeNamespace (pref_Namespace ref) = gwNamespace) then section
          else allocated_ref refs routeNamespace gwName gwNamespace
      | None => allocated_ref refs routeNamespace gwName gwNamespace
      end
  end.
Definition allocatedSection (route : TCPRoute) (gwName gwNamespace : string) : string :=
  allocated_ref (tr_ParentRefs route) (m_Namespace (tr_meta route)) gwName gwNamespace.

(** [if a == nil || b == nil { return a == b }; return *a == *b]. *)
Definition equalPortPtr (a b : option Z) : bool :=
  match a, b with
  | Some a, Some b => (a =? b)%Z
  | None, None => true
  | _, _ => false
  end.
Definition routeRulesEqual (rules : list (list BackendRef)) (desired : list BackendRef) : bool :=
  match rules with
  | [backends] =>
      Nat.eqb (length backends) (length desired) &&
      forallb (λ gw : BackendRef * BackendRef,
                 bool_decide (br_Name gw.1 = br_Name gw.2) && equalPortPtr (br_Port gw.1) (br_Port gw.2))
        (zip backends desired)
  | _ => false
  end.

Section provider.
Context `{KubeLib} (cfg : Config).

(** ** parentsProgrammed *)
Fixpoint parentsProgrammed (parents : list RouteParentStatus) (gwName gwNamespace : string) : bool :=
  match parents with
  | [] => false
  | parent :: parents =>
      let ref := rps_ParentRef parent in
      if bool_decide (pref_Name ref ≠ gwName) then parentsProgrammed parents gwName gwNamespace
      else if match pref_Namespace ref with Some ns => bool_decide (ns ≠ gwNamespace) | None => false end
      then parentsProgrammed parents gwName gwNamespace
      else IsStatusConditionTrue (rps_Conditions parent) RouteConditionAccepted &&
           IsStatusConditionTrue (rps_Conditions parent) RouteConditionResolvedRefs
  end.

(** ** ensureMirrorNamespace *)
Definition ensureMirrorNamespace (c : client) (nsName workspaceName : string) (meshLabels : StrMap) : prog (res unit) :=
  let desired := map_assign {[ LabelWorkspace := workspaceName ]} (default ∅ meshLabels) in
  ns ← call (Get KNamespace c (ns_key nsName));
  match ns with
  | Err err =>
      if IsNotFound err then
        x ← call (Create KNamespace c {| ns_meta := new_meta nsName "" (Some desired) |});
        match x with
        | Err err => if IsAlreadyExists err then mret (Ok tt)
                     else mret (Err (wrapf "failed to create mirror namespace" err))
        | Ok _ => mret (Ok tt)
        end
      else mret (Err (wrapf "failed to get mirror namespace" err))
  | Ok ns =>
      if deleting (ns_meta ns) then mret (Err (errorf ("mirror namespace " +:+ quote nsName +:+ " is terminating")))
      else
        let '(labels, changed) := heal_labels (m_Labels (ns_meta ns)) desired in
        if changed : bool then
          x ← call (Update KNamespace c {| ns_meta := set_labels (Some labels) (ns_meta ns) |});
          match x with
          | Err err => mret (Err (wrapf "failed to label mirror namespace" err))
          | Ok _ => mret (Ok tt)
          end
        else mret (Ok tt)
  end.

(** ** ensureMirrorService *)
Definition desired_port (ep : AccessEndpoint) : ServicePort :=
  {| sp_Name := ep_Name ep; sp_Port := ep_Port ep; sp_Protocol := "TCP"; sp_TargetPort := ""; sp_NodePort := 0 |}.
Definition mirror_labels (workspaceName : string) : gmap string string :=
  <[LabelWorkspace := workspaceName]> {[ labelIstioGlobal := labelIstioGlobalValue ]}.
Definition object_key (ns name : string) : ObjectKey := {| k_Namespace := ns; k_Name := name |}.

Definition ensureMirrorService (c : client) (nsName svcName workspaceName : string) (ep : AccessEndpoint)
    : prog (res unit) :=
  let desiredPorts := [desired_port ep] in
  svc ← call (Get KService c (object_key nsName svcName));
  match svc with
  | Err err =>
      if IsNotFound err then
        x ← call (Create KService c {| svc_meta := new_meta svcName nsName (Some (mirror_labels workspaceName));
                                       svc_Ports := desiredPorts; svc_Type := ""; svc_ClusterIP := "";
                                       svc_Ingress := [] |});
        match x with
        | Err err => if IsAlreadyExists err then mret (Ok tt)
                     else mret (Err (wrapf ("failed to create mirror Service " +:+ quote svcName) err))
        | Ok _ => mret (Ok tt)
        end
      else mret (Err (wrapf ("failed to get mirror Service " +:+ quote svcName) err))
  | Ok svc =>
      let '(labels, relabelled) := heal_labels (m_Labels (svc_meta svc)) (mirror_labels workspaceName) in
      let stale := negb (DeepDerivative desiredPorts (svc_Ports svc)) in
      if relabelled || stale then
        x ← call (Update KService c {| svc_meta := set_labels (Some labels) (svc_meta svc);
                                       svc_Ports := if stale then desiredPorts else svc_Ports svc;
                                       svc_Type := svc_Type svc; svc_ClusterIP := svc_ClusterIP svc;
                                       svc_Ingress := svc_Ingress svc |});
        match x with
        | Err err => mret (Err (wrapf ("failed to update mirror Service " +:+ quote svcName) err))
        | Ok _ => mret (Ok tt)
        end
      else mret (Ok tt)
  end.

(** ** markServiceGlobal *)
Definition markServiceGlobal (childClient : client) (nsName svcName : string) : prog (res unit) :=
  svc ← call (Get KService childClient (object_key nsName svcName));
  match svc with
  | Err err => if IsNotFound err then mret (Ok tt)
               else mret (Err (wrapf ("failed to get child Service " +:+ quote svcName) err))
  | Ok svc =>
      if bool_decide (smget (m_Labels (svc_meta svc)) labelIstioGlobal = labelIstioGlobalValue) then mret (Ok tt)
      else
        x ← call (Update KService childClient
          {| svc_meta := set_labels (Some (<[labelIstioGlobal := labelIstioGlobalValue]>
                                             (default ∅ (m_Labels (svc_meta svc))))) (svc_meta svc);
             svc_Ports := svc_Ports svc; svc_Type := svc_Type svc; svc_ClusterIP := svc_ClusterIP svc;
             svc_Ingress := svc_Ingress svc |});
        match x with
        | Err err => mret (Err (wrapf ("failed to label child Service " +:+ quote svcName +:+ " global") err))
        | Ok _ => mret (Ok tt)
        end
  end.

(** ** ensureHTTPRoute *)
Definition desired_http_spec (hostname svcName : string) (ep : AccessEndpoint) : HTTPRouteSpec :=
  {| hs_ParentRefs := [{| pref_Name := GatewayName cfg; pref_Namespace := Some (GatewayNamespace cfg);
                          pref_SectionName := None |}];
     hs_Hostnames := [hostname];
     hs_Rules := [[{| br_Name := svcName; br_Port := Some (ep_Port ep) |}]] |}.

Definition ensureHTTPRoute (c : client) (nsName hostname svcName workspaceName : string) (ep : AccessEndpoint)
    : prog (res bool) :=
  let desiredSpec := desired_http_spec hostname svcName ep in
  let ready route := parentsProgrammed (hr_Parents route) (GatewayName cfg) (GatewayNamespace cfg) in
  route ← call (Get KHTTPRoute c (object_key nsName (ep_Name ep)));
  match route with
  | Err err =>
      if IsNotFound err then
        x ← call (Create KHTTPRoute c
          {| hr_meta := new_meta (ep_Name ep) nsName (Some {[ LabelWorkspace := workspaceName ]});
             hr_Spec := desiredSpec; hr_Parents := [] |});
        match x with
        | Err err => if IsAlreadyExists err then mret (Ok false)
                     else mret (Err (wrapf ("failed to create HTTPRoute " +:+ quote (ep_Name ep)) err))
        | Ok _ => mret (Ok false)
        end
      else mret (Err (wrapf ("failed to get HTTPRoute " +:+ quote (ep_Name ep)) err))
  | Ok route =>
      if negb (DeepEqual (hr_Spec route) desiredSpec) then
        x ← call (Update KHTTPRoute c {| hr_meta := hr_meta route; hr_Spec := desiredSpec;
                                         hr_Parents := hr_Parents route |});
        match x with
        | Err err => mret (Err (wrapf ("failed to update HTTPRoute " +:+ quote (ep_Name ep)) err))
        | Ok route => mret (Ok (ready route))
        end
      else mret (Ok (ready route))
  end.

(** ** ensureTCPRoute *)
Definition desired_backends (svcName : string) (ep : AccessEndpoint) : list BackendRef :=
  [{| br_Name := svcName; br_Port := Some (ep_Port ep) |}].
Definition tcp_entry (ep : AccessEndpoint) (url : string) (ready : bool) (msg : string) : AccessEntry :=
  {| ae_Name := ep_Name ep; ae_Protocol := ep_Protocol ep; ae_URL := url; ae_Ready := ready; ae_Message := msg |}.

(** The sections that attached routes hold. *)
Definition held_sections (items : list TCPRoute) : list string :=
  filter (λ s, s ≠ "") ((λ route, allocatedSection route (GatewayName cfg) (GatewayNamespace cfg)) <$> items).
Definition allocatedSections (c : client) : prog (res (list string)) :=
  routes ← call (ListObjs KTCPRoute c list_all);
  match routes with
  | Err err => mret (Err (wrapf "failed to list TCPRoutes for port allocation" err))
  | Ok items => mret (Ok (held_sections items))
  end.

(** The lowest port whose section nobody holds. *)
Definition choose_listener (pool : list poolListener) (allocated : list string) : option poolListener :=
  find_first (λ l, negb (bool_decide (pl_section l ∈ allocated))) pool.

Definition new_tcp_route (nsName svcName workspaceName : string) (ep : AccessEndpoint) (section : string) : TCPRoute :=
  {| tr_meta := new_meta (ep_Name ep) nsName (Some {[ LabelWorkspace := workspaceName ]});
     tr_ParentRefs := [{| pref_Name := GatewayName cfg; pref_Namespace := Some (GatewayNamespace cfg);
                          pref_SectionName := Some section |}];
     tr_Rules := [desired_backends svcName ep];
     tr_Parents := [] |}.

(** A new endpoint: allocate and create. *)
Definition allocate_port (gwCtx : gatewayContext) (pool : list poolListener)
    (nsName svcName workspaceName : string) (ep : AccessEndpoint) : prog (res AccessEntry) :=
  allocated ←? allocatedSections (gc_regionalClient gwCtx);
  match choose_listener pool allocated with
  | None =>
      mret (Ok (tcp_entry ep "" false
        ("port pool exhausted: all " +:+ itoa (Z.of_nat (length pool)) +:+
         " TCP listeners on the tenant Gateway are in use — ask an administrator to widen the pool")))
  | Some chosen =>
      x ← call (Create KTCPRoute (gc_regionalClient gwCtx)
                  (new_tcp_route nsName svcName workspaceName ep (pl_section chosen)));
      let entry := tcp_entry ep (poolURL (ep_Protocol ep) (gc_domain gwCtx) (pl_port chosen)) false
                     msgAwaitingAcceptance in
      match x with
      | Err err => if IsAlreadyExists err then mret (Ok entry)
                   else mret (Err (wrapf ("failed to create TCPRoute " +:+ quote (ep_Name ep)) err))
      | Ok _ => mret (Ok entry)
      end
  end.

(** An existing route keeps its listener. *)
Definition keep_port (gwCtx : gatewayContext) (pool : list poolListener) (route : TCPRoute)
    (svcName : string) (ep : AccessEndpoint) : prog (res AccessEntry) :=
  let section := allocatedSection route (GatewayName cfg) (GatewayNamespace cfg) in
  if bool_decide (section = "") then
    mret (Ok (tcp_entry ep "" false
      "TCPRoute exists but is not attached to the tenant Gateway — delete and recreate the workspace"))
  else
    match poolPort pool section with
    | None =>
        mret (Ok (tcp_entry ep "" false
          ("allocated listener " +:+ quote section +:+
           " no longer exists on the tenant Gateway — the pool shrank under a live workspace")))
    | Some port =>
        route ←? (if negb (routeRulesEqual (tr_Rules route) (desired_backends svcName ep)) then
                    wrap_err ("failed to update TCPRoute " +:+ quote (ep_Name ep))
                      (call (Update KTCPRoute (gc_regionalClient gwCtx)
                        {| tr_meta := tr_meta route; tr_ParentRefs := tr_ParentRefs route;
                           tr_Rules := [desired_backends svcName ep]; tr_Parents := tr_Parents route |}))
                  else mret (Ok route));
        let ready := parentsProgrammed (tr_Parents route) (GatewayName cfg) (GatewayNamespace cfg) in
        mret (Ok (tcp_entry ep (poolURL (ep_Protocol ep) (gc_domain gwCtx) port) ready
                    (if ready then "" else msgAwaitingAcceptance)))
    end.

Definition ensureTCPRoute (gwCtx : gatewayContext) (nsName svcName workspaceName : string) (ep : AccessEndpoint)
    : prog (res AccessEntry) :=
  let pool := tcpListeners (gc_gateway gwCtx) in
  match pool with
  | [] =>
      mret (Ok (tcp_entry ep "" false
        ("tenant Gateway " +:+ GatewayNamespace cfg +:+ "/" +:+ GatewayName cfg +:+
         " has no TCP listeners (port pool) — ask an administrator to provision one")))
  | _ =>
      route ← call (Get KTCPRoute (gc_regionalClient gwCtx) (object_key nsName (ep_Name ep)));
      match route with
      | Err err =>
          if IsNoMatchError err then
            mret (Ok (tcp_entry ep "" false
              "TCPRoute support (Gateway API experimental channel) is not installed on the regional cluster"))
          else if IsNotFound err then allocate_port gwCtx pool nsName svcName workspaceName ep
          else mret (Err (wrapf ("failed to get TCPRoute " +:+ quote (ep_Name ep)) err))
      | Ok route => keep_port gwCtx pool route svcName ep
      end
  end.

(** ** resolveGatewayContext *)
Definition ensureWaypointReady (c : client) (cdName side : string) : prog (res unit) :=
  if negb (WaypointEnabled (Mesh cfg)) then mret (Ok tt)
  else
    let name := WaypointNameForClusterDeployment cdName in
    let ns := WaypointNamespace (Mesh cfg) in
    gw ← call (Get KGateway c (object_key ns name));
    match gw with
    | Err err =>
        if IsNotFound err || IsNoMatchError err then
          mret (Err (InfraNotReadyError ("per-child waypoint " +:+ ns +:+ "/" +:+ name +:+ " not found on the " +:+ side +:+
            " cluster — provision the per-child waypoint pair (ADR-0005)")))
        else mret (Err (wrapf ("failed to get per-child waypoint " +:+ ns +:+ "/" +:+ name +:+ " on the " +:+ side +:+
            " cluster") err))
    | Ok gw =>
        if negb (IsStatusConditionTrue (gw_Conditions gw) GatewayConditionProgrammed) then
          mret (Err (InfraNotReadyError ("per-child waypoint " +:+ ns +:+ "/" +:+ name +:+ " on the " +:+ side +:+
            " cluster is not programmed yet")))
        else mret (Ok tt)
    end.

(** Only the metadata of the ClusterDeployment is read. *)
Definition getClusterDeployment (wsd : WorkspaceDeployment) : prog (res ClusterDeployment) :=
  call (Get KCD MgmtClient (cd_key wsd)).

Definition get_tenant_gateway (c : client) (regionalName : string) : prog (res Gateway) :=
  let where_ := GatewayNamespace cfg +:+ "/" +:+ GatewayName cfg in
  gw ← call (Get KGateway c (object_key (GatewayNamespace cfg) (GatewayName cfg)));
  match gw with
  | Err err =>
      if IsNotFound err || IsNoMatchError err then
        mret (Err (InfraNotReadyError ("tenant Gateway " +:+ where_ +:+ " not found on regional cluster " +:+
          quote regionalName +:+ " — install the tenant routing stack")))
      else mret (Err (wrapf "failed to get tenant Gateway" err))
  | Ok gw => mret (Ok gw)
  end.

Definition resolveGatewayContext (wsd : WorkspaceDeployment) : prog (res gatewayContext) :=
  let cdRef := w_CDRef wsd in
  let where_ := GatewayNamespace cfg +:+ "/" +:+ GatewayName cfg in
  cd ←? wrap_err ("failed to get ClusterDeployment " +:+ r_Namespace cdRef +:+ "/" +:+ r_Name cdRef)
          (getClusterDeployment wsd);
  let regionalName := smget (m_Labels (cd_meta cd)) LabelKOFRegionalClusterName in
  if bool_decide (regionalName = "") then
    mret (Err (InfraNotReadyError ("cluster " +:+ quote (r_Name cdRef) +:+ " has no regional parent (label " +:+
      LabelKOFRegionalClusterName +:+ " missing) — workspace routing requires a regional cluster")))
  else
    regionalCD ← FindRegionalClusterDeployment MgmtClient (r_Namespace cdRef) regionalName;
    match regionalCD with
    | Err err =>
        mret (Err (InfraNotReadyError ("regional cluster " +:+ quote regionalName +:+ " for cluster " +:+
          quote (r_Name cdRef) +:+ " is not resolvable: " +:+ e_text err)))
    | Ok regionalCD =>
        regionalClient ←? wrap_err "failed to build regional cluster client"
                            (GetClusterClientForCD MgmtClient (r_Namespace cdRef) (m_Name (cd_meta regionalCD)));
        gw ←? get_tenant_gateway regionalClient regionalName;
        if negb (IsStatusConditionTrue (gw_Conditions gw) GatewayConditionProgrammed) then
          mret (Err (InfraNotReadyError ("tenant Gateway " +:+ where_ +:+ " is not programmed yet")))
        else
          let '(domain, scheme) := tenantDomainFromGateway gw in
          if bool_decide (domain = "") then
            mret (Err (InfraNotReadyError ("tenant Gateway " +:+ where_ +:+
              " has no HTTP(S) listener with a wildcard hostname (*.<tenant-domain>)")))
          else
            _ ←? ensureWaypointReady regionalClient (r_Name cdRef) "regional";
            mret (Ok {| gc_regionalClient := regionalClient; gc_domain := domain; gc_scheme := scheme;
                        gc_gateway := gw |})
    end.

(** ** EnsureRoutes *)
Definition too_long (what name : string) : string :=
  what +:+ " " +:+ quote name +:+ " exceeds " +:+ itoa (Z.of_nat maxHostnameLabel) +:+
  " characters; shorten the workspace or endpoint name".

(** An SSH or TCP endpoint. *)
Definition ensure_tcp_endpoint (gwCtx : gatewayContext) (childClient : client) (wsd : WorkspaceDeployment)
    (ep : AccessEndpoint) : prog (res AccessEntry) :=
  let nsName := WorkspaceNamespaceName wsd in
  let svcName := EndpointServiceName wsd ep in
  _ ←? ensureMirrorService (gc_regionalClient gwCtx) nsName svcName (w_Name wsd) ep;
  _ ←? markServiceGlobal childClient nsName svcName;
  ensureTCPRoute gwCtx nsName svcName (w_Name wsd) ep.

(** An HTTP endpoint under its hostname label. *)
Definition ensure_http_endpoint (gwCtx : gatewayContext) (childClient : client) (wsd : WorkspaceDeployment)
    (label : string) (ep : AccessEndpoint) : prog (res AccessEntry) :=
  let nsName := WorkspaceNamespaceName wsd in
  let svcName := EndpointServiceName wsd ep in
  let hostname := label +:+ "." +:+ gc_domain gwCtx in
  _ ←? ensureMirrorService (gc_regionalClient gwCtx) nsName svcName (w_Name wsd) ep;
  _ ←? markServiceGlobal childClient nsName svcName;
  ready ←? ensureHTTPRoute (gc_regionalClient gwCtx) nsName hostname svcName (w_Name wsd) ep;
  mret (Ok (tcp_entry ep (gc_scheme gwCtx +:+ "://" +:+ hostname) ready
              (if ready : bool then "" else msgAwaitingAcceptance))).

(** The label of an HTTP endpoint: the primary one gets the bare workspace name. *)
Definition hostname_label (wsd : WorkspaceDeployment) (primaryAssigned : bool) (ep : AccessEndpoint) : string :=
  if primaryAssigned then w_Name wsd +:+ "-" +:+ ep_Name ep else w_Name wsd.

Definition ensure_endpoint (gwCtx : gatewayContext) (childClient : client) (wsd : WorkspaceDeployment)
    (primaryAssigned : bool) (ep : AccessEndpoint) : prog (res (AccessEntry * bool)) :=
  let svcName := EndpointServiceName wsd ep in
  if Nat.ltb maxHostnameLabel (len svcName) then
    mret (Ok (tcp_entry ep "" false (too_long "conventional Service name" svcName), primaryAssigned))
  else if bool_decide (ep_Protocol ep ≠ HTTP) then
    entry ←? ensure_tcp_endpoint gwCtx childClient wsd ep;
    mret (Ok (entry, primaryAssigned))
  else
    let label := hostname_label wsd primaryAssigned ep in
    if Nat.ltb maxHostnameLabel (len label) then
      mret (Ok (tcp_entry ep "" false (too_long "hostname label" label), true))
    else
      entry ←? ensure_http_endpoint gwCtx childClient wsd label ep;
      mret (Ok (entry, true)).

Fixpoint ensure_endpoints (gwCtx : gatewayContext) (childClient : client) (wsd : WorkspaceDeployment)
    (eps : list AccessEndpoint) (entries : list AccessEntry) (primaryAssigned : bool)
    : prog (res (list AccessEntry)) :=
  match eps with
  | [] => mret (Ok entries)
  | ep :: eps =>
      x ←? ensure_endpoint gwCtx childClient wsd primaryAssigned ep;
      ensure_endpoints gwCtx childClient wsd eps (entries ++ [x.1]) x.2
  end.

Definition Provider_EnsureRoutes (wsd : WorkspaceDeployment) (eps : list AccessEndpoint)
    : prog (res (list AccessEntry)) :=
  gwCtx ←? resolveGatewayContext wsd;
  _ ←? ensureMirrorNamespace (gc_regionalClient gwCtx) (WorkspaceNamespaceName wsd) (w_Name wsd)
         (MirrorNamespaceLabels (Mesh cfg));
  childClient ←? wrap_err "failed to reach child cluster to mark services global"
                   (GetClusterClientForCD MgmtClient (r_Namespace (w_CDRef wsd)) (r_Name (w_CDRef wsd)));
  _ ←? ensureWaypointReady childClient (r_Name (w_CDRef wsd)) "child";
  ensure_endpoints gwCtx childClient wsd eps [] false.

(** ** CleanupRoutes *)
Definition workspace_routes (ns workspaceName : string) : ListOptions :=
  {| lo_InNamespace := Some ns; lo_MatchingLabels := {[ LabelWorkspace := workspaceName ]};
     lo_MatchingFields := ∅; lo_HasLabels := [] |}.
Definition delete_namespace (c : client) (nsName : string) : prog (res unit) :=
  y ← call (Delete KNamespace c {| ns_meta := new_meta nsName "" None |});
  match y with
  | Err err => if negb (IsNotFound err)
               then mret (Err (wrapf "failed to delete mirror namespace on regional cluster" err))
               else mret (Ok tt)
  | Ok _ => mret (Ok tt)
  end.
(** The routes first: they are the allocation table. *)
Definition delete_mirror (c : client) (nsName workspaceName : string) : prog (res unit) :=
  x ← call (DeleteAllOf KTCPRoute c (workspace_routes nsName workspaceName));
  match x with
  | Err err =>
      if negb (IsNotFound err) && negb (IsNoMatchError err)
      then mret (Err (wrapf "failed to delete TCPRoutes on regional cluster" err))
      else delete_namespace c nsName
  | Ok _ => delete_namespace c nsName
  end.

Definition Provider_CleanupRoutes (wsd : WorkspaceDeployment) : prog (res unit) :=
  let cdRef := w_CDRef wsd in
  cd ← getClusterDeployment wsd;
  match cd with
  | Err err => if IsNotFound err then mret (Ok tt) else mret (Err err)
  | Ok cd =>
      let regionalName := smget (m_Labels (cd_meta cd)) LabelKOFRegionalClusterName in
      if bool_decide (regionalName = "") then mret (Ok tt)
      else
        regionalCD ← FindRegionalClusterDeployment MgmtClient (r_Namespace cdRef) regionalName;
        match regionalCD with
        | Err _ => mret (Ok tt)
        | Ok regionalCD =>
            regionalClient ←? wrap_err "failed to reach regional cluster for route cleanup"
                                (GetClusterClientForCD MgmtClient (r_Namespace cdRef) (m_Name (cd_meta regionalCD)));
            delete_mirror regionalClient (WorkspaceNamespaceName wsd) (w_Name wsd)
        end
  end.
End provider.

(** ** sweep.go *)
Definition listRegionalClusterDeployments (c : client) : prog (res (list ClusterDeployment)) :=
  wrap_err "failed to list regional ClusterDeployments"
    (call (ListObjs KCD c {| lo_InNamespace := None; lo_MatchingLabels := {[ LabelKOFClusterRole := "regional" ]};
                             lo_MatchingFields := ∅; lo_HasLabels := [] |})).

(** One namespace of one regional cluster. *)
Definition sweep_namespace (IsActiveWorkspace : string → bool) (c : client) (ns : Namespace) : prog unit :=
  let workspaceName := smget (m_Labels (ns_meta ns)) LabelWorkspace in
  if deleting (ns_meta ns) then mret tt
  else if bool_decide (workspaceName = "") || IsActiveWorkspace workspaceName then mret tt
  else
    x ← call (DeleteAllOf KTCPRoute c (list_in (m_Name (ns_meta ns))));
    match x with
    | Err err =>
        if negb (IsNotFound err) && negb (IsNoMatchError err) then mret tt
        else _ ← call (Delete KNamespace c ns); mret tt
    | Ok _ => _ ← call (Delete KNamespace c ns); mret tt
    end.

Definition sweep_region (IsActiveWorkspace : string → bool) (regionalCD : ClusterDeployment) : prog unit :=
  regionalClient ← GetClusterClientForCD MgmtClient (m_Namespace (cd_meta regionalCD)) (m_Name (cd_meta regionalCD));
  match regionalClient with
  | Err _ => mret tt
  | Ok c =>
      namespaces ← call (ListObjs KNamespace c {| lo_InNamespace := None; lo_MatchingLabels := ∅;
                                                  lo_MatchingFields := ∅; lo_HasLabels := [LabelWorkspace] |});
      match namespaces with
      | Err _ => mret tt
      | Ok items => foldM (λ _ ns, sweep_namespace IsActiveWorkspace c ns) tt items
      end
  end.

Definition Provider_SweepOrphans (IsActiveWorkspace : string → bool) : prog (res unit) :=
  regionals ←? listRegionalClusterDeployments MgmtClient;
  _ ← foldM (λ _ cd, sweep_region IsActiveWorkspace cd) tt regionals;
  mret (Ok tt).

(** ** The provider behind the controller's interfaces *)
Definition gateway_provider `{KubeLib} (cfg : Config) : RouteProvider :=
  {| EnsureRoutes := Provider_EnsureRoutes cfg; CleanupRoutes wsd _ := Provider_CleanupRoutes wsd |}.
#[export] Instance gateway_sweeper : OrphanSweeper := {| SweepOrphans := Provider_SweepOrphans |}.

(** ** Frame *)
Ltac prove_provider :=
  prove_always; try (split; [split; [reflexivity|intros; discriminate]|intros; discriminate]).

Section frame.
Context `{KubeLib} (cfg : Config).

Lemma client_pe c ns cd : always provider_event (GetClusterClientForCD c ns cd).
Proof. unfold GetClusterClientForCD. prove_provider. Qed.
Lemma regional_pe c ns n : always provider_event (FindRegionalClusterDeployment c ns n).
Proof. unfold FindRegionalClusterDeployment. prove_provider. Qed.
Lemma mirror_namespace_pe c ns w m : always provider_event (ensureMirrorNamespace c ns w m).
Proof. unfold ensureMirrorNamespace. cbv zeta. prove_provider. Qed.
Lemma mirror_service_pe c ns n w ep : always provider_event (ensureMirrorService c ns n w ep).
Proof. unfold ensureMirrorService. cbv zeta. prove_provider. Qed.
Lemma mark_global_pe c ns n : always provider_event (markServiceGlobal c ns n).
Proof. unfold markServiceGlobal. prove_provider. Qed.
Lemma http_route_pe c ns h n w ep : always provider_event (ensureHTTPRoute cfg c ns h n w ep).
Proof. unfold ensureHTTPRoute. cbv zeta. prove_provider. Qed.
Lemma tcp_route_pe g ns n w ep : always provider_event (ensureTCPRoute cfg g ns n w ep).
Proof. unfold ensureTCPRoute, allocate_port, keep_port, allocatedSections. cbv zeta. prove_provider. Qed.
Lemma waypoint_pe c cd side : always provider_event (ensureWaypointReady cfg c cd side).
Proof. unfold ensureWaypointReady. cbv zeta. prove_provider. Qed.
#[local] Hint Resolve client_pe regional_pe mirror_namespace_pe mirror_service_pe mark_global_pe
  http_route_pe tcp_route_pe waypoint_pe : prog.
Lemma gateway_context_pe w : always provider_event (resolveGatewayContext cfg w).
Proof. unfold resolveGatewayContext, getClusterDeployment, get_tenant_gateway. cbv zeta. prove_provider. Qed.
Lemma endpoint_pe g c w b ep : always provider_event (ensure_endpoint cfg g c w b ep).
Proof. unfold ensure_endpoint, ensure_tcp_endpoint, ensure_http_endpoint. cbv zeta. prove_provider. Qed.
#[local] Hint Resolve gateway_context_pe endpoint_pe : prog.
Lemma endpoints_pe g c w eps l b : always provider_event (ensure_endpoints cfg g c w eps l b).
Proof. revert l b. induction eps as [|ep eps IH]; intros l b; cbn [ensure_endpoints]; prove_provider. Qed.
#[local] Hint Resolve endpoints_pe : prog.
Lemma ensure_routes_pe w eps : always provider_event (Provider_EnsureRoutes cfg w eps).
Proof. unfold Provider_EnsureRoutes. prove_provider. Qed.
Lemma cleanup_routes_pe w : always provider_event (Provider_CleanupRoutes w).
Proof.
  unfold Provider_CleanupRoutes, getClusterDeployment, delete_mirror, delete_namespace. cbv zeta. prove_provider.
Qed.
#[export] Instance gateway_provider_laws : RouteProviderLaws (gateway_provider cfg).
Proof. split; intros; [apply ensure_routes_pe|apply cleanup_routes_pe]. Qed.
End frame.

(** C14: The Gateway API provider keeps what the workspace controller relies on: no
    execution of EnsureRoutes or CleanupRoutes touches a workspace or a ServiceSet,
    so every theorem about the controller holds with it. *)
Theorem gateway_respects_interface `{KubeLib} cfg : RouteProviderLaws (gateway_provider cfg).
Proof. apply gateway_provider_laws. Qed.

(** ** A regional cluster for concrete runs: it has one orphaned mirror namespace *)
Definition orphan_ns : Namespace := {| ns_meta := new_meta "ws-old" "" (Some {[ LabelWorkspace := "old" ]}) |}.
Definition regional_cd : ClusterDeployment := example_cd "regional" "ns".
Definition regional_server (gw : Gateway) (routes : list TCPRoute) (R : Type) (rq : req R) (u : unit) : R * unit :=
  (match rq in req R return R with
   | Get k _ _ =>
       match k return res (obj k) with
       | KSecret => Ok {| sec_meta := new_meta "k" "ns" None; sec_Data := {[ "value" := "kubeconfig" ]} |}
       | KCD => Ok (example_cd_with (Some {[ LabelKOFRegionalClusterName := "regional" ]}) "cd" "ns")
       | KGateway => Ok gw
       | _ => Err not_found
       end
   | ListObjs k _ _ =>
       match k return res (list (obj k)) with
       | KWSD => Ok [example_wsd "ns" "w" "cd"]
       | KCD => Ok [regional_cd]
       | KNamespace => Ok [orphan_ns]
       | KTCPRoute => Ok routes
       | _ => Ok []
       end
   | rq => echo rq
   end, u).
Definition empty_gateway : Gateway := {| gw_meta := new_meta "gw" "istio-system" None; gw_Listeners := []; gw_Conditions := [] |}.

(** A tenant with an HTTPS listener and a pool of two ports; one workspace with a web
    and an SSH endpoint. *)
Definition example_lib : KubeLib :=
  {| IsStatusConditionTrue conds typ :=
       match find_first (λ c, bool_decide (c_Type c = typ)) conds with
       | Some c => bool_decide (c_Status c = CondTrue)
       | None => false
       end;
     DeepDerivative want got := forallb (λ p, bool_decide (p.1 = p.2)) (zip want got) && Nat.leb (length want) (length got);
     DeepEqual a b := bool_decide (a = b) |}.
Lemma example_laws : @KubeLaws example_lib.
Proof.
  split.
  - intros a b Hd. by apply bool_decide_eq_true in Hd.
  - intros d ds [|g gs] Hd; [done|].
    apply andb_prop in Hd as [Hd _]. simpl in Hd. apply andb_prop in Hd as [Hd _].
    apply bool_decide_eq_true in Hd as ->. exists g, gs. split; [done|]. repeat split; by right.
Qed.
Definition condition_true (typ : string) : Condition :=
  {| c_Type := typ; c_Status := CondTrue; c_Reason := ""; c_Message := ""; c_ObservedGeneration := 0;
     c_LastTransitionTime := 0 |}.
Definition tenant_gateway : Gateway :=
  {| gw_meta := new_meta DefaultGatewayName DefaultGatewayNamespace None;
     gw_Listeners := [{| l_Name := "https"; l_Hostname := Some "*.lab.ls"; l_Port := 443; l_Protocol := HTTPSProtocolType |};
                      {| l_Name := "tcp-2"; l_Hostname := None; l_Port := 2202; l_Protocol := TCPProtocolType |};
                      {| l_Name := "tcp-1"; l_Hostname := None; l_Port := 2201; l_Protocol := TCPProtocolType |}];
     gw_Conditions := [condition_true GatewayConditionProgrammed] |}.
Definition example_config : Config :=
  New {| GatewayName := ""; GatewayNamespace := "";
         Mesh := {| Mode := MeshModeAmbient; WaypointEnabled := true; WaypointNamespace := "istio-system" |} |}.
Definition web : AccessEndpoint := {| ep_Name := "web"; ep_Protocol := HTTP; ep_Port := 80; ep_ServiceName := "" |}.
Definition ssh : AccessEndpoint := {| ep_Name := "ssh"; ep_Protocol := SSH; ep_Port := 22; ep_ServiceName := "" |}.
