(* ===== verification/Sweep.v ===== *)
(** * The orphan sweep spares live workspaces

    [routes_sweeper.go] over [gatewayapi/sweep.go]. *)

From S2P Require Import Prelude GoString Api Naming Prog Cluster ServiceSets Failure Routes Gateway.

(** ** The sweep *)

(** A namespace the sweep may remove: marked with a workspace that is not active,
    and not already going away. *)
Definition orphaned (active : string → bool) (ns : Namespace) : Prop :=
  deleting (ns_meta ns) = false ∧
  let name := smget (m_Labels (ns_meta ns)) LabelWorkspace in name ≠ "" ∧ active name = false.
Definition removes (c : client) (ns : Namespace) (e : event) : Prop :=
  (∃ x, e = Ev (DeleteAllOf KTCPRoute c (list_in (m_Name (ns_meta ns)))) x) ∨
  (∃ x, e = Ev (Delete KNamespace c ns) x).
Definition seen (c : client) (ns : Namespace) (t : list event) : Prop :=
  ∃ o l, Ev (ListObjs KNamespace c o) (Ok l) ∈ t ∧ ns ∈ l.
(** Every change in [t] removes an orphaned namespace that was listed. *)
Definition sweeps (active : string → bool) (t : list event) : Prop :=
  ∀ e, e ∈ t → ev_mutates e = true → ∃ c ns, seen c ns t ∧ orphaned active ns ∧ removes c ns e.

Lemma seen_app_l c ns t1 t2 : seen c ns t1 → seen c ns (t1 ++ t2).
Proof. intros (o & l & H & Hl). exists o, l. split; [in_trace|done]. Qed.
Lemma seen_app_r c ns t1 t2 : seen c ns t2 → seen c ns (t1 ++ t2).
Proof. intros (o & l & H & Hl). exists o, l. split; [in_trace|done]. Qed.
Lemma sweeps_app a t1 t2 : sweeps a t1 → sweeps a t2 → sweeps a (t1 ++ t2).
Proof.
  intros H1 H2 e [He|He]%elem_of_app Hm.
  - destruct (H1 e He Hm) as (c & ns & Hs & H). exists c, ns. split; [by apply seen_app_l|done].
  - destruct (H2 e He Hm) as (c & ns & Hs & H). exists c, ns. split; [by apply seen_app_r|done].
Qed.
Lemma read_only_mutates e : read_only e → ev_mutates e = false.
Proof. destruct e as [R [] x]; done. Qed.
Lemma sweeps_reads a t : Forall read_only t → sweeps a t.
Proof.
  intros H e He Hm. rewrite Forall_forall in H. apply H, read_only_mutates in He. congruence.
Qed.

(** One namespace: it is orphaned, or nothing happens. *)
Lemma sweep_namespace_spec a c ns :
  posts (sweep_namespace a c ns) (λ t _, t = [] ∨ orphaned a ns ∧ Forall (removes c ns) t).
Proof.
  unfold sweep_namespace, posts. intros t [] Hx.
  apply exec_if in Hx as [[_ [-> _]]|[Hd Hx]]; [by left|].
  apply exec_if in Hx as [[_ [-> _]]|[Ho Hx]]; [by left|]. right.
  apply orb_false_iff in Ho as [Hn Ha]. apply bool_decide_eq_false in Hn. split; [done|].
  assert (Hdel : ∀ t', exec (_ ← call (Delete KNamespace c ns); mret tt) t' tt → Forall (removes c ns) t').
  { intros t' Hy. exec_inv. apply Forall_singleton. right. by eexists. }
  apply exec_bind in Hx as (t1 & t2 & x & -> & ->%exec_call & Hx). apply Forall_cons. split; [left; by eexists|].
  destruct x as [|err]; [by apply Hdel|].
  apply exec_if in Hx as [[_ [-> _]]|[_ Hx]]; [constructor|by apply Hdel].
Qed.

Lemma sweep_region_spec a cd : posts (sweep_region a cd) (λ t _, sweeps a t).
Proof.
  unfold sweep_region. eapply posts_bind.
  { intros t c Hx. exact (sweeps_reads a t (exec_always _ _ _ _ Hx (cluster_client_reads _ _ _))). }
  intros t1 [c|err] H1; [|apply posts_ret; by rewrite app_nil_r].
  apply posts_call. intros [items|err];
    [|apply posts_ret; apply sweeps_app; [done|]; apply sweeps_reads; by repeat constructor].
  eapply posts_conseq.
  { apply (posts_foldM _ (λ t _, ∀ e, e ∈ t → ∃ ns, ns ∈ items ∧ orphaned a ns ∧ removes c ns e)); [set_solver|].
    intros t [] ns Hns Ht t2 [] Hx e [He|He]%elem_of_app; [by apply Ht|].
    destruct (sweep_namespace_spec a c ns t2 tt Hx) as [->|[Ho Hr]]; [by apply not_elem_of_nil in He|].
    rewrite Forall_forall in Hr. exists ns. split; [done|]. split; [done|]. by apply Hr. }
  intros t [] Ht. apply sweeps_app; [done|]. intros e [->|He]%elem_of_cons Hm; [done|].
  destruct (Ht e He) as (ns & Hns & Ho & Hr). exists c, ns. split; [|done]. eexists _, items. split; [in_trace|done].
Qed.

(** C21: The orphan sweep never removes live routes: everything one sweep deletes, on
    any regional cluster, belongs to a mirror namespace it has listed there, that is
    not terminating and names a workspace, and no workspace of that name is in the
    listing the sweep started from; when that listing fails nothing is deleted. *)
Theorem sweep_spares_active tr u e :
  exec sweepOnce tr u → e ∈ tr → ev_mutates e = true →
  ∃ items c ns, Ev (ListObjs KWSD MgmtClient list_all) (Ok items) ∈ tr ∧ seen c ns tr ∧ removes c ns e ∧
    deleting (ns_meta ns) = false ∧
    let name := smget (m_Labels (ns_meta ns)) LabelWorkspace in
    name ≠ "" ∧ ∀ w, w ∈ items → w_Name w ≠ name.
Proof.
  unfold sweepOnce. intros Hx He Hm. apply exec_bind in Hx as (t1 & t2 & x & -> & ->%exec_call & Hx).
  destruct x as [items|err]; [|exec_inv; set_solver].
  apply exec_bind in Hx as (t3 & t4 & y & -> & Hx & [-> _]). rewrite app_nil_r in *.
  assert (Hs : sweeps (active_workspaces items) t3).
  { revert Hx. generalize t3, y. change (posts (Provider_SweepOrphans (active_workspaces items))
      (λ t _, sweeps (active_workspaces items) t)).
    unfold Provider_SweepOrphans, try_bind. eapply posts_bind.
    { intros t z Hz. assert (Hr : always read_only (listRegionalClusterDeployments MgmtClient)).
      { unfold listRegionalClusterDeployments. prove_always. }
      exact (sweeps_reads (active_workspaces items) _ (exec_always _ _ _ _ Hz Hr)). }
    intros t [cds|err] Ht; [|apply posts_ret; by rewrite app_nil_r].
    eapply posts_bind.
    { apply (posts_foldM _ (λ t' _, sweeps (active_workspaces items) t')); [by intros ? ?%not_elem_of_nil|].
      intros t' [] cd _ Ht'. eapply posts_conseq; [apply sweep_region_spec|]. intros. by apply sweeps_app. }
    intros t' [] Ht'. apply posts_ret. rewrite app_nil_r. by apply sweeps_app. }
  apply elem_of_cons in He as [->|He]; [done|].
  destruct (Hs e He Hm) as (c & ns & Hn & (Hd & Hne & Ha) & Hr). exists items, c, ns.
  split; [in_trace|]. split; [by apply (seen_app_r _ _ [_])|]. split; [done|]. split; [done|]. split; [done|].
  intros w Hw Heq. unfold active_workspaces in Ha. assert (existsb (λ w, bool_decide (w_Name w =
    smget (m_Labels (ns_meta ns)) LabelWorkspace)) items = true); [|congruence].
  apply existsb_exists. exists w. split; [by apply list_elem_of_In|by apply bool_decide_eq_true].
Qed.

(** The sweeper does nothing but such sweeps, for as long as it runs. *)
Lemma ticks_are_sweeps n tr u e :
  exec (sweep_ticks n) tr u → e ∈ tr → ∃ pre t post, tr = pre ++ t ++ post ∧ exec sweepOnce t tt ∧ e ∈ t.
Proof.
  revert tr. induction n as [|n IH]; intros tr Hx He; cbn [sweep_ticks] in Hx.
  { destruct Hx as [-> _]. by apply not_elem_of_nil in He. }
  apply exec_bind in Hx as (t1 & t2 & [] & -> & H1 & H2). apply elem_of_app in He as [He|He]; [by exists [], t1, t2|].
  destruct (IH t2 H2 He) as (pre & t & post & -> & ? & ?). exists (t1 ++ pre), t, post. by rewrite <- app_assoc.
Qed.
Lemma start_is_sweeps n tr u e :
  exec (Start n) tr u → e ∈ tr → ∃ pre t post, tr = pre ++ t ++ post ∧ exec sweepOnce t tt ∧ e ∈ t.
Proof. apply (ticks_are_sweeps (S n)). Qed.

Definition sweep_run : list event * unit * unit := run (regional_server empty_gateway []) sweepOnce tt.

Lemma sweep_spares_active_witness :
  ∃ (items : list WorkspaceDeployment) ns, (∀ w, w ∈ items → w_Name w ≠ smget (m_Labels (ns_meta ns)) LabelWorkspace).
Proof.
  assert (He : existsb ev_mutates sweep_run.1.1 = true) by (vm_compute; reflexivity).
  apply existsb_exists in He as (e & Hin & Hm). apply list_elem_of_In in Hin.
  destruct (sweep_spares_active sweep_run.1.1 sweep_run.1.2 e (run_exec _ _ _) Hin Hm)
    as (items & c & ns & _ & _ & _ & _ & _ & Hw).
  exists items, ns. exact Hw.
Defined.
