(* ===== verification/Access.v ===== *)
(** * What EnsureRoutes publishes and CleanupRoutes leaves

    The meaning of an access entry, of a finished cleanup, and two collisions. *)

From S2P Require Import Prelude GoString Api Naming Prog Cluster ServiceSets Failure Routes Gateway.

(** ** What a published entry means *)
Section entries.
Context `{KubeLib, !KubeLaws} (cfg : Config).

Definition programmed (parents : list RouteParentStatus) : Prop :=
  parentsProgrammed parents (GatewayName cfg) (GatewayNamespace cfg) = true.

(** The server has the HTTPRoute of [ep] with the wanted spec, and reports it programmed. *)
Definition http_attached (c : client) (nsName hostname svcName : string) (ep : AccessEndpoint) (t : list event) : Prop :=
  ∃ route, programmed (hr_Parents route) ∧
    (Ev (Get KHTTPRoute c (object_key nsName (ep_Name ep))) (Ok route) ∈ t ∧
       hr_Spec route = desired_http_spec cfg hostname svcName ep ∨
     ∃ x, Ev (Update KHTTPRoute c x) (Ok route) ∈ t ∧ hr_Spec x = desired_http_spec cfg hostname svcName ep).

(** The endpoint's TCPRoute holds a listener of the pool, and is programmed. *)
Definition tcp_attached (g : gatewayContext) (nsName : string) (ep : AccessEndpoint) (url : string) (t : list event) : Prop :=
  ∃ route port,
    Ev (Get KTCPRoute (gc_regionalClient g) (object_key nsName (ep_Name ep))) (Ok route) ∈ t ∧
    poolPort (tcpListeners (gc_gateway g)) (allocatedSection route (GatewayName cfg) (GatewayNamespace cfg)) = Some port ∧
    url = poolURL (ep_Protocol ep) (gc_domain g) port ∧
    (programmed (tr_Parents route) ∨
     ∃ x route', Ev (Update KTCPRoute (gc_regionalClient g) x) (Ok route') ∈ t ∧
       tr_ParentRefs x = tr_ParentRefs route ∧ programmed (tr_Parents route')).

(** An entry is its endpoint's, and says Ready only of an attached route. *)
Definition entry_for (g : gatewayContext) (w : WorkspaceDeployment) (t : list event)
    (ep : AccessEndpoint) (en : AccessEntry) : Prop :=
  ae_Name en = ep_Name ep ∧ ae_Protocol en = ep_Protocol ep ∧
  (ae_Ready en = true →
    if bool_decide (ep_Protocol ep = HTTP) then
      ∃ label, (len label ≤ maxHostnameLabel)%nat ∧ (label = w_Name w ∨ label = w_Name w +:+ "-" +:+ ep_Name ep) ∧
        ae_URL en = gc_scheme g +:+ "://" +:+ label +:+ "." +:+ gc_domain g ∧
        http_attached (gc_regionalClient g) (WorkspaceNamespaceName w) (label +:+ "." +:+ gc_domain g)
          (EndpointServiceName w ep) ep t
    else tcp_attached g (WorkspaceNamespaceName w) ep (ae_URL en) t).

Lemma http_route_ready c ns host svc wn ep t :
  exec (ensureHTTPRoute cfg c ns host svc wn ep) t (Ok true) → http_attached c ns host svc ep t.
Proof.
  unfold ensureHTTPRoute. cbv zeta. intros Hx. apply exec_bind in Hx as (t1 & t2 & x & -> & ->%exec_call & Hx).
  destruct x as [route|err].
  - apply exec_if in Hx as [[_ Hx]|[He Hx]].
    + apply exec_bind in Hx as (t3 & t4 & y & -> & ->%exec_call & Hx). destruct y as [route'|]; exec_inv; [|done].
      simplify_eq. exists route'. split; [done|]. right. eexists. split; [in_trace|done].
    + exec_inv. simplify_eq. exists route. split; [done|]. left. split; [in_trace|].
      apply deep_equal_eq. by apply negb_false_iff.
  - destruct (IsNotFound err); exec_inv; [|done]. destruct x as [|err']; [by exec_inv|].
    destruct (IsAlreadyExists err'); by exec_inv.
Qed.

Lemma tcp_route_entry g w ep t en :
  ep_Protocol ep ≠ HTTP →
  exec (ensureTCPRoute cfg g (WorkspaceNamespaceName w) (EndpointServiceName w ep) (w_Name w) ep) t (Ok en) →
  entry_for g w t ep en.
Proof.
  intros Hp Hx. unfold entry_for. rewrite bool_decide_false by done. revert Hx.
  unfold ensureTCPRoute. cbv zeta. destruct (tcpListeners (gc_gateway g)) as [|l ls] eqn:El; intros Hx.
  { exec_inv. by simplify_eq. }
  rewrite <- El in *. clear El. apply exec_bind in Hx as (t1 & t2 & x & -> & ->%exec_call & Hx).
  destruct x as [route|err].
  - unfold keep_port in Hx. cbv zeta in Hx. apply exec_if in Hx as [[_ Hx]|[Hs Hx]]; [exec_inv; by simplify_eq|].
    destruct (poolPort _ _) as [port|] eqn:Epp; [|exec_inv; by simplify_eq].
    apply exec_try_ok in Hx as (t3 & t4 & route' & -> & Hr & Hx). destruct Hx as [-> [= ->]]. cbn.
    split; [done|]. split; [done|]. intros Hready. exists route, port.
    split; [in_trace|]. split; [done|]. split; [done|].
    apply exec_if in Hr as [[_ Hr]|[_ Hr]].
    + apply exec_wrap_ok, exec_call in Hr as ->. right. eexists _, route'. split; [in_trace|]. by split.
    + destruct Hr as [-> [= ->]]. by left.
  - apply exec_if in Hx as [[_ Hx]|[_ Hx]]; [exec_inv; by simplify_eq|].
    apply exec_if in Hx as [[_ Hx]|[_ Hx]]; [|exec_inv; by simplify_eq].
    unfold allocate_port in Hx. apply exec_try_ok in Hx as (t3 & t4 & al & -> & _ & Hx).
    destruct (choose_listener _ al); [|exec_inv; by simplify_eq].
    apply exec_bind in Hx as (t5 & t6 & y & -> & _ & Hx). destruct y as [|err']; [exec_inv; by simplify_eq|].
    apply exec_if in Hx as [[_ Hx]|[_ Hx]]; exec_inv; by simplify_eq.
Qed.

Lemma http_attached_mono c ns h s ep t1 t2 :
  (∀ e, e ∈ t1 → e ∈ t2) → http_attached c ns h s ep t1 → http_attached c ns h s ep t2.
Proof. intros Hi (r & Hr & [[H1 H2]|(x & H1 & H2)]); exists r; (split; [done|]); [left|right; exists x]; auto. Qed.
Lemma tcp_attached_mono g ns ep u t1 t2 :
  (∀ e, e ∈ t1 → e ∈ t2) → tcp_attached g ns ep u t1 → tcp_attached g ns ep u t2.
Proof.
  intros Hi (r & p & H1 & H2 & H3 & [H4|(x & r' & H4 & H5)]); exists r, p; (split; [by apply Hi|]); (split; [done|]);
    (split; [done|]); [by left|right; exists x, r'; auto].
Qed.
Lemma entry_for_mono g w t1 t2 ep en :
  (∀ e, e ∈ t1 → e ∈ t2) → entry_for g w t1 ep en → entry_for g w t2 ep en.
Proof.
  intros Hi (H1 & H2 & H3). split; [done|]. split; [done|]. intros Hr. specialize (H3 Hr).
  destruct (bool_decide _); [|by eapply tcp_attached_mono].
  destruct H3 as (l & Hl & Hlw & Hu & Ha). exists l. split; [done|]. split; [done|]. split; [done|].
  by eapply http_attached_mono.
Qed.

Lemma endpoint_entry g c w b ep t x :
  exec (ensure_endpoint cfg g c w b ep) t (Ok x) → entry_for g w t ep x.1.
Proof.
  unfold ensure_endpoint. cbv zeta. intros Hx. apply exec_if in Hx as [[_ Hx]|[_ Hx]]; [exec_inv; by simplify_eq|].
  apply exec_if in Hx as [[Hp Hx]|[Hp Hx]].
  - apply bool_decide_eq_true in Hp. apply exec_try_ok in Hx as (t1 & t2 & en & -> & Hx & [-> [= ->]]). cbn.
    unfold ensure_tcp_endpoint in Hx. cbv zeta in Hx.
    apply exec_try_ok in Hx as (t3 & t4 & [] & -> & _ & Hx).
    apply exec_try_ok in Hx as (t5 & t6 & [] & -> & _ & Hx).
    eapply entry_for_mono; [|by apply tcp_route_entry]. intros e He. rewrite !elem_of_app. tauto.
  - apply bool_decide_eq_false, dec_stable in Hp. apply exec_if in Hx as [[_ Hx]|[Hl Hx]]; [exec_inv; by simplify_eq|].
    apply exec_try_ok in Hx as (t1 & t2 & en & -> & Hx & [-> [= ->]]). cbn.
    unfold ensure_http_endpoint in Hx. cbv zeta in Hx.
    apply exec_try_ok in Hx as (t3 & t4 & [] & -> & _ & Hx).
    apply exec_try_ok in Hx as (t5 & t6 & [] & -> & _ & Hx).
    apply exec_try_ok in Hx as (t7 & t8 & ready & -> & Hr & [-> [= ->]]). unfold entry_for. cbn.
    split; [done|]. split; [done|]. intros ->. rewrite bool_decide_true by done.
    exists (hostname_label w b ep). apply Nat.ltb_ge in Hl. split; [done|]. split; [destruct b; [by right|by left]|].
    split; [done|]. apply http_route_ready in Hr. eapply http_attached_mono; [|exact Hr].
    intros e He. rewrite !elem_of_app. tauto.
Qed.

Lemma endpoints_entries g c w eps es b t l :
  exec (ensure_endpoints cfg g c w eps es b) t (Ok l) → ∃ es', l = es ++ es' ∧ Forall2 (entry_for g w t) eps es'.
Proof.
  revert es b t. induction eps as [|ep eps IH]; intros es b t Hx; cbn [ensure_endpoints] in Hx.
  { destruct Hx as [-> [= ->]]. exists []. rewrite app_nil_r. by split. }
  apply exec_try_ok in Hx as (t1 & t2 & x & -> & H1 & Hx). apply IH in Hx as (es' & -> & Hf).
  exists (x.1 :: es'). split; [by rewrite <- app_assoc|]. constructor.
  - eapply entry_for_mono; [|by eapply endpoint_entry]. intros e He. rewrite elem_of_app. tauto.
  - eapply Forall2_impl; [exact Hf|]. intros ? ?. apply entry_for_mono. intros e He. rewrite elem_of_app. tauto.
Qed.

(** An EnsureRoutes that succeeds went through its endpoints, in its context. *)
Lemma ensure_routes_stages w eps tr entries :
  exec (Provider_EnsureRoutes cfg w eps) tr (Ok entries) →
  ∃ t1 t2 t3 g, tr = t1 ++ t2 ++ t3 ∧ exec (resolveGatewayContext cfg w) t1 (Ok g) ∧
    Forall2 (entry_for g w t3) eps entries.
Proof.
  unfold Provider_EnsureRoutes. intros Hx. apply exec_try_ok in Hx as (t1 & t2 & g & -> & H1 & Hx).
  apply exec_try_ok in Hx as (t3 & t4 & [] & -> & _ & Hx).
  apply exec_try_ok in Hx as (t5 & t6 & c & -> & _ & Hx).
  apply exec_try_ok in Hx as (t7 & t8 & [] & -> & _ & Hx).
  apply endpoints_entries in Hx as (es & -> & Hf). exists t1, (t3 ++ t5 ++ t7), t8, g.
  split; [by rewrite <- !app_assoc|]. by split.
Qed.
#[export] Instance gateway_provider_entries : RouteProviderEntries (gateway_provider cfg).
Proof.
  intros w eps tr l (t1 & t2 & t3 & g & _ & _ & Hf)%ensure_routes_stages.
  induction Hf as [|ep en eps' l' He Hf IH]; [done|]. rewrite !fmap_cons. f_equal; [apply He|exact IH].
Qed.

Lemma tenant_gateway_exec c n t gw :
  exec (get_tenant_gateway cfg c n) t (Ok gw) →
  t = [Ev (Get KGateway c (object_key (GatewayNamespace cfg) (GatewayName cfg))) (Ok gw)].
Proof.
  unfold get_tenant_gateway. cbv zeta. intros Hx. exec_step Hx as [g|err]; [by exec_inv; simplify_eq|].
  destruct (IsNotFound err || IsNoMatchError err); by exec_inv.
Qed.

(** The context a provider call works in: the gateway as the server reports it. *)
Definition tenant_gateway_seen (g : gatewayContext) (t : list event) : Prop :=
  Ev (Get KGateway (gc_regionalClient g) (object_key (GatewayNamespace cfg) (GatewayName cfg))) (Ok (gc_gateway g)) ∈ t ∧
  IsStatusConditionTrue (gw_Conditions (gc_gateway g)) GatewayConditionProgrammed = true ∧
  tenantDomainFromGateway (gc_gateway g) = (gc_domain g, gc_scheme g) ∧ gc_domain g ≠ "".

Lemma gateway_context_seen w t g : exec (resolveGatewayContext cfg w) t (Ok g) → tenant_gateway_seen g t.
Proof.
  unfold resolveGatewayContext. cbv zeta. intros Hx.
  apply exec_try_ok in Hx as (t1 & t2 & cd & -> & _ & Hx). apply exec_if in Hx as [[_ Hx]|[_ Hx]]; [by exec_inv|].
  apply exec_bind in Hx as (t3 & t4 & rcd & -> & _ & Hx). destruct rcd as [rcd|]; [|by exec_inv].
  apply exec_try_ok in Hx as (t5 & t6 & c & -> & _ & Hx).
  apply exec_try_ok in Hx as (t7 & t8 & gw & -> & Hg & Hx). apply tenant_gateway_exec in Hg as ->.
  apply exec_if in Hx as [[_ Hx]|[Hp Hx]]; [by exec_inv|].
  destruct (tenantDomainFromGateway gw) as [domain scheme] eqn:Ed.
  apply exec_if in Hx as [[_ Hx]|[Hd Hx]]; [by exec_inv|].
  apply exec_try_ok in Hx as (t9 & t10 & [] & -> & _ & [-> [= ->]]). unfold tenant_gateway_seen. cbn.
  split; [in_trace|]. split; [by apply negb_false_iff|]. split; [done|]. by apply bool_decide_eq_false in Hd.
Qed.

(** C11: What EnsureRoutes publishes is true: one entry per endpoint, in order; and an
    entry is Ready only when the tenant Gateway was read and programmed, and the
    endpoint's route is attached to it as wanted and reported programmed.  An HTTP
    entry's URL is a single label of at most 63 bytes under the Gateway's own
    wildcard domain; an SSH or TCP entry's URL has the port of the pool listener
    its route holds. *)
Theorem ready_means_routed w eps tr entries :
  exec (EnsureRoutes (RouteProvider := gateway_provider cfg) w eps) tr (Ok entries) →
  ∃ g, tenant_gateway_seen g tr ∧ Forall2 (entry_for g w tr) eps entries.
Proof.
  change (exec (Provider_EnsureRoutes cfg w eps) tr (Ok entries) → ∃ g, tenant_gateway_seen g tr ∧
    Forall2 (entry_for g w tr) eps entries).
  intros (t1 & t2 & t3 & g & -> & Hg & Hf)%ensure_routes_stages. exists g. split.
  - apply gateway_context_seen in Hg as (Hg & ?). split; [in_trace|done].
  - eapply Forall2_impl; [exact Hf|]. intros ? ?. apply entry_for_mono. intros e He. rewrite !elem_of_app. tauto.
Qed.
End entries.

(** ** Cleanup *)

(** The answers after which an object is gone. *)
Definition gone_answer {A} (x : res A) : Prop :=
  match x with Ok _ => True | Err err => IsNotFound err = true end.

(** The listing of a regional parent by the name its children are labelled with. *)
Definition parent_listing (w : WorkspaceDeployment) (name : string) : req (res (list ClusterDeployment)) :=
  ListObjs KCD MgmtClient
    {| lo_InNamespace := Some (r_Namespace (w_CDRef w));
       lo_MatchingLabels := {[ "k0rdent.mirantis.com/kof-cluster-name" := name ]};
       lo_MatchingFields := ∅; lo_HasLabels := [] |}.

Lemma regional_listed w name t x :
  exec (FindRegionalClusterDeployment MgmtClient (r_Namespace (w_CDRef w)) name) t x →
  ∃ y, t = [Ev (parent_listing w name) y] ∧
    match x with Ok cd => ∃ rest, y = Ok (cd :: rest) | Err _ => y = Ok [] ∨ ∃ err, y = Err err end.
Proof.
  unfold FindRegionalClusterDeployment. intros Hx. apply exec_bind in Hx as (t1 & t2 & y & -> & ->%exec_call & Hx).
  exists y. destruct y as [[|cd rest]|err]; destruct Hx as [-> ->]; (split; [done|]); eauto.
Qed.

(** The two deletions of a cleanup, and the answers after which the objects are gone. *)
Definition routes_deletion (c : client) (w : WorkspaceDeployment) : req (res unit) :=
  DeleteAllOf KTCPRoute c
    {| lo_InNamespace := Some ("ws-" +:+ w_Name w);
       lo_MatchingLabels := {[ "workspaces.exalsius.ai/workspace" := w_Name w ]};
       lo_MatchingFields := ∅; lo_HasLabels := [] |}.
Definition mirror_deletion (c : client) (w : WorkspaceDeployment) : req (res unit) :=
  Delete KNamespace c {| ns_meta := new_meta ("ws-" +:+ w_Name w) "" None |}.
Definition routes_gone (x : res unit) : Prop :=
  match x with Ok _ => True | Err err => IsNotFound err = true ∨ IsNoMatchError err = true end.

Lemma mirror_deleted c w t :
  exec (delete_mirror c (WorkspaceNamespaceName w) (w_Name w)) t (Ok tt) →
  ∃ x y, t = [Ev (routes_deletion c w) x; Ev (mirror_deletion c w) y] ∧ routes_gone x ∧ gone_answer y.
Proof.
  assert (Hn : ∀ t, exec (delete_namespace c (WorkspaceNamespaceName w)) t (Ok tt) →
            ∃ y, t = [Ev (mirror_deletion c w) y] ∧ gone_answer y).
  { intros t' Hy. unfold delete_namespace in Hy. exec_step Hy as [z|err]; [exec_inv; by eexists|].
    apply exec_if in Hy as [[_ Hy]|[Hy0 Hy]]; [by exec_inv|]. exec_inv. eexists. split; [done|].
    by apply negb_false_iff in Hy0. }
  unfold delete_mirror. intros Hx. apply exec_bind in Hx as (t1 & t2 & x & -> & ->%exec_call & Hx).
  exists x. destruct x as [z|err].
  - apply Hn in Hx as (y & -> & Hy). by exists y.
  - apply exec_if in Hx as [[_ Hx]|[Hd Hx]]; [by exec_inv|]. apply Hn in Hx as (y & -> & Hy). exists y.
    split; [done|]. split; [|done]. apply andb_false_iff in Hd as [Hd|Hd]; apply negb_false_iff in Hd; cbn; auto.
Qed.

(** C38: The run of a cleanup that reports success, in full.  It asks for the workspace's
    cluster first.  It stops there when the cluster is not found, or when it carries
    no label naming a regional parent; it stops after one listing of the parent when
    that listing fails or is empty.  Otherwise it reaches the first cluster listed by
    reads, and on it first the workspace's TCPRoutes (the port allocations), then its
    mirror namespace, have been deleted or were not there; nothing else is changed. *)
Theorem cleanup_removes_routes `{KubeLib} cfg w eps tr :
  exec (CleanupRoutes (RouteProvider := gateway_provider cfg) w eps) tr (Ok tt) →
  (∃ err, tr = [Ev (Get KCD MgmtClient (cd_key w)) (Err err)] ∧ IsNotFound err = true) ∨
  ∃ cd rest, tr = Ev (Get KCD MgmtClient (cd_key w)) (Ok cd) :: rest ∧
    let parent := smget (m_Labels (cd_meta cd)) "k0rdent.mirantis.com/kof-regional-cluster-name" in
    (parent = "" ∧ rest = []) ∨
    (parent ≠ "" ∧ ∃ x, rest = [Ev (parent_listing w parent) x] ∧ (x = Ok [] ∨ ∃ err, x = Err err)) ∨
    (parent ≠ "" ∧ ∃ rcd others t c x y,
       rest = Ev (parent_listing w parent) (Ok (rcd :: others)) :: t ++
                [Ev (routes_deletion c w) x; Ev (mirror_deletion c w) y] ∧
       exec (GetClusterClientForCD MgmtClient (r_Namespace (w_CDRef w)) (m_Name (cd_meta rcd))) t (Ok c) ∧
       Forall read_only t ∧ routes_gone x ∧ gone_answer y).
Proof.
  change (CleanupRoutes w eps) with (Provider_CleanupRoutes w).
  unfold Provider_CleanupRoutes, getClusterDeployment. cbv zeta. intros Hx.
  apply exec_bind in Hx as (t1 & t2 & cd & -> & ->%exec_call & Hx). destruct cd as [cd|err].
  2: { apply exec_if in Hx as [[Hn Hx]|[_ Hx]]; [|by exec_inv]. destruct Hx as [-> _]. left. by exists err. }
  right. exists cd, t2. split; [done|].
  apply exec_if in Hx as [[Hl [-> _]]|[Hl Hx]]; [left; by apply bool_decide_eq_true in Hl|].
  apply bool_decide_eq_false in Hl. right.
  apply exec_bind in Hx as (t3 & t4 & rcd & -> & Hr & Hx). apply regional_listed in Hr as (y & -> & Hy).
  destruct rcd as [rcd|err]; [|destruct Hx as [-> _]; left; split; [done|]; by exists y].
  destruct Hy as [others ->]. apply exec_try_ok in Hx as (t5 & t6 & c & -> & Hc%exec_wrap_ok & Hx). right.
  split; [done|]. apply mirror_deleted in Hx as (x & y & -> & ? & ?). exists rcd, others, t5, c, x, y.
  split; [done|]. split; [done|]. split; [|done]. exact (exec_always _ _ _ _ Hc (cluster_client_reads _ _ _)).
Qed.

Lemma cleanup_removes_routes_witness :
  ∃ pre c x y, (run (regional_server empty_gateway []) (Provider_CleanupRoutes (example_wsd "ns" "w" "cd")) tt).1.1 =
    pre ++ [Ev (routes_deletion c (example_wsd "ns" "w" "cd")) x; Ev (mirror_deletion c (example_wsd "ns" "w" "cd")) y] ∧
    routes_gone x ∧ gone_answer y.
Proof.
  set (tr := (run (regional_server empty_gateway []) (Provider_CleanupRoutes (example_wsd "ns" "w" "cd")) tt).1.1).
  assert (Hl : (3 <= length tr)%nat) by (vm_compute; lia).
  destruct (@cleanup_removes_routes example_lib example_config (example_wsd "ns" "w" "cd") [] _
              (run_exec (regional_server empty_gateway []) (Provider_CleanupRoutes (example_wsd "ns" "w" "cd")) tt))
    as [(err & Ht & _)|(cd & rest & Ht & [[_ ->]|[(_ & x & -> & _)|(_ & rcd & others & t & c & x & y & -> & _ & _ & Hx & Hy)]])];
    try (exfalso; apply (f_equal length) in Ht; fold tr in Ht; cbn [length] in Ht; lia).
  exists (Ev (Get KCD MgmtClient (cd_key (example_wsd "ns" "w" "cd"))) (Ok cd) ::
          Ev (parent_listing (example_wsd "ns" "w" "cd")
                (smget (m_Labels (cd_meta cd)) "k0rdent.mirantis.com/kof-regional-cluster-name")) (Ok (rcd :: others)) :: t), c, x, y.
  split; [exact Ht|]. by split.
Defined.

(** ** Two collisions *)

(** Hostnames do not identify a workspace.  The bare hostname of a workspace named
    "<w>-<endpoint>" is the hostname of that further endpoint of workspace "<w>": both
    HTTPRoutes ask the same Gateway for the same hostname. *)
Theorem hostnames_not_unique cfg w1 w2 ep1 ep2 domain svc1 svc2 :
  w_Name w2 = w_Name w1 +:+ "-" +:+ ep_Name ep1 →
  let host1 := hostname_label w1 true ep1 +:+ "." +:+ domain in
  let host2 := hostname_label w2 false ep2 +:+ "." +:+ domain in
  hs_Hostnames (desired_http_spec cfg host1 svc1 ep1) = hs_Hostnames (desired_http_spec cfg host2 svc2 ep2) ∧
  hs_ParentRefs (desired_http_spec cfg host1 svc1 ep1) = hs_ParentRefs (desired_http_spec cfg host2 svc2 ep2).
Proof. intros Hw host1 host2. unfold host1, host2, hostname_label. by rewrite Hw. Qed.

(** The Service a response delivers. *)
Definition got_service (e : event) : option Service :=
  match e with
  | Ev rq x =>
      match rq in req R return R → option Service with
      | Get KService _ _ => λ x, match x with Ok s => Some s | Err _ => None end
      | _ => λ _, None
      end x
  end.

(** Two endpoints that name the same Service (the serviceName override) undo each
    other's mirror: the run for one endpoint finds the other's port and replaces it,
    so the mirror Service carries the port of the endpoint reconciled last only. *)
Theorem shared_mirror_keeps_last_port `{KubeLib, !KubeLaws} c ns svc w ep1 ep2 tr s :
  exec (ensureMirrorService c ns svc w ep2) tr (Ok tt) →
  Ev (Get KService c (object_key ns svc)) (Ok s) ∈ tr → svc_Ports s = [desired_port ep1] →
  ep_Port ep2 ≠ 0%Z → ep_Port ep1 ≠ ep_Port ep2 →
  ∃ x r, Ev (Update KService c x) (Ok r) ∈ tr ∧ svc_Ports x = [desired_port ep2].
Proof.
  unfold ensureMirrorService. cbv zeta. intros Hx Hin Hs Hp Hne.
  apply exec_bind in Hx as (t1 & t2 & y & -> & ->%exec_call & Hx).
  assert (Hd : DeepDerivative [desired_port ep2] [desired_port ep1] = false).
  { destruct (DeepDerivative _ _) eqn:E; [|done].
    apply deep_derivative_cons in E as (g & gs & [= <- <-] & _ & [Hq|Hq] & _); simpl in Hq; congruence. }
  destruct y as [s'|err].
  - destruct (heal_labels _ _) as [labels relabelled].
    assert (s' = s ∨ Ev (Get KService c (object_key ns svc)) (Ok s) ∈ t2) as [->|Ht].
    { apply elem_of_app in Hin as [Hin|Hin]; [left|by right]. apply list_elem_of_singleton in Hin.
      assert (Hg := f_equal got_service Hin). by injection Hg. }
    + rewrite Hs, Hd in Hx. cbn [negb] in Hx. rewrite orb_true_r in Hx.
      apply exec_bind in Hx as (t3 & t4 & z & -> & ->%exec_call & Hx). destruct z as [r|]; [|by exec_inv].
      eexists _, r. split; [in_trace|done].
    + exfalso. apply exec_if in Hx as [[_ Hx]|[_ [-> _]]]; [|by apply not_elem_of_nil in Ht].
      apply exec_bind in Hx as (t3 & t4 & z & -> & ->%exec_call & Hx).
      assert (t4 = []) as -> by (destruct z; by exec_inv). rewrite app_nil_r in Ht.
      apply list_elem_of_singleton in Ht. by apply (f_equal ev_target) in Ht.
  - exfalso. apply exec_if in Hx as [[_ Hx]|[_ Hx]]; [|by exec_inv].
    apply exec_bind in Hx as (t3 & t4 & z & -> & ->%exec_call & Hx).
    assert (t4 = []) as -> by (destruct z as [|e]; [by exec_inv|]; destruct (IsAlreadyExists e); by exec_inv).
    apply elem_of_app in Hin as [Hin|Hin].
    + apply list_elem_of_singleton in Hin. assert (Hg := f_equal got_service Hin). discriminate.
    + rewrite app_nil_r in Hin. apply list_elem_of_singleton in Hin. by apply (f_equal ev_target) in Hin.
Qed.

#[local] Existing Instances example_lib example_laws.
Definition routes_run : list event * res (list AccessEntry) * unit :=
  run (regional_server tenant_gateway []) (Provider_EnsureRoutes example_config (example_wsd "ns" "w" "cd") [web; ssh]) tt.

Example fresh_routes :
  routes_run.1.2 = Ok [tcp_entry web "https://w.lab.ls" false msgAwaitingAcceptance;
                       tcp_entry ssh "ssh://lab.ls:2201" false msgAwaitingAcceptance].
Proof. vm_compute. reflexivity. Qed.

Lemma ready_means_routed_witness : ∃ g, gc_domain g ≠ "" ∧ tenant_gateway_seen example_config g routes_run.1.1.
Proof.
  destruct (ready_means_routed example_config (example_wsd "ns" "w" "cd") [web; ssh] routes_run.1.1
              [tcp_entry web "https://w.lab.ls" false msgAwaitingAcceptance;
               tcp_entry ssh "ssh://lab.ls:2201" false msgAwaitingAcceptance]) as (g & Hg & _).
  - assert (He : routes_run.1.2 = Ok [tcp_entry web "https://w.lab.ls" false msgAwaitingAcceptance;
                       tcp_entry ssh "ssh://lab.ls:2201" false msgAwaitingAcceptance]) by (vm_compute; reflexivity).
    rewrite <- He. apply (run_exec (regional_server tenant_gateway [])
      (Provider_EnsureRoutes example_config (example_wsd "ns" "w" "cd") [web; ssh]) tt).
  - exists g. split; [exact (proj2 (proj2 (proj2 Hg)))|exact Hg].
Defined.

Lemma hostnames_not_unique_witness :
  hostname_label (example_wsd "ns" "lab" "cd") true web = hostname_label (example_wsd "ns" "lab-web" "cd") false web.
Proof.
  destruct (hostnames_not_unique example_config (example_wsd "ns" "lab" "cd") (example_wsd "ns" "lab-web" "cd")
              web web "ls" "a" "b") as [Hh _]; [reflexivity|reflexivity].
Defined.

Lemma shared_mirror_keeps_last_port_witness :
  let s := {| svc_meta := new_meta "proxy" "ws-w" (Some (mirror_labels "w")); svc_Ports := [desired_port web];
             svc_Type := ""; svc_ClusterIP := ""; svc_Ingress := [] |} in
  let x := {| svc_meta := set_labels (Some (heal_labels (m_Labels (svc_meta s)) (mirror_labels "w")).1) (svc_meta s);
              svc_Ports := [desired_port ssh]; svc_Type := ""; svc_ClusterIP := ""; svc_Ingress := [] |} in
  ∃ y, svc_Ports y = [desired_port ssh].
Proof.
  intros s x.
  destruct (shared_mirror_keeps_last_port MgmtClient "ws-w" "proxy" "w" web ssh
              [Ev (Get KService MgmtClient (object_key "ws-w" "proxy")) (Ok s); Ev (Update KService MgmtClient x) (Ok x)] s)
    as (y & r & _ & Hy).
  - unfold ensureMirrorService. cbv zeta. apply exec_bind. eexists [_], [_], (Ok s). split; [reflexivity|].
    split; [by apply exec_call|]. cbv beta iota.
    rewrite (surjective_pairing (heal_labels _ _)). cbv iota beta.
    assert (Hd : negb (DeepDerivative [desired_port ssh] (svc_Ports s)) = true) by reflexivity.
    rewrite Hd, orb_true_r.
    exists (Ok x), []. split; [reflexivity|]. split; reflexivity.
  - apply list_elem_of_here.
  - reflexivity.
  - discriminate.
  - discriminate.
  - exists y. exact Hy.
Defined.
