(* ===== verification/PortPool.v ===== *)
(** * The port pool as an allocator

    [gatewayapi/portpool.go] keeps no table of its own: the TCPRoutes on the
    regional cluster are the table.  Here is the allocator they implement, the
    step-by-step refinement, and the invariant that no port is handed out twice. *)

From S2P Require Import Prelude GoString Api Naming Prog Cluster ServiceSets Failure Routes Gateway.

(** ** The allocator *)

(** Which endpoint (by the namespace and name of its route) holds which listener. *)
Abbreviation table := (gmap (string * string) string).
Definition holds (m : table) (section : string) : Prop := ∃ k, m !! k = Some section.

(** The free listener of lowest port. *)
Definition lowest_free (pool : list poolListener) (m : table) (section : string) : Prop :=
  ∃ l, l ∈ pool ∧ pl_section l = section ∧ ¬ holds m section ∧
    ∀ l', l' ∈ pool → (pl_port l' < pl_port l)%Z → holds m (pl_section l').

(** An endpoint asks: it keeps what it has, gets the lowest free listener, or nothing. *)
Inductive grant (pool : list poolListener) (k : string * string) (m : table) : table → Prop :=
  | grant_keep : grant pool k m m
  | grant_new section :
      m !! k = None → lowest_free pool m section → grant pool k m (<[k := section]> m).
(** Any number of endpoints give theirs back. *)
Definition release (m m' : table) : Prop := m' ⊆ m.

(** No listener has two holders. *)
Definition exclusive (m : table) : Prop :=
  ∀ k1 k2 s, m !! k1 = Some s → m !! k2 = Some s → k1 = k2.

Lemma exclusive_empty : exclusive ∅.
Proof. intros k1 k2 s H. by rewrite lookup_empty in H. Qed.
Lemma grant_exclusive pool k m m' : grant pool k m m' → exclusive m → exclusive m'.
Proof.
  intros [|s Hk (l & _ & _ & Hs & _)] Hm; [done|]. intros k1 k2 s' H1 H2.
  apply lookup_insert_Some in H1 as [[<- <-]|[Hn1 H1]]; apply lookup_insert_Some in H2 as [[<- E]|[Hn2 H2]]; try done.
  - destruct Hs. by exists k2.
  - destruct Hs. subst. by exists k1.
  - by eapply Hm.
Qed.
Lemma release_exclusive m m' : release m m' → exclusive m → exclusive m'.
Proof. intros Hr Hm k1 k2 s H1 H2. eapply Hm; by eapply lookup_weaken. Qed.

(** ** The routes as a table *)
Section pool.
Context `{KubeLib} (cfg : Config) {W : Type} (h : ∀ R, req R → W → R * W).

Definition route_key (r : TCPRoute) : string * string := (m_Namespace (tr_meta r), m_Name (tr_meta r)).
Definition section_of (r : TCPRoute) : string := allocatedSection r (GatewayName cfg) (GatewayNamespace cfg).
Definition held (r : TCPRoute) : option string := if bool_decide (section_of r = "") then None else Some (section_of r).
Definition abs (routes : gmap (string * string) TCPRoute) : table := omap held routes.

(** The regional cluster behind client [c], as far as its TCPRoutes go: objects are
    stored under their names, reads report what is stored, and a write either
    fails without effect or stores the object; a create never replaces one. *)
Class RouteStore (c : client) (routes : W → gmap (string * string) TCPRoute) := {
  stored_key w k r : routes w !! k = Some r → route_key r = k;
  store_get w key :
    let '(x, w') := h _ (Get KTCPRoute c key) w in
    routes w' = routes w ∧
    match x with
    | Ok r => routes w !! (k_Namespace key, k_Name key) = Some r
    | Err e => IsNotFound e = true → routes w !! (k_Namespace key, k_Name key) = None
    end;
  store_list w :
    let '(x, w') := h _ (ListObjs KTCPRoute c list_all) w in
    routes w' = routes w ∧ match x with Ok l => ∀ r, r ∈ l ↔ ∃ k, routes w !! k = Some r | Err _ => True end;
  store_create w r :
    let w' := (h _ (Create KTCPRoute c r) w).2 in
    routes w' = routes w ∨ routes w !! route_key r = None ∧ routes w' = <[route_key r := r]> (routes w);
  store_update w r :
    let w' := (h _ (Update KTCPRoute c r) w).2 in
    routes w' = routes w ∨ is_Some (routes w !! route_key r) ∧ routes w' = <[route_key r := r]> (routes w)
}.

Lemma held_new ns svc wn ep s : held (new_tcp_route cfg ns svc wn ep s) = if bool_decide (s = "") then None else Some s.
Proof.
  assert (Hs : section_of (new_tcp_route cfg ns svc wn ep s) = s).
  { unfold section_of, allocatedSection. simpl. rewrite bool_decide_false by (intros Hn; by apply Hn).
    by rewrite bool_decide_true. }
  unfold held. by rewrite Hs.
Qed.
Lemma held_refs r r' :
  tr_ParentRefs r' = tr_ParentRefs r → m_Namespace (tr_meta r') = m_Namespace (tr_meta r) → held r' = held r.
Proof. intros E1 E2. unfold held, section_of, allocatedSection. by rewrite E1, E2. Qed.

Lemma abs_lookup m k : abs m !! k = m !! k ≫= held.
Proof. apply lookup_omap. Qed.
Lemma holds_abs m s : holds (abs m) s ↔ s ≠ "" ∧ ∃ k r, m !! k = Some r ∧ section_of r = s.
Proof.
  unfold holds. setoid_rewrite abs_lookup. split.
  - intros [k Hk]. destruct (m !! k) as [r|] eqn:E; [|done]. simpl in Hk. unfold held in Hk.
    case_bool_decide; [done|]. injection Hk as <-. split; [done|]. by exists k, r.
  - intros [Hs (k & r & Hk & <-)]. exists k. rewrite Hk. simpl. unfold held. by rewrite bool_decide_false.
Qed.

(** What the list request reports is what the table holds. *)
Lemma held_sections_abs routes l s :
  (∀ r, r ∈ l ↔ ∃ k, routes !! k = Some r) → s ∈ held_sections cfg l ↔ holds (abs routes) s.
Proof.
  intros Hl. unfold held_sections. rewrite list_elem_of_filter, list_elem_of_fmap, holds_abs. split.
  - intros [Hs (r & -> & Hr)]. apply Hl in Hr as [k Hk]. split; [done|]. by exists k, r.
  - intros [Hs (k & r & Hk & <-)]. split; [done|]. exists r. split; [done|]. apply Hl. by exists k.
Qed.

Lemma tcpListeners_sorted gw : Sorted port_le (tcpListeners gw).
Proof. apply Sorted_merge_sort. intros a b. unfold port_le. lia. Qed.

(** In a sorted pool the first unallocated listener is the lowest free one. *)
Lemma choose_lowest (pool : list poolListener) (allocated : list string) (l : poolListener) (m : table) :
  Sorted port_le pool → (∀ s, s ∈ allocated ↔ holds m s) →
  choose_listener pool allocated = Some l → lowest_free pool m (pl_section l).
Proof.
  unfold choose_listener. intros Hs Ha Hf. exists l.
  assert (Hg : l ∈ pool ∧ pl_section l ∉ allocated ∧
            ∀ l', l' ∈ pool → (pl_port l' < pl_port l)%Z → pl_section l' ∈ allocated).
  { apply Sorted_StronglySorted in Hs; [|intros a b d; unfold port_le; lia].
    induction Hs as [|x pool Hs IH Hx]; [done|]. simpl in Hf.
    destruct (bool_decide (pl_section x ∈ allocated)) eqn:E; simpl in Hf.
    - apply bool_decide_eq_true in E. destruct (IH Hf) as (H1 & H2 & H3).
      split; [by apply list_elem_of_further|]. split; [done|]. intros l' [->|Hl']%elem_of_cons Hp; [done|by apply H3].
    - injection Hf as ->. apply bool_decide_eq_false in E. split; [apply list_elem_of_here|]. split; [done|].
      intros l' [->|Hl']%elem_of_cons Hp; [lia|]. rewrite Forall_forall in Hx. apply Hx in Hl'. unfold port_le in Hl'.
      lia. }
  destruct Hg as (H1 & H2 & H3). split; [done|]. split; [done|]. split; [by rewrite <- Ha|].
  intros l' Hl' Hp. rewrite <- Ha. by apply H3.
Qed.

(** ** The refinement *)
Context (c : client) (routes : W → gmap (string * string) TCPRoute) (Hst : RouteStore c routes).

Lemma abs_update m k r r' :
  m !! k = Some r → tr_ParentRefs r' = tr_ParentRefs r → m_Namespace (tr_meta r') = m_Namespace (tr_meta r) →
  abs (<[k := r']> m) = abs m.
Proof.
  intros Hk H1 H2. apply map_eq. intros k'. rewrite !abs_lookup. destruct (decide (k' = k)) as [->|Hn].
  - rewrite lookup_insert_eq, Hk. simpl. by apply held_refs.
  - by rewrite lookup_insert_ne.
Qed.
Lemma abs_insert_new m k ns svc wn ep s :
  m !! k = None → abs (<[k := new_tcp_route cfg ns svc wn ep s]> m) = if bool_decide (s = "") then abs m else <[k := s]> (abs m).
Proof.
  intros Hk. apply map_eq. intros k'. rewrite abs_lookup. destruct (decide (k' = k)) as [->|Hn].
  - rewrite lookup_insert_eq. cbn [mbind option_bind]. rewrite held_new.
    case_bool_decide; [by rewrite abs_lookup, Hk|by rewrite lookup_insert_eq].
  - rewrite lookup_insert_ne by done. rewrite <- abs_lookup. case_bool_decide; [done|by rewrite lookup_insert_ne].
Qed.

Lemma allocated_run w :
  routes (final h (allocatedSections cfg c) w) = routes w ∧
  match (run h (allocatedSections cfg c) w).1.2 with
  | Ok l => ∀ s, s ∈ l ↔ holds (abs (routes w)) s
  | Err _ => True
  end.
Proof.
  unfold allocatedSections. rewrite final_call, run_call. pose proof (store_list (routes := routes) w) as Hl.
  destruct (h _ (ListObjs KTCPRoute c list_all) w) as [x w1]. destruct Hl as [Hw Hl]. cbn [fst snd].
  destruct x as [l|err]; (split; [exact Hw|]); [|done]. intros s. by apply held_sections_abs.
Qed.

Lemma allocate_refines g pool ns svc wn ep w :
  gc_regionalClient g = c → Sorted port_le pool → routes w !! (ns, ep_Name ep) = None →
  grant pool (ns, ep_Name ep) (abs (routes w)) (abs (routes (final h (allocate_port cfg g pool ns svc wn ep) w))).
Proof.
  intros Hc Hp Hk. unfold allocate_port. rewrite Hc, final_try. destruct (allocated_run w) as [Hw Hl].
  destruct ((run h (allocatedSections cfg c) w).1.2) as [l|err]; [|rewrite Hw; constructor].
  destruct (choose_listener pool l) as [chosen|] eqn:Ech; [|rewrite final_ret, Hw; constructor].
  rewrite final_call. set (r := new_tcp_route cfg ns svc wn ep (pl_section chosen)). cbv zeta.
  set (w1 := final h _ w) in *.
  match goal with |- context [final h (match ?x with Ok _ => _ | Err _ => _ end) ?w2] =>
    assert (Hf : final h (match x with
      | Ok _ => mret (Ok (tcp_entry ep (poolURL (ep_Protocol ep) (gc_domain g) (pl_port chosen)) false msgAwaitingAcceptance))
      | Err err => if IsAlreadyExists err
          then mret (Ok (tcp_entry ep (poolURL (ep_Protocol ep) (gc_domain g) (pl_port chosen)) false msgAwaitingAcceptance))
          else mret (Err (wrapf ("failed to create TCPRoute " +:+ quote (ep_Name ep)) err)) end) w2 = w2)
      by (destruct x as [|e]; [done|by destruct (IsAlreadyExists e)])
  end.
  rewrite Hf. clear Hf. destruct (store_create (routes := routes) w1 r) as [->|[_ ->]]; [rewrite Hw; constructor|].
  rewrite Hw. change (route_key r) with (ns, ep_Name ep). unfold r. rewrite abs_insert_new by done.
  case_bool_decide as Hs; [constructor|]. constructor; [by rewrite abs_lookup, Hk|].
  by eapply choose_lowest.
Qed.

Lemma keep_refines g pool k r svc ep w :
  gc_regionalClient g = c → routes w !! k = Some r →
  abs (routes (final h (keep_port cfg g pool r svc ep) w)) = abs (routes w).
Proof.
  intros Hc Hk. unfold keep_port. cbv zeta. case_bool_decide; [done|]. destruct (poolPort _ _); [|done].
  rewrite final_try. match goal with |- abs (routes (match ?x with Ok a => _ | Err _ => ?w' end)) = _ =>
    assert (Hf : (match x with Ok a => w' | Err _ => w' end) = w') by (by destruct x);
    transitivity (abs (routes w')); [by destruct x|clear Hf] end.
  destruct (negb _); [|done]. unfold wrap_err. rewrite final_call, final_ret, Hc.
  destruct (store_update (routes := routes) w {| tr_meta := tr_meta r; tr_ParentRefs := tr_ParentRefs r;
    tr_Rules := [desired_backends svc ep]; tr_Parents := tr_Parents r |}) as [->|[_ ->]]; [done|].
  assert (route_key r = k) as <- by by eapply stored_key. by eapply abs_update.
Qed.

Lemma ensure_tcp_grant g ns svc wn ep w :
  gc_regionalClient g = c →
  grant (tcpListeners (gc_gateway g)) (ns, ep_Name ep)
    (abs (routes w)) (abs (routes (final h (ensureTCPRoute cfg g ns svc wn ep) w))).
Proof.
  intros Hc. unfold ensureTCPRoute. cbv zeta. destruct (tcpListeners (gc_gateway g)) as [|l ls] eqn:El; [constructor|].
  assert (Hs : Sorted port_le (l :: ls)) by (rewrite <- El; apply tcpListeners_sorted). clear El.
  rewrite Hc, final_call. pose proof (store_get (routes := routes) w (object_key ns (ep_Name ep))) as Hg.
  destruct (h _ (Get KTCPRoute c (object_key ns (ep_Name ep))) w) as [x w1]. destruct Hg as [Hw Hg].
  cbn [fst snd k_Namespace k_Name object_key] in Hg |- *. destruct x as [r|err].
  - rewrite (keep_refines g _ (ns, ep_Name ep)) by (done || by rewrite Hw). rewrite Hw. constructor.
  - destruct (IsNoMatchError err); [rewrite final_ret, Hw; constructor|].
    destruct (IsNotFound err) eqn:E; [|rewrite final_ret, Hw; constructor].
    rewrite <- Hw. apply allocate_refines; [done|done|]. rewrite Hw. by apply Hg.
Qed.

(** C9: ensureTCPRoute implements the allocator.  Run on any regional cluster that
    stores its routes, for any endpoint: an endpoint whose route exists keeps the
    listener it holds, whatever happens; a new endpoint gets the free listener of
    lowest port, or nothing; and nobody else's listener changes, whichever of the
    requests fail. *)
Theorem ensure_tcp_refines_pool g ns svc wn ep w :
  gc_regionalClient g = c →
  grant (tcpListeners (gc_gateway g)) (ns, ep_Name ep)
    (abs (routes w)) (abs (routes (final h (ensureTCPRoute cfg g ns svc wn ep) w))).
Proof. apply ensure_tcp_grant. Qed.

(** ** Reachable allocations *)

(** What happens to the routes over time: an endpoint is ensured, or routes go away
    (cleanup, namespace deletion, sweep); runs of ensureTCPRoute do not overlap, as
    the controller has a single worker. *)
Inductive pool_step (w w' : W) : Prop :=
  | step_ensure g ns svc wn ep :
      gc_regionalClient g = c → w' = final h (ensureTCPRoute cfg g ns svc wn ep) w → pool_step w w'
  | step_release : routes w' ⊆ routes w → pool_step w w'.

Lemma abs_subseteq m m' : m' ⊆ m → abs m' ⊆ abs m.
Proof.
  intros Hm. apply map_subseteq_spec. intros k s. rewrite !abs_lookup.
  destruct (m' !! k) as [r|] eqn:E; [|done]. by rewrite (lookup_weaken _ _ _ _ E Hm).
Qed.
Lemma pool_step_exclusive w w' : pool_step w w' → exclusive (abs (routes w)) → exclusive (abs (routes w')).
Proof.
  intros [g ns svc wn ep Hc ->|Hr] He; [|eapply release_exclusive; [|exact He]; by apply abs_subseteq].
  eapply grant_exclusive; [by apply ensure_tcp_grant|exact He].
Qed.

(** C19: No port of the pool is handed out twice.  Starting from a regional cluster
    without TCPRoutes, after any sequence of ensureTCPRoute runs (of any endpoints,
    with any requests failing) and deletions of routes, two routes that hold the
    same listener of the tenant Gateway are the same route. *)
Theorem ports_never_shared w0 w k1 k2 r1 r2 :
  routes w0 = ∅ → rtc pool_step w0 w →
  routes w !! k1 = Some r1 → routes w !! k2 = Some r2 →
  section_of r1 = section_of r2 → section_of r1 ≠ "" → k1 = k2.
Proof.
  intros H0 Hr H1 H2 Heq Hne.
  assert (He : exclusive (abs (routes w))).
  { assert (H3 : exclusive (abs (routes w0))) by (rewrite H0; apply exclusive_empty).
    clear - Hr H3 Hst. induction Hr as [|w1 w2 w3 Hs _ IH]; [done|]. by apply IH, (pool_step_exclusive _ _ Hs). }
  apply (He k1 k2 (section_of r1)); rewrite abs_lookup; [rewrite H1|rewrite H2]; simpl; unfold held;
    rewrite bool_decide_false; congruence.
Qed.
End pool.

(** ** A concrete regional cluster *)
Definition well_keyed (kr : (string * string) * TCPRoute) : Prop := route_key kr.2 = kr.1.
Definition stored (w : gmap (string * string) TCPRoute) : gmap (string * string) TCPRoute := filter well_keyed w.
Definition put_route (r : TCPRoute) (w : gmap (string * string) TCPRoute) := <[route_key r := r]> w.

Definition pool_server (R : Type) (rq : req R) (w : gmap (string * string) TCPRoute)
    : R * gmap (string * string) TCPRoute :=
  match rq in req R return R * gmap (string * string) TCPRoute with
  | Get k c key =>
      (match k return res (obj k) with
       | KTCPRoute => match stored w !! (k_Namespace key, k_Name key) with Some r => Ok r | None => Err not_found end
       | _ => Err not_found
       end, w)
  | ListObjs k c o =>
      (match k return res (list (obj k)) with KTCPRoute => Ok ((map_to_list (stored w)).*2) | _ => Ok [] end, w)
  | Create k c x =>
      match k return obj k → res (obj k) * gmap (string * string) TCPRoute with
      | KTCPRoute => λ r, match stored w !! route_key r with
                          | Some _ => (Err {| e_code := EAlreadyExists; e_text := "exists" |}, w)
                          | None => (Ok r, put_route r w)
                          end
      | _ => λ x, (Ok x, w)
      end x
  | Update k c x =>
      match k return obj k → res (obj k) * gmap (string * string) TCPRoute with
      | KTCPRoute => λ r, match stored w !! route_key r with
                          | Some _ => (Ok r, put_route r w)
                          | None => (Err not_found, w)
                          end
      | _ => λ x, (Ok x, w)
      end x
  | rq => ((regional_server tenant_gateway [] _ rq tt).1, w)
  end.

Lemma stored_put r w : stored (put_route r w) = <[route_key r := r]> (stored w).
Proof. unfold stored, put_route. by apply map_filter_insert_True. Qed.

Lemma pool_server_store c : RouteStore pool_server c stored.
Proof.
  split.
  - intros w k r Hk. unfold stored in Hk. by apply map_lookup_filter_Some in Hk as [_ Hk].
  - intros w key. simpl. split; [done|]. by destruct (stored w !! _) eqn:E.
  - intros w. simpl. split; [done|]. intros r. rewrite list_elem_of_fmap. split.
    + intros ([k r'] & -> & Hk). exists k. by apply elem_of_map_to_list.
    + intros [k Hk]. exists (k, r). split; [done|]. by apply elem_of_map_to_list.
  - intros w r. simpl. destruct (stored w !! route_key r) eqn:E; [by left|]. right. split; [done|]. apply stored_put.
  - intros w r. simpl. destruct (stored w !! route_key r) eqn:E; [|by left]. right. split; [done|]. apply stored_put.
Qed.

Definition example_context : gatewayContext :=
  {| gc_regionalClient := MgmtClient; gc_domain := "lab.ls"; gc_scheme := "https"; gc_gateway := tenant_gateway |}.
Definition ensure_ssh (ws : string) (w : gmap (string * string) TCPRoute) : gmap (string * string) TCPRoute :=
  final pool_server (@ensureTCPRoute example_lib example_config example_context ("ws-" +:+ ws) "svc" ws ssh) w.

(** The first workspace gets the lowest port, the second the next; the third finds
    the pool exhausted. *)
Example pool_fills :
  (λ ws, (section_of example_config) <$> stored (ensure_ssh "c" (ensure_ssh "b" (ensure_ssh "a" ∅))) !! ("ws-" +:+ ws, "ssh"))
    <$> ["a"; "b"; "c"] = [Some "tcp-1"; Some "tcp-2"; None].
Proof. vm_compute. reflexivity. Qed.

Lemma ensure_tcp_refines_pool_witness :
  grant (tcpListeners tenant_gateway) ("ws-a", "ssh")
    (abs example_config (stored ∅)) (abs example_config (stored (ensure_ssh "a" ∅))).
Proof.
  apply (@ensure_tcp_refines_pool example_lib example_config _ pool_server MgmtClient stored
    (pool_server_store MgmtClient) example_context "ws-a" "svc" "a" ssh ∅). reflexivity.
Defined.

Lemma ports_never_shared_witness : ("ws-a", "ssh") = ("ws-a", "ssh").
Proof.
  assert (Hs : section_of example_config <$> stored (ensure_ssh "a" ∅) !! ("ws-a", "ssh") = Some "tcp-1")
    by (vm_compute; reflexivity).
  destruct (stored (ensure_ssh "a" ∅) !! ("ws-a", "ssh")) as [r|] eqn:E; [|discriminate].
  injection Hs as Hs.
  apply (@ports_never_shared example_lib example_config _ pool_server MgmtClient stored
    (pool_server_store MgmtClient) ∅ (ensure_ssh "a" ∅) _ _ r r).
  - reflexivity.
  - eapply rtc_l; [|apply rtc_refl]. eapply (step_ensure _ _ _ _ _ _ example_context); reflexivity.
  - exact E.
  - exact E.
  - reflexivity.
  - rewrite Hs. discriminate.
Defined.
