(* ===== verification/Controller.v ===== *)
(** * The WorkspaceDeployment controller

    [internal/controller/workspaces/workspacedeployment_controller.go], handler by
    handler.  [wsd] is the object in hand; a handler that mutates it returns it. *)

From S2P Require Import Prelude GoString Api Naming QuantityNano Prog Gpu Values Feasibility Cluster.
From S2P Require Import ServiceSets Failure Prerequisites Routes.

(** Condition types and reasons of [workspacedeployment_types.go]. *)
Definition ConditionReady : string := "Ready".
Definition ConditionClassResolved : string := "ClassResolved".
Definition ConditionPrerequisitesMet : string := "PrerequisitesMet".
Definition ConditionHelmReleaseReady : string := "HelmReleaseReady".
Definition ConditionClusterDeploymentResolved : string := "ClusterDeploymentResolved".
Definition ConditionFeasible : string := "Feasible".
Definition ConditionResourcesInjected : string := "ResourcesInjected".

(** What [Reconcile] hands back to the controller runtime. *)
Inductive ctrl_result := Returned (res : Result) (err : option error) | ReconcilePanicked.
Definition ok_result (res : Result) : ctrl_result := Returned res None.
Definition failed_result (err : error) : ctrl_result := Returned no_requeue (Some err).

(** ** GPU requests *)
Definition gpuModelOf (r : WorkspaceResourceSpec) : string := default "" (GPUType (PerReplica r)).
Definition gpuSelectorOf (r : WorkspaceResourceSpec) : gmap string string :=
  BuildSelector (gpuModelOf r) (GPUNodeSelector (PerReplica r)) no_options.
Definition gpuDemand (r : WorkspaceResourceSpec) : Z :=
  int64_wrap (default 1%Z (Replicas r) * default 0%Z (GPUCount (PerReplica r))).

(** fmt's [%v] of a map: keys sorted. *)
Definition format_map (m : StrMap) : string :=
  "map[" +:+ Join ((λ k, k +:+ ":" +:+ smget m k) <$> sorted_keys (default ∅ m)) " " +:+ "]".
Definition describeGPUSelector (r : WorkspaceResourceSpec) : string :=
  if bool_decide (gpuModelOf r ≠ "") then "model " +:+ quote (gpuModelOf r)
  else "selector " +:+ format_map (GPUNodeSelector (PerReplica r)).

Definition selectorKey (sel : gmap string string) : string := write_entries sel (sorted_keys sel).

Definition effectiveGPUSelector (wsd : WorkspaceDeployment) : gmap string string :=
  match s_ResolvedResources (w_Status wsd), Resources (w_Spec wsd) with
  | Some r, _ => gpuSelectorOf r
  | None, Some r => gpuSelectorOf r
  | None, None => ∅
  end.

Definition isOlderWorkspace (a b : WorkspaceDeployment) : bool :=
  let at' := m_CreationTimestamp (w_meta a) in
  let bt := m_CreationTimestamp (w_meta b) in
  if (at' =? bt)%Z then str_ltb (w_UID a) (w_UID b) else (at' <? bt)%Z.

(** The test of the loop on one listed workspace. *)
Definition older_waiting (wsd : WorkspaceDeployment) (wantKey : string) (s : WorkspaceDeployment) : bool :=
  if bool_decide (w_UID s = w_UID wsd) then false
  else if bool_decide (w_Phase s ≠ PhaseWaiting) then false
  else if bool_decide (w_CDRef s ≠ w_CDRef wsd) then false
  else if bool_decide (selectorKey (effectiveGPUSelector s) ≠ wantKey) then false
  else isOlderWorkspace s wsd.
Definition hasOlderWaitingSibling (wsd : WorkspaceDeployment) (selector : gmap string string) : prog (res bool) :=
  items ← call (ListObjs KWSD MgmtClient list_all);
  match items with
  | Err err => mret (Err err)
  | Ok items => mret (Ok (existsb (older_waiting wsd (selectorKey selector)) items))
  end.

Definition enterWaiting (r : Reconciler) (wsd : WorkspaceDeployment) (resolved : WorkspaceResourceSpec) (msg : string)
    : prog (WorkspaceDeployment * Result) :=
  let wsd := upd_status (λ s, set_Message msg (set_Phase PhaseWaiting (set_ResolvedResources (Some resolved) s))) wsd in
  _ ← record_event r wsd EventTypeNormal "WaitingForGpuCapacity" "Reconcile" msg;
  u ← status_update wsd;
  mret (u.1, requeue).

(** [wsd.Status.Phase = Pending; wsd.Status.Message = msg; _ = Status().Update]. *)
Definition hold_pending (wsd : WorkspaceDeployment) (msg : string) : prog (WorkspaceDeployment * Result) :=
  u ← status_update (with_phase_msg PhasePending msg wsd);
  mret (u.1, requeue).

(** [r.markFailed(...); _ = r.Status().Update(...)]. *)
Definition fail_and_update (r : Reconciler) (wsd : WorkspaceDeployment) (reason msg : string) : prog WorkspaceDeployment :=
  wsd ← markFailed r wsd reason msg;
  u ← status_update wsd;
  mret u.1.

Section controller.
Context `{QuantityOps} (r : Reconciler) (rp : option RouteProvider).

(** ** gateGPUOffering *)
Definition gateGPUOffering (wsd : WorkspaceDeployment) (wsc : WorkspaceClass)
    : prog (WorkspaceDeployment * Result * bool) :=
  let resolved := mergeResources (wsc_DefaultResources (wsc_Spec wsc)) (Resources (w_Spec wsd)) in
  let selector := gpuSelectorOf resolved in
  let stop (p : WorkspaceDeployment * Result) := mret (p.1, p.2, false) in
  if bool_decide (selector = ∅) then mret (wsd, no_requeue, true)
  else
    childClient ← getChildClusterClient MgmtClient wsd;
    match childClient with
    | Err err => hold_pending wsd ("Waiting for child cluster access to verify GPU availability: " +:+ e_text err) ≫= stop
    | Ok childClient =>
        nodes ← call (ListObjs KNode childClient list_all);
        match nodes with
        | Err err => hold_pending wsd ("Could not list nodes to verify GPU availability: " +:+ e_text err) ≫= stop
        | Ok nodes =>
            pods ← call (ListObjs KPod childClient list_all);
            match pods with
            | Err err => hold_pending wsd ("Could not list pods to check GPU capacity: " +:+ e_text err) ≫= stop
            | Ok pods =>
                let avail := AvailabilityForSelector nodes pods selector in
                if negb (Found avail) then
                  wsd ← fail_and_update r wsd "GpuOfferingUnavailable"
                    ("No GPU matching " +:+ describeGPUSelector resolved +:+ " is available on cluster " +:+
                     quote (r_Name (w_CDRef wsd)) +:+ "; choose a different cluster or GPU");
                  mret (wsd, no_requeue, false)
                else
                  let demand := gpuDemand resolved in
                  if ((0 <? demand)%Z && (Free avail <? demand)%Z)%bool then
                    enterWaiting r wsd resolved
                      ("Waiting for " +:+ itoa demand +:+ " GPU(s) matching " +:+ describeGPUSelector resolved +:+
                       " on cluster " +:+ quote (r_Name (w_CDRef wsd)) +:+ "; " +:+ itoa (Free avail) +:+
                       " currently free") ≫= stop
                  else
                    older ← hasOlderWaitingSibling wsd selector;
                    match older with
                    | Err err => mret (wsd, requeue, false)
                    | Ok true =>
                        enterWaiting r wsd resolved
                          ("Waiting behind older workspace(s) requesting " +:+ describeGPUSelector resolved +:+
                           " on cluster " +:+ quote (r_Name (w_CDRef wsd))) ≫= stop
                    | Ok false => mret (wsd, no_requeue, true)
                    end
            end
        end
    end.

(** The resolved resources with the vendor inferred, and the extended resource
    the chart must request. *)
Definition set_vendor (v : GPUVendor) (res : WorkspaceResourceSpec) : WorkspaceResourceSpec :=
  let p := PerReplica res in
  {| Replicas := Replicas res;
     PerReplica := {| CPU := CPU p; Memory := Memory p; Storage := Storage p; GPUCount := GPUCount p;
                      GPUVendor_ := Some v; GPUType := GPUType p; GPUNodeSelector := GPUNodeSelector p |} |}.
Definition vendor_fallback (resolved : WorkspaceResourceSpec) : WorkspaceResourceSpec * string :=
  match GPUVendor_ (PerReplica resolved) with
  | Some v => (resolved, ResourceForVendor v)
  | None => (resolved, "")
  end.
Definition resolveGPUResource (childClient : client) (resolved : WorkspaceResourceSpec)
    : prog (WorkspaceResourceSpec * string) :=
  let selector := gpuSelectorOf resolved in
  if bool_decide (selector ≠ ∅) then
    nodes ← call (ListObjs KNode childClient list_all);
    match nodes with
    | Ok nodes =>
        let avail := AvailabilityForSelector nodes [] selector in
        if Found avail then
          mret (match GPUVendor_ (PerReplica resolved) with
                | None => set_vendor (sa_Vendor avail) resolved
                | Some _ => resolved
                end, sa_ResourceName avail)
        else mret (vendor_fallback resolved)
    | Err _ => mret (vendor_fallback resolved)
    end
  else mret (vendor_fallback resolved).

(** ** Resolution of the references *)
Definition resolveWorkspaceClass (wsd : WorkspaceDeployment)
    : prog (WorkspaceDeployment * res (option WorkspaceClass)) :=
  wsc ← call (Get KWSC MgmtClient (class_key wsd));
  match wsc with
  | Ok wsc => mret (wsd, Ok (Some wsc))
  | Err err =>
      if IsNotFound err then
        wsd ← markFailed r wsd "ClassNotFound"
          ("WorkspaceClass " +:+ quote (WorkspaceClassRef (w_Spec wsd)) +:+ " not found");
        wsd ← setCondition wsd (mk_condition wsd ConditionClassResolved CondFalse "ClassNotFound"
                                  (s_Message (w_Status wsd)));
        u ← status_update wsd;
        mret (u.1, match u.2 with Some err => Err err | None => Ok None end)
      else mret (wsd, Err err)
  end.

(** (workspace, result, ok, error). *)
Definition resolveClusterDeployment (wsd : WorkspaceDeployment)
    : prog (WorkspaceDeployment * Result * bool * option error) :=
  let cdRef := w_CDRef wsd in
  cd ← call (Get KCD MgmtClient (cd_key wsd));
  match cd with
  | Err err =>
      if IsNotFound err then
        let msg := "ClusterDeployment " +:+ quote (r_Name cdRef) +:+ " not found in namespace " +:+
                   quote (r_Namespace cdRef) in
        let wsd := with_phase_msg PhasePending msg wsd in
        wsd ← setCondition wsd (mk_condition wsd ConditionClusterDeploymentResolved CondFalse
                                  "ClusterDeploymentNotFound" msg);
        u ← status_update wsd;
        match u.2 with
        | Some err => mret (u.1, no_requeue, false, Some err)
        | None => mret (u.1, requeue, false, None)
        end
      else mret (wsd, no_requeue, false, Some err)
  | Ok _ =>
      wsd ← setCondition wsd (mk_condition wsd ConditionClusterDeploymentResolved CondTrue
                                "ClusterDeploymentResolved"
                                ("ClusterDeployment " +:+ quote (r_Name cdRef) +:+ " resolved"));
      mret (wsd, no_requeue, true, None)
  end.

(** ** refreshFeasibility *)
Definition refreshFeasibility (wsd : WorkspaceDeployment) (wsc : WorkspaceClass)
    : prog (WorkspaceDeployment * Result * option error) :=
  let demanded := mergeResources (wsc_DefaultResources (wsc_Spec wsc)) (Resources (w_Spec wsd)) in
  let unknown msg :=
    wsd ← setCondition wsd (mk_condition wsd ConditionFeasible CondUnknown "FeasibilityUnknown" msg);
    u ← status_update wsd;
    mret (u.1, requeue, None) in
  regionalClient ← GetClusterClientForCD MgmtClient (r_Namespace (w_CDRef wsd)) (r_Name (w_CDRef wsd));
  match regionalClient with
  | Err err => unknown ("Could not reach regional cluster: " +:+ e_text err)
  | Ok regionalClient =>
      feas ← computeFeasibility regionalClient demanded;
      match feas with
      | Err err => unknown ("Failed to compute feasibility: " +:+ e_text err)
      | Ok feas =>
          let wsd := upd_status (set_Feasibility (Some feas)) wsd in
          wsd ← setCondition wsd
            (if fs_Fits feas
             then mk_condition wsd ConditionFeasible CondTrue "ResourcesAvailable" (fs_Message feas)
             else mk_condition wsd ConditionFeasible CondFalse "InsufficientResources" (fs_Message feas));
          u ← status_update wsd;
          mret (u.1, no_requeue, u.2)
      end
  end.

(** ** reconcilePrerequisites *)
Definition zero_status : PrerequisiteStatus :=
  {| ps_Name := ""; ps_Phase := None; ps_Source := SourceUnset; ps_Namespace := ""; ps_Message := "" |}.
Definition firstFailedPrerequisite (statuses : list PrerequisiteStatus) : PrerequisiteStatus :=
  default zero_status (find_first status_failed statuses).
Definition in_flight (s : PrerequisiteStatus) : bool :=
  bool_decide (ps_Phase s = Some PrereqInstalling) || bool_decide (ps_Phase s = Some PrereqPending).
Definition installingMessage (statuses : list PrerequisiteStatus) : string :=
  let inFlight := ps_Name <$> filter (λ s, in_flight s = true) statuses in
  "Installing " +:+ itoa (Z.of_nat (length inFlight)) +:+ "/" +:+ itoa (Z.of_nat (length statuses)) +:+
  " prerequisites: " +:+ Join inFlight ", ".
Definition set_installing (s : PrerequisiteStatus) : PrerequisiteStatus :=
  {| ps_Name := ps_Name s; ps_Phase := Some PrereqInstalling; ps_Source := ps_Source s;
     ps_Namespace := ps_Namespace s; ps_Message := ps_Message s |}.

(** The loop that installs what is pending; the statuses it leaves. *)
Fixpoint install_missing (wsd : WorkspaceDeployment) (wsc : WorkspaceClass)
    (todo : list (PrerequisiteStatus * PrerequisiteSpec)) (done_ : list PrerequisiteStatus)
    : prog (res (list PrerequisiteStatus)) :=
  match todo with
  | [] => mret (Ok done_)
  | (st, prereq) :: todo =>
      if bool_decide (ps_Phase st ≠ Some PrereqPending) then install_missing wsd wsc todo (done_ ++ [st])
      else
        err ← ensurePrerequisiteServiceSet MgmtClient wsd wsc prereq;
        match err with
        | Some err => mret (Err err)
        | None => install_missing wsd wsc todo (done_ ++ [set_installing st])
        end
  end.

Definition set_prereq_condition (wsd : WorkspaceDeployment) (st : ConditionStatus) (reason msg : string) :=
  setCondition wsd (mk_condition wsd ConditionPrerequisitesMet st reason msg).

(** A terminal verdict: Failed, the condition, a best-effort status write. *)
Definition fail_prerequisites (wsd : WorkspaceDeployment) (reason msg : string)
    : prog (WorkspaceDeployment * Result * bool * option error) :=
  wsd ← markFailed r wsd reason msg;
  wsd ← set_prereq_condition wsd CondFalse reason msg;
  u ← status_update wsd;
  mret (u.1, no_requeue, true, None).
Definition hold_installing (wsd : WorkspaceDeployment) (statuses : list PrerequisiteStatus)
    : prog (WorkspaceDeployment * Result * bool * option error) :=
  let wsd := with_phase_msg PhaseInstallingPrerequisites (installingMessage statuses) wsd in
  wsd ← set_prereq_condition wsd CondFalse "InstallingPrerequisites" (s_Message (w_Status wsd));
  u ← status_update wsd;
  match u.2 with
  | Some err => mret (u.1, no_requeue, true, Some err)
  | None => mret (u.1, requeue, true, None)
  end.

(** (workspace, result, done, error). *)
Definition reconcilePrerequisites (wsd : WorkspaceDeployment) (wsc : WorkspaceClass)
    : prog (WorkspaceDeployment * Result * bool * option error) :=
  ev ← evaluatePrerequisites MgmtClient wsd wsc;
  match ev with
  | Err err => mret (wsd, no_requeue, true, Some err)
  | Ok (verdict, statuses) =>
      let wsd := upd_status (set_Prerequisites statuses) wsd in
      match verdict with
      | PrerequisitesVerdictInvalid =>
          fail_prerequisites wsd "InvalidPrerequisite"
            (match statuses with s :: _ => ps_Message s | [] => "" end)
      | PrerequisitesVerdictConflict =>
          fail_prerequisites wsd "PrerequisiteNamespaceConflict"
            (ps_Message (match firstConflictPrerequisite statuses with
                         | Some s => s
                         | None => firstFailedPrerequisite statuses
                         end))
      | PrerequisitesVerdictFailed =>
          let failed := firstFailedPrerequisite statuses in
          fail_prerequisites wsd "PrerequisitesNotReady"
            ("Prerequisite " +:+ quote (ps_Name failed) +:+ " failed: " +:+ ps_Message failed)
      | PrerequisitesVerdictMissing =>
          st ← install_missing wsd wsc (zip statuses (wsc_Prerequisites (wsc_Spec wsc))) [];
          match st with
          | Err err => mret (wsd, no_requeue, true, Some err)
          | Ok statuses => hold_installing (upd_status (set_Prerequisites statuses) wsd) statuses
          end
      | PrerequisitesVerdictInstalling => hold_installing wsd statuses
      | PrerequisitesVerdictSatisfied =>
          wsd ← set_prereq_condition wsd CondTrue "PrerequisitesMet" "All prerequisites are installed";
          mret (wsd, no_requeue, false, None)
      end
  end.
End controller.

(** Two requests are queued together exactly when their selectors are equal: the
    key is injective on selectors built from valid labels. *)
Theorem selectorKey_injective s1 s2 :
  label_map s1 → label_map s2 → selectorKey s1 = selectorKey s2 → s1 = s2.
Proof. intros H1 H2 He. unfold selectorKey in He. by apply write_sorted_inj. Qed.

Lemma h100_labels : label_map h100.
Proof. unfold h100. intros k v Hk. apply lookup_singleton_Some in Hk as [<- <-]. by vm_compute. Qed.
Lemma selectorKey_injective_witness : h100 = h100.
Proof. apply (selectorKey_injective h100 h100 h100_labels h100_labels). reflexivity. Defined.
