(* ===== verification/ClassController.v ===== *)
(** * The WorkspaceClass controller

    [internal/controller/workspaces/workspaceclass_controller.go]: a class is valid
    when its ServiceTemplate is, and all its injection paths parse. *)

From S2P Require Import Prelude GoString Api Naming QuantityNano Prog Gpu Values Feasibility Cluster.
From S2P Require Import ServiceSets Failure Prerequisites Routes Controller.

Definition systemNamespace : string := "kcm-system".
Definition sourceNotValidMessage : string := "ServiceTemplate is not valid".

(** The key of the ServiceTemplate a class refers to. *)
Definition template_namespace (wsc : WorkspaceClass) : string :=
  let ns := t_Namespace (wsc_ServiceTemplate (wsc_Spec wsc)) in
  if bool_decide (ns = "") then systemNamespace else ns.
Definition template_key (wsc : WorkspaceClass) : ObjectKey :=
  {| k_Namespace := template_namespace wsc; k_Name := t_Name (wsc_ServiceTemplate (wsc_Spec wsc)) |}.

Definition set_class_status (valid : bool) (msg : string) (wsc : WorkspaceClass) : WorkspaceClass :=
  {| wsc_meta := wsc_meta wsc; wsc_Spec := wsc_Spec wsc; wsc_Valid := valid; wsc_ValidationError := msg;
     wsc_ObservedGeneration := m_Generation (wsc_meta wsc) |}.

(** [iter] is the order in which one call ranges over the map of injection paths. *)
Section class.
Context (iter : list (string * list InjectionPath) → list (string * list InjectionPath)).

Definition evaluate (wsc : WorkspaceClass) : prog (bool * string) :=
  let name := template_namespace wsc +:+ "/" +:+ t_Name (wsc_ServiceTemplate (wsc_Spec wsc)) in
  st ← call (Get KST MgmtClient (template_key wsc));
  match st with
  | Err err =>
      if IsNotFound err then mret (false, "ServiceTemplate " +:+ name +:+ " not found")
      else mret (false, "failed to get ServiceTemplate " +:+ name +:+ ": " +:+ e_text err)
  | Ok st =>
      if negb (st_Valid st) then
        mret (false, if bool_decide (st_ValidationError st = "") then sourceNotValidMessage else st_ValidationError st)
      else
        match validateInjectionPaths iter (wsc_ResourceInjection (wsc_Spec wsc)) with
        | Some err => mret (false, e_text err)
        | None => mret (true, "")
        end
  end.

Definition class_up_to_date (wsc : WorkspaceClass) (valid : bool) (msg : string) : bool :=
  Bool.eqb (wsc_Valid wsc) valid && bool_decide (wsc_ValidationError wsc = msg) &&
  (wsc_ObservedGeneration wsc =? m_Generation (wsc_meta wsc))%Z.

Definition reconcile_class (key : ObjectKey) : prog ctrl_result :=
  wsc ← call (Get KWSC MgmtClient key);
  match wsc with
  | Err err => if IsNotFound err then mret (ok_result no_requeue) else mret (failed_result err)
  | Ok wsc =>
      v ← evaluate wsc;
      if class_up_to_date wsc v.1 v.2 then mret (ok_result no_requeue)
      else
        u ← call (StatusUpdate KWSC MgmtClient (set_class_status v.1 v.2 wsc));
        match u with
        | Err err => mret (failed_result (wrapf "failed to update WorkspaceClass status" err))
        | Ok _ => mret (ok_result no_requeue)
        end
  end.
End class.

(** ** workspaceClassesForServiceTemplate *)
Definition references (st : ServiceTemplate) (wc : WorkspaceClass) : bool :=
  bool_decide (t_Name (wsc_ServiceTemplate (wsc_Spec wc)) = m_Name (st_meta st)) &&
  bool_decide (template_namespace wc = m_Namespace (st_meta st)).
Definition workspaceClassesForServiceTemplate (st : ServiceTemplate) : prog (list ObjectKey) :=
  classes ← call (ListObjs KWSC MgmtClient list_all);
  match classes with
  | Err _ => mret []
  | Ok items =>
      mret ((λ wc, {| k_Namespace := ""; k_Name := m_Name (wsc_meta wc) |}) <$> filter (λ wc, references st wc = true) items)
  end.

(** ** Injection paths of a valid class *)

Lemma first_bad_path_None field ps : first_bad_path field ps = None ↔ ∀ p, p ∈ ps → ∃ segs, parsePath p = Ok segs.
Proof.
  induction ps as [|p ps IH]; simpl; [split; [by intros _ p ?%not_elem_of_nil|done]|].
  destruct (parsePath p) as [segs|e] eqn:E.
  - rewrite IH. split; [intros Hp q [->|Hq]%elem_of_cons; [by exists segs|by apply Hp]|].
    intros Hp q Hq. apply Hp. by apply list_elem_of_further.
  - split; [done|]. intros Hp. destruct (Hp p (list_elem_of_here _ _)) as [segs Hs]. congruence.
Qed.
Lemma first_bad_field_None l :
  first_bad_field l = None ↔ ∀ f ps, (f, ps) ∈ l → ∀ p, p ∈ ps → ∃ segs, parsePath p = Ok segs.
Proof.
  induction l as [|[f ps] l IH]; simpl; [split; [by intros _ ? ? ?%not_elem_of_nil|done]|].
  destruct (first_bad_path f ps) as [e|] eqn:E.
  - split; [done|]. intros Hp. assert (Hn : first_bad_path f ps = None); [|congruence].
    apply first_bad_path_None. apply (Hp f). apply list_elem_of_here.
  - rewrite IH. rewrite first_bad_path_None in E. split.
    + intros Hp f' ps' [[= -> ->]|Hin]%elem_of_cons; [done|by apply (Hp f')].
    + intros Hp f' ps' Hin. apply (Hp f'). by apply list_elem_of_further.
Qed.

Lemma paths_of_field im name p :
  p ∈ paths_of im name → ∃ f ps, (f, ps) ∈ injectionFieldPaths (Some im) ∧ p ∈ ps.
Proof.
  unfold paths_of. simpl. intros Hp.
  repeat (case_bool_decide; [eexists _, _; split; [|exact Hp]; rewrite !elem_of_cons; tauto|]).
  by apply not_elem_of_nil in Hp.
Qed.

Section order.
Context (iter : list (string * list InjectionPath) → list (string * list InjectionPath)) (Hiter : ∀ l, iter l ≡ₚ l).

Lemma validate_None im :
  validateInjectionPaths iter (Some im) = None → ∀ name p, p ∈ paths_of im name → ∃ segs, parsePath p = Ok segs.
Proof.
  intros Hv name p Hp. apply paths_of_field in Hp as (f & ps & Hin & Hp).
  simpl in Hv. rewrite first_bad_field_None in Hv. apply (Hv f ps); [|done]. by rewrite Hiter.
Qed.

(** Every warning of an injection is about a path of the class. *)
Lemma inject_path_warning `{QuantityOps} e st p w :
  w ∈ (inject_path e st p).2 → w ∈ st.2 ∨ wr_Path w = p.
Proof.
  destruct st as [values ws]. unfold inject_path. destruct (parsePath p) as [segs|err].
  - destruct (setNestedValue values segs e.2) as [[v' prev] []]; simpl; [|by left].
    rewrite elem_of_app, list_elem_of_singleton. intros [Hw | ->]; [by left|by right].
  - simpl. rewrite elem_of_app, list_elem_of_singleton. intros [Hw | ->]; [by left|by right].
Qed.
Lemma foldl_warning {A} (f : GoMap * list resourceInjectionWarning → A → _) (P : resourceInjectionWarning → Prop) l st w :
  (∀ st x w, x ∈ l → w ∈ (f st x).2 → w ∈ st.2 ∨ P w) → w ∈ (foldl f st l).2 → w ∈ st.2 ∨ P w.
Proof.
  revert st. induction l as [|x l IH]; intros st Hf Hw; [by left|]. simpl in Hw.
  apply IH in Hw as [Hw|Hw]; [|by right|intros; eapply Hf; [by apply list_elem_of_further|done]].
  by apply (Hf _ x) in Hw; [|apply list_elem_of_here].
Qed.

Lemma injection_warning_path `{QuantityOps} values resolved im w :
  w ∈ (injectResources values resolved (Some im)).2 → ∃ name, wr_Path w ∈ paths_of im name.
Proof.
  unfold injectResources. destruct values as [m|]; [|by intros ?%not_elem_of_nil].
  destruct (foldl (inject_entry im) _ _) as [m' ws] eqn:E. simpl. intros Hw.
  assert (Hf : w ∈ (foldl (inject_entry im) (inject_standard m (injection_entries resolved), [])
                      (injection_entries resolved)).2) by (by rewrite E).
  apply (foldl_warning _ (λ w, ∃ name, wr_Path w ∈ paths_of im name)) in Hf as [Hf|Hf]; [by apply not_elem_of_nil in Hf|done|].
  intros st e w' _ Hw'. unfold inject_entry in Hw'.
  apply (foldl_warning _ (λ w, ∃ name, wr_Path w ∈ paths_of im name)) in Hw' as [Hw'|Hw']; [by left|by right|].
  intros st' p w2 Hp Hw2. apply inject_path_warning in Hw2 as [Hw2 | <-]; [by left|right; by exists e.1].
Qed.

(** A class found valid is usable: its ServiceTemplate was read and is valid, no
    error is recorded, and whatever values and resources a workspace brings, the
    injection never meets a path it cannot parse — each of its warnings is about an
    overwritten value. *)
Theorem valid_class_injects `{QuantityOps} wsc tr msg :
  exec (evaluate iter wsc) tr (true, msg) →
  msg = "" ∧
  (∃ st, Ev (Get KST MgmtClient (template_key wsc)) (Ok st) ∈ tr ∧ st_Valid st = true) ∧
  ∀ values resolved w, w ∈ (injectResources values resolved (wsc_ResourceInjection (wsc_Spec wsc))).2 →
    ∃ segs, parsePath (wr_Path w) = Ok segs.
Proof.
  unfold evaluate. cbv zeta. intros Hx. apply exec_bind in Hx as (t1 & t2 & x & -> & ->%exec_call & Hx).
  destruct x as [st|err]; [|destruct (IsNotFound err); by exec_inv].
  apply exec_if in Hx as [[_ Hx]|[Hv Hx]]; [by exec_inv|].
  destruct (validateInjectionPaths _ _) as [err|] eqn:E; [by exec_inv|]. destruct Hx as [-> [= ->]].
  split; [done|]. split; [exists st; split; [in_trace|by apply negb_false_iff]|].
  intros values resolved w Hw. destruct (wsc_ResourceInjection (wsc_Spec wsc)) as [im|].
  - apply injection_warning_path in Hw as [name Hp]. by eapply validate_None.
  - exfalso. unfold injectResources in Hw. destruct values; by apply not_elem_of_nil in Hw.
Qed.

(** C39: A reconcile of a class records its verdict: unless the class cannot be read or
    written, afterwards its status is exactly the verdict of this run, observed at
    the generation judged; a class that already says so is not written; and nothing
    but the status of the class is ever written. *)
Theorem class_reconcile_spec key tr res :
  exec (reconcile_class iter key) tr res →
  (∃ err, tr = [Ev (Get KWSC MgmtClient key) (Err err)]) ∨
  ∃ wsc valid msg t,
    exec (evaluate iter wsc) t (valid, msg) ∧ Forall read_only t ∧
    (tr = Ev (Get KWSC MgmtClient key) (Ok wsc) :: t ∧ res = ok_result no_requeue ∧ set_class_status valid msg wsc = wsc ∨
     ∃ x, tr = Ev (Get KWSC MgmtClient key) (Ok wsc) :: t ++ [Ev (StatusUpdate KWSC MgmtClient (set_class_status valid msg wsc)) x] ∧
       set_class_status valid msg wsc ≠ wsc ∧
       match x with Ok _ => res = ok_result no_requeue | Err _ => ∃ err, res = failed_result err end).
Proof.
  unfold reconcile_class. intros Hx. apply exec_bind in Hx as (t1 & t2 & x & -> & ->%exec_call & Hx).
  destruct x as [wsc|err]; [right|left; exists err; destruct (IsNotFound err); by exec_inv].
  apply exec_bind in Hx as (t3 & t4 & [valid msg] & -> & He & Hx). exists wsc, valid, msg, t3. split; [done|].
  split. { eapply exec_always; [exact He|]. unfold evaluate. cbv zeta. prove_always. }
  unfold class_up_to_date in Hx. cbn [fst snd] in Hx. apply exec_if in Hx as [[Hu Hx]|[Hu Hx]].
  - left. exec_inv. rewrite app_nil_r. split; [done|]. split; [done|].
    apply andb_prop in Hu as [[Hu1 Hu2]%andb_prop Hu3]. apply Bool.eqb_prop in Hu1.
    apply bool_decide_eq_true in Hu2. apply Z.eqb_eq in Hu3. destruct wsc. unfold set_class_status. simpl in *.
    congruence.
  - right. apply exec_bind in Hx as (t5 & t6 & x & -> & ->%exec_call & Hx). exists x.
    assert (t6 = [] ∧ match x with Ok _ => res = ok_result no_requeue | Err _ => ∃ err, res = failed_result err end) as [-> Hr].
    { destruct x as [y|err]; exec_inv; [done|]. split; [done|]. by eexists. }
    split; [done|]. split; [|done]. intros Heq. rewrite <- Heq in Hu. simpl in Hu.
    rewrite Bool.eqb_reflx, bool_decide_true, Z.eqb_refl in Hu; done.
Qed.
End order.

(** The classes a list response delivers. *)
Definition listed_classes (e : event) : res (list WorkspaceClass) :=
  match e with
  | Ev rq x =>
      match rq in req R return R → res (list WorkspaceClass) with
      | ListObjs KWSC _ _ => λ x, x
      | _ => λ _, Err not_found
      end x
  end.

(** A change of a ServiceTemplate wakes exactly the classes whose evaluation reads
    it. *)
Theorem template_event_reaches_classes st tr reqs items :
  exec (workspaceClassesForServiceTemplate st) tr reqs →
  tr = [Ev (ListObjs KWSC MgmtClient list_all) (Ok items)] →
  ∀ key, key ∈ reqs ↔
    ∃ wc, wc ∈ items ∧ key = {| k_Namespace := ""; k_Name := m_Name (wsc_meta wc) |} ∧
      template_key wc = {| k_Namespace := m_Namespace (st_meta st); k_Name := m_Name (st_meta st) |}.
Proof.
  unfold workspaceClassesForServiceTemplate. intros Hx Htr.
  apply exec_bind in Hx as (t1 & t2 & x & -> & ->%exec_call & Hx). 
  assert (x = Ok items) as -> by (apply (f_equal (map listed_classes)) in Htr; by injection Htr).
  destruct Hx as [_ ->]. intros key. rewrite list_elem_of_fmap. setoid_rewrite list_elem_of_filter.
  unfold references, template_key. split.
  - intros (wc & -> & [Hr Hin]). apply andb_prop in Hr as [H1%bool_decide_eq_true H2%bool_decide_eq_true].
    exists wc. split; [done|]. split; [done|]. congruence.
  - intros (wc & Hin & -> & [= H1 H2]). exists wc. split; [done|]. split; [|done].
    rewrite !bool_decide_true; done.
Qed.

(** ** Concrete classes *)
Definition bad_injection : ResourceInjectionMap :=
  {| im_Replicas := ["a..b"]; im_CPU := ["c["]; im_Memory := []; im_Storage := []; im_GPUCount := []; im_GPUVendor := [];
     im_GPUType := [] |}.
Definition class_with (im : option ResourceInjectionMap) : WorkspaceClass :=
  let c := example_class [] in
  {| wsc_meta := wsc_meta c;
     wsc_Spec := {| wsc_ServiceTemplate := example_template "jupyter"; wsc_DefaultResources := no_resources;
                    wsc_Prerequisites := []; wsc_AccessEndpoints := []; wsc_DeployTimeout := None;
                    wsc_PrerequisiteDeployTimeout := None; wsc_DefaultValues := None; wsc_ResourceInjection := im |};
     wsc_Valid := false; wsc_ValidationError := ""; wsc_ObservedGeneration := 0 |}.
Definition valid_template : ServiceTemplate :=
  {| st_meta := new_meta "jupyter" systemNamespace None; st_Valid := true; st_ValidationError := "" |}.
Definition evaluate_trace (im : option ResourceInjectionMap) : list event :=
  [Ev (Get KST MgmtClient (template_key (class_with im))) (Ok valid_template)].

(** The recorded error of a class with two malformed paths depends on the order in
    which Go ranges over the map of paths: two reconciles of the same class, with
    the same answers, each find the status the other left out of date and write
    another one. *)
Theorem class_status_flaps :
  let wsc := class_with (Some bad_injection) in
  ∃ msg1 msg2, msg1 ≠ msg2 ∧
    exec (evaluate id wsc) (evaluate_trace (Some bad_injection)) (false, msg1) ∧
    exec (evaluate (@rev _) wsc) (evaluate_trace (Some bad_injection)) (false, msg2) ∧
    class_up_to_date (set_class_status false msg1 wsc) false msg2 = false ∧
    class_up_to_date (set_class_status false msg2 wsc) false msg1 = false.
Proof.
  intros wsc.
  assert (He : ∀ iter err, validateInjectionPaths iter (Some bad_injection) = Some err →
            exec (evaluate iter wsc) (evaluate_trace (Some bad_injection)) (false, e_text err)).
  { intros iter err Hv. unfold evaluate. cbv zeta. eexists _, []. split; [reflexivity|].
    change (wsc_ResourceInjection (wsc_Spec wsc)) with (Some bad_injection). cbn [st_Valid valid_template negb].
    rewrite Hv. by split. }
  destruct (validateInjectionPaths id (Some bad_injection)) as [e1|] eqn:E1; [|by vm_compute in E1].
  destruct (validateInjectionPaths (@rev _) (Some bad_injection)) as [e2|] eqn:E2; [|by vm_compute in E2].
  assert (Hne : e_text e1 ≠ e_text e2).
  { intros Heq. assert (Hc : e_text <$> validateInjectionPaths id (Some bad_injection) =
      e_text <$> validateInjectionPaths (@rev _) (Some bad_injection)) by (rewrite E1, E2; simpl; by f_equal).
    by vm_compute in Hc. }
  exists (e_text e1), (e_text e2). split; [done|]. split; [by apply He|]. split; [by apply He|].
  unfold class_up_to_date. simpl. split; rewrite bool_decide_false by congruence; done.
Qed.

Lemma valid_class_injects_witness :
  ∃ st, Ev (Get KST MgmtClient (template_key (class_with None))) (Ok st) ∈ evaluate_trace None.
Proof.
  destruct (@valid_class_injects id (λ l, Permutation_refl l) nano_quantity (class_with None) (evaluate_trace None) "")
    as (_ & (st & Hst & _) & _).
  - eexists _, []. split; [reflexivity|]. split; reflexivity.
  - exists st. exact Hst.
Defined.

Definition the_class_key : ObjectKey := {| k_Namespace := ""; k_Name := "jupyter" |}.
Lemma class_reconcile_spec_witness :
  let wsc := class_with None in
  let out := set_class_status true "" wsc in
  set_class_status true "" wsc ≠ wsc.
Proof.
  intros wsc out.
  destruct (class_reconcile_spec id the_class_key
    [Ev (Get KWSC MgmtClient the_class_key) (Ok wsc); Ev (Get KST MgmtClient (template_key wsc)) (Ok valid_template);
     Ev (StatusUpdate KWSC MgmtClient out) (Ok out)] (ok_result no_requeue))
    as [(err & He)|(w & valid & msg & t & _ & _ & [(He & _ & Heq)|(x & _ & _ & _)])].
  - unfold reconcile_class, evaluate. cbv zeta. repeat (eexists _, _; split; [reflexivity|]). split; reflexivity.
  - discriminate.
  - discriminate.
  - discriminate.
Defined.

Lemma template_event_reaches_classes_witness :
  {| k_Namespace := ""; k_Name := "jupyter" |} ∈ [{| k_Namespace := ""; k_Name := "jupyter" |}].
Proof.
  apply (template_event_reaches_classes valid_template [Ev (ListObjs KWSC MgmtClient list_all) (Ok [class_with None])]
           [{| k_Namespace := ""; k_Name := "jupyter" |}] [class_with None]).
  - eexists _, []. split; [reflexivity|]. split; vm_compute; reflexivity.
  - reflexivity.
  - exists (class_with None). split; [apply list_elem_of_here|]. split; reflexivity.
Defined.
