(* ===== verification/Reconcile.v ===== *)
(** * Reconcile, deployment, readiness, deletion and the watch mapper

    The rest of [workspacedeployment_controller.go]. *)

From S2P Require Import Prelude GoString Api Naming QuantityNano Prog Gpu Values Feasibility Cluster.
From S2P Require Import ServiceSets Failure Prerequisites Routes Controller.

Definition running_requeue : Result := {| RequeueAfter := 60 * Second |}.

Section reconcile.
Context `{QuantityOps} (r : Reconciler) (rp : option RouteProvider).

(** ** startDeployment *)
Definition setResourcesInjectedCondition (wsd : WorkspaceDeployment) (warnings : list resourceInjectionWarning) :=
  match warnings with
  | [] => setCondition wsd (mk_condition wsd ConditionResourcesInjected CondTrue "ResourcesInjected"
                              "Resolved resources injected into Helm values")
  | _ => setCondition wsd (mk_condition wsd ConditionResourcesInjected CondFalse "UserPathsOverwritten"
                             (Join (warning_String <$> warnings) "; "))
  end.

Definition set_resolved (resolved : WorkspaceResourceSpec) : WorkspaceDeployment → WorkspaceDeployment :=
  upd_status (set_ResolvedResources (Some resolved)).

(** [r.markFailed(...); _ = r.Status().Update(...); return ctrl.Result{}, err]. *)
Definition fail_internal (wsd : WorkspaceDeployment) (what : string) (err : error) : prog ctrl_result :=
  _ ← fail_and_update r wsd "InternalError" (what +:+ e_text err);
  mret (failed_result err).

(** The last steps, from the serialised values. *)
Definition deploy (childClient : client) (wsd : WorkspaceDeployment) (wsc : WorkspaceClass) (mergedValues : RawJSON)
    : prog ctrl_result :=
  nsReady ← ensureWorkspaceNamespace childClient wsd (NamespaceLabels (r_Mesh r) (r_Name (w_CDRef wsd)));
  match nsReady with
  | Err err => mret (failed_result err)
  | Ok false =>
      p ← hold_pending wsd ("Waiting for workspace namespace " +:+ quote (workspaceNamespaceName wsd) +:+
                            " on the child cluster");
      mret (ok_result p.2)
  | Ok true =>
      err ← ensureWorkspaceServiceSet MgmtClient wsd wsc mergedValues;
      match err with
      | Some err => fail_internal wsd "Failed to create ServiceSet: " err
      | None =>
          let wsd := upd_status (λ s, set_ObservedGeneration (w_Generation wsd)
                       (set_FailureContext None (set_Phase PhaseDeploying s))) wsd in
          u ← status_update wsd;
          match u.2 with
          | Some err => mret (failed_result err)
          | None => mret (ok_result requeue)
          end
      end
  end.

(** The values the chart gets: merged, then injected. *)
Definition chart_values (merged : option GoMap) (resolved : WorkspaceResourceSpec)
    (im : option ResourceInjectionMap) (gpuResourceName : string) : option GoMap * list resourceInjectionWarning :=
  let '(merged, warnings) := injectResources merged resolved im in
  let sel := gpuSelectorOf resolved in
  let merged := if bool_decide (sel ≠ ∅) then injectNodeSelector merged sel else merged in
  (injectGPUResourceName merged gpuResourceName, warnings).

Definition startDeployment (wsd : WorkspaceDeployment) (wsc : WorkspaceClass) : prog ctrl_result :=
  let resolved := mergeResources (wsc_DefaultResources (wsc_Spec wsc)) (Resources (w_Spec wsd)) in
  let wsd := set_resolved resolved wsd in
  let wsd := upd_status (set_ServiceEntryName (serviceEntryName wsd)) wsd in
  childClient ← getChildClusterClient MgmtClient wsd;
  match childClient with
  | Err err =>
      p ← hold_pending wsd ("Waiting for child cluster access: " +:+ e_text err);
      mret (ok_result p.2)
  | Ok childClient =>
      gpu ← resolveGPUResource childClient resolved;
      let '(resolved, gpuResourceName) := gpu in
      let wsd := set_resolved resolved wsd in
      match mergeValuesMap (wsc_DefaultValues (wsc_Spec wsc)) (Values (w_Spec wsd)) with
      | Panics => mret ReconcilePanicked
      | Returns (Err err) => fail_internal wsd "Failed to merge values: " err
      | Returns (Ok merged) =>
          let '(values, warnings) :=
            chart_values merged resolved (wsc_ResourceInjection (wsc_Spec wsc)) gpuResourceName in
          wsd ← setResourcesInjectedCondition wsd warnings;
          match serializeValues values with
          | Err err => fail_internal wsd "Failed to serialize values: " err
          | Ok mergedValues => deploy childClient wsd wsc mergedValues
          end
      end
  end.

(** ** checkServiceReadiness *)
Fixpoint scan_services (wsd : WorkspaceDeployment) (entryName : string) (svcs : list ServiceState) : prog ctrl_result :=
  match svcs with
  | [] => mret (ok_result requeue)
  | svc :: svcs =>
      if bool_decide (sv_Name svc ≠ entryName) then scan_services wsd entryName svcs
      else
        fresh ← call (Get KWSD MgmtClient (wsd_key wsd));
        match fresh with
        | Err err => mret (failed_result (wrapf "failed to re-fetch WorkspaceDeployment" err))
        | Ok wsd =>
            match sv_State svc with
            | StateDeployed =>
                let wsd := upd_status (λ s, set_FailureContext None (set_Phase PhaseRunning s)) wsd in
                wsd ← setCondition wsd (mk_condition wsd ConditionHelmReleaseReady CondTrue "HelmReleaseDeployed"
                                          "Helm release deployed successfully");
                wsd ← setCondition wsd (mk_condition wsd ConditionReady CondTrue "DeploymentReady" "Workspace is running");
                u ← status_update wsd;
                match u.2 with
                | Some err => mret (failed_result err)
                | None => mret (ok_result running_requeue)
                end
            | StateFailed =>
                wsd ← markFailed r wsd "HelmReleaseFailed" ("Helm release failed: " +:+ sv_FailureMessage svc);
                wsd ← setCondition wsd (mk_condition wsd ConditionHelmReleaseReady CondFalse "HelmReleaseFailed"
                                          (sv_FailureMessage svc));
                u ← status_update wsd;
                match u.2 with
                | Some err => mret (failed_result err)
                | None => mret (ok_result no_requeue)
                end
            | StateOther _ => scan_services wsd entryName svcs
            end
        end
  end.
Definition checkServiceReadiness (wsd : WorkspaceDeployment) : prog ctrl_result :=
  ss ← call (Get KSS MgmtClient (ss_key wsd));
  match ss with
  | Err err =>
      if IsNotFound err then mret (ok_result requeue)
      else mret (failed_result (wrapf "failed to get ServiceSet" err))
  | Ok ss => scan_services wsd (serviceEntryName wsd) (ss_Status ss)
  end.

(** ** Deletion *)
Definition targetClusterGone (wsd : WorkspaceDeployment) : prog (res bool) :=
  cd ← call (Get KCD MgmtClient (cd_key wsd));
  match cd with
  | Err err => if IsNotFound err then mret (Ok true) else mret (Err err)
  | Ok cd => mret (Ok (deleting (cd_meta cd)))
  end.

(** (result, done). *)
Definition cleanupWorkspaceNamespace (wsd : WorkspaceDeployment) : prog (Result * bool) :=
  let give_up_or_retry err :=
    expired ← remoteCleanupGraceExpired wsd;
    if expired : bool then _ ← abandonCleanup r wsd "workspace namespace cleanup" err; mret (no_requeue, true)
    else mret (requeue, false) in
  childClient ← getChildClusterClient MgmtClient wsd;
  match childClient with
  | Err err => give_up_or_retry err
  | Ok childClient =>
      d ← deleteWorkspaceNamespace childClient wsd;
      match d with
      | Err err => give_up_or_retry err
      | Ok false => mret (requeue, false)
      | Ok true => mret (no_requeue, true)
      end
  end.

Definition remove_finalizer (wsd : WorkspaceDeployment) : prog ctrl_result :=
  u ← update_wsd (upd_meta (RemoveFinalizer WorkspaceDeploymentFinalizer) wsd);
  match u.2 with Some err => mret (failed_result err) | None => mret (ok_result no_requeue) end.

(** Steps 2 to 4. *)
Definition delete_backend (wsd : WorkspaceDeployment) (clusterGone : bool) : prog ctrl_result :=
  if clusterGone then
    err ← forceDeleteWorkspaceServiceSet MgmtClient wsd;
    match err with Some err => mret (failed_result err) | None => remove_finalizer wsd end
  else
    ssGone ← ensureWorkspaceServiceSetDeleted MgmtClient wsd;
    match ssGone with
    | Err err => mret (failed_result err)
    | Ok false => mret (ok_result requeue)
    | Ok true =>
        ns ← cleanupWorkspaceNamespace wsd;
        if negb ns.2 then mret (ok_result ns.1) else remove_finalizer wsd
    end.

Definition mark_deleting (wsd : WorkspaceDeployment) : prog WorkspaceDeployment :=
  if bool_decide (w_Phase wsd ≠ PhaseDeleting) then
    u ← status_update (upd_status (set_Phase PhaseDeleting) wsd); mret u.1
  else mret wsd.

Definition reconcileDelete (wsd : WorkspaceDeployment) : prog ctrl_result :=
  if negb (ContainsFinalizer (w_meta wsd) WorkspaceDeploymentFinalizer) then mret (ok_result no_requeue)
  else
    wsd ← mark_deleting wsd;
    routesDone ← cleanupRoutes r rp wsd;
    if negb routesDone then mret (ok_result requeue)
    else
      gone ← targetClusterGone wsd;
      match gone with
      | Err err => mret (failed_result err)
      | Ok clusterGone => delete_backend wsd clusterGone
      end.

(** ** Reconcile *)

(** The phase dispatch after the prerequisites. *)
Definition reconcile_phase (wsd : WorkspaceDeployment) (wsc : WorkspaceClass) : prog ctrl_result :=
  match w_Phase wsd with
  | PhaseDeploying => checkServiceReadiness wsd
  | PhaseRunning =>
      rr ← reconcileRoutes rp wsd wsc;
      let '(res, retry, err) := rr in
      match err with
      | Some err => mret (Returned res (Some err))
      | None => if retry : bool then mret (ok_result res) else mret (ok_result running_requeue)
      end
  | PhaseFailed => mret (ok_result no_requeue)
  | _ => startDeployment wsd wsc
  end.

Definition reconcile_prerequisites_step (wsd : WorkspaceDeployment) (wsc : WorkspaceClass) : prog ctrl_result :=
  match wsc_Prerequisites (wsc_Spec wsc) with
  | [] => reconcile_phase wsd wsc
  | _ =>
      pr ← reconcilePrerequisites r wsd wsc;
      let '(wsd, res, done_, err) := pr in
      match err with
      | Some err => mret (Returned res (Some err))
      | None => if done_ : bool then mret (ok_result res) else reconcile_phase wsd wsc
      end
  end.

Definition gate_step (wsd : WorkspaceDeployment) (wsc : WorkspaceClass) : prog ctrl_result :=
  match w_Phase wsd with
  | PhaseDeploying | PhaseRunning | PhaseFailed => reconcile_prerequisites_step wsd wsc
  | _ =>
      g ← gateGPUOffering r wsd wsc;
      let '(wsd, res, ok) := g in
      if negb ok then mret (ok_result res) else reconcile_prerequisites_step wsd wsc
  end.

Definition feasibility_step (wsd : WorkspaceDeployment) (wsc : WorkspaceClass) : prog ctrl_result :=
  match w_Phase wsd with
  | PhaseRunning | PhaseFailed | PhaseWaiting => gate_step wsd wsc
  | _ =>
      f ← refreshFeasibility wsd wsc;
      let '(wsd, res, err) := f in
      match err with
      | Some err => mret (Returned res (Some err))
      | None => gate_step wsd wsc
      end
  end.

Definition cluster_step (wsd : WorkspaceDeployment) (wsc : WorkspaceClass) : prog ctrl_result :=
  if bool_decide (w_Phase wsd ≠ PhaseRunning) then
    cd ← resolveClusterDeployment wsd;
    let '(wsd, res, ok, err) := cd in
    match err with
    | Some err => mret (Returned res (Some err))
    | None => if negb ok then mret (ok_result res) else feasibility_step wsd wsc
    end
  else feasibility_step wsd wsc.

Definition reconcile_live (wsd : WorkspaceDeployment) : prog ctrl_result :=
  cl ← resolveWorkspaceClass r wsd;
  match cl.2 with
  | Err err => mret (failed_result err)
  | Ok None => mret (ok_result no_requeue)
  | Ok (Some wsc) =>
      wsd ← setCondition cl.1 (mk_condition cl.1 ConditionClassResolved CondTrue "ClassResolved"
              ("WorkspaceClass " +:+ quote (WorkspaceClassRef (w_Spec cl.1)) +:+ " resolved"));
      cluster_step wsd wsc
  end.

Definition Reconcile (key : ObjectKey) : prog ctrl_result :=
  wsd ← call (Get KWSD MgmtClient key);
  match wsd with
  | Err err => if IsNotFound err then mret (ok_result no_requeue) else mret (failed_result err)
  | Ok wsd =>
      if Suspend (w_Spec wsd) then mret (ok_result no_requeue)
      else if deleting (w_meta wsd) then reconcileDelete wsd
      else if negb (ContainsFinalizer (w_meta wsd) WorkspaceDeploymentFinalizer) then
        u ← update_wsd (upd_meta (AddFinalizer WorkspaceDeploymentFinalizer) wsd);
        match u.2 with
        | Some err => mret (failed_result err)
        | None => reconcile_live u.1
        end
      else reconcile_live wsd
  end.

(** ** workspaceDeploymentForServiceSet *)
Definition declares (wsc : WorkspaceClass) (templateName : string) : bool :=
  existsb (λ p, bool_decide (sanitizeLabelValue (prereq_name p) = templateName))
    (wsc_Prerequisites (wsc_Spec wsc)).
Fixpoint fan_out (cdName templateName : string) (items : list WorkspaceDeployment)
    (requests : list ObjectKey) (seen : list string) : prog (list ObjectKey) :=
  match items with
  | [] => mret requests
  | wsd :: items =>
      if bool_decide (r_Name (w_CDRef wsd) ≠ cdName) then fan_out cdName templateName items requests seen
      else
        wsc ← call (Get KWSC MgmtClient (class_key wsd));
        match wsc with
        | Err _ => fan_out cdName templateName items requests seen
        | Ok wsc =>
            if declares wsc templateName && negb (bool_decide (w_Name wsd ∈ seen))
            then fan_out cdName templateName items (requests ++ [wsd_key wsd]) (w_Name wsd :: seen)
            else fan_out cdName templateName items requests seen
        end
  end.
Definition workspaceDeploymentForServiceSet (ss : ServiceSet) : prog (list ObjectKey) :=
  wsds ← call (ListObjs KWSD MgmtClient (list_in (m_Namespace (ss_meta ss))));
  match wsds with
  | Err _ => mret []
  | Ok items =>
      if isPrerequisiteServiceSet ss then
        let cdName := smget (m_Labels (ss_meta ss)) labelPrerequisiteCluster in
        let templateName := smget (m_Labels (ss_meta ss)) labelPrerequisiteTemplate in
        if bool_decide (cdName = "") || bool_decide (templateName = "") then mret []
        else fan_out cdName templateName items [] []
      else
        match find_first (λ w, bool_decide (serviceSetName w = m_Name (ss_meta ss))) items with
        | Some w => mret [wsd_key w]
        | None => mret []
        end
  end.
End reconcile.
