(* ===== verification/Fake.v ===== *)
(** * A small in-memory server for concrete runs

    One workspace, its class and cluster, the ServiceSets, and the child cluster's
    nodes and pods.  The theorems are about every server; this one evaluates the
    handlers on concrete inputs. *)

From S2P Require Import Prelude GoString Api Naming QuantityNano Prog Gpu Values Feasibility Cluster.
From S2P Require Import ServiceSets Failure Prerequisites Routes Controller Reconcile.

Record world := {
  f_now : Z;
  f_wsd : option WorkspaceDeployment;
  f_others : list WorkspaceDeployment;
  f_wsc : option WorkspaceClass;
  f_cd : option ClusterDeployment;
  f_sss : list ServiceSet;
  f_namespaces : list Namespace;
  f_nodes : list Node;
  f_pods : list Pod;
  f_child_up : bool
}.
Definition set_f_wsd (w : option WorkspaceDeployment) (f : world) : world :=
  {| f_now := f_now f; f_wsd := w; f_others := f_others f; f_wsc := f_wsc f; f_cd := f_cd f; f_sss := f_sss f;
     f_namespaces := f_namespaces f; f_nodes := f_nodes f; f_pods := f_pods f; f_child_up := f_child_up f |}.
Definition set_f_sss (l : list ServiceSet) (f : world) : world :=
  {| f_now := f_now f; f_wsd := f_wsd f; f_others := f_others f; f_wsc := f_wsc f; f_cd := f_cd f; f_sss := l;
     f_namespaces := f_namespaces f; f_nodes := f_nodes f; f_pods := f_pods f; f_child_up := f_child_up f |}.
Definition set_f_namespaces (l : list Namespace) (f : world) : world :=
  {| f_now := f_now f; f_wsd := f_wsd f; f_others := f_others f; f_wsc := f_wsc f; f_cd := f_cd f; f_sss := f_sss f;
     f_namespaces := l; f_nodes := f_nodes f; f_pods := f_pods f; f_child_up := f_child_up f |}.

Definition child : client := RemoteClient "child".
Definition unreachable : error := {| e_code := EOther; e_text := "connection refused" |}.
Definition found {A} (x : option A) : res A := match x with Some a => Ok a | None => Err not_found end.
Definition named (ns name : string) (m : ObjectMeta) : bool :=
  bool_decide (m_Namespace m = ns) && bool_decide (m_Name m = name).
Definition keyed (key : ObjectKey) (m : ObjectMeta) : bool := named (k_Namespace key) (k_Name key) m.
Definition same_object (m m' : ObjectMeta) : bool := named (m_Namespace m) (m_Name m) m'.
Definition without {A} (meta : A → ObjectMeta) (m : ObjectMeta) (l : list A) : list A :=
  filter (λ x, same_object m (meta x) = false) l.

(** A workspace that loses its last finalizer while deleting is gone. *)
Definition store_wsd (w : WorkspaceDeployment) : option WorkspaceDeployment :=
  if deleting (w_meta w) && bool_decide (m_Finalizers (w_meta w) = []) then None else Some w.

Definition kubeconfig_secret : Secret :=
  {| sec_meta := new_meta "cd-kubeconfig" "ns" None; sec_Data := {[ "value" := "kubeconfig" ]} |}.

Definition fake_get (k : kind) (key : ObjectKey) (f : world) : res (obj k) :=
  match k return res (obj k) with
  | KWSD => found (f_wsd f)
  | KWSC => found (f_wsc f)
  | KCD => found (f_cd f)
  | KSS => found (find_first (λ s, keyed key (ss_meta s)) (f_sss f))
  | KNamespace => found (find_first (λ n, keyed key (ns_meta n)) (f_namespaces f))
  | KSecret => if f_child_up f then Ok kubeconfig_secret else Err unreachable
  | _ => Err not_found
  end.
Definition fake_list (k : kind) (f : world) : res (list (obj k)) :=
  match k return res (list (obj k)) with
  | KWSD => Ok (option_list (f_wsd f) ++ f_others f)
  | KSS => Ok (f_sss f)
  | KNode => Ok (f_nodes f)
  | KPod => Ok (f_pods f)
  | _ => Ok []
  end.
Definition fake_put (k : kind) : obj k → world → world :=
  match k return obj k → world → world with
  | KWSD => λ w f, set_f_wsd (store_wsd w) f
  | KSS => λ s f, set_f_sss (s :: without ss_meta (ss_meta s) (f_sss f)) f
  | KNamespace => λ n f, set_f_namespaces (n :: without ns_meta (ns_meta n) (f_namespaces f)) f
  | _ => λ _ f, f
  end.
Definition fake_delete (k : kind) : obj k → world → world :=
  match k return obj k → world → world with
  | KSS => λ s f, set_f_sss (without ss_meta (ss_meta s) (f_sss f)) f
  | KNamespace => λ n f, set_f_namespaces (without ns_meta (ns_meta n) (f_namespaces f)) f
  | _ => λ _ f, f
  end.

Definition fake (R : Type) (rq : req R) (f : world) : R * world :=
  match rq in req R return R * world with
  | Get k _ key => (fake_get k key f, f)
  | ListObjs k _ _ => (fake_list k f, f)
  | Create k _ x => (Ok x, fake_put k x f)
  | Update k _ x => (Ok x, fake_put k x f)
  | StatusUpdate k _ x => (Ok x, fake_put k x f)
  | PatchFinalizers k _ x => (Ok x, fake_put k x f)
  | Delete k _ x => (Ok tt, fake_delete k x f)
  | Eventf _ _ _ _ _ => (tt, f)
  | Now => (f_now f, f)
  | RESTConfigFromKubeConfig b => (Ok b, f)
  | NewClient _ => (Ok child, f)
  | SetOwnerReference o x => (Ok (set_owners (m_UID o :: m_OwnerUIDs x) x), f)
  | DeleteAllOf _ _ _ => (Ok tt, f)
  | StatusPatch k _ _ x => (Ok x, fake_put k x f)
  | SetControllerReference o x => (Ok (set_owners (m_UID o :: m_OwnerUIDs x) x), f)
  | Sleep _ | Invalidate => (tt, f)
  | WaitOrDone _ => (None, f)
  | ServerResources _ => (Ok [], f)
  end.

(** ** A cluster with one GPU node, and a workspace that asks for H100s *)
Definition fake_reconciler : Reconciler := {| has_Recorder := true; has_APIReader := false; r_Mesh := {| Mode := MeshModeAmbient; WaypointEnabled := false; WaypointNamespace := "" |} |}.
Definition gpu_resources (n : Z) : WorkspaceResourceSpec :=
  {| Replicas := None;
     PerReplica := {| CPU := None; Memory := None; Storage := None; GPUCount := Some n; GPUVendor_ := None;
                      GPUType := Some "H100"; GPUNodeSelector := None |} |}.
Definition gpu_wsd (n : Z) : WorkspaceDeployment :=
  let w := example_wsd "ns" "w" "cd" in
  {| w_meta := w_meta w;
     w_Spec := {| WorkspaceClassRef := "jupyter"; ClusterDeploymentRef_ := w_CDRef w;
                  Resources := Some (gpu_resources n); Values := None; Suspend := false |};
     w_Status := w_Status w |}.

Definition fake_world (gpus : Z) : world :=
  {| f_now := 100; f_wsd := Some (gpu_wsd gpus); f_others := []; f_wsc := Some (example_class []);
     f_cd := Some (example_cd "cd" "ns"); f_sss := []; f_namespaces := [];
     f_nodes := [gpu_node "n1" h100 ResourceNvidiaGPU 8]; f_pods := []; f_child_up := true |}.

(** The workspace, being deleted since [t]. *)
Definition deleted_wsd (t : Z) : WorkspaceDeployment :=
  let w := example_wsd "ns" "w" "cd" in
  {| w_meta := {| m_Name := "w"; m_Namespace := "ns"; m_UID := "u"; m_Labels := None; m_Annotations := None;
                  m_Finalizers := [WorkspaceDeploymentFinalizer]; m_OwnerUIDs := []; m_DeletionTimestamp := Some t;
                  m_CreationTimestamp := 0; m_Generation := 1 |};
     w_Spec := w_Spec w; w_Status := w_Status w |}.
(** Long after the grace period, the child cluster does not answer. *)
Definition deletion_world (up : bool) : world :=
  {| f_now := 3600 * Second; f_wsd := Some (deleted_wsd 0); f_others := []; f_wsc := None;
     f_cd := Some (example_cd "cd" "ns");
     f_sss := [new_serviceset (serviceSetName (deleted_wsd 0)) "ns" "cd" ∅
                 (workspace_service (deleted_wsd 0) (example_class []) RawEmpty)];
     f_namespaces := [{| ns_meta := new_meta (workspaceNamespaceName (deleted_wsd 0)) "" None |}];
     f_nodes := []; f_pods := []; f_child_up := up |}.

Definition the_key : ObjectKey := {| k_Namespace := "ns"; k_Name := "w" |}.
Definition reconcile_once (f : world) : list event * ctrl_result * world :=
  run fake (Reconcile fake_reconciler None the_key) f.
Definition events_of (x : list event * ctrl_result * world) : list event := x.1.1.

(** What the ServiceSet controller does: report every release as deployed. *)
Definition deploy_all (f : world) : world :=
  set_f_sss ((λ s, {| ss_meta := ss_meta s; ss_Cluster := ss_Cluster s; ss_Provider := ss_Provider s;
                      ss_Services := ss_Services s; ss_Deployed := true;
                      ss_Status := (λ w, {| sv_Name := sw_Name w; sv_Namespace := sw_Namespace w;
                                            sv_Template := sw_Template w; sv_State := StateDeployed;
                                            sv_FailureMessage := "" |}) <$> ss_Services s |}) <$> f_sss f) f.
Definition phase_of (f : world) : option Phase := (λ w, w_Phase w) <$> f_wsd f.

(** A workspace whose GPU is free is deployed by the first run and running by the
    second. *)
Example fresh_workspace_runs :
  let f1 := (reconcile_once (fake_world 1)).2 in
  let f2 := (reconcile_once (deploy_all f1)).2 in
  phase_of f1 = Some PhaseDeploying ∧ phase_of f2 = Some PhaseRunning.
Proof. vm_compute. by split. Qed.

(** One that asks for more GPUs than the node has waits. *)
Example large_workspace_waits : phase_of (reconcile_once (fake_world 9)).2 = Some PhaseWaiting.
Proof. vm_compute. done. Qed.

(** A deletion long past its grace period ends with the workspace gone, whether the
    child cluster answers or not. *)
Example old_deletion_ends :
  f_wsd (reconcile_once (deletion_world true)).2 = None ∧ f_wsd (reconcile_once (deletion_world false)).2 = None.
Proof. vm_compute. by split. Qed.

(** Every run against the fake server is an execution. *)
Lemma fake_exec f : exec (Reconcile fake_reconciler None the_key) (events_of (reconcile_once f)) (reconcile_once f).1.2.
Proof. apply run_exec. Qed.
Lemma no_provider : ∀ p : RouteProvider, None = Some p → RouteProviderLaws p.
Proof. done. Qed.

(** Find an event of a concrete run by a test. *)
Lemma event_of_run (test : event → bool) tr :
  existsb test tr = true → ∃ pre e post, tr = pre ++ e :: post ∧ test e = true.
Proof.
  intros (e & Hin & Ht)%existsb_exists. apply list_elem_of_In, list_elem_of_split in Hin as (pre & post & ->).
  by exists pre, e, post.
Qed.
