(* ===== verification/Phases.v ===== *)
(** * The workspace's state machine

    Every write of a workspace by [Reconcile], in every execution, follows the
    transition relation [phase_step] from the object last received from the
    server. *)

From S2P Require Import Prelude GoString Api Naming QuantityNano Prog Gpu Values Feasibility Cluster.
From S2P Require Import ServiceSets Failure Prerequisites Routes Controller Reconcile Fake.

(** The phases in which no deployment has been decided yet. *)
Definition before_deploying (p : Phase) : bool :=
  match p with PhaseDeploying | PhaseRunning | PhaseFailed => false | _ => true end.

(** [phase_step deployed p q]: a status write may take a workspace the server has
    in phase [p] to phase [q]; [deployed] says that the workspace's ServiceSet has
    reported its release as deployed in this run. *)
Inductive phase_step (deployed : bool) : Phase → Phase → Prop :=
  | step_same p : phase_step deployed p p
  | step_fail p : phase_step deployed p PhaseFailed
  | step_pending p : p ≠ PhaseRunning → phase_step deployed p PhasePending
  | step_waiting p : before_deploying p = true → phase_step deployed p PhaseWaiting
  | step_installing p : phase_step deployed p PhaseInstallingPrerequisites
  | step_deploying p : before_deploying p = true → phase_step deployed p PhaseDeploying
  | step_running p : deployed = true → phase_step deployed p PhaseRunning
  | step_deleting p : phase_step deployed p PhaseDeleting.

(** ** The monitor *)
Record mon := { cur : option WorkspaceDeployment; deployed : bool }.
Definition mon0 : mon := {| cur := None; deployed := false |}.

(** The ServiceSet read shows the workspace's own release deployed. *)
Definition reports_deployed (w : WorkspaceDeployment) (e : event) : bool :=
  match e with
  | Ev r x =>
      match r in req R return R → bool with
      | Get KSS _ key => λ x,
          match x with
          | Ok ss => bool_decide (key = ss_key w) &&
              existsb (λ svc, bool_decide (sv_Name svc = serviceEntryName w) &&
                              bool_decide (sv_State svc = StateDeployed)) (ss_Status ss)
          | Err _ => false
          end
      | _ => λ _, false
      end x
  end.

Definition mon_step (s : mon) (e : event) : mon :=
  match wsd_received e with
  | Some w => {| cur := Some w; deployed := deployed s |}
  | None =>
      {| cur := cur s;
         deployed := deployed s || match cur s with
                                   | Some w => bool_decide (w_Phase w = PhaseDeploying) && reports_deployed w e
                                   | None => false
                                   end |}
  end.

(** The test: a status write sends the received object with its metadata and spec
    and a phase [phase_step] allows; an update changes at most the finalizers;
    nothing else is done to a workspace, and it alone is read again. *)
Definition mon_ok (s : mon) (e : event) : Prop :=
  match wsd_status e, wsd_updated e with
  | Some w, _ =>
      ∃ w0, cur s = Some w0 ∧ w_meta w = w_meta w0 ∧ w_Spec w = w_Spec w0 ∧
        phase_step (deployed s) (w_Phase w0) (w_Phase w)
  | None, Some w =>
      ∃ w0, cur s = Some w0 ∧ w_Spec w = w_Spec w0 ∧
        set_finalizers [] (w_meta w) = set_finalizers [] (w_meta w0)
  | None, None =>
      (∀ c, ev_target e ≠ Some (KWSD, c)) ∧
      ∀ key w0, wsd_asked e = Some key → cur s = Some w0 → key = wsd_key w0
  end.

Abbreviation safe := (Prog.safe mon_step mon_ok).

(** The object in hand is the one the monitor follows, up to status fields other
    than the phase. *)
Definition tracks (s : mon) (w : WorkspaceDeployment) : Prop :=
  ∃ w0, cur s = Some w0 ∧ w_meta w = w_meta w0 ∧ w_Spec w = w_Spec w0 ∧ w_Phase w = w_Phase w0.
(** ... up to the whole status. *)
Definition holds (s : mon) (w : WorkspaceDeployment) (p : Phase) : Prop :=
  ∃ w0, cur s = Some w0 ∧ w_meta w = w_meta w0 ∧ w_Spec w = w_Spec w0 ∧ w_Phase w0 = p.

Lemma tracks_holds s w : tracks s w ↔ holds s w (w_Phase w).
Proof. unfold tracks, holds. naive_solver. Qed.
Lemma holds_same s w w' p : holds s w p → w_meta w' = w_meta w → w_Spec w' = w_Spec w → holds s w' p.
Proof. intros (w0 & E1 & E2 & E3 & E4) H1 H2. exists w0. split_and!; congruence. Qed.

(** ** Events that are not about the workspace *)
Definition quiet (s s' : mon) : Prop := cur s' = cur s ∧ (deployed s = true → deployed s' = true).

Lemma calm_ok s e : calm e → mon_ok s e.
Proof.
  intros [[_ Ha] Ht]. unfold mon_ok. rewrite Ha.
  destruct e as [R r x]. destruct r as [| | |k c y|k c y| | | | | | | | | | | | | |];
    try done; destruct k; try done; by destruct (Ht c).
Qed.
Lemma calm_step s e : calm e → quiet s (mon_step s e).
Proof. intros [[Hr _] _]. unfold mon_step, quiet. rewrite Hr. split; [done|]. simpl. by intros ->. Qed.

Lemma calm_trace s tr : Forall calm tr → accepts mon_step mon_ok s tr ∧ quiet s (after mon_step s tr).
Proof.
  intros H. revert s. induction H as [|e tr He Htr IH]; intros s; [done|].
  destruct (calm_step s e He) as [Q1 Q2], (IH (mon_step s e)) as [Ha [Q3 Q4]].
  split; [by split; [apply calm_ok|]|]. unfold quiet, after in *. simpl. split; [congruence|auto].
Qed.

Lemma safe_calm {A} s (p : prog A) (Q : mon → A → Prop) :
  always calm p → (∀ tr a s', exec p tr a → quiet s s' → Q s' a) → safe s p Q.
Proof.
  intros Hp HQ tr a H. destruct (calm_trace s tr) as [Ha Hq]; [by eapply Hp|]. split; [done|]. by eapply HQ.
Qed.
(** A calm program in front. *)
Lemma safe_calm_front {A B} s (p : prog A) (f : A → prog B) Q :
  always calm p → (∀ tr a s', exec p tr a → quiet s s' → safe s' (f a) Q) → safe s (p ≫= f) Q.
Proof.
  intros Hp Hf. eapply (safe_bind _ _ _ _ _ (λ s' a, quiet s s' ∧ ∃ tr, exec p tr a)).
  - apply safe_calm; [done|]. eauto.
  - intros s' a [Hq [tr He]]. by eapply Hf.
Qed.

Lemma quiet_trans s1 s2 s3 : quiet s1 s2 → quiet s2 s3 → quiet s1 s3.
Proof. intros [E1 M1] [E2 M2]. split; [congruence|auto]. Qed.
Lemma tracks_quiet s s' w : quiet s s' → tracks s w → tracks s' w.
Proof. intros [Hc _]. unfold tracks. by rewrite Hc. Qed.
Lemma holds_quiet s s' w p : quiet s s' → holds s w p → holds s' w p.
Proof. intros [Hc _]. unfold holds. by rewrite Hc. Qed.

(** *** The calm programs *)

Lemma setCondition_calm wsd c : always calm (setCondition wsd c).
Proof. unfold setCondition. prove_calm. Qed.
Lemma record_event_calm r wsd t x a m : always calm (record_event r wsd t x a m).
Proof. unfold record_event. prove_calm. Qed.
#[export] Hint Resolve setCondition_calm record_event_calm : prog.
Lemma markFailed_calm r wsd reason msg : always calm (markFailed r wsd reason msg).
Proof. unfold markFailed, buildFailureContext, recentEvents. prove_calm. Qed.
Lemma cluster_client_calm c ns cd : always calm (GetClusterClientForCD c ns cd).
Proof. unfold GetClusterClientForCD. prove_calm. Qed.
Lemma child_client_calm c wsd : always calm (getChildClusterClient c wsd).
Proof. apply cluster_client_calm. Qed.
Lemma feasibility_calm `{QuantityOps} c d : always calm (computeFeasibility c d).
Proof. unfold computeFeasibility. prove_calm. Qed.
Lemma grace_calm wsd : always calm (remoteCleanupGraceExpired wsd).
Proof. unfold remoteCleanupGraceExpired. prove_calm. Qed.
Lemma abandon_calm r wsd step cause : always calm (abandonCleanup r wsd step cause).
Proof. apply record_event_calm. Qed.
Lemma ensure_namespace_calm c wsd m : always calm (ensureWorkspaceNamespace c wsd m).
Proof. unfold ensureWorkspaceNamespace. prove_calm. Qed.
Lemma delete_namespace_calm c wsd : always calm (deleteWorkspaceNamespace c wsd).
Proof. unfold deleteWorkspaceNamespace. prove_calm. Qed.
Lemma ensure_ss_calm c wsd wsc v : always calm (ensureWorkspaceServiceSet c wsd wsc v).
Proof. unfold ensureWorkspaceServiceSet. prove_calm. Qed.
Lemma ensure_ss_deleted_calm c wsd : always calm (ensureWorkspaceServiceSetDeleted c wsd).
Proof. unfold ensureWorkspaceServiceSetDeleted. prove_calm. Qed.
Lemma force_delete_calm c wsd : always calm (forceDeleteWorkspaceServiceSet c wsd).
Proof. unfold forceDeleteWorkspaceServiceSet. prove_calm. Qed.
Lemma ensure_prereq_calm c wsd wsc p : always calm (ensurePrerequisiteServiceSet c wsd wsc p).
Proof. unfold ensurePrerequisiteServiceSet. prove_calm. Qed.
Lemma evaluate_loop_calm c wsd v ps o sts : always calm (evaluate_loop c wsd v ps o sts).
Proof.
  revert o sts. induction ps as [|p ps IH]; intros o sts; [apply always_ret|].
  cbn [evaluate_loop]. prove_calm; apply IH.
Qed.
Lemma evaluate_calm c wsd wsc : always calm (evaluatePrerequisites c wsd wsc).
Proof. unfold evaluatePrerequisites. prove_calm. apply evaluate_loop_calm. Qed.
Lemma install_calm wsd wsc todo d : always calm (install_missing wsd wsc todo d).
Proof.
  revert d. induction todo as [|[st p] todo IH]; intros d; [apply always_ret|].
  cbn [install_missing]. apply always_if; [apply IH|]. apply always_bind; [apply ensure_prereq_calm|].
  intros [err|]; [apply always_ret|apply IH].
Qed.
Lemma older_calm wsd sel : always calm (hasOlderWaitingSibling wsd sel).
Proof. unfold hasOlderWaitingSibling. prove_calm. Qed.
Lemma resolve_gpu_calm `{QuantityOps} c res : always calm (resolveGPUResource c res).
Proof. unfold resolveGPUResource. prove_calm. Qed.
Lemma gone_calm wsd : always calm (targetClusterGone wsd).
Proof. unfold targetClusterGone. prove_calm. Qed.
#[export] Hint Resolve markFailed_calm cluster_client_calm child_client_calm feasibility_calm grace_calm abandon_calm
  ensure_namespace_calm delete_namespace_calm ensure_ss_calm ensure_ss_deleted_calm force_delete_calm
  ensure_prereq_calm evaluate_calm install_calm older_calm resolve_gpu_calm gone_calm : prog.

(** ** Writes of the workspace *)

Lemma tracks_ext s w w' :
  tracks s w → w_meta w' = w_meta w → w_Spec w' = w_Spec w → w_Phase w' = w_Phase w → tracks s w'.
Proof. intros (w0 & E1 & E2 & E3 & E4) H1 H2 H3. exists w0. split_and!; congruence. Qed.
Lemma tracks_conditions s w w' : tracks s w → same_but_conditions w w' → tracks s w'.
Proof.
  intros Ht Hs. pose proof (same_but_conditions_phase _ _ Hs). destruct Hs as (? & ? & _).
  by eapply tracks_ext.
Qed.
Lemma holds_conditions s w w' p : holds s w p → same_but_conditions w w' → holds s w' p.
Proof. intros Hh (Hm & Hs & _). by eapply holds_same. Qed.

Lemma status_update_safe s w p (Q : mon → WorkspaceDeployment * option error → Prop) :
  holds s w p → phase_step (deployed s) p (w_Phase w) →
  (∀ s' w', tracks s' w' → (deployed s = true → deployed s' = true) → Q s' (w', None)) →
  (∀ s' e, quiet s s' → Q s' (w, Some e)) →
  safe s (status_update w) Q.
Proof.
  intros (w0 & E1 & E2 & E3 & E4) Hp HQ1 HQ2. unfold status_update. apply safe_call. intros x. split.
  - exists w0. split_and!; congruence.
  - destruct x as [w'|e]; apply safe_ret.
    + apply HQ1; [|done]. by exists w'.
    + apply HQ2. split; [done|]. simpl. by intros ->.
Qed.

(** The server's answer or, when the write failed, the object sent. *)
Lemma status_update_safe' s w p (Q : mon → WorkspaceDeployment * option error → Prop) :
  holds s w p → phase_step (deployed s) p (w_Phase w) → (∀ s' u, Q s' u) → safe s (status_update w) Q.
Proof. intros Hh Hp HQ. eapply status_update_safe; [exact Hh|exact Hp|auto|auto]. Qed.

(** A write that keeps the phase leaves an object the monitor follows, whether it
    succeeds or not. *)
Lemma status_update_same s w (Q : mon → WorkspaceDeployment * option error → Prop) :
  tracks s w → (∀ s' w' e, tracks s' w' → Q s' (w', e)) → safe s (status_update w) Q.
Proof.
  intros Ht HQ. eapply status_update_safe; [by apply tracks_holds|apply step_same|auto|].
  intros s' e Hq. apply HQ. by eapply tracks_quiet.
Qed.

Lemma update_wsd_safe s w w1 p (Q : mon → WorkspaceDeployment * option error → Prop) :
  holds s w p → w_Spec w1 = w_Spec w → set_finalizers [] (w_meta w1) = set_finalizers [] (w_meta w) →
  (∀ s' w', tracks s' w' → Q s' (w', None)) → (∀ s' e, Q s' (w1, Some e)) →
  safe s (update_wsd w1) Q.
Proof.
  intros (w0 & E1 & E2 & E3 & E4) Hs Hm HQ1 HQ2. unfold update_wsd. apply safe_call. intros x. split.
  - exists w0. split_and!; congruence.
  - destruct x as [w'|e]; apply safe_ret; [|apply HQ2]. apply HQ1. by exists w'.
Qed.

Ltac calm_skip := apply safe_calm_front; [solve [auto with prog|apply always_call; intros; by split]|].

(** A condition, then a status write. *)
Lemma condition_then_update {A} s w c p (f : WorkspaceDeployment * option error → prog A) Q :
  holds s w p → phase_step (deployed s) p (w_Phase w) →
  (∀ s' u, (u.2 = None → tracks s' u.1) → safe s' (f u) Q) →
  safe s (w' ← setCondition w c; u ← status_update w'; f u) Q.
Proof.
  intros Hh Hp Hf. calm_skip. intros tr w' s' Hx Hq. pose proof (setCondition_frame _ _ _ _ Hx) as Hfr.
  eapply safe_bind; [|intros s2 u Hu; apply Hf; exact Hu].
  eapply status_update_safe.
  - eapply holds_conditions; [by eapply holds_quiet|exact Hfr].
  - rewrite (same_but_conditions_phase _ _ Hfr). destruct Hq as [_ Hd].
    inversion Hp; subst; try (by constructor). apply step_running. auto.
  - intros s2 w2 Ht _ _. exact Ht.
  - done.
Qed.

(** [markFailed] keeps the object followed and makes it Failed. *)
Lemma markFailed_holds r w reason msg tr w' s p :
  exec (markFailed r w reason msg) tr w' → holds s w p → holds s w' p ∧ w_Phase w' = PhaseFailed.
Proof.
  intros H Hh. destruct (markFailed_frame _ _ _ _ _ _ H) as (Hm & Hs & Hp). split; [|done]. by eapply holds_same.
Qed.

Section handlers.
Context `{QuantityOps} (r : Reconciler) (rp : option RouteProvider).

Lemma fail_and_update_safe s w reason msg (Q : mon → WorkspaceDeployment → Prop) :
  tracks s w → (∀ s' w', Q s' w') → safe s (fail_and_update r w reason msg) Q.
Proof.
  intros Ht HQ. unfold fail_and_update. calm_skip. intros tr w' s' Hx Hq.
  destruct (markFailed_holds _ _ _ _ _ _ s' _ Hx (holds_quiet _ _ _ _ Hq (proj1 (tracks_holds _ _) Ht))) as [Hh Hp].
  eapply safe_bind; [|intros; apply safe_ret; apply HQ].
  eapply (status_update_safe' _ _ _ (λ _ _, True)); [exact Hh|rewrite Hp; apply step_fail|done].
Qed.

(** Setting the phase (and anything else of the status), then writing it. *)
Lemma hold_pending_safe s w msg (Q : mon → WorkspaceDeployment * Result → Prop) :
  tracks s w → w_Phase w ≠ PhaseRunning → (∀ s' x, Q s' x) → safe s (hold_pending w msg) Q.
Proof.
  intros Ht Hp HQ. unfold hold_pending. eapply safe_bind; [|intros; apply safe_ret; apply HQ].
  eapply (status_update_safe' _ _ (w_Phase w) (λ _ _, True)); [|by apply step_pending|done].
  eapply holds_same; [by apply tracks_holds|done|done].
Qed.

Lemma enterWaiting_safe s w resolved msg (Q : mon → WorkspaceDeployment * Result → Prop) :
  tracks s w → before_deploying (w_Phase w) = true → (∀ s' x, Q s' x) → safe s (enterWaiting r w resolved msg) Q.
Proof.
  intros Ht Hp HQ. unfold enterWaiting. calm_skip. intros tr x s' _ Hq.
  eapply safe_bind; [|intros; apply safe_ret; apply HQ].
  eapply (status_update_safe' _ _ (w_Phase w) (λ _ _, True)); [|by apply step_waiting|done].
  eapply holds_same; [eapply holds_quiet; [exact Hq|by apply tracks_holds]|done|done].
Qed.

(** The gate passes with the very object it was given. *)
Lemma gate_safe s w wsc (Q : mon → WorkspaceDeployment * Result * bool → Prop) :
  tracks s w → before_deploying (w_Phase w) = true →
  (∀ s' w' res, Q s' (w', res, false)) → (∀ s', tracks s' w → Q s' (w, no_requeue, true)) →
  safe s (gateGPUOffering r w wsc) Q.
Proof.
  intros Ht Hp HQ0 HQ1. unfold gateGPUOffering. cbv zeta.
  assert (Hnr : w_Phase w ≠ PhaseRunning) by (intros Hx; by rewrite Hx in Hp).
  case_bool_decide; [apply safe_ret; by apply HQ1|].
  assert (Hpend : ∀ s' msg, quiet s s' → safe s' (hold_pending w msg ≫= λ p, mret (p.1, p.2, false)) Q).
  { intros s' msg Hq. eapply safe_bind; [|intros; apply safe_ret; apply HQ0].
    apply (hold_pending_safe _ _ _ (λ _ _, True)); [by eapply tracks_quiet|done|done]. }
  assert (Hwait : ∀ s' res msg, quiet s s' → safe s' (enterWaiting r w res msg ≫= λ p, mret (p.1, p.2, false)) Q).
  { intros s' res msg Hq. eapply safe_bind; [|intros; apply safe_ret; apply HQ0].
    apply (enterWaiting_safe _ _ _ _ (λ _ _, True)); [by eapply tracks_quiet|done|done]. }
  calm_skip. intros tr1 [cl|err] s1 _ Hq1; [|by apply Hpend].
  calm_skip. intros tr2 [nodes|err] s2 _ Hq2%(quiet_trans _ _ _ Hq1); [|by apply Hpend].
  calm_skip. intros tr3 [pods|err] s3 _ Hq%(quiet_trans _ _ _ Hq2); [|by apply Hpend].
  destruct (Found _); simpl negb; cbv iota.
  2: { eapply safe_bind; [|intros; apply safe_ret; apply HQ0].
       apply (fail_and_update_safe _ _ _ _ (λ _ _, True)); [by eapply tracks_quiet|done]. }
  destruct ((0 <? _)%Z && (_ <? _)%Z); [by apply Hwait|].
  calm_skip. intros tr4 [[|]|err] s4 _ Hq4%(quiet_trans _ _ _ Hq); [by apply Hwait| |apply safe_ret, HQ0].
  apply safe_ret, HQ1. by eapply tracks_quiet.
Qed.

(** The object survives a handler that reports success. *)
Definition kept (s : mon) (w : WorkspaceDeployment) (go : Prop) : Prop := go → tracks s w.

Lemma resolve_class_safe s w :
  tracks s w → safe s (resolveWorkspaceClass r w) (λ s' x, kept s' x.1 (∃ c, x.2 = Ok (Some c))).
Proof.
  intros Ht. unfold resolveWorkspaceClass. calm_skip. intros tr [wsc|err] s' _ Hq.
  { apply safe_ret. intros _. by eapply tracks_quiet. }
  destruct (IsNotFound err); [|apply safe_ret; intros [c Hc]; discriminate Hc].
  calm_skip. intros tr2 w' s2 Hx Hq2%(quiet_trans _ _ _ Hq).
  destruct (markFailed_holds _ _ _ _ _ _ s2 (w_Phase w) Hx) as [Hh Hp].
  { apply tracks_holds. eapply tracks_quiet; [exact Hq2|done]. }
  eapply condition_then_update; [exact Hh|rewrite Hp; apply step_fail|]. intros s3 u Hu.
  apply safe_ret. intros [c Hc]. simpl in Hc. by destruct (u.2).
Qed.

Lemma resolve_cluster_safe s w :
  tracks s w → w_Phase w ≠ PhaseRunning →
  safe s (resolveClusterDeployment w) (λ s' x, kept s' x.1.1.1 (x.2 = None ∧ x.1.2 = true)).
Proof.
  intros Ht Hp. unfold resolveClusterDeployment. cbv zeta. calm_skip. intros tr [cd|err] s' _ Hq.
  - calm_skip. intros tr2 w' s2 Hx Hq2%(quiet_trans _ _ _ Hq). apply safe_ret. intros _.
    eapply tracks_conditions; [|by eapply setCondition_frame]. eapply tracks_quiet; [exact Hq2|done].
  - destruct (IsNotFound err); [|by apply safe_ret; intros [? _]].
    eapply (condition_then_update _ _ _ (w_Phase w)); [|by apply step_pending|].
    + eapply holds_same; [eapply holds_quiet; [exact Hq|by apply tracks_holds]|done|done].
    + intros s2 u _. destruct (u.2); apply safe_ret; by intros [_ ?].
Qed.

Lemma refresh_safe s w wsc :
  tracks s w → safe s (refreshFeasibility w wsc) (λ s' x, kept s' x.1.1 (x.2 = None)).
Proof.
  intros Ht. unfold refreshFeasibility. cbv zeta.
  assert (Hun : ∀ s' msg, quiet s s' → safe s'
    (w' ← setCondition w (mk_condition w ConditionFeasible CondUnknown "FeasibilityUnknown" msg);
     u ← status_update w'; mret (u.1, requeue, None))
    (λ s' (x : WorkspaceDeployment * Result * option error), kept s' x.1.1 (x.2 = None))).
  { intros s' msg Hq. calm_skip. intros tr w' s2 Hx Hq2%(quiet_trans _ _ _ Hq). eapply safe_bind.
    - apply (status_update_same _ _ (λ s u, tracks s u.1)); [|by intros].
      eapply tracks_conditions; [|by eapply setCondition_frame]. eapply tracks_quiet; [exact Hq2|done].
    - intros s3 u Hu. apply safe_ret. by intros _. }
  calm_skip. intros tr [cl|err] s1 _ Hq1; [|by apply Hun].
  calm_skip. intros tr2 [feas|err] s2 _ Hq2%(quiet_trans _ _ _ Hq1); [|by apply Hun].
  eapply (condition_then_update _ _ _ (w_Phase w)); [|apply step_same|].
  - eapply holds_same; [eapply holds_quiet; [exact Hq2|by apply tracks_holds]|done|done].
  - intros s3 u Hu. apply safe_ret. exact Hu.
Qed.

Lemma prerequisites_safe s w wsc :
  tracks s w →
  safe s (reconcilePrerequisites r w wsc)
    (λ s' x, kept s' x.1.1.1 (x.2 = None ∧ x.1.2 = false) ∧
             (x.2 = None ∧ x.1.2 = false → w_Phase x.1.1.1 = w_Phase w)).
Proof.
  intros Ht. unfold reconcilePrerequisites. calm_skip. intros tr [[v sts]|err] s1 _ Hq1.
  2: { apply safe_ret. by split; intros [? ?]. }
  set (w1 := upd_status (set_Prerequisites sts) w).
  assert (Ht1 : tracks s1 w1) by (eapply tracks_ext; [by eapply tracks_quiet|done..]).
  set (QQ := λ (s' : mon) (x : WorkspaceDeployment * Result * bool * option error), _).
  assert (Hfail : ∀ reason msg, safe s1 (fail_prerequisites r w1 reason msg) QQ).
  { intros reason msg. unfold fail_prerequisites. calm_skip. intros tr2 w2 s2 Hx Hq2.
    destruct (markFailed_holds _ _ _ _ _ _ s2 (w_Phase w1) Hx) as [Hh Hp].
    { apply tracks_holds. by eapply tracks_quiet. }
    eapply condition_then_update; [exact Hh|rewrite Hp; apply step_fail|].
    intros s3 u _. apply safe_ret. by split; intros [_ ?]. }
  assert (Hinst : ∀ s2 w2 l, quiet s1 s2 → w_meta w2 = w_meta w1 → w_Spec w2 = w_Spec w1 →
            safe s2 (hold_installing w2 l) QQ).
  { intros s2 w2 l Hq2 Hm Hs. unfold hold_installing. cbv zeta.
    eapply (condition_then_update _ _ _ (w_Phase w1)); [|apply step_installing|].
    - eapply holds_same; [eapply holds_quiet; [exact Hq2|by apply tracks_holds]|done|done].
    - intros s3 u _. destruct (u.2); apply safe_ret; by split; intros [? ?]. }
  destruct v; [|by apply Hinst| |apply Hfail..].
  - unfold set_prereq_condition. calm_skip. intros tr2 w2 s2 Hx Hq2. apply safe_ret.
    pose proof (setCondition_frame _ _ _ _ Hx) as Hfr. split; [|intros _; by apply (same_but_conditions_phase w1)].
    intros _. eapply tracks_conditions; [by eapply tracks_quiet|done].
  - calm_skip. intros tr2 [l|err] s2 _ Hq2; [by apply Hinst|]. apply safe_ret. by split; intros [? ?].
Qed.

Abbreviation any := (λ _ _, True).

Lemma fail_internal_safe s w what err : tracks s w → safe s (fail_internal r w what err) any.
Proof.
  intros Ht. unfold fail_internal. eapply (safe_bind _ _ _ _ _ any); [|intros; by apply safe_ret].
  by apply fail_and_update_safe.
Qed.

Lemma deploy_safe s c w wsc v :
  tracks s w → before_deploying (w_Phase w) = true → safe s (deploy r c w wsc v) any.
Proof.
  intros Ht Hp. unfold deploy.
  assert (Hnr : w_Phase w ≠ PhaseRunning) by (intros Hx; by rewrite Hx in Hp).
  calm_skip. intros tr1 [[|]|err] s1 _ Hq1; [| |by apply safe_ret].
  - calm_skip. intros tr2 [err|] s2 _ Hq2%(quiet_trans _ _ _ Hq1).
    { apply fail_internal_safe. by eapply tracks_quiet. }
    cbv zeta. eapply (safe_bind _ _ _ _ _ any); [|intros s3 u _; destruct (u.2); by apply safe_ret].
    eapply status_update_safe'; [|by apply step_deploying|done].
    eapply holds_same; [eapply holds_quiet; [exact Hq2|by apply tracks_holds]|done|done].
  - eapply (safe_bind _ _ _ _ _ any); [|intros; by apply safe_ret].
    apply hold_pending_safe; [by eapply tracks_quiet|done|done].
Qed.

Lemma start_safe s w wsc :
  tracks s w → before_deploying (w_Phase w) = true → safe s (startDeployment r w wsc) any.
Proof.
  intros Ht Hp. unfold startDeployment. cbv zeta.
  set (w1 := upd_status _ (set_resolved _ w)).
  assert (Ht1 : tracks s w1) by by eapply tracks_ext.
  assert (Hnr : w_Phase w1 ≠ PhaseRunning) by (intros Hx; change (w_Phase w1) with (w_Phase w) in Hx; by rewrite Hx in Hp).
  calm_skip. intros tr1 [cl|err] s1 _ Hq1; cycle 1.
  { eapply (safe_bind _ _ _ _ _ any); [|intros; by apply safe_ret].
    apply hold_pending_safe; [by eapply tracks_quiet|done|done]. }
  calm_skip. intros tr2 [resolved name] s2 _ Hq2%(quiet_trans _ _ _ Hq1).
  set (w2 := set_resolved resolved w1).
  assert (Ht2 : tracks s2 w2) by (eapply tracks_ext; [by eapply tracks_quiet|done..]).
  destruct (mergeValuesMap _ _) as [[merged|err]|]; [|by apply fail_internal_safe|by apply safe_ret].
  destruct (chart_values _ _ _ _) as [values warnings].
  apply safe_calm_front. { unfold setResourcesInjectedCondition. destruct warnings; auto with prog. }
  intros tr3 w3 s3 Hx Hq3.
  assert (Hfr : same_but_conditions w2 w3)
    by (unfold setResourcesInjectedCondition in Hx; destruct warnings; by eapply setCondition_frame).
  assert (Ht3 : tracks s3 w3) by (eapply tracks_conditions; [by eapply tracks_quiet|done]).
  destruct (serializeValues values) as [v|err]; [|by apply fail_internal_safe].
  apply deploy_safe; [done|]. by rewrite (same_but_conditions_phase _ _ Hfr).
Qed.

(** A deployed entry among the services still to scan has been noticed. *)
Lemma scan_safe s w entry svcs :
  (existsb (λ svc, bool_decide (sv_Name svc = entry) && bool_decide (sv_State svc = StateDeployed)) svcs = true →
   deployed s = true) →
  (∀ w0, cur s = Some w0 → wsd_key w = wsd_key w0) →
  safe s (scan_services r w entry svcs) any.
Proof.
  revert s w. induction svcs as [|svc svcs IH]; intros s w Hd Hk; [by apply safe_ret|].
  cbn [scan_services]. destruct (decide (sv_Name svc = entry)) as [He|He].
  2: { rewrite bool_decide_eq_true_2 by done. apply IH; [|done]. intros Hx. apply Hd. simpl. by rewrite Hx, orb_true_r. }
  rewrite (bool_decide_eq_false_2 (sv_Name svc ≠ entry)) by auto.
  assert (Hask : ∀ x, mon_ok s (Ev (Get KWSD MgmtClient (wsd_key w)) x)).
  { intros x. split; [done|]. intros key w0 [= <-]. apply Hk. }
  apply safe_call. intros [fresh|err]; (split; [apply Hask|]); [|by apply safe_ret].
  set (s1 := mon_step s _). assert (Ht : tracks s1 fresh) by by exists fresh.
  destruct (sv_State svc) eqn:Es.
  - cbv zeta. assert (Hdep : deployed s1 = true).
    { apply Hd. simpl. by rewrite !bool_decide_eq_true_2. }
    set (w1 := upd_status _ fresh).
    calm_skip. intros tr2 w2 s2 Hx Hq2. pose proof (setCondition_frame _ _ _ _ Hx) as Hfr.
    eapply (condition_then_update _ _ _ (w_Phase fresh)); [| |intros s3 u _; destruct (u.2); by apply safe_ret].
    + eapply holds_conditions; [|exact Hfr]. eapply holds_quiet; [exact Hq2|].
      eapply holds_same; [by apply tracks_holds|done|done].
    + rewrite (same_but_conditions_phase _ _ Hfr). apply step_running. by apply Hq2.
  - calm_skip. intros tr2 w2 s2 Hx Hq2.
    destruct (markFailed_holds _ _ _ _ _ _ s2 (w_Phase fresh) Hx) as [Hh Hp].
    { apply tracks_holds. by eapply tracks_quiet. }
    eapply condition_then_update; [exact Hh|rewrite Hp; apply step_fail|].
    intros s3 u _. destruct (u.2); by apply safe_ret.
  - apply IH; [|by intros w0 [= <-]]. intros Hx. apply Hd. simpl. by rewrite Hx, orb_true_r.
Qed.

Lemma readiness_safe s w :
  tracks s w → w_Phase w = PhaseDeploying → safe s (checkServiceReadiness r w) any.
Proof.
  intros (w0 & Hc & Hm & Hs & Hp) Hdep. unfold checkServiceReadiness. apply safe_call.
  intros [ss|err]; (split; [by intros|]); [|destruct (IsNotFound err); by apply safe_ret].
  apply scan_safe; [|intros w1; simpl; rewrite Hc; intros [= <-]; unfold wsd_key; by rewrite Hm].
  intros Hex. simpl. rewrite Hc.
  rewrite (bool_decide_eq_true_2 (w_Phase w0 = _)) by congruence.
  assert (Hk : ss_key w = ss_key w0 ∧ serviceEntryName w = serviceEntryName w0).
  { unfold ss_key, serviceEntryName, serviceSetName, HelmReleaseName. by rewrite Hm, Hs. }
  destruct Hk as [Hk1 Hk2]. rewrite bool_decide_eq_true_2 by done. rewrite Hk2 in Hex. rewrite Hex.
  simpl. by rewrite orb_true_r.
Qed.

Context (Hlaws : ∀ p, rp = Some p → RouteProviderLaws p).

Lemma provider_calm {A} (p : prog A) : always provider_event p → always calm p.
Proof. apply always_impl. by intros e [? _]. Qed.

Lemma routes_safe s w wsc : tracks s w → safe s (reconcileRoutes rp w wsc) any.
Proof.
  intros Ht. unfold reconcileRoutes.
  destruct rp as [p|]; [|by apply safe_ret]. pose proof (Hlaws p eq_refl) as HL.
  destruct (wsc_AccessEndpoints (wsc_Spec wsc)) as [|ep eps]; [by apply safe_ret|].
  apply safe_calm_front; [apply provider_calm, ensure_routes_frame|]. intros tr [entries|err] s1 _ Hq1.
  - destruct (routes_condition w entries) as [ready cond]. cbv zeta.
    assert (Hfin : ∀ s', safe s' (if negb ready then mret (requeue, true, None)
                                  else mret (no_requeue, false, (None : option error))) any).
    { intros s'. destruct ready; by apply safe_ret. }
    destruct (negb (routes_unchanged w entries cond)); [|apply Hfin].
    eapply (condition_then_update _ _ _ (w_Phase w)); [|apply step_same|].
    + eapply holds_same; [eapply holds_quiet; [exact Hq1|by apply tracks_holds]|done|done].
    + intros s2 u _. destruct (u.2); [by apply safe_ret|apply Hfin].
  - destruct (if IsInfraNotReady err then _ else _) as [reason message].
    eapply (condition_then_update _ _ _ (w_Phase w)); [|apply step_same|intros; by apply safe_ret].
    eapply holds_quiet; [exact Hq1|by apply tracks_holds].
Qed.

Lemma remove_finalizer_safe s w p : holds s w p → safe s (remove_finalizer w) any.
Proof.
  intros Hh. unfold remove_finalizer.
  eapply (safe_bind _ _ _ _ _ any); [|intros s' u _; destruct (u.2); by apply safe_ret].
  eapply update_wsd_safe; [exact Hh|done|done|done|done].
Qed.

Lemma cleanup_namespace_calm w : always calm (cleanupWorkspaceNamespace r w).
Proof. unfold cleanupWorkspaceNamespace. prove_calm. Qed.

Lemma delete_backend_safe s w p gone : holds s w p → safe s (delete_backend r w gone) any.
Proof.
  intros Hh. unfold delete_backend. destruct gone.
  - calm_skip. intros tr [err|] s1 _ Hq; [by apply safe_ret|]. eapply remove_finalizer_safe. by eapply holds_quiet.
  - calm_skip. intros tr [[|]|err] s1 _ Hq; [|by apply safe_ret..].
    apply safe_calm_front; [apply cleanup_namespace_calm|]. intros tr2 ns s2 _ Hq2%(quiet_trans _ _ _ Hq).
    destruct (negb ns.2); [by apply safe_ret|]. eapply remove_finalizer_safe. by eapply holds_quiet.
Qed.

Lemma cleanup_routes_calm w : always calm (cleanupRoutes r rp w).
Proof. apply provider_calm, cleanup_routes_events, Hlaws. Qed.

Lemma delete_safe s w : tracks s w → safe s (reconcileDelete r rp w) any.
Proof.
  intros Ht. unfold reconcileDelete. destruct (negb _); [by apply safe_ret|].
  eapply (safe_bind _ _ _ _ _ (λ s' w', ∃ p, holds s' w' p)).
  - unfold mark_deleting. case_bool_decide; [|apply safe_ret; eexists; by apply tracks_holds].
    eapply safe_bind; [|intros s' u Hu; apply safe_ret; exact Hu].
    eapply (status_update_safe _ _ (w_Phase w)); [|apply step_deleting|..].
    + eapply holds_same; [by apply tracks_holds|done|done].
    + intros s' w' Ht' _. eexists. by apply tracks_holds.
    + intros s' e Hq. exists (w_Phase w). eapply holds_quiet; [exact Hq|].
      eapply holds_same; [by apply tracks_holds|done|done].
  - intros s1 w1 [p Hh]. apply safe_calm_front; [apply cleanup_routes_calm|]. intros tr ok s2 _ Hq2.
    destruct (negb ok); [by apply safe_ret|]. calm_skip. intros tr3 [gone|err] s3 _ Hq3%(quiet_trans _ _ _ Hq2);
      [|by apply safe_ret]. eapply delete_backend_safe. by eapply holds_quiet.
Qed.

(** ** The dispatch *)
Lemma phase_safe s w wsc : tracks s w → safe s (reconcile_phase r rp w wsc) any.
Proof.
  intros Ht. unfold reconcile_phase. destruct (w_Phase w) eqn:Ep; try (apply start_safe; [done|by rewrite Ep]).
  - by apply readiness_safe.
  - eapply (safe_bind _ _ _ _ _ any); [by apply routes_safe|]. intros s' [[res retry] err] _.
    destruct err; [|destruct retry]; by apply safe_ret.
  - by apply safe_ret.
Qed.

Lemma prereq_step_safe s w wsc : tracks s w → safe s (reconcile_prerequisites_step r rp w wsc) any.
Proof.
  intros Ht. unfold reconcile_prerequisites_step. destruct (wsc_Prerequisites _); [by apply phase_safe|].
  eapply safe_bind; [by apply prerequisites_safe|]. intros s' [[[w' res] d] err] [Hk _].
  destruct err; [by apply safe_ret|]. destruct d; [by apply safe_ret|]. apply phase_safe. by apply Hk.
Qed.

Lemma gate_step_safe s w wsc : tracks s w → safe s (gate_step r rp w wsc) any.
Proof.
  intros Ht. unfold gate_step.
  assert (Hg : before_deploying (w_Phase w) = true → safe s
    (g ← gateGPUOffering r w wsc; let '(wsd, res, ok) := g in
     if negb ok then mret (ok_result res) else reconcile_prerequisites_step r rp wsd wsc) any).
  { intros Hp. eapply (safe_bind _ _ _ _ _ (λ s' g, g.2 = true → tracks s' g.1.1)).
    - by apply gate_safe.
    - intros s' [[w' res] ok] Hok. destruct ok; [|by apply safe_ret]. apply prereq_step_safe. by apply Hok. }
  destruct (w_Phase w); try (by apply Hg); by apply prereq_step_safe.
Qed.

Lemma feasibility_step_safe s w wsc : tracks s w → safe s (feasibility_step r rp w wsc) any.
Proof.
  intros Ht. unfold feasibility_step.
  assert (Hf : safe s (f ← refreshFeasibility w wsc; let '(wsd, res, err) := f in
     match err with Some err => mret (Returned res (Some err)) | None => gate_step r rp wsd wsc end) any).
  { eapply safe_bind; [by apply refresh_safe|]. intros s' [[w' res] err] Hk.
    destruct err; [by apply safe_ret|]. apply gate_step_safe. by apply Hk. }
  destruct (w_Phase w); try exact Hf; by apply gate_step_safe.
Qed.

Lemma cluster_step_safe s w wsc : tracks s w → safe s (cluster_step r rp w wsc) any.
Proof.
  intros Ht. unfold cluster_step. case_bool_decide; [|by apply feasibility_step_safe].
  eapply safe_bind; [by apply resolve_cluster_safe|]. intros s' [[[w' res] ok] err] Hk.
  destruct err; [by apply safe_ret|]. destruct ok; [|by apply safe_ret]. apply feasibility_step_safe. by apply Hk.
Qed.

Lemma live_safe s w : tracks s w → safe s (reconcile_live r rp w) any.
Proof.
  intros Ht. unfold reconcile_live. eapply safe_bind; [by apply resolve_class_safe|]. intros s' [w' x] Hk.
  cbn [fst snd] in *. destruct x as [[wsc|]|err]; [|by apply safe_ret..].
  calm_skip. intros tr w2 s2 Hx Hq. apply cluster_step_safe.
  eapply tracks_conditions; [|by eapply setCondition_frame]. eapply tracks_quiet; [exact Hq|]. apply Hk. eauto.
Qed.

Lemma reconcile_safe key : safe mon0 (Reconcile r rp key) any.
Proof.
  unfold Reconcile. apply safe_call. intros [w|err]; (split; [by intros|]);
    [|destruct (IsNotFound err); by apply safe_ret].
  set (s := mon_step _ _). assert (Ht : tracks s w) by by exists w.
  destruct (Suspend (w_Spec w)); [by apply safe_ret|]. destruct (deleting (w_meta w)); [by apply delete_safe|].
  destruct (negb _); [|by apply live_safe].
  eapply (safe_bind _ _ _ _ _ (λ s' u, u.2 = None → tracks s' u.1)).
  - eapply (update_wsd_safe _ w); [by apply tracks_holds|done| |done|done].
    simpl. unfold AddFinalizer. by destruct (ContainsFinalizer _ _).
  - intros s' u Hu. destruct (u.2); [by apply safe_ret|]. by apply live_safe, Hu.
Qed.
End handlers.

(** C1: Every write of a workspace in every execution of [Reconcile], whatever the
    servers answer: a status write starts from the object last received and moves
    its phase along [phase_step]; an update touches finalizers only; a workspace is
    never created, deleted or patched, and the workspace in hand alone is read again.  In particular a workspace becomes Running
    only in a run that found it Deploying and then read its own ServiceSet with its
    release deployed; and one that is Running is never sent back to Pending,
    Waiting or Deploying. *)
Theorem reconcile_follows_phases `{QuantityOps} r rp key tr res :
  (∀ p, rp = Some p → RouteProviderLaws p) →
  exec (Reconcile r rp key) tr res → accepts mon_step mon_ok mon0 tr.
Proof. intros Hl H1. by destruct (reconcile_safe r rp Hl key tr res H1). Qed.

Lemma reconcile_follows_phases_witness :
  accepts mon_step mon_ok mon0 (events_of (reconcile_once (fake_world 9))).
Proof.
  apply (reconcile_follows_phases fake_reconciler None the_key _ (reconcile_once (fake_world 9)).1.2 no_provider).
  apply fake_exec.
Defined.

(** ** What the monitor has seen *)
Definition received (w : WorkspaceDeployment) (tr : list event) : Prop :=
  ∃ e, e ∈ tr ∧ wsd_received e = Some w.

(** [w] is the object [tr] received last. *)
Definition received_last (w : WorkspaceDeployment) (tr : list event) : Prop :=
  ∃ pre e post, tr = pre ++ e :: post ∧ wsd_received e = Some w ∧ Forall (λ e', wsd_received e' = None) post.

Lemma received_app w tr tr' : received w tr → received w (tr ++ tr').
Proof. intros (e & Hin & He). exists e. split; [by apply elem_of_app; left|done]. Qed.

Lemma after_snoc s tr e : after mon_step s (tr ++ [e]) = mon_step (after mon_step s tr) e.
Proof. unfold after. by rewrite foldl_app. Qed.

Lemma cur_received tr w : cur (after mon_step mon0 tr) = Some w → received w tr.
Proof.
  induction tr as [|e tr IH] using rev_ind; [done|]. rewrite after_snoc. unfold mon_step at 1.
  destruct (wsd_received e) as [w'|] eqn:Er; simpl; intros Hc.
  - simplify_eq. exists e. split; [apply elem_of_app; right; apply list_elem_of_here|done].
  - by apply received_app, IH.
Qed.

Lemma cur_last tr w : cur (after mon_step mon0 tr) = Some w → received_last w tr.
Proof.
  induction tr as [|e tr IH] using rev_ind; [done|]. rewrite after_snoc. unfold mon_step at 1.
  destruct (wsd_received e) as [w'|] eqn:Er; simpl; intros Hc.
  - simplify_eq. exists tr, e, []. by split_and!.
  - destruct (IH Hc) as (pre & e' & post & -> & H1 & H2). exists pre, e', (post ++ [e]). rewrite <- app_assoc.
    split_and!; [done|done|]. apply Forall_app. auto.
Qed.

Lemma deployed_reported tr :
  deployed (after mon_step mon0 tr) = true →
  ∃ pre e post w, tr = pre ++ e :: post ∧ received w pre ∧ w_Phase w = PhaseDeploying ∧ reports_deployed w e = true.
Proof.
  induction tr as [|e tr IH] using rev_ind; [done|]. rewrite after_snoc. unfold mon_step at 1. intros Hd.
  assert (Hold : deployed (after mon_step mon0 tr) = true →
    ∃ pre e' post w, tr ++ [e] = pre ++ e' :: post ∧ received w pre ∧ w_Phase w = PhaseDeploying ∧
      reports_deployed w e' = true).
  { intros (pre & e' & post & w & -> & Hrest)%IH. exists pre, e', (post ++ [e]), w. by rewrite <- app_assoc. }
  destruct (wsd_received e); [by apply Hold|]. simpl in Hd. apply orb_true_iff in Hd as [Hd|Hd]; [by apply Hold|].
  destruct (cur _) as [w|] eqn:Ec; [|done]. apply andb_true_iff in Hd as [Hp Hr]. apply bool_decide_eq_true in Hp.
  exists tr, e, [], w. split_and!; [done|by apply cur_received|done|done].
Qed.

(** A workspace is reported Running only if the server had it Running already, or
    this run received it in phase Deploying and afterwards read that workspace's own
    ServiceSet with its release deployed. *)
Theorem running_only_after_deployed `{QuantityOps} r rp key tr res pre e post w :
  (∀ p, rp = Some p → RouteProviderLaws p) →
  exec (Reconcile r rp key) tr res → tr = pre ++ e :: post →
  wsd_status e = Some w → w_Phase w = PhaseRunning →
  (∃ w0, received w0 pre ∧ w_meta w0 = w_meta w ∧ w_Phase w0 = PhaseRunning) ∨
  (∃ p1 e1 p2 w0, pre = p1 ++ e1 :: p2 ∧ received w0 p1 ∧ w_Phase w0 = PhaseDeploying ∧
     reports_deployed w0 e1 = true).
Proof.
  intros Hl Hx -> He Hp. destruct (reconcile_safe r rp Hl key _ _ Hx) as [Ha _].
  apply accepts_event in Ha. unfold mon_ok in Ha. rewrite He in Ha. destruct Ha as (w0 & Hc & Hm & _ & Hs).
  rewrite Hp in Hs. inversion Hs; subst.
  - left. exists w0. split_and!; [by apply cur_received|done|done].
  - right. by apply deployed_reported.
Qed.

Definition writes_running (e : event) : bool :=
  match wsd_status e with Some w => bool_decide (w_Phase w = PhaseRunning) | None => false end.
Definition second_run : list event * ctrl_result * world :=
  reconcile_once (deploy_all (reconcile_once (fake_world 1)).2).

Lemma running_only_after_deployed_witness :
  ∃ pre w, ((∃ w0, received w0 pre ∧ w_meta w0 = w_meta w ∧ w_Phase w0 = PhaseRunning) ∨
    (∃ p1 e1 p2 w0, pre = p1 ++ e1 :: p2 ∧ received w0 p1 ∧ w_Phase w0 = PhaseDeploying ∧
       reports_deployed w0 e1 = true)).
Proof.
  destruct (event_of_run writes_running (events_of second_run)) as (pre & e & post & Htr & He).
  { vm_compute. reflexivity. }
  unfold writes_running in He. destruct (wsd_status e) as [w|] eqn:Ew; [|discriminate].
  apply bool_decide_eq_true in He. exists pre, w.
  exact (running_only_after_deployed fake_reconciler None the_key _ second_run.1.2 pre e post w
           no_provider (fake_exec _) Htr Ew He).
Defined.

Lemma phase_from_running d q :
  phase_step d PhaseRunning q → q ∉ [PhasePending; PhaseWaiting; PhaseDeploying].
Proof. intros Hs. inversion Hs; subst; try done; set_solver. Qed.

(** A status write that makes a workspace Pending, Waiting or Deploying starts from
    an object that was not Running when the server last delivered it. *)
Theorem running_is_not_sent_back `{QuantityOps} r rp key tr res pre e post w :
  (∀ p, rp = Some p → RouteProviderLaws p) →
  exec (Reconcile r rp key) tr res → tr = pre ++ e :: post →
  wsd_status e = Some w → w_Phase w ∈ [PhasePending; PhaseWaiting; PhaseDeploying] →
  ∃ w0, received_last w0 pre ∧ w_meta w0 = w_meta w ∧ w_Spec w0 = w_Spec w ∧ w_Phase w0 ≠ PhaseRunning.
Proof.
  intros Hl Hx -> He Hp. destruct (reconcile_safe r rp Hl key _ _ Hx) as [Ha _].
  apply accepts_event in Ha. unfold mon_ok in Ha. rewrite He in Ha. destruct Ha as (w0 & Hc & Hm & Hsp & Hs).
  assert (w_Phase w0 ≠ PhaseRunning) as Hne.
  { intros Hr. rewrite Hr in Hs. by eapply phase_from_running. }
  exists w0. split_and!; [by apply cur_last|done..].
Qed.

Definition writes_waiting (e : event) : bool :=
  match wsd_status e with Some w => bool_decide (w_Phase w ∈ [PhasePending; PhaseWaiting; PhaseDeploying]) | None => false end.
Lemma running_is_not_sent_back_witness :
  ∃ pre w0, received_last w0 pre ∧ w_Phase w0 ≠ PhaseRunning.
Proof.
  destruct (event_of_run writes_waiting (events_of (reconcile_once (fake_world 9)))) as (pre & e & post & Htr & He).
  { vm_compute. reflexivity. }
  unfold writes_waiting in He. destruct (wsd_status e) as [w|] eqn:Ew; [|discriminate].
  apply bool_decide_eq_true in He.
  destruct (running_is_not_sent_back fake_reconciler None the_key _ (reconcile_once (fake_world 9)).1.2 pre e post w
              no_provider (fake_exec _) Htr Ew He) as (w0 & H1 & _ & _ & H2).
  exists pre, w0. split; [exact H1|exact H2].
Defined.

(** ** A running workspace is sent back to the gate

    The prerequisite step runs in every phase, and its InstallingPrerequisites is
    before the gate: when the class of a Running workspace gains a prerequisite, the
    workspace leaves Running, and the next run gates it against the GPUs it holds
    itself. *)
Definition with_prerequisite (f : world) : world :=
  {| f_now := f_now f; f_wsd := f_wsd f; f_others := f_others f;
     f_wsc := Some (example_class [example_prereq "kuberay" ""]); f_cd := f_cd f; f_sss := f_sss f;
     f_namespaces := f_namespaces f; f_nodes := f_nodes f; f_pods := [gpu_pod "n1" ResourceNvidiaGPU 8];
     f_child_up := f_child_up f |}.
Definition running_world : world := (reconcile_once (deploy_all (reconcile_once (fake_world 8)).2)).2.

(** The comment at the gate says a deployed workspace is never gated again against
    the capacity it holds; a Running one whose class gains a prerequisite is: it goes
    through InstallingPrerequisites to Waiting. *)
Theorem running_is_regated :
  let f1 := (reconcile_once (with_prerequisite running_world)).2 in
  phase_of running_world = Some PhaseRunning ∧ phase_of f1 = Some PhaseInstallingPrerequisites ∧
  phase_of (reconcile_once f1).2 = Some PhaseWaiting.
Proof. vm_compute. done. Qed.
