(* ===== verification/System.v ===== *)
(** * Runs of the workspace controller against one store

    The per-run theorems of [Phases] composed: any number of runs of [Reconcile] for
    one workspace, of one manager or of several, interleaved with each other and with
    the users and controllers that change the object between two requests.  The
    server numbers the states of the object; reads may be as stale as a cache, and a
    write is accepted only from the state stored last (the [resourceVersion]).  The
    system refines the phase machine: the states stored follow [phase_step]. *)

From S2P Require Import Prelude GoString Api Naming QuantityNano Prog Gpu Values Feasibility Cluster.
From S2P Require Import ServiceSets Failure Prerequisites Routes Controller Reconcile Fake Phases.

(** ** The store *)

(** The states of the object under one key, oldest first; [None]: no such object. *)
Abbreviation store := (list (option WorkspaceDeployment)).
Definition current (l : store) : option WorkspaceDeployment := mjoin (last l).
(** The status subresource takes the status sent, an update the rest. *)
Definition write_status (old w : WorkspaceDeployment) : WorkspaceDeployment :=
  {| w_meta := w_meta old; w_Spec := w_Spec old; w_Status := w_Status w |}.
Definition write_object (old w : WorkspaceDeployment) : WorkspaceDeployment :=
  {| w_meta := w_meta w; w_Spec := w_Spec w; w_Status := w_Status old |}.
(** What accepting [e] stores: the writer holds the last state, [v].  The version a
    write carries is that of the object the run received last: the code keeps one
    copy, whose metadata it sends ([Phases.mon_ok]). *)
Definition stores (l : store) (held : option nat) (e : event) (new : WorkspaceDeployment) : Prop :=
  ∃ v old w, held = Some v ∧ S v = length l ∧ l !! v = Some (Some old) ∧ wsd_key w = wsd_key old ∧
    (wsd_status e = Some w ∧ new = write_status old w ∨ wsd_updated e = Some w ∧ new = write_object old w).

Section system.
Context `{QuantityOps} (r : Reconciler) (rp : option RouteProvider) (key : ObjectKey).

(** [serves l held e l' held']: with the states [l] the event [e] of a run that holds
    the state numbered [held] is possible, and leads to [l'] and [held'].  A read
    gets any state there ever was; a refused request changes nothing; a write is
    stored and answered, stored without an answer (a timeout), or changes nothing.
    Requests about other objects get any answer. *)
Inductive serves (l : store) (held : option nat) : event → store → option nat → Prop :=
  | serve_calm e : calm e → serves l held e l held
  | serve_get e v w :
      wsd_asked e = Some key → wsd_received e = Some w → l !! v = Some (Some w) → serves l held e l (Some v)
  | serve_refused e :
      wsd_asked e = Some key ∨ is_Some (wsd_status e) ∨ is_Some (wsd_updated e) → wsd_received e = None →
      serves l held e l held
  | serve_stored e new :
      stores l held e new → wsd_received e = Some new → serves l held e (l ++ [Some new]) (Some (length l))
  | serve_lost e new :
      stores l held e new → wsd_received e = None → serves l held e (l ++ [Some new]) held
  | serve_unchanged e new :
      stores l held e new → wsd_received e = Some new → last l = Some (Some new) → serves l held e l held.

(** What the others do: create the object, which drops the status sent, change all of
    it but the status, which is the operator's, or remove it. *)
Definition others (old new : option WorkspaceDeployment) : Prop :=
  match old, new with
  | None, Some w => wsd_key w = key ∧ w_Phase w = PhaseUnset
  | Some o, Some w => wsd_key w = key ∧ w_Status w = w_Status o
  | Some _, None => True
  | None, None => False
  end.

(** A run: its events so far, the state it holds, what it has still to do. *)
Record run_state := { past : list event; held : option nat; rest : prog ctrl_result }.
Definition new_run : run_state := {| past := []; held := None; rest := Reconcile r rp key |}.
Record sys := { states : store; runs : list run_state }.
Definition sys0 : sys := {| states := [None]; runs := [] |}.

(** A run may be left off at any point: its process ends. *)
Inductive sys_step (s : sys) : sys → Prop :=
  | others_step new : others (current (states s)) new → sys_step s {| states := states s ++ [new]; runs := runs s |}
  | start_step : sys_step s {| states := states s; runs := runs s ++ [new_run] |}
  | request_step i run R (rq : req R) k x l' held' :
      runs s !! i = Some run → rest run = Do rq k → serves (states s) (held run) (Ev rq x) l' held' →
      sys_step s {| states := l';
                    runs := <[i := {| past := past run ++ [Ev rq x]; held := held'; rest := k x |}]> (runs s) |}.

(** ** The abstract machine

    The phase stored, and whether the object has ever been Deploying. *)
Record machine := { m_phase : option Phase; m_seen : bool }.
Definition machine0 : machine := {| m_phase := None; m_seen := false |}.
Definition is_deploying (p : Phase) : bool := bool_decide (p = PhaseDeploying).
Inductive machine_step : machine → machine → Prop :=
  | machine_create d : machine_step {| m_phase := None; m_seen := d |} {| m_phase := Some PhaseUnset; m_seen := d |}
  | machine_remove p d : machine_step {| m_phase := Some p; m_seen := d |} {| m_phase := None; m_seen := d |}
  | machine_move d p q :
      phase_step d p q → machine_step {| m_phase := Some p; m_seen := d |} {| m_phase := Some q; m_seen := d || is_deploying q |}.

Definition deploying (o : option WorkspaceDeployment) : bool :=
  match o with Some w => is_deploying (w_Phase w) | None => false end.
Definition phase_in (o : option WorkspaceDeployment) : option Phase := (λ w, w_Phase w) <$> o.
Definition abs (l : store) : machine := {| m_phase := phase_in (current l); m_seen := existsb deploying l |}.

Lemma abs_eta l : abs l = {| m_phase := phase_in (current l); m_seen := m_seen (abs l) |}.
Proof. done. Qed.
Lemma abs_snoc l o :
  abs (l ++ [o]) = {| m_phase := phase_in o; m_seen := m_seen (abs l) || deploying o |}.
Proof. unfold abs, current. rewrite last_snoc, existsb_app. cbn [existsb m_seen]. by rewrite orb_false_r. Qed.

(** Running is only reached once the object has been Deploying. *)
Lemma machine_running m : rtc machine_step machine0 m → m_phase m = Some PhaseRunning → m_seen m = true.
Proof.
  intros Hr. remember machine0 as m0 eqn:H0. revert m Hr.
  apply (rtc_ind_r (λ m, m_phase m = Some PhaseRunning → m_seen m = true)); [by subst|].
  intros m1 m2 _ Hs IH. destruct Hs as [d|p d|d p q Hp]; simpl in *; [done..|].
  intros [= ->]. inversion Hp; subst; try done; by rewrite IH.
Qed.

(** ** Paths through a program *)
Fixpoint path {A} (p : prog A) (tr : list event) (q : prog A) {struct tr} : Prop :=
  match tr with
  | [] => p = q
  | e :: tr => match p with Ret _ => False | Do rq k => ∃ x, e = Ev rq x ∧ path (k x) tr q end
  end.
Lemma path_snoc {A} (p : prog A) tr R (rq : req R) k x : path p tr (Do rq k) → path p (tr ++ [Ev rq x]) (k x).
Proof.
  revert p. induction tr as [|e tr IH]; intros p; cbn [path app].
  - intros ->. by exists x.
  - destruct p as [|R' rq' k']; [done|]. intros (y & -> & Hp). exists y. split; [done|]. by apply IH.
Qed.
Lemma path_exec {A} (p : prog A) tr q tr' a : path p tr q → exec q tr' a → exec p (tr ++ tr') a.
Proof.
  revert p. induction tr as [|e tr IH]; intros p; cbn [path app]; [by intros ->|].
  destruct p as [|R rq k]; [done|]. intros (x & -> & Hp) Hx. exists x, (tr ++ tr'). split; [done|]. by apply IH.
Qed.
(** A monitored program is monitored up to any point. *)
Lemma path_accepts {A} (p : prog A) s tr q : safe s p (λ _ _, True) → path p tr q → accepts mon_step mon_ok s tr.
Proof.
  intros Hs Hp. destruct (exec_total (λ R rq (u : unit), (echo rq, u)) q tt) as (tr' & a & Hx).
  destruct (Hs _ _ (path_exec _ _ _ _ _ Hp Hx)) as [Ha _]. by apply accepts_app in Ha as [Ha _].
Qed.
(** What a program asks for next. *)
Definition next_asked {A} (p : prog A) : option ObjectKey := match p with Do rq _ => asks rq | Ret _ => None end.
Lemma cur_stays s tr : is_Some (cur s) → is_Some (cur (after mon_step s tr)).
Proof.
  revert s. induction tr as [|e tr IH]; intros s Hs; [done|]. apply IH. unfold mon_step.
  by destruct (wsd_received e).
Qed.
(** [Reconcile] asks for the object of its request, and for nothing after an error. *)
Lemma first_asked tr q k :
  path (Reconcile r rp key) tr q → cur (after mon_step mon0 tr) = None → next_asked q = Some k → k = key.
Proof.
  unfold Reconcile. destruct tr as [|e tr]; cbn [path].
  - intros <- _ [= <-]. done.
  - intros (x & -> & Hp) Hc Hn. exfalso. destruct x as [w|err].
    + destruct (cur_stays (mon_step mon0 (Ev (Get KWSD MgmtClient key) (Ok w))) tr) as [w' Hw]; [by eexists|].
      change (cur (after mon_step (mon_step mon0 (Ev (Get KWSD MgmtClient key) (Ok w))) tr) = None) in Hc.
      by rewrite Hw in Hc.
    + cbn in Hp. destruct (IsNotFound err), tr as [|e' tr]; cbn in Hp; try done; subst; discriminate Hn.
Qed.

(** ** The invariant

    A run holds a state the store has had, that of the object it received last, and
    has seen a release deployed only while the object had been Deploying. *)
Definition coupled (l : store) (run : run_state) : Prop :=
  path (Reconcile r rp key) (past run) (rest run) ∧
  (∀ w, cur (after mon_step mon0 (past run)) = Some w → ∃ v, held run = Some v ∧ l !! v = Some (Some w)) ∧
  (deployed (after mon_step mon0 (past run)) = true → m_seen (abs l) = true).
Definition keyed_store (l : store) : Prop := ∀ w, Some w ∈ l → wsd_key w = key.
Definition inv (s : sys) : Prop :=
  keyed_store (states s) ∧ Forall (coupled (states s)) (runs s) ∧ rtc machine_step machine0 (abs (states s)).

Lemma seen_deploying l w : Some w ∈ l → w_Phase w = PhaseDeploying → m_seen (abs l) = true.
Proof.
  intros Hin Hp. apply existsb_exists. exists (Some w). split; [by apply list_elem_of_In|].
  simpl. unfold is_deploying. by rewrite Hp.
Qed.
Lemma coupled_grow l o run : coupled l run → coupled (l ++ [o]) run.
Proof.
  intros (Hp & Hc & Hd). split_and!; [done| |].
  - intros w (v & Hv & Hl)%Hc. exists v. split; [done|]. by apply lookup_app_l_Some.
  - intros Hs%Hd. rewrite abs_snoc. cbn [m_seen]. by rewrite Hs.
Qed.
Lemma phase_step_le d d' p q : (d = true → d' = true) → phase_step d p q → phase_step d' p q.
Proof. intros Hd Hs. destruct Hs; constructor; auto. Qed.

(** The last state and the one a writer holds. *)
Lemma stores_current l h e new : stores l h e new → ∃ old, current l = Some old ∧ ∃ v, h = Some v ∧ l !! v = Some (Some old).
Proof.
  intros (v & old & w & -> & Hv & Hl & _). exists old. split; [|by exists v]. unfold current.
  rewrite last_lookup, <- Hv. simpl. by rewrite Hl.
Qed.

Context (Hlaws : ∀ p, rp = Some p → RouteProviderLaws p).

(** What a coupled run writes moves the object along the machine, under its key. *)
Lemma stores_moves l run e new R (rq : req R) k x :
  keyed_store l → coupled l run → rest run = Do rq k → e = Ev rq x → stores l (held run) e new →
  wsd_key new = key ∧ rtc machine_step (abs l) (abs (l ++ [Some new])).
Proof.
  intros Hk (Hp & Hc & Hd) Hr -> Hst. pose proof (stores_current _ _ _ _ Hst) as (old & Hcur & _).
  assert (Ha : mon_ok (after mon_step mon0 (past run)) (Ev rq x)).
  { rewrite Hr in Hp. apply (path_snoc _ _ _ _ _ x) in Hp.
    apply (path_accepts _ mon0) in Hp; [by apply accepts_event in Hp|by apply reconcile_safe]. }
  destruct Hst as (v & old' & w & Hh & Hv & Hl & Hkey & Hw).
  assert (old' = old) as ->.
  { revert Hcur. unfold current. rewrite last_lookup, <- Hv. simpl. rewrite Hl. by intros [= <-]. }
  assert (Hko : wsd_key old = key) by (apply Hk; by eapply list_elem_of_lookup_2).
  assert (Hheld : ∀ w0, cur (after mon_step mon0 (past run)) = Some w0 → w0 = old).
  { intros w0 (v' & Hv' & Hl')%Hc. rewrite Hh in Hv'. injection Hv' as <-. rewrite Hl in Hl'. by injection Hl'. }
  rewrite abs_snoc, (abs_eta l), Hcur. unfold mon_ok in Ha.
  destruct Hw as [[Hw ->]|[Hw ->]].
  - rewrite Hw in Ha. destruct Ha as (w0 & ->%Hheld & _ & _ & Hs). split; [done|]. apply rtc_once.
    apply (machine_move (m_seen (abs l)) (w_Phase old) (w_Phase w)). by eapply phase_step_le.
  - split; [by rewrite <- Hko|]. apply rtc_once.
    apply (machine_move (m_seen (abs l)) (w_Phase old) (w_Phase old)), step_same.
Qed.

(** What serving an event does to the states and to the state held. *)
Lemma serves_states l h e l' h' :
  serves l h e l' h' → l' = l ∨ ∃ new, l' = l ++ [Some new] ∧ stores l h e new.
Proof. intros Hs. destruct Hs; eauto. Qed.
Lemma serves_received l h e l' h' w :
  serves l h e l' h' → wsd_received e = Some w → ∃ v, h' = Some v ∧ l' !! v = Some (Some w).
Proof.
  intros Hs Hw. destruct Hs as [e [[Hr _] _]|e v w' _ Hr Hl|e _ Hr|e new _ Hr|e new _ Hr|e new Hst Hr Hlast];
    rewrite Hr in Hw; try discriminate Hw; injection Hw as <-.
  - by exists v.
  - exists (length l). split; [done|]. by rewrite lookup_app_r, Nat.sub_diag by done.
  - destruct Hst as (v & old & w' & -> & Hv & _). exists v. split; [done|].
    by rewrite last_lookup, <- Hv in Hlast.
Qed.
Lemma serves_silent l h e l' h' : serves l h e l' h' → wsd_received e = None → h' = h.
Proof. intros Hs Hn. destruct Hs; congruence. Qed.

(** A step of a run keeps its coupling: what it received last it holds. *)
Lemma coupled_step l run R (rq : req R) k x l' h' :
  coupled l run → rest run = Do rq k → serves l (held run) (Ev rq x) l' h' →
  coupled l' {| past := past run ++ [Ev rq x]; held := h'; rest := k x |}.
Proof.
  intros Hco Hr Hs.
  assert (Hco' : coupled l' run) by (destruct (serves_states _ _ _ _ _ Hs) as [->|(new & -> & _)]; [done|by apply coupled_grow]).
  destruct Hco' as (Hp & Hc & Hd). rewrite Hr in Hp. split; [by apply (path_snoc _ _ _ _ _ x)|].
  cbn [past held rest]. rewrite after_snoc. unfold mon_step.
  destruct (wsd_received (Ev rq x)) as [w|] eqn:Er; cbn [cur deployed].
  - split; [|done]. intros w' [= <-]. by eapply serves_received.
  - rewrite (serves_silent _ _ _ _ _ Hs Er). split; [done|]. intros [Ho|Hn]%orb_true_iff; [by apply Hd|].
    destruct (cur _) as [w|]; [|done]. apply andb_true_iff in Hn as [Hph%bool_decide_eq_true _].
    destruct (Hc w eq_refl) as (v & _ & Hl). eapply seen_deploying; [by eapply list_elem_of_lookup_2|done].
Qed.

Lemma coupled_new l : coupled l new_run.
Proof. split_and!; [done| |]; simpl; intros; discriminate. Qed.

(** The invariant holds in every reachable system. *)
Lemma inv_step s s' : inv s → sys_step s s' → inv s'.
Proof.
  intros (Hk & Hr & Hm) Hs. destruct Hs as [new Ho| |i run R rq k x l' held' Hi Hrest Hsv]; unfold inv; cbn [states runs].
  - assert (Hnew : (∀ w, new = Some w → wsd_key w = key) ∧ rtc machine_step (abs (states s)) (abs (states s ++ [new]))).
    { rewrite abs_snoc, (abs_eta (states s)). unfold others in Ho.
      destruct (current (states s)) as [o|], new as [w|]; try done; cbn [phase_in fmap option_fmap option_map].
      - destruct Ho as [Hw Hst]. split; [by intros w' [= <-]|]. apply rtc_once.
        assert (deploying (Some w) = is_deploying (w_Phase o)) as -> by (simpl; by rewrite Hst). rewrite Hst.
        apply (machine_move (m_seen (abs (states s))) (w_Phase o) (w_Phase o)), step_same.
      - split; [done|]. rewrite orb_false_r. apply rtc_once, machine_remove.
      - destruct Ho as [Hw Hst]. split; [by intros w' [= <-]|]. apply rtc_once. rewrite Hst. simpl. rewrite Hst. simpl.
        rewrite orb_false_r. apply machine_create. }
    destruct Hnew as [Hn1 Hn2].
    split_and!; [|eapply Forall_impl; [exact Hr|intros run; apply coupled_grow]|by eapply rtc_trans].
    intros w [Hw|Hw]%elem_of_app; [by apply Hk|]. apply Hn1. symmetry. by apply list_elem_of_singleton.
  - split_and!; [done| |done]. apply Forall_app. split; [done|]. by apply Forall_singleton, coupled_new.
  - assert (Hco : coupled (states s) run) by by eapply Forall_lookup_1 in Hr.
    assert (Hl : (l' = states s ∨ ∃ o, l' = states s ++ [o]) ∧ keyed_store l' ∧ rtc machine_step (abs (states s)) (abs l')).
    { destruct (serves_states _ _ _ _ _ Hsv) as [->|(new & -> & Hst)]; [by split_and!; [left| |]|].
      destruct (stores_moves _ _ _ _ _ _ _ _ Hk Hco Hrest eq_refl Hst) as [Hn Hmv].
      split_and!; [by right; eexists| |done].
      intros w [Hw|Hw%list_elem_of_singleton]%elem_of_app; [by apply Hk|by injection Hw as ->]. }
    destruct Hl as (Hl & Hk' & Hmv). split_and!; [done| |by eapply rtc_trans].
    apply Forall_insert; [|by eapply coupled_step].
    destruct Hl as [->|[o ->]]; [done|]. eapply Forall_impl; [exact Hr|intros run'; apply coupled_grow].
Qed.
Lemma inv_reachable s : rtc sys_step sys0 s → inv s.
Proof.
  revert s. apply (rtc_ind_r inv).
  - split_and!; [|done|].
    + intros w Hw%list_elem_of_singleton. discriminate Hw.
    + apply rtc_refl.
  - intros s s' _ Hs Hi. by eapply inv_step.
Qed.

(** *** A whole run *)
Fixpoint served (l : store) (h : option nat) (tr : list event) (l' : store) (h' : option nat) : Prop :=
  match tr with
  | [] => l = l' ∧ h = h'
  | e :: tr => ∃ l1 h1, serves l h e l1 h1 ∧ served l1 h1 tr l' h'
  end.
Lemma exec_steps p tr a : exec p tr a → ∀ l h l' h' ev i rs,
  served l h tr l' h' → rs !! i = Some {| past := ev; held := h; rest := p |} →
  rtc sys_step {| states := l; runs := rs |}
    {| states := l'; runs := <[i := {| past := ev ++ tr; held := h'; rest := Ret a |}]> rs |}.
Proof.
  revert tr. induction p as [b|R rq k IH]; intros tr Hx l h l' h' ev i rs Hs Hi; cbn [exec] in Hx.
  - destruct Hx as [-> ->]. destruct Hs as [<- <-]. rewrite app_nil_r, list_insert_id by done. apply rtc_refl.
  - destruct Hx as (x & tr' & -> & Hx). destruct Hs as (l1 & h1 & Hs1 & Hs).
    eapply rtc_l; [by apply (request_step {| states := l; runs := rs |} i {| past := ev; held := h; rest := Do rq k |} R rq k x l1 h1)|]. cbn [states runs past].
    assert (Hi1 : <[i:={| past := ev ++ [Ev rq x]; held := h1; rest := k x |}]> rs !! i
                  = Some {| past := ev ++ [Ev rq x]; held := h1; rest := k x |})
      by (apply list_lookup_insert_eq; by eapply lookup_lt_Some).
    pose proof (IH x tr' Hx l1 h1 l' h' _ i _ Hs Hi1) as Hst.
    by rewrite list_insert_insert_eq, <- app_assoc in Hst.
Qed.

(** *** No run gets stuck *)

(** An answer to any request: an error where there is one. *)
Definition refuse {R} (rq : req R) : R :=
  match rq in req R return R with
  | Update _ _ _ | StatusUpdate _ _ _ => Err not_found
  | rq => echo rq
  end.
Definition answered (l : store) (run : run_state) : Prop :=
  match rest run with Ret _ => True | Do rq _ => ∃ x l' h', serves l (held run) (Ev rq x) l' h' end.
Lemma run_answered l run : keyed_store l → coupled l run → answered l run.
Proof.
  intros Hk (Hp & Hc & _). unfold answered. destruct (rest run) as [a|R rq k] eqn:Er; [done|].
  exists (refuse rq), l, (held run).
  assert (Hsil : wsd_received (Ev rq (refuse rq)) = None) by (destruct rq as [[]| | |[]|[]| | | | | | | | | | | | | |]; done).
  assert (Ha : mon_ok (after mon_step mon0 (past run)) (Ev rq (refuse rq))).
  { apply (path_snoc _ _ _ _ _ (refuse rq)) in Hp as Hp'.
    apply (path_accepts _ mon0) in Hp'; [by apply accepts_event in Hp'|by apply reconcile_safe]. }
  unfold mon_ok in Ha. destruct (wsd_status _) eqn:E1; [apply serve_refused; eauto|].
  destruct (wsd_updated _) eqn:E2; [apply serve_refused; eauto|]. destruct Ha as [Ht Ha].
  destruct (wsd_asked (Ev rq (refuse rq))) as [k'|] eqn:E3; [|by apply serve_calm].
  apply serve_refused; [|done]. left. rewrite E3. f_equal.
  destruct (cur (after mon_step mon0 (past run))) as [w|] eqn:E4.
  - rewrite (Ha k' w) by done. destruct (Hc w eq_refl) as (v & _ & Hl). apply Hk. by eapply list_elem_of_lookup_2.
  - by eapply first_asked.
Qed.

(** C2: The controller as a system.  However many runs of [Reconcile] for a workspace are
    interleaved with one another, begun, left off, and with users and controllers
    that create, change and remove the object, and however stale their reads are, the
    states the server stores follow the phase machine: they refine [machine_step]; in
    particular the object is Running only if it had been Deploying before.  No run
    ever issues a request the model of the server does not cover. *)
Theorem system_refines_machine s :
  rtc sys_step sys0 s →
  rtc machine_step machine0 (abs (states s)) ∧
  (∀ w, current (states s) = Some w → w_Phase w = PhaseRunning →
     ∃ w', Some w' ∈ states s ∧ w_Phase w' = PhaseDeploying) ∧
  (∀ w, Some w ∈ states s → wsd_key w = key) ∧ Forall (answered (states s)) (runs s).
Proof.
  intros (Hk & Hr & Hm)%inv_reachable. split_and!; [done| |done|].
  - intros w Hw Hp. pose proof (machine_running _ Hm) as Hs. cbn [m_phase abs] in Hs. rewrite Hw in Hs.
    specialize (Hs (f_equal Some Hp)). apply existsb_exists in Hs as ([w'|] & Hin%list_elem_of_In & Hd); [|done].
    exists w'. split; [done|by apply bool_decide_eq_true in Hd].
  - eapply Forall_impl; [exact Hr|]. intros run. by apply run_answered.
Qed.
End system.

(** ** Two runs on the in-memory server *)
Section fake_runs.
Context `{QuantityOps} (key : ObjectKey).

(** The server holds the last state, an object under the key that is not deleted. *)
Definition in_step (l : store) (f : world) : Prop :=
  current l = f_wsd f ∧ ∃ w, f_wsd f = Some w ∧ wsd_key w = key ∧ m_DeletionTimestamp (w_meta w) = None.
Definition holds_last (l : store) (h : option nat) (s : mon) : Prop :=
  ∃ v w, cur s = Some w ∧ h = Some v ∧ S v = length l ∧ l !! v = Some (Some w).
Definition no_update (e : event) : Prop := wsd_updated e = None.

Lemma holds_current l h s w : holds_last l h s → current l = Some w → cur s = Some w.
Proof.
  intros (v & w' & Hc & _ & Hv & Hl). unfold current. rewrite last_lookup, <- Hv. simpl. rewrite Hl. by intros [= <-].
Qed.
Lemma fake_calm R (rq : req R) f : (∀ c, target rq ≠ Some (KWSD, c)) → f_wsd (fake R rq f).2 = f_wsd f.
Proof. intros Ht. destruct rq as [| |k c y|k c y|k c y|k c y|k c y| | | | | |k c o|k c o y| | | | |]; try done; destruct k; try done; by destruct (Ht c). Qed.

Lemma fake_event R (rq : req R) f l h s :
  holds_last l h s → in_step l f → mon_ok s (Ev rq (fake R rq f).1) → no_update (Ev rq (fake R rq f).1) →
  ∃ l1 h1, serves key l h (Ev rq (fake R rq f).1) l1 h1 ∧
    holds_last l1 h1 (mon_step s (Ev rq (fake R rq f).1)) ∧ in_step l1 (fake R rq f).2.
Proof.
  intros Hh Hin Hok Hnu. pose proof Hin as (Hc & w & Hf & Hk & Hd).
  pose proof (holds_current _ _ _ _ Hh (eq_trans Hc Hf)) as Hcs.
  destruct Hh as (v & w0 & Hcw & -> & Hv & Hl). rewrite Hcs in Hcw. injection Hcw as <-.
  unfold mon_ok in Hok. unfold no_update in Hnu. rewrite Hnu in Hok.
  destruct (wsd_status (Ev rq (fake R rq f).1)) as [w'|] eqn:Est.
  - destruct Hok as (w0 & Hcw & Hm & Hs & _). rewrite Hcs in Hcw. injection Hcw as <-.
    destruct rq as [| | | |[] c w1| | | | | | | | | | | | | |]; try discriminate Est. injection Est as ->.
    assert (Hnew : write_status w w' = w') by (destruct w'; simpl in *; by subst).
    exists (l ++ [Some w']), (Some (length l)). cbn [fake fst snd]. unfold mon_step. cbn [wsd_received]. split_and!.
    + apply serve_stored; [|done]. exists v, w, w'. split_and!; try done; [unfold wsd_key; by rewrite Hm|by left].
    + exists (length l), w'. rewrite length_app, lookup_app_r, Nat.sub_diag by done. simpl. split_and!; try done. lia.
    + unfold in_step, current. rewrite last_snoc. unfold fake_put, store_wsd, deleting, set_f_wsd. cbn [f_wsd].
      rewrite Hm, Hd. cbn [is_Some andb]. split; [done|]. exists w'.
      split_and!; [done|unfold wsd_key in *; by rewrite Hm|by rewrite Hm].
  - destruct Hok as [Ht Ha]. destruct (wsd_asked (Ev rq (fake R rq f).1)) as [k'|] eqn:Ea.
    + rewrite (Ha k' w eq_refl Hcs), Hk in Ea.
      destruct rq as [[] c k| | | | | | | | | | | | | | | | | |]; try discriminate Ea.
      cbn [fake fake_get fst snd] in *. rewrite Hf in *. cbn [found] in *. exists l, (Some v).
      split_and!; [by apply (serve_get key l (Some v) _ v w)| |exact Hin]. exists v, w. by split_and!.
    + assert (Hr : wsd_received (Ev rq (fake R rq f).1) = None).
      { destruct rq as [[]| | |[]|[]| | | | | | | | | | | | | |]; done. }
      exists l, (Some v). split_and!; [by apply serve_calm| |].
      * exists v, w. unfold mon_step. by rewrite Hr.
      * unfold in_step. rewrite fake_calm by exact Ht. split; [done|]. by exists w.
Qed.

Lemma fake_served {A} (p : prog A) f l h s :
  holds_last l h s → in_step l f → accepts mon_step mon_ok s (run fake p f).1.1 → Forall no_update (run fake p f).1.1 →
  ∃ l' h', served key l h (run fake p f).1.1 l' h' ∧ in_step l' (run fake p f).2.
Proof.
  revert f l h s. induction p as [a|R rq k IH]; intros f l h s Hh Hi Ha Hn; [by exists l, h|]. cbn [run] in *.
  destruct (fake R rq f) as [x f1] eqn:Ef. destruct (run fake (k x) f1) as [[tr a] f2] eqn:Er. cbn [fst snd accepts] in *.
  destruct Ha as [Ha1 Ha2]. apply Forall_cons in Hn as [Hn1 Hn2].
  destruct (fake_event R rq f l h s Hh Hi) as (l1 & h1 & Hs & Hh1 & Hi1); [by rewrite Ef..|]. rewrite Ef in Hs, Hh1, Hi1.
  specialize (IH x f1 l1 h1 _ Hh1 Hi1). rewrite Er in IH. destruct (IH Ha2 Hn2) as (l' & h' & Hsv & Hi').
  exists l', h'. split; [by exists l1, h1|done].
Qed.

Lemma in_step_same l f f' : f_wsd f' = f_wsd f → in_step l f → in_step l f'.
Proof. unfold in_step. by intros ->. Qed.
(** A program that begins by reading the object. *)
Lemma fake_served_start {A} (k : res WorkspaceDeployment → prog A) f l :
  let p := Do (Get KWSD MgmtClient key) k in
  in_step l f → accepts mon_step mon_ok mon0 (run fake p f).1.1 → Forall no_update (run fake p f).1.1 →
  ∃ l' h', served key l None (run fake p f).1.1 l' h' ∧ in_step l' (run fake p f).2.
Proof.
  intros p Hi Ha Hn. pose proof Hi as (Hc & w & Hf & Hk & Hd). subst p. cbn [run fake fake_get] in *.
  rewrite Hf in *. cbn [found] in *. destruct (run fake (k (Ok w)) f) as [[tr a] f2] eqn:Er. cbn [fst snd accepts] in *.
  destruct Ha as [_ Ha]. apply Forall_cons in Hn as [_ Hn].
  assert (Hl : ∃ v, S v = length l ∧ l !! v = Some (Some w)).
  { unfold current in Hc. rewrite last_lookup in Hc. destruct (length l) as [|v] eqn:El; simpl in Hc;
      destruct (l !! _) as [[w'|]|] eqn:Ew; try done; injection Hc as ->;
      [by apply lookup_lt_Some in Ew; lia|by exists v]. }
  destruct Hl as (v & Hv & Hl).
  destruct (fake_served (k (Ok w)) f l (Some v) {| cur := Some w; deployed := false |}) as (l' & h' & Hs & Hi');
    [by exists v, w|exact Hi|by rewrite Er|by rewrite Er|]. rewrite Er in Hs, Hi'.
  exists l', h'. split; [|done]. exists l, (Some v). split; [|done]. by apply (serve_get key l None _ v w).
Qed.
Lemma reconcile_served r f l :
  in_step l f → Forall no_update (run fake (Reconcile r None key) f).1.1 →
  ∃ l' h', served key l None (run fake (Reconcile r None key) f).1.1 l' h' ∧ in_step l' (run fake (Reconcile r None key) f).2.
Proof.
  intros Hi. destruct (reconcile_safe r None no_provider key _ _ (run_exec fake (Reconcile r None key) f)) as [Ha _].
  revert Ha. unfold Reconcile, call, mbind, prog_bind, pbind. by apply fake_served_start.
Qed.

(** One more run of the system, from a server in step with it. *)
Lemma system_runs r s f :
  in_step (states s) f → Forall no_update (run fake (Reconcile r None key) f).1.1 →
  ∃ s', rtc (sys_step r None key) s s' ∧ in_step (states s') (run fake (Reconcile r None key) f).2.
Proof.
  intros Hi Hn. destruct (reconcile_served r f _ Hi Hn) as (l' & h' & Hs & Hi').
  pose proof (run_exec fake (Reconcile r None key) f) as Hx.
  assert (Hnew : (runs s ++ [new_run r None key]) !! length (runs s) = Some (new_run r None key))
    by by rewrite lookup_app_r, Nat.sub_diag.
  pose proof (exec_steps r None key _ _ _ Hx _ _ _ _ [] _ _ Hs Hnew) as Hst.
  eexists. split; [eapply rtc_l; [apply start_step|exact Hst]|exact Hi'].
Qed.
End fake_runs.

(** A workspace is created with its finalizer; one run deploys it, the release comes
    up, a second run finds it Running. *)
Definition ready_wsd : WorkspaceDeployment := upd_meta (AddFinalizer WorkspaceDeploymentFinalizer) (gpu_wsd 1).
Definition created : world := set_f_wsd (Some ready_wsd) (fake_world 1).
Definition after_first : world := deploy_all (reconcile_once created).2.
Definition after_second : world := (reconcile_once after_first).2.

Definition updates (tr : list event) : list WorkspaceDeployment := omap wsd_updated tr.
Lemma updates_none tr : updates tr = [] → Forall no_update tr.
Proof.
  induction tr as [|e tr IH]; [done|]. unfold updates, no_update. cbn [omap list_omap].
  destruct (wsd_updated e) eqn:E; [done|]. intros Ht. by constructor; [|apply IH].
Qed.

Lemma deploy_all_wsd f : f_wsd (deploy_all f) = f_wsd f.
Proof. done. Qed.
Lemma running_reachable :
  ∃ s, rtc (sys_step fake_reconciler None the_key) sys0 s ∧ in_step the_key (states s) after_second.
Proof.
  assert (H1 : sys_step fake_reconciler None the_key sys0 {| states := [None; Some ready_wsd]; runs := [] |}).
  { apply (others_step _ _ _ sys0 (Some ready_wsd)). vm_compute. done. }
  destruct (system_runs the_key fake_reconciler {| states := [None; Some ready_wsd]; runs := [] |} created) as (s1 & R1 & I1).
  { split; [done|]. by exists ready_wsd. }
  { apply updates_none. vm_compute. reflexivity. }
  destruct (system_runs the_key fake_reconciler s1 after_first) as (s2 & R2 & I2).
  { eapply in_step_same; [|exact I1]. apply deploy_all_wsd. }
  { apply updates_none. vm_compute. reflexivity. }
  exists s2. split; [|exact I2]. eapply rtc_l; [exact H1|]. by eapply rtc_trans.
Qed.
Lemma system_refines_machine_witness :
  ∃ s w, current (states s) = Some w ∧ w_Phase w = PhaseRunning ∧ rtc machine_step machine0 (abs (states s)) ∧
    ∃ w', Some w' ∈ states s ∧ w_Phase w' = PhaseDeploying.
Proof.
  destruct running_reachable as (s & Hr & Hc & w & Hw & _).
  destruct (system_refines_machine fake_reconciler None the_key no_provider s Hr) as (Hm & Hd & _).
  assert (Hp : w_Phase w = PhaseRunning).
  { assert (Hph : phase_of after_second = Some PhaseRunning) by (vm_compute; reflexivity).
    unfold phase_of in Hph. rewrite Hw in Hph. by injection Hph. }
  rewrite Hw in Hc. exists s, w. split; [exact Hc|]. split; [exact Hp|]. split; [exact Hm|]. exact (Hd w Hc Hp).
Defined.
