(* ===== verification/Gating.v ===== *)
(** * What a deployment implies: the GPU gate and its queue

    A ServiceSet for the workspace is written only by a run that passed the gate
    on the very selector it hands to the chart; waiting workspaces are served
    oldest first and never defer to each other in a circle. *)

From S2P Require Import Prelude GoString Api Naming QuantityNano Prog Gpu Values Feasibility Cluster.
From S2P Require Import ServiceSets Failure Prerequisites Routes Controller Reconcile Fake.

(** The ServiceSet an event writes to deploy a workspace: any create or update but
    the creation of a prerequisite's. *)
Definition deploy_write (e : event) : option ServiceSet :=
  match e with
  | Ev r _ =>
      match r with
      | Create KSS _ ss => if isPrerequisiteServiceSet ss then None else Some ss
      | Update KSS _ ss => Some ss
      | _ => None
      end
  end.
Definition no_deploy (e : event) : Prop := deploy_write e = None.

(** Membership in a longer trace. *)
Ltac sub_trace := intros; rewrite ?elem_of_app, ?elem_of_cons in *; tauto.

(** ** Programs that deploy nothing *)
Lemma read_only_no_deploy e : read_only e → no_deploy e.
Proof. destruct e as [R rq x]. by destruct rq as [| |k ? ?|k ? ?| | | | | | | | | | | | | | |]. Qed.
Lemma always_reads {A} (p : prog A) : always read_only p → always no_deploy p.
Proof. apply always_impl, read_only_no_deploy. Qed.

Ltac prove_quiet := prove_always; try (apply always_reads; solve [auto with prog]).

Lemma status_update_nd w : always no_deploy (status_update w).
Proof. unfold status_update. prove_always. Qed.
Lemma update_wsd_nd w : always no_deploy (update_wsd w).
Proof. unfold update_wsd. prove_always. Qed.
#[export] Hint Resolve status_update_nd update_wsd_nd : prog.
Lemma hold_pending_nd w m : always no_deploy (hold_pending w m).
Proof. unfold hold_pending. prove_quiet. Qed.
Lemma fail_and_update_nd r w a m : always no_deploy (fail_and_update r w a m).
Proof. unfold fail_and_update. prove_quiet. Qed.
Lemma enterWaiting_nd r w s m : always no_deploy (enterWaiting r w s m).
Proof. unfold enterWaiting. prove_quiet. Qed.
#[export] Hint Resolve hold_pending_nd fail_and_update_nd enterWaiting_nd : prog.
Lemma feasibility_reads `{QuantityOps} c d : always read_only (computeFeasibility c d).
Proof. unfold computeFeasibility. prove_always. Qed.
Lemma older_reads w s : always read_only (hasOlderWaitingSibling w s).
Proof. unfold hasOlderWaitingSibling. prove_always. Qed.
Lemma gpu_reads `{QuantityOps} c s : always read_only (resolveGPUResource c s).
Proof. unfold resolveGPUResource. prove_always. Qed.
#[export] Hint Resolve feasibility_reads older_reads gpu_reads : prog.

Lemma ensure_prereq_nd c w wsc p : always no_deploy (ensurePrerequisiteServiceSet c w wsc p).
Proof. unfold ensurePrerequisiteServiceSet. prove_always. Qed.
Lemma install_nd w wsc todo d : always no_deploy (install_missing w wsc todo d).
Proof.
  revert d. induction todo as [|[st p] todo IH]; intros d; [apply always_ret|].
  cbn [install_missing]. apply always_if; [apply IH|]. apply always_bind; [apply ensure_prereq_nd|].
  intros [err|]; [apply always_ret|apply IH].
Qed.
#[export] Hint Resolve ensure_prereq_nd install_nd : prog.

Section nd.
Context `{QuantityOps} (r : Reconciler) (rp : option RouteProvider).

Lemma resolve_class_nd w : always no_deploy (resolveWorkspaceClass r w).
Proof. unfold resolveWorkspaceClass. prove_quiet. Qed.
Lemma resolve_cluster_nd w : always no_deploy (resolveClusterDeployment w).
Proof. unfold resolveClusterDeployment. prove_quiet. Qed.
Lemma refresh_nd w wsc : always no_deploy (refreshFeasibility w wsc).
Proof. unfold refreshFeasibility. prove_quiet. Qed.
Lemma gate_nd w wsc : always no_deploy (gateGPUOffering r w wsc).
Proof. unfold gateGPUOffering. prove_quiet. Qed.
Lemma prerequisites_nd w wsc : always no_deploy (reconcilePrerequisites r w wsc).
Proof.
  unfold reconcilePrerequisites, fail_prerequisites, hold_installing, set_prereq_condition. prove_quiet.
Qed.
Lemma scan_nd w n svcs : always no_deploy (scan_services r w n svcs).
Proof.
  revert w. induction svcs as [|svc svcs IH]; intros w; [apply always_ret|]. cbn [scan_services].
  apply always_if; [apply IH|]. apply always_bind; [by apply always_call|]. intros [w'|]; [|apply always_ret].
  destruct (sv_State svc); [prove_quiet..|apply IH].
Qed.
Lemma readiness_nd w : always no_deploy (checkServiceReadiness r w).
Proof. unfold checkServiceReadiness. prove_quiet. apply scan_nd. Qed.

Context (Hlaws : ∀ p, rp = Some p → RouteProviderLaws p).

Lemma provider_no_deploy e : provider_event e → no_deploy e.
Proof.
  intros [_ Ht]. destruct e as [R rq x].
  destruct rq as [| |k c ?|k c ?| | | | | | | | | | | | | | |]; try done; destruct k; try done; by destruct (Ht c).
Qed.
Lemma routes_nd w wsc : always no_deploy (reconcileRoutes rp w wsc).
Proof.
  unfold reconcileRoutes. destruct rp as [p|]; [|apply always_ret]. pose proof (Hlaws p eq_refl) as HL.
  prove_quiet. eapply always_impl; [apply provider_no_deploy|apply ensure_routes_frame].
Qed.
End nd.
#[export] Hint Resolve resolve_class_nd resolve_cluster_nd refresh_nd gate_nd prerequisites_nd readiness_nd : prog.

(** ** What a passed gate has seen *)
Section gate.
Context `{QuantityOps} (r : Reconciler) (rp : option RouteProvider).

Definition resolved_of (w : WorkspaceDeployment) (wsc : WorkspaceClass) : WorkspaceResourceSpec :=
  mergeResources (wsc_DefaultResources (wsc_Spec wsc)) (Resources (w_Spec w)).

(** The client was built from the kubeconfig of the workspace's own cluster. *)
Definition child_client (w : WorkspaceDeployment) (c : client) (tr : list event) : Prop :=
  ∃ s bytes cfg,
    Ev (Get KSecret MgmtClient {| k_Namespace := r_Namespace (w_CDRef w);
                                  k_Name := r_Name (w_CDRef w) +:+ "-kubeconfig" |}) (Ok s) ∈ tr ∧
    sec_Data s !! "value" = Some bytes ∧
    Ev (RESTConfigFromKubeConfig bytes) (Ok cfg) ∈ tr ∧ Ev (NewClient cfg) (Ok c) ∈ tr.

(** Either no GPU is requested, or this run listed the nodes and pods of the
    workspace's cluster and all workspaces: the selector matches a GPU node, the
    demand is free, and no older workspace waits for the same selector there. *)
Definition gate_evidence (w : WorkspaceDeployment) (wsc : WorkspaceClass) (tr : list event) : Prop :=
  let resolved := resolved_of w wsc in
  let sel := gpuSelectorOf resolved in
  sel = ∅ ∨
  ∃ c nodes pods items,
    child_client w c tr ∧
    Ev (ListObjs KNode c list_all) (Ok nodes) ∈ tr ∧ Ev (ListObjs KPod c list_all) (Ok pods) ∈ tr ∧
    Ev (ListObjs KWSD MgmtClient list_all) (Ok items) ∈ tr ∧
    Found (AvailabilityForSelector nodes pods sel) = true ∧
    (gpuDemand resolved ≤ 0 ∨ gpuDemand resolved ≤ Free (AvailabilityForSelector nodes pods sel))%Z ∧
    Forall (λ s, older_waiting w (selectorKey sel) s = false) items.

Lemma child_client_exec w tr c :
  exec (getChildClusterClient MgmtClient w) tr (Ok c) → child_client w c tr.
Proof.
  intros (s & bytes & cfg & -> & Hv)%cluster_client_source. exists s, bytes, cfg. split_and!; [in_trace|done|in_trace..].
Qed.

Lemma evidence_mono w wsc tr tr' : (∀ e, e ∈ tr → e ∈ tr') → gate_evidence w wsc tr → gate_evidence w wsc tr'.
Proof.
  intros Hsub [?|(c & nodes & pods & items & (s & bytes & cfg & Hc) & Hrest)]; [by left|right].
  exists c, nodes, pods, items. split; [exists s, bytes, cfg|]; naive_solver.
Qed.

(** A program that always stops never yields a go. *)
Definition stops (p : prog (WorkspaceDeployment * Result * bool)) : Prop := ∀ tr x, exec p tr x → x.2 = false.
Lemma stops_bind {A} (p : prog A) (f : A → WorkspaceDeployment * Result * bool) :
  (∀ a, (f a).2 = false) → stops (a ← p; mret (f a)).
Proof. intros Hf tr x Hx. apply exec_bind in Hx as (? & ? & a & _ & _ & [_ ->]). apply Hf. Qed.

Lemma gate_pass w wsc tr w' res :
  exec (gateGPUOffering r w wsc) tr (w', res, true) → w' = w ∧ gate_evidence w wsc tr.
Proof.
  unfold gateGPUOffering. cbv zeta. fold (resolved_of w wsc). intros Hx.
  case_bool_decide as Hsel; [exec_inv; simplify_eq; split; [done|by left]|].
  assert (Hstop : ∀ {A} (p : prog A) f t, (∀ a, (f a).2 = false) → exec (a ← p; mret (f a)) t (w', res, true) → False).
  { intros A p f t Hf Hy. by apply stops_bind in Hy. }
  apply exec_bind in Hx as (t1 & t2 & [c|err] & -> & Hc & Hx); [|by apply Hstop in Hx].
  apply child_client_exec in Hc. exec_step Hx as [nodes|err]; [|by apply Hstop in Hx].
  exec_step Hx as [pods|err]; [|by apply Hstop in Hx].
  apply exec_if in Hx as [[_ Hx]|[Hf Hx]]; [by apply Hstop in Hx|].
  apply exec_if in Hx as [[_ Hx]|[Hd Hx]]; [by apply Hstop in Hx|].
  unfold hasOlderWaitingSibling in Hx. apply exec_bind in Hx as (t4 & t5 & older & -> & Ho & Hx).
  exec_step Ho as [items|err]; exec_inv; [|done].
  destruct (existsb _ items) eqn:Eo; [by apply Hstop in Hx|]. exec_inv. simplify_eq. split; [done|]. right.
  exists c, nodes, pods, items. split_and!; [|in_trace..| | |].
  - destruct Hc as (s & bytes & cfg & Hc). exists s, bytes, cfg. set_solver.
  - by apply negb_false_iff in Hf.
  - apply andb_false_iff in Hd as [Hd|Hd]; apply Z.ltb_ge in Hd; auto.
  - apply Forall_forall. intros s Hs. destruct (older_waiting _ _ s) eqn:E; [|done].
    rewrite <- Eo. symmetry. apply existsb_exists. exists s. by rewrite <- list_elem_of_In.
Qed.

(** ** The chart receives the validated selector *)
Lemma vendor_keeps_selector v res : gpuSelectorOf (set_vendor v res) = gpuSelectorOf res.
Proof. done. Qed.
Lemma resolve_gpu_selector c res tr x :
  exec (resolveGPUResource c res) tr x → gpuSelectorOf x.1 = gpuSelectorOf res.
Proof.
  assert (Hv : gpuSelectorOf (vendor_fallback res).1 = gpuSelectorOf res).
  { unfold vendor_fallback. by destruct (GPUVendor_ _). }
  unfold resolveGPUResource. cbv zeta. intros Hx. apply exec_if in Hx as [[_ Hx]|[_ Hx]]; [|by exec_inv].
  exec_step Hx as [nodes|err]; [|by exec_inv]. destruct (Found _); exec_inv; [|done].
  simpl. by destruct (GPUVendor_ (PerReplica res)).
Qed.

Definition carries_selector (v : RawJSON) (sel : gmap string string) : Prop :=
  ∃ m, v = RawVal (JObj m) ∧ get_nested m node_selector_path = Some (JObj (JStr <$> sel)).

Lemma chart_values_selector m resolved im name values warnings v :
  chart_values (Some m) resolved im name = (values, warnings) → serializeValues values = Ok v →
  gpuSelectorOf resolved ≠ ∅ → carries_selector v (gpuSelectorOf resolved).
Proof.
  unfold chart_values. destruct (injectResources_Some m resolved im) as [m1 Hm1].
  destruct (injectResources (Some m) resolved im) as [vals ws]. cbn [fst] in Hm1. subst vals.
  intros Hv Hs Hsel. rewrite bool_decide_eq_true_2 in Hv by done.
  destruct (node_selector_injected m1 (gpuSelectorOf resolved) name Hsel) as (m2 & Hm2 & Hg).
  rewrite Hm2 in Hv. injection Hv as <- <-. unfold serializeValues in Hs. simpl default in Hs.
  destruct (decide (m2 = ∅)) as [->|Hne]; [by rewrite get_nested_empty in Hg|].
  rewrite bool_decide_eq_false_2 in Hs by done. injection Hs as <-. by exists m2.
Qed.

Lemma merge_some class user m :
  mergeValuesMap class user = Returns (Ok m) → class ≠ Some (RawVal JNull) → is_Some m.
Proof.
  unfold mergeValuesMap, assign_all, raw_present. intros Hm Hc.
  destruct class as [[|?|[| | | | | |c]]|]; try done;
    destruct user as [[|?|[| | | | | |u]]|]; simpl in Hm; simplify_eq; eauto.
Qed.

(** ** The only writer *)
Definition deploys (w : WorkspaceDeployment) (wsc : WorkspaceClass) (ss : ServiceSet) : Prop :=
  ∃ v, ss_Services ss = [workspace_service w wsc v] ∧
    (gpuSelectorOf (resolved_of w wsc) ≠ ∅ → wsc_DefaultValues (wsc_Spec wsc) ≠ Some (RawVal JNull) →
     carries_selector v (gpuSelectorOf (resolved_of w wsc))).

Definition same_identity (w w' : WorkspaceDeployment) : Prop := w_meta w' = w_meta w ∧ w_Spec w' = w_Spec w.
Lemma same_identity_service w w' wsc v :
  same_identity w w' → workspace_service w' wsc v = workspace_service w wsc v.
Proof.
  intros [Hm Hs]. unfold workspace_service, serviceEntryName, workspaceNamespaceName, HelmReleaseName,
    WorkspaceNamespaceName. by rewrite Hm, Hs.
Qed.

(** Events of a program that deploys nothing are not the write looked for. *)
Lemma nd_absurd {A} (p : prog A) tr x e ss :
  exec p tr x → always no_deploy p → e ∈ tr → deploy_write e = Some ss → False.
Proof using Type.
  intros Hx Hp Hin He. apply Hp in Hx. rewrite Forall_forall in Hx. apply Hx in Hin.
  unfold no_deploy in Hin. congruence.
Qed.
Lemma nd_rest {A} (p : prog A) tr1 tr2 x e ss :
  exec p tr1 x → always no_deploy p → e ∈ tr1 ++ tr2 → deploy_write e = Some ss → e ∈ tr2.
Proof using Type. intros Hx Hp [Hin|Hin]%elem_of_app He; [|done]. by eapply nd_absurd in Hin. Qed.

Lemma deploy_writes c w wsc v tr x e ss :
  exec (deploy r c w wsc v) tr x → e ∈ tr → deploy_write e = Some ss →
  ss_Services ss = [workspace_service w wsc v].
Proof.
  unfold deploy. intros Hx Hin He.
  apply exec_bind in Hx as (t1 & t2 & ready & -> & H1 & Hx).
  eapply nd_rest in Hin; [|exact H1|unfold ensureWorkspaceNamespace; prove_always|exact He].
  destruct ready as [[|]|err]; [| |exec_inv; set_solver].
  2: { exfalso. eapply nd_absurd; [exact Hx|prove_quiet|exact Hin|exact He]. }
  apply exec_bind in Hx as (t3 & t4 & err & -> & H3 & Hx). apply elem_of_app in Hin as [Hin|Hin].
  - apply serviceset_writes in H3. rewrite Forall_forall in H3. specialize (H3 e Hin).
    destruct e as [R rq y].
    destruct rq as [| |k ? ?|k ? ?| | | | | | | | | | | | | | |]; try done; destruct k; try done; simpl in He, H3.
    + destruct (isPrerequisiteServiceSet x0); [done|]. by simplify_eq.
    + by simplify_eq.
  - exfalso. eapply nd_absurd; [exact Hx| |exact Hin|exact He].
    unfold fail_internal. destruct err; cbv zeta; prove_quiet.
Qed.

Lemma start_writes w wsc tr x e ss :
  exec (startDeployment r w wsc) tr x → e ∈ tr → deploy_write e = Some ss → deploys w wsc ss.
Proof.
  unfold startDeployment. cbv zeta. fold (resolved_of w wsc). intros Hx Hin He.
  apply exec_bind in Hx as (t1 & t2 & [c|err] & -> & H1 & Hx);
    (eapply nd_rest in Hin; [|exact H1|apply always_reads; auto with prog|exact He]).
  2: { exfalso. eapply nd_absurd; [exact Hx|prove_quiet|exact Hin|exact He]. }
  apply exec_bind in Hx as (t3 & t4 & [resolved name] & -> & H3 & Hx).
  eapply nd_rest in Hin; [|exact H3|apply always_reads; auto with prog|exact He].
  apply resolve_gpu_selector in H3. cbn [fst] in H3. cbv beta iota in Hx.
  destruct (mergeValuesMap _ _) as [[merged|err]|] eqn:Em.
  2,3: exfalso; eapply nd_absurd; [exact Hx|unfold fail_internal; prove_quiet|exact Hin|exact He].
  destruct (chart_values _ _ _ _) as [values warnings] eqn:Ec.
  apply exec_bind in Hx as (t5 & t6 & w3 & -> & H5 & Hx).
  assert (Hid : same_identity w w3).
  { unfold setResourcesInjectedCondition in H5. destruct warnings; apply setCondition_frame in H5 as (? & ? & _); done. }
  eapply nd_rest in Hin; [|exact H5| |exact He].
  2: { unfold setResourcesInjectedCondition. destruct warnings; apply always_reads; auto with prog. }
  destruct (serializeValues values) as [v|err] eqn:Es.
  2: { exfalso. eapply nd_absurd; [exact Hx|unfold fail_internal; prove_quiet|exact Hin|exact He]. }
  eapply deploy_writes in Hx; [|exact Hin|exact He]. rewrite (same_identity_service w w3) in Hx by done.
  exists v. split; [exact Hx|]. intros Hsel Hc. destruct (merge_some _ _ _ Em Hc) as [m ->].
  rewrite <- H3 in *. by eapply chart_values_selector.
Qed.

(** ** The path to it *)
Context (Hlaws : ∀ p, rp = Some p → RouteProviderLaws p).

Definition undecided (p : Phase) : bool :=
  match p with PhaseDeploying | PhaseRunning | PhaseFailed => false | _ => true end.

Lemma phase_writes w wsc tr x e ss :
  exec (reconcile_phase r rp w wsc) tr x → e ∈ tr → deploy_write e = Some ss →
  undecided (w_Phase w) = true ∧ deploys w wsc ss.
Proof.
  unfold reconcile_phase. intros Hx Hin He.
  destruct (w_Phase w); try (split; [done|by eapply start_writes]); exfalso;
    (eapply nd_absurd; [exact Hx| |exact Hin|exact He]); [auto with prog| |apply always_ret].
  apply always_bind; [by apply routes_nd|]. intros [[? ?] ?]. prove_always.
Qed.

Lemma fail_prerequisites_stops w reason msg t w' res err :
  exec (fail_prerequisites r w reason msg) t (w', res, false, err) → False.
Proof.
  unfold fail_prerequisites. intros Hy. do 3 (apply exec_bind in Hy as (? & ? & ? & _ & _ & Hy)).
  by destruct Hy as [_ [=]].
Qed.
Lemma hold_installing_stops w l t w' res err :
  exec (hold_installing w l) t (w', res, false, err) → False.
Proof.
  unfold hold_installing. cbv zeta. intros Hy. apply exec_bind in Hy as (? & ? & ? & _ & _ & Hy).
  apply exec_bind in Hy as (? & ? & u & _ & _ & Hy). destruct (u.2); by destruct Hy as [_ [=]].
Qed.

Lemma prerequisites_identity w wsc tr w' res d :
  exec (reconcilePrerequisites r w wsc) tr (w', res, d, None) → d = false →
  same_identity w w' ∧ w_Phase w' = w_Phase w.
Proof.
  unfold reconcilePrerequisites, set_prereq_condition. cbv zeta. intros Hx ->.
  apply exec_bind in Hx as (t1 & t2 & [[v sts]|err] & -> & _ & Hx); [|by exec_inv].
  destruct v; [|exfalso; eapply hold_installing_stops; exact Hx| |exfalso; eapply fail_prerequisites_stops; exact Hx..].
  - apply exec_bind in Hx as (t3 & t4 & w2 & -> & H3 & Hx). exec_inv. simplify_eq.
    apply setCondition_frame in H3. pose proof (same_but_conditions_phase _ _ H3) as Hp.
    destruct H3 as (? & ? & _). done.
  - apply exec_bind in Hx as (t3 & t4 & [l|err] & -> & H3 & Hx);
      [by apply hold_installing_stops in Hx|]. exec_inv. by simplify_eq.
Qed.

Lemma prereq_step_writes w wsc tr x e ss :
  exec (reconcile_prerequisites_step r rp w wsc) tr x → e ∈ tr → deploy_write e = Some ss →
  undecided (w_Phase w) = true ∧ deploys w wsc ss.
Proof.
  unfold reconcile_prerequisites_step. intros Hx Hin He.
  destruct (wsc_Prerequisites _); [by eapply phase_writes|].
  apply exec_bind in Hx as (t1 & t2 & [[[w' res] d] err] & -> & H1 & Hx).
  eapply nd_rest in Hin; [|exact H1|auto with prog|exact He].
  destruct err; [exec_inv; set_solver|]. destruct d; [exec_inv; set_solver|].
  apply prerequisites_identity in H1 as [[Hm Hs] Hp]; [|done].
  destruct (phase_writes _ _ _ _ _ _ Hx Hin He) as [Hu (v & Hv & Hsel)]. rewrite Hp in Hu. split; [done|].
  exists v. rewrite (same_identity_service w w') in Hv by done. split; [done|].
  unfold resolved_of in *. by rewrite Hs in Hsel.
Qed.

(** A write after a stage that deploys nothing happens in what follows it. *)
Lemma stage_split {A} (p : prog A) t1 t2 a pre e post ss :
  exec p t1 a → always no_deploy p → pre ++ e :: post = t1 ++ t2 → deploy_write e = Some ss →
  ∃ pre', pre = t1 ++ pre' ∧ t2 = pre' ++ e :: post.
Proof using Type.
  intros Hx Hp Heq He. eapply split_past; [by eapply Hp|unfold no_deploy; congruence|exact Heq].
Qed.

(** The deciding stage: the write implies the gate's evidence before it. *)
Lemma gate_step_writes w wsc tr x pre e post ss :
  exec (gate_step r rp w wsc) tr x → tr = pre ++ e :: post → deploy_write e = Some ss →
  deploys w wsc ss ∧ gate_evidence w wsc pre.
Proof.
  unfold gate_step. intros Hx -> He.
  assert (Hg : exec (g ← gateGPUOffering r w wsc;
    let '(wsd, res, ok) := g in if negb ok then mret (ok_result res) else reconcile_prerequisites_step r rp wsd wsc)
    (pre ++ e :: post) x → deploys w wsc ss ∧ gate_evidence w wsc pre).
  { intros Hy. apply exec_bind in Hy as (t1 & t2 & [[w' res] ok] & Heq & H1 & Hy).
    destruct (stage_split _ _ _ _ _ _ _ _ H1 (gate_nd r w wsc) Heq He) as (pre' & -> & ->).
    destruct ok; cbn [negb] in Hy; [|exec_inv; by destruct pre']. apply gate_pass in H1 as [-> Hev]. split.
    - eapply prereq_step_writes; [exact Hy| |exact He]. set_solver.
    - eapply evidence_mono; [|exact Hev]. set_solver. }
  assert (Hn : undecided (w_Phase w) = false → exec (reconcile_prerequisites_step r rp w wsc) (pre ++ e :: post) x → False).
  { intros Hu Hy. destruct (prereq_step_writes _ _ _ _ e ss Hy) as [Hu' _]; [set_solver|exact He|congruence]. }
  destruct (w_Phase w); first [by apply Hg|exfalso; by apply Hn].
Qed.

(** *** Where the object in hand comes from *)
Definition known (w : WorkspaceDeployment) (tr : list event) : Prop :=
  ∃ e w0, e ∈ tr ∧ wsd_received e = Some w0 ∧ same_identity w0 w.
Definition derived (w : WorkspaceDeployment) (tr : list event) (w' : WorkspaceDeployment) : Prop :=
  same_identity w w' ∨ known w' tr.

Lemma known_mono w tr tr' : (∀ e, e ∈ tr → e ∈ tr') → known w tr → known w tr'.
Proof using Type. intros Hs (e & w0 & He & Hr). exists e, w0. auto. Qed.
Lemma known_derived w tr tr' w' : known w tr → derived w tr' w' → known w' (tr ++ tr').
Proof using Type.
  intros (e & w0 & He & Hr & Hm & Hs) [[Hm' Hs']|Hk].
  - exists e, w0. split; [sub_trace|]. split; [done|]. split; congruence.
  - eapply known_mono; [|exact Hk]. sub_trace.
Qed.
Lemma derived_refl w tr w' : w_meta w' = w_meta w → w_Spec w' = w_Spec w → derived w tr w'.
Proof. intros. by left. Qed.
Lemma derived_mono w tr tr' w' : (∀ e, e ∈ tr → e ∈ tr') → derived w tr w' → derived w tr' w'.
Proof. intros Hs [?|Hk]; [by left|right]. by eapply known_mono. Qed.

Lemma update_derived w w1 tr u :
  exec (status_update w1) tr u → same_identity w w1 → derived w tr u.1.
Proof.
  unfold status_update. intros Hx Hi. exec_step Hx as [w'|err]; exec_inv; [right|by left].
  eexists _, w'. split; [in_trace|done].
Qed.
(** A condition, then a status write. *)
Lemma condition_update_derived w w1 c t1 w2 t2 u :
  exec (setCondition w1 c) t1 w2 → exec (status_update w2) t2 u → same_identity w w1 → derived w (t1 ++ t2) u.1.
Proof.
  intros (Hm & Hs & _)%setCondition_frame Hu [Hm' Hs']. eapply derived_mono; [|eapply update_derived; [exact Hu|]].
  - sub_trace.
  - split; congruence.
Qed.

Lemma resolve_class_derived w tr w' wsc :
  exec (resolveWorkspaceClass r w) tr (w', Ok (Some wsc)) →
  w' = w ∧ Ev (Get KWSC MgmtClient (class_key w)) (Ok wsc) ∈ tr.
Proof.
  unfold resolveWorkspaceClass. intros Hx. exec_step Hx as [c|err].
  - exec_inv. simplify_eq. split; [done|in_trace].
  - destruct (IsNotFound err); [|exec_inv; done]. exfalso.
    apply exec_bind in Hx as (? & ? & ? & _ & _ & Hx). apply exec_bind in Hx as (? & ? & ? & _ & _ & Hx).
    apply exec_bind in Hx as (? & ? & u & _ & _ & [_ Hx]). by destruct (u.2).
Qed.
Lemma resolve_cluster_derived w tr w' res :
  exec (resolveClusterDeployment w) tr (w', res, true, None) → same_identity w w'.
Proof.
  unfold resolveClusterDeployment. cbv zeta. intros Hx. exec_step Hx as [c|err].
  - apply exec_bind in Hx as (t1 & t2 & w1 & -> & Hc & Hx). exec_inv. simplify_eq.
    by apply setCondition_frame in Hc as (? & ? & _).
  - destruct (IsNotFound err); [|exec_inv; done]. exfalso.
    apply exec_bind in Hx as (? & ? & ? & _ & _ & Hx). apply exec_bind in Hx as (? & ? & u & _ & _ & Hx).
    by destruct (u.2); destruct Hx as [_ [=]].
Qed.
Lemma refresh_derived w wsc tr w' res err :
  exec (refreshFeasibility w wsc) tr (w', res, err) → derived w tr w'.
Proof.
  unfold refreshFeasibility. cbv zeta. intros Hx.
  assert (Hun : ∀ c t, exec (w1 ← setCondition w c; u ← status_update w1; mret (u.1, requeue, None)) t (w', res, err) →
            derived w t w').
  { intros c t Hy. apply exec_bind in Hy as (t1 & t2 & w1 & -> & Hc & Hy).
    apply exec_bind in Hy as (t3 & t4 & u & -> & Hu & [-> [=->]]). rewrite app_nil_r.
    eapply condition_update_derived; [exact Hc|exact Hu|done]. }
  apply exec_bind in Hx as (t1 & t2 & [cl|e] & -> & _ & Hx).
  2: { apply Hun in Hx. eapply derived_mono; [|exact Hx]. sub_trace. }
  apply exec_bind in Hx as (t3 & t4 & [feas|e] & -> & _ & Hx).
  2: { apply Hun in Hx. eapply derived_mono; [|exact Hx]. sub_trace. }
  apply exec_bind in Hx as (t5 & t6 & w1 & -> & Hc & Hx).
  apply exec_bind in Hx as (t7 & t8 & u & -> & Hu & [-> [=->]]). rewrite app_nil_r.
  eapply derived_mono; [|eapply condition_update_derived; [exact Hc|exact Hu|done]]. sub_trace.
Qed.

(** *** The stages above *)
Definition gated (tr : list event) (wsc : WorkspaceClass) (ss : ServiceSet) : Prop :=
  ∃ w, known w tr ∧ deploys w wsc ss ∧ gate_evidence w wsc tr.

Lemma feasibility_step_writes w wsc hist tr x pre e post ss :
  exec (feasibility_step r rp w wsc) tr x → tr = pre ++ e :: post → deploy_write e = Some ss →
  known w hist → gated (hist ++ pre) wsc ss.
Proof.
  unfold feasibility_step. intros Hx -> He Hk.
  assert (Hdirect : exec (gate_step r rp w wsc) (pre ++ e :: post) x → gated (hist ++ pre) wsc ss).
  { intros Hy. destruct (gate_step_writes _ _ _ _ _ _ _ _ Hy eq_refl He) as [Hd Hev]. exists w. split_and!; [|done|].
    - eapply known_mono; [|exact Hk]. sub_trace.
    - eapply evidence_mono; [|exact Hev]. sub_trace. }
  assert (Hvia : exec (f ← refreshFeasibility w wsc; let '(wsd, res, err) := f in
     match err with Some err => mret (Returned res (Some err)) | None => gate_step r rp wsd wsc end)
     (pre ++ e :: post) x → gated (hist ++ pre) wsc ss).
  { intros Hy. apply exec_bind in Hy as (t1 & t2 & [[w' res] err] & Heq & H1 & Hy).
    destruct (stage_split _ _ _ _ _ _ _ _ H1 (refresh_nd w wsc) Heq He) as (pre' & -> & ->).
    destruct err; [exec_inv; by destruct pre'|].
    destruct (gate_step_writes _ _ _ _ _ _ _ _ Hy eq_refl He) as [Hd Hev]. exists w'. split_and!; [|done|].
    - apply refresh_derived in H1. eapply known_mono; [|exact (known_derived _ _ _ _ Hk H1)]. sub_trace.
    - eapply evidence_mono; [|exact Hev]. sub_trace. }
  destruct (w_Phase w); auto.
Qed.

Lemma cluster_step_writes w wsc hist tr x pre e post ss :
  exec (cluster_step r rp w wsc) tr x → tr = pre ++ e :: post → deploy_write e = Some ss →
  known w hist → gated (hist ++ pre) wsc ss.
Proof.
  unfold cluster_step. intros Hx -> He Hk. case_bool_decide; [|by eapply feasibility_step_writes].
  apply exec_bind in Hx as (t1 & t2 & [[[w' res] ok] err] & Heq & H1 & Hx).
  destruct (stage_split _ _ _ _ _ _ _ _ H1 (resolve_cluster_nd w) Heq He) as (pre' & -> & ->).
  destruct err; [exec_inv; by destruct pre'|]. destruct ok; cbn [negb] in Hx; [|exec_inv; by destruct pre'].
  apply resolve_cluster_derived in H1 as Hi. rewrite app_assoc.
  eapply feasibility_step_writes; [exact Hx|done|exact He|]. eapply known_derived; [exact Hk|by left].
Qed.

Lemma live_writes w hist tr x pre e post ss :
  exec (reconcile_live r rp w) tr x → tr = pre ++ e :: post → deploy_write e = Some ss → known w hist →
  ∃ wsc, Ev (Get KWSC MgmtClient (class_key w)) (Ok wsc) ∈ pre ∧ gated (hist ++ pre) wsc ss.
Proof.
  unfold reconcile_live. intros Hx -> He Hk.
  apply exec_bind in Hx as (t1 & t2 & [w1 cl] & Heq & H1 & Hx).
  destruct (stage_split _ _ _ _ _ _ _ _ H1 (resolve_class_nd r w) Heq He) as (pre' & -> & ->). cbn [fst snd] in Hx.
  destruct cl as [[wsc|]|err]; [|exec_inv; by destruct pre'..].
  apply resolve_class_derived in H1 as [-> Hcl].
  apply exec_bind in Hx as (t3 & t4 & w2 & Heq2 & H3 & Hx).
  destruct (stage_split _ _ _ _ _ _ _ _ H3 (always_reads _ (setCondition_reads _ _)) Heq2 He) as (pre2 & -> & ->).
  exists wsc. split; [sub_trace|]. rewrite !app_assoc.
  eapply cluster_step_writes; [exact Hx|done|exact He|]. rewrite <- app_assoc.
  eapply known_derived; [exact Hk|]. left. by apply setCondition_frame in H3 as (? & ? & _).
Qed.

Lemma delete_nd w : always no_deploy (reconcileDelete r rp w).
Proof.
  unfold reconcileDelete, mark_deleting, delete_backend, remove_finalizer, cleanupWorkspaceNamespace,
    targetClusterGone, forceDeleteWorkspaceServiceSet, ensureWorkspaceServiceSetDeleted, deleteWorkspaceNamespace.
  prove_quiet. eapply always_impl; [apply provider_no_deploy|by apply cleanup_routes_events].
Qed.
End gate.

(** C3: No ServiceSet behind the back of the GPU gate.  In every execution of
    [Reconcile], a ServiceSet for a workspace is written only after this run received
    the workspace and its class and either the resolved resources name no GPU selector
    (neither a model nor node labels; a request by count or vendor alone has none and
    is not gated, see [count_only_requests_are_not_gated]) or the gate was passed in
    this run: nodes and pods of the workspace's own cluster were listed, the selector
    matches a schedulable GPU node, the demanded GPUs, if any, are free, and no older
    workspace of the listing waits for the same selector on that cluster.  What is
    written is the workspace's one service; when there is a selector, and the default
    values of the class are not the JSON value null, its values carry exactly that
    selector as the chart's node selector. *)
Theorem deployment_is_gated `{QuantityOps} r rp key tr x pre e post ss :
  (∀ p, rp = Some p → RouteProviderLaws p) →
  exec (Reconcile r rp key) tr x → tr = pre ++ e :: post → deploy_write e = Some ss →
  ∃ w0 wsc, known w0 pre ∧ Ev (Get KWSC MgmtClient (class_key w0)) (Ok wsc) ∈ pre ∧ gated pre wsc ss.
Proof.
  intros Hlaws Hx Htr He. subst tr. unfold Reconcile in Hx. apply exec_bind in Hx as (t1 & t2 & got & Heq & H1 & Hx).
  assert (Hg : always no_deploy (call (Get KWSD MgmtClient key))) by by apply always_call.
  destruct (stage_split _ _ _ _ _ _ _ _ H1 Hg Heq He) as (pre' & -> & ->). apply exec_call in H1 as ->.
  destruct got as [w|err]; [|destruct (IsNotFound err); exec_inv; by destruct pre'].
  assert (Hk : known w [Ev (Get KWSD MgmtClient key) (Ok w)]) by (eexists _, w; split; [in_trace|done]).
  apply exec_if in Hx as [[_ Hx]|[_ Hx]]; [exec_inv; by destruct pre'|].
  apply exec_if in Hx as [[_ Hx]|[_ Hx]].
  { exfalso. eapply nd_absurd; [exact Hx|by apply delete_nd| |exact He]. sub_trace. }
  apply exec_if in Hx as [[_ Hx]|[_ Hx]].
  - apply exec_bind in Hx as (t3 & t4 & u & Heq2 & H3 & Hx).
    destruct (stage_split _ _ _ _ _ _ _ _ H3 (update_wsd_nd _) Heq2 He) as (pre2 & -> & ->).
    destruct (u.2) eqn:Eu; [exec_inv; by destruct pre2|].
    assert (Hk2 : known u.1 t3).
    { unfold update_wsd in H3. exec_step H3 as [w'|err]; exec_inv; [|done]. eexists _, w'. split; [in_trace|done]. }
    destruct (live_writes r rp Hlaws _ _ _ _ _ _ _ _ Hx eq_refl He Hk2) as (wsc & Hc & w' & Hw & Hd & Hev).
    exists u.1, wsc. split_and!.
    + eapply known_mono; [|exact Hk2]. sub_trace.
    + sub_trace.
    + exists w'. split_and!; [eapply known_mono; [|exact Hw]; sub_trace|done|eapply evidence_mono; [|exact Hev]; sub_trace].
  - destruct (live_writes r rp Hlaws _ _ _ _ _ _ _ _ Hx eq_refl He Hk) as (wsc & Hc & Hgt).
    exists w, wsc. split_and!; [eapply known_mono; [|exact Hk]; sub_trace|sub_trace|done].
Qed.

Definition deploys_something (e : event) : bool := match deploy_write e with Some _ => true | None => false end.
Lemma deployment_is_gated_witness : ∃ pre wsc ss, gated pre wsc ss.
Proof.
  destruct (event_of_run deploys_something (events_of (reconcile_once (fake_world 1)))) as (pre & e & post & Htr & He).
  { vm_compute. reflexivity. }
  unfold deploys_something in He. destruct (deploy_write e) as [ss|] eqn:Ed; [|discriminate].
  destruct (deployment_is_gated fake_reconciler None the_key _ (reconcile_once (fake_world 1)).1.2 pre e post ss
              no_provider (fake_exec _) Htr Ed) as (w0 & wsc & _ & _ & Hg).
  exists pre, wsc, ss. exact Hg.
Defined.

(** The gate looks at the selector only: a workspace that asks for eight GPUs of a
    vendor, but for no model and no label, is deployed on a cluster without any. *)
Definition count_only : WorkspaceResourceSpec :=
  {| Replicas := Some 1%Z;
     PerReplica := {| CPU := None; Memory := None; Storage := None; GPUCount := Some 8%Z;
                      GPUVendor_ := Some GPUVendorNVIDIA; GPUType := None; GPUNodeSelector := None |} |}.
Definition gpuless_world : world :=
  let f := fake_world 8 in
  {| f_now := f_now f;
     f_wsd := (λ w, {| w_meta := w_meta w;
                       w_Spec := {| WorkspaceClassRef := WorkspaceClassRef (w_Spec w);
                                    ClusterDeploymentRef_ := w_CDRef w; Resources := Some count_only;
                                    Values := None; Suspend := false |};
                       w_Status := w_Status w |}) <$> f_wsd f;
     f_others := []; f_wsc := f_wsc f; f_cd := f_cd f; f_sss := []; f_namespaces := []; f_nodes := [];
     f_pods := []; f_child_up := true |}.
Theorem count_only_requests_are_not_gated :
  phase_of (reconcile_once gpuless_world).2 = Some PhaseDeploying ∧
  length (f_sss (reconcile_once gpuless_world).2) = 1.
Proof. split; vm_compute; reflexivity. Qed.

(** ** The queue of waiting workspaces *)

Lemma older_spec a b :
  isOlderWorkspace a b = true ↔
  (m_CreationTimestamp (w_meta a) < m_CreationTimestamp (w_meta b))%Z ∨
  m_CreationTimestamp (w_meta a) = m_CreationTimestamp (w_meta b) ∧ str_ltb (w_UID a) (w_UID b) = true.
Proof.
  unfold isOlderWorkspace.
  destruct (Z.eqb_spec (m_CreationTimestamp (w_meta a)) (m_CreationTimestamp (w_meta b))) as [E|E].
  - rewrite E. split; [auto|]. intros [?|[_ ?]]; [lia|done].
  - rewrite Z.ltb_lt. split; [auto|]. by intros [?|[? _]].
Qed.

(** "Older" is a strict order, total on different UIDs. *)
Lemma older_irrefl a : isOlderWorkspace a a = false.
Proof. apply not_true_is_false. rewrite older_spec, str_ltb_irrefl. intros [?|[_ ?]]; [lia|done]. Qed.
Lemma older_trans a b c :
  isOlderWorkspace a b = true → isOlderWorkspace b c = true → isOlderWorkspace a c = true.
Proof.
  rewrite !older_spec. intros [?|[E1 L1]] [?|[E2 L2]]; try (left; lia).
  right. split; [lia|]. by eapply str_ltb_trans.
Qed.
Lemma older_asym a b : isOlderWorkspace a b = true → isOlderWorkspace b a = false.
Proof.
  intros H1. apply not_true_is_false. intros H2. pose proof (older_trans _ _ _ H1 H2) as H3.
  by rewrite older_irrefl in H3.
Qed.
Lemma older_total a b : w_UID a ≠ w_UID b → isOlderWorkspace a b = true ∨ isOlderWorkspace b a = true.
Proof.
  intros Hne. rewrite !older_spec.
  destruct (Z.lt_trichotomy (m_CreationTimestamp (w_meta a)) (m_CreationTimestamp (w_meta b))) as [?|[E|?]]; auto.
  destruct (str_ltb (w_UID a) (w_UID b)) eqn:L1; [auto|]. destruct (str_ltb (w_UID b) (w_UID a)) eqn:L2; [auto|].
  exfalso. apply Hne. by apply str_ltb_tricho.
Qed.

(** [w] waits for the selector key [k] on the cluster [cd]. *)
Definition waits (k : string) (cd : ClusterDeploymentRef) (w : WorkspaceDeployment) : Prop :=
  w_Phase w = PhaseWaiting ∧ w_CDRef w = cd ∧ selectorKey (effectiveGPUSelector w) = k.
#[local] Instance waits_dec k cd w : Decision (waits k cd w).
Proof. unfold waits. apply _. Defined.

Lemma older_waiting_spec w k s :
  older_waiting w k s = true ↔
  w_UID s ≠ w_UID w ∧ w_Phase s = PhaseWaiting ∧ w_CDRef s = w_CDRef w ∧
  selectorKey (effectiveGPUSelector s) = k ∧ isOlderWorkspace s w = true.
Proof. unfold older_waiting. repeat case_bool_decide; naive_solver. Qed.

(** The answer to a listing of the workspaces. *)
Definition listing_answer (e : event) : option (res (list WorkspaceDeployment)) :=
  match e with
  | Ev r x =>
      match r in req R return R → option (res (list WorkspaceDeployment)) with
      | ListObjs KWSD _ _ => Some
      | _ => λ _, None
      end x
  end.

(** What the check answers on a listing. *)
Lemma has_older_answer s sel items b :
  exec (hasOlderWaitingSibling s sel) [Ev (ListObjs KWSD MgmtClient list_all) (Ok items)] (Ok b) ↔
  b = existsb (older_waiting s (selectorKey sel)) items.
Proof.
  unfold hasOlderWaitingSibling. split.
  - intros Hx. apply exec_bind in Hx as (t1 & t2 & y & Ht & ->%exec_call & Hx). cbn in Ht.
    apply (f_equal head) in Ht as Hy. apply (inj Some), (f_equal listing_answer), (inj Some) in Hy as <-.
    by destruct Hx as [_ [= ->]].
  - intros ->. cbn. exists (Ok items), []. by split.
Qed.

(** A UID names one workspace of a listing. *)
Lemma uid_unique ws a b :
  NoDup ((λ w, w_UID w) <$> ws) → a ∈ ws → b ∈ ws → w_UID a = w_UID b → a = b.
Proof.
  intros Hnd Ha Hb E. apply list_elem_of_lookup in Ha as [i Hi], Hb as [j Hj].
  assert (i = j) as ->; [|congruence].
  eapply (NoDup_lookup _ i j _ Hnd); rewrite list_lookup_fmap, ?Hi, ?Hj; simpl; [done|by rewrite E].
Qed.

Lemma oldest_exists ws :
  NoDup ((λ w, w_UID w) <$> ws) → ws ≠ [] →
  ∃ w, w ∈ ws ∧ ∀ s, s ∈ ws → w_UID s ≠ w_UID w → isOlderWorkspace w s = true.
Proof.
  induction ws as [|a ws IH]; intros Hnd Hne; [done|]. rewrite fmap_cons in Hnd. apply NoDup_cons in Hnd as [Ha Hnd].
  destruct ws as [|b ws].
  { exists a. split; [set_solver|]. intros s [->|[]%elem_of_nil]%elem_of_cons; done. }
  destruct (IH Hnd) as (w & Hw & Hmin); [done|].
  assert (Hu : w_UID a ≠ w_UID w) by (intros E; apply Ha; rewrite E; apply list_elem_of_fmap; eauto).
  destruct (older_total a w Hu) as [Hl|Hl].
  - exists a. split; [apply list_elem_of_here|]. intros s [->|Hs]%elem_of_cons Hsu; [done|].
    destruct (decide (w_UID s = w_UID w)) as [E|E]; [|by eapply older_trans, Hmin].
    by rewrite (uid_unique _ s w Hnd Hs Hw E).
  - exists w. split; [by apply list_elem_of_further|]. intros s [->|Hs]%elem_of_cons Hsu; [done|]. by apply Hmin.
Qed.

(** Creation order, ties broken by UID. *)
Definition before (a b : WorkspaceDeployment) : Prop :=
  (m_CreationTimestamp (w_meta a) < m_CreationTimestamp (w_meta b))%Z ∨
  m_CreationTimestamp (w_meta a) = m_CreationTimestamp (w_meta b) ∧ str_ltb (w_UID a) (w_UID b) = true.

(** C25: First come, first served, without a deadlock.  Let [items] be a listing of all
    workspaces, with distinct UIDs, in which some wait for one selector (compared by
    its key, as the code does) on one cluster.  One of these is older than all the others: it was created before each
    of them, or at the same second and has the smaller UID.  When the check for an
    older waiting sibling reads this listing, it lets that workspace through and
    makes each of the others defer. *)
Theorem queue_has_one_head sel cd items :
  NoDup ((λ w, w_UID w) <$> items) → (∃ w, w ∈ items ∧ waits (selectorKey sel) cd w) →
  ∃ w, w ∈ items ∧ waits (selectorKey sel) cd w ∧
    (∀ s, s ∈ items → waits (selectorKey sel) cd s → w_UID s ≠ w_UID w → before w s) ∧
    ∀ s b, s ∈ items → waits (selectorKey sel) cd s →
      (exec (hasOlderWaitingSibling s sel) [Ev (ListObjs KWSD MgmtClient list_all) (Ok items)] (Ok b) ↔
       b = negb (bool_decide (w_UID s = w_UID w))).
Proof.
  intros Hnd (w0 & Hw0 & Hq0).
  destruct (oldest_exists (filter (waits (selectorKey sel) cd) items)) as (w & [Hq Hw]%list_elem_of_filter & Hmin).
  { eapply sublist_NoDup; [exact Hnd|]. apply fmap_sublist, sublist_filter. }
  { intros He. apply (elem_of_nil w0). rewrite <- He. by apply list_elem_of_filter. }
  exists w. split; [done|]. split; [done|]. split.
  { intros s Hs Hqs Hu. apply older_spec, Hmin; [by apply list_elem_of_filter|done]. }
  intros s b Hs Hqs. rewrite has_older_answer.
  enough (existsb (older_waiting s (selectorKey sel)) items = negb (bool_decide (w_UID s = w_UID w))) as -> by done.
  destruct Hq as (Hp & Hcd & Hk), Hqs as (Hp' & Hcd' & Hk'). case_bool_decide as Hu; cbn [negb].
  - apply not_true_is_false. intros (x & Hx & Ho)%existsb_exists. apply list_elem_of_In in Hx.
    apply older_waiting_spec in Ho as (Hxu & ? & ? & ? & Ho).
    assert (Hwx : isOlderWorkspace w x = true).
    { apply Hmin; [apply list_elem_of_filter; split; [|done]|congruence]. split_and!; [done|congruence|done]. }
    rewrite (uid_unique items s w) in Ho by done. by rewrite (older_asym _ _ Hwx) in Ho.
  - apply existsb_exists. exists w. split; [by apply list_elem_of_In|]. apply older_waiting_spec.
    split_and!; [auto|done|congruence|done|]. apply Hmin; [apply list_elem_of_filter|]; done.
Qed.

Definition waiting_wsd (uid : string) (created : Z) : WorkspaceDeployment :=
  let w := example_wsd "ns" uid "cd" in
  {| w_meta := {| m_Name := uid; m_Namespace := "ns"; m_UID := uid; m_Labels := None; m_Annotations := None;
                  m_Finalizers := []; m_OwnerUIDs := []; m_DeletionTimestamp := None;
                  m_CreationTimestamp := created; m_Generation := 1 |};
     w_Spec := w_Spec w; w_Status := set_Phase PhaseWaiting (w_Status w) |}.
(** Three wait, and a fourth that is older runs already: "a" is let through, the
    smaller of the two UIDs of second 5. *)
Definition waiting_list : list WorkspaceDeployment :=
  [waiting_wsd "b" 5; upd_status (set_Phase PhaseRunning) (waiting_wsd "d" 1);
   waiting_wsd "a" 5; waiting_wsd "c" 7].
Lemma queue_has_one_head_witness :
  ∃ w, w_UID w = "a" ∧ waits "" {| r_Name := "cd"; r_Namespace := "ns" |} w ∧
    ∀ s b, s ∈ waiting_list → waits "" {| r_Name := "cd"; r_Namespace := "ns" |} s →
      (exec (hasOlderWaitingSibling s ∅) [Ev (ListObjs KWSD MgmtClient list_all) (Ok waiting_list)] (Ok b) ↔
       b = negb (bool_decide (w_UID s = "a"))).
Proof.
  destruct (queue_has_one_head ∅ {| r_Name := "cd"; r_Namespace := "ns" |} waiting_list) as (w & Hw & Hq & Hold & Hall).
  - apply (bool_decide_unpack _). vm_compute. exact I.
  - exists (waiting_wsd "a" 5). split; [|by vm_compute]. unfold waiting_list. do 2 apply list_elem_of_further. apply list_elem_of_here.
  - assert (Hu : w_UID w = "a").
    { destruct (decide (w_UID w = "a")) as [|Hne]; [done|exfalso].
      assert (Ha : before w (waiting_wsd "a" 5)).
      { apply Hold; [unfold waiting_list; do 2 apply list_elem_of_further; apply list_elem_of_here|by vm_compute|].
        intros E. by apply Hne. }
      unfold waiting_list in Hw. repeat apply elem_of_cons in Hw as [->|Hw]; [..|by apply elem_of_nil in Hw].
      - destruct Ha as [Ha|[_ Ha]]; vm_compute in Ha; discriminate.
      - destruct Hq as [Hq _]. vm_compute in Hq. discriminate.
      - by apply Hne.
      - destruct Ha as [Ha|[Ha _]]; vm_compute in Ha; discriminate. }
    exists w. split; [done|]. split; [exact Hq|]. intros s b. rewrite <- Hu. apply Hall.
Defined.

(** ** The gate reserves nothing

    GPUs are counted as used once a pod is bound to a node; a workspace that has
    passed the gate and left Waiting is in nobody's way before that. *)
Definition rival : WorkspaceDeployment :=
  {| w_meta := {| m_Name := "v"; m_Namespace := "ns"; m_UID := "u2"; m_Labels := None; m_Annotations := None;
                  m_Finalizers := []; m_OwnerUIDs := []; m_DeletionTimestamp := None;
                  m_CreationTimestamp := 7; m_Generation := 1 |};
     w_Spec := w_Spec (gpu_wsd 8); w_Status := w_Status (gpu_wsd 8) |}.
Definition rival_arrives (f : world) : world :=
  {| f_now := f_now f; f_wsd := Some rival; f_others := option_list (f_wsd f); f_wsc := f_wsc f; f_cd := f_cd f;
     f_sss := f_sss f; f_namespaces := f_namespaces f; f_nodes := f_nodes f; f_pods := f_pods f;
     f_child_up := f_child_up f |}.
Definition rival_run (f : world) : list event * ctrl_result * world :=
  run fake (Reconcile fake_reconciler None (wsd_key rival)) (rival_arrives f).

(** Only a Waiting workspace is in the queue. *)
Lemma deploying_is_no_rival w k ws :
  Forall (λ s, w_Phase s ≠ PhaseWaiting) ws → existsb (older_waiting w k) ws = false.
Proof.
  intros Hall. apply not_true_is_false. intros (s & Hs%list_elem_of_In & (_ & Hp & _)%older_waiting_spec)%existsb_exists.
  rewrite Forall_forall in Hall. by apply (Hall s Hs).
Qed.
(** Two workspaces that ask for all eight GPUs of the one node, reconciled one after
    the other before the pods of the first are bound: both pass the gate and are
    deployed. *)
Theorem capacity_is_promised_twice :
  let f1 := (reconcile_once (fake_world 8)).2 in
  let f2 := (rival_run f1).2 in
  f_nodes f1 = [gpu_node "n1" h100 ResourceNvidiaGPU 8] ∧
  phase_of f1 = Some PhaseDeploying ∧ phase_of f2 = Some PhaseDeploying ∧ length (f_sss f2) = 2.
Proof. split; [vm_compute; reflexivity|]. vm_compute. done. Qed.
