(* ===== verification/Progress.v ===== *)
(** * A workspace gets to Running when the servers cooperate

    The safety theorems let every run wait for ever; here the answers are those of
    servers that work and a cluster with room, and two runs take a workspace from any
    phase before Deploying to Running. *)

From S2P Require Import Prelude GoString Api Naming QuantityNano Prog Gpu Values Feasibility Cluster.
From S2P Require Import ServiceSets Failure Prerequisites Routes Controller Reconcile Fake Phases Gating.

(** ** Programs under an assumption on the answers *)
Section reaches.
Context (good : event → Prop).
Definition reaches {A} (p : prog A) (Q : list event → A → Prop) : Prop :=
  ∀ tr a, exec p tr a → Forall good tr → Q tr a.

Lemma reaches_ret {A} (a : A) (Q : list event → A → Prop) : Q [] a → reaches (mret a) Q.
Proof. intros HQ tr b [-> ->] _. done. Qed.
Lemma reaches_bind {A B} (p : prog A) (f : A → prog B) (Q1 : A → Prop) (Q : list event → B → Prop) :
  reaches p (λ _ a, Q1 a) → (∀ a, Q1 a → reaches (f a) Q) →
  (∀ t1 t2 b, Q t2 b → Q (t1 ++ t2) b) → reaches (p ≫= f) Q.
Proof.
  intros Hp Hf HQ tr b Hx Hg. apply exec_bind in Hx as (t1 & t2 & a & -> & H1 & H2). apply Forall_app in Hg as [G1 G2].
  apply HQ, (Hf a); [by eapply Hp|done..].
Qed.
(** The first program's trace matters to the end. *)
Lemma reaches_seq {A B} (p : prog A) (f : A → prog B) (Q1 : list event → A → Prop) (Q : list event → B → Prop) :
  reaches p Q1 → (∀ t1 a, Q1 t1 a → reaches (f a) (λ t2 b, Q (t1 ++ t2) b)) → reaches (p ≫= f) Q.
Proof.
  intros Hp Hf tr b Hx Hg. apply exec_bind in Hx as (t1 & t2 & a & -> & H1 & H2). apply Forall_app in Hg as [G1 G2].
  eapply Hf; [by apply Hp|exact H2|done].
Qed.
Lemma reaches_call {R A} (rq : req R) (f : R → prog A) (Q : list event → A → Prop) :
  (∀ x, good (Ev rq x) → reaches (f x) (λ t b, Q (Ev rq x :: t) b)) → reaches (call rq ≫= f) Q.
Proof.
  intros Hf tr b Hx Hg. apply exec_bind in Hx as (t1 & t2 & x & -> & ->%exec_call & Hx).
  apply Forall_cons in Hg as [G1 G2]. by apply (Hf x).
Qed.
Lemma reaches_conseq {A} (p : prog A) (Q Q' : list event → A → Prop) :
  reaches p Q → (∀ tr a, Q tr a → Q' tr a) → reaches p Q'.
Proof. intros Hp HQ tr a Hx Hg. by apply HQ, Hp. Qed.
End reaches.

(** ** Cooperation *)
Section cooperation.
Context `{QuantityOps} (r : Reconciler) (rp : option RouteProvider).
(** The class, and what the cluster has; the workspace as stored when the run starts, and
    whether its release is deployed. *)
Context (wsc : WorkspaceClass) (nodes : list Node) (pods : list Pod).
Context (w0 : WorkspaceDeployment) (released : bool).

(** The parts of a workspace the handlers branch on: all but the finalizers and the
    status fields other than the phase. *)
Definition identity (w w' : WorkspaceDeployment) : Prop :=
  set_finalizers [] (w_meta w') = set_finalizers [] (w_meta w) ∧ w_Spec w' = w_Spec w.
Definition keeps (w w' : WorkspaceDeployment) : Prop := identity w w' ∧ w_Phase w' = w_Phase w.
(** The workspace's own release, as its ServiceSet reports it. *)
Definition release_deployed (ss : ServiceSet) : Prop :=
  ∃ svc, find_first (λ s, bool_decide (sv_Name s = serviceEntryName w0)) (ss_Status ss) = Some svc ∧
    sv_State svc = StateDeployed.
Definition prerequisites : list PrerequisiteSpec := wsc_Prerequisites (wsc_Spec wsc).

(** The answers of working servers: reads find what is there, writes are accepted, no
    older workspace is in the queue, and each prerequisite has its own ServiceSet,
    deployed where it was asked for. *)
Definition good_get (k : kind) (key : ObjectKey) : res (obj k) → Prop :=
  match k return res (obj k) → Prop with
  | KWSD => λ x, ∃ w, x = Ok w ∧ keeps w0 w
  | KWSC => λ x, x = Ok wsc
  | KCD => λ x, ∃ cd, x = Ok cd
  | KSecret => λ x, ∃ s, x = Ok s ∧ is_Some (sec_Data s !! "value")
  | KNamespace => λ x, match x with Ok ns => deleting (ns_meta ns) = false | Err err => IsNotFound err = true end
  | KSS => λ x,
      match x with Ok _ => True | Err err => IsNotFound err = true end ∧
      (∀ p, p ∈ prerequisites → key = prereq_key w0 (prereq_name p) →
        ∃ ss, x = Ok ss ∧ (with_own_ss p ss PrerequisitesVerdictSatisfied).2 = PrerequisitesVerdictSatisfied) ∧
      (released = true → key = ss_key w0 → ∃ ss, x = Ok ss ∧ release_deployed ss)
  | _ => λ _, True
  end.
Definition good_list (k : kind) : res (list (obj k)) → Prop :=
  match k return res (list (obj k)) → Prop with
  | KNode => λ x, x = Ok nodes
  | KPod => λ x, x = Ok pods
  | KWSD => λ x, ∃ items, x = Ok items ∧
      existsb (older_waiting w0 (selectorKey (gpuSelectorOf (resolved_of w0 wsc)))) items = false
  | _ => λ _, True
  end.
Definition good (e : event) : Prop :=
  match e with
  | Ev rq x =>
      match rq in req R return R → Prop with
      | Get k _ key => good_get k key
      | ListObjs k _ _ => good_list k
      | Create k _ o => λ x, ∃ o', x = Ok o'
      | Update k _ o => λ x, x = Ok o
      | StatusUpdate k _ o => λ x, x = Ok o
      | RESTConfigFromKubeConfig _ => λ x, ∃ cfg, x = Ok cfg
      | NewClient _ => λ x, ∃ c, x = Ok c
      | SetOwnerReference _ _ => λ x, ∃ m, x = Ok m
      | _ => λ _, True
      end x
  end.

(** The cluster has room: the selector, if any, is found with the demand free. *)
Definition has_room : Prop :=
  let res := resolved_of w0 wsc in
  gpuSelectorOf res = ∅ ∨
  Found (AvailabilityForSelector nodes pods (gpuSelectorOf res)) = true ∧
  (gpuDemand res ≤ 0 ∨ gpuDemand res ≤ Free (AvailabilityForSelector nodes pods (gpuSelectorOf res)))%Z.

Abbreviation reaches := (reaches good).

Lemma keeps_refl w : keeps w w.
Proof. done. Qed.
Lemma keeps_trans w1 w2 w3 : keeps w1 w2 → keeps w2 w3 → keeps w1 w3.
Proof. unfold keeps, identity. intros ((? & ?) & ?) ((? & ?) & ?). split_and!; congruence. Qed.
Lemma keeps_resolved w : keeps w0 w → resolved_of w wsc = resolved_of w0 wsc.
Proof. intros ((_ & Hs) & _). unfold resolved_of. by rewrite Hs. Qed.

(** ** The pieces *)
Abbreviation value Q := (λ (_ : list event) a, Q a).

Lemma set_condition_keeps w c : reaches (setCondition w c) (value (keeps w)).
Proof.
  intros tr w' Hx%setCondition_frame _. pose proof (same_but_conditions_phase _ _ Hx). destruct Hx as (Hm & Hs & _).
  split; [|done]. split; [by rewrite Hm|done].
Qed.
Lemma status_update_good w : reaches (status_update w) (value (λ u, u = (w, None))).
Proof. apply reaches_call. intros x ->. by apply reaches_ret. Qed.
Lemma update_wsd_good w : reaches (update_wsd w) (value (λ u, u = (w, None))).
Proof. apply reaches_call. intros x ->. by apply reaches_ret. Qed.
Lemma condition_status_good {A} w c (f : WorkspaceDeployment * option error → prog A) (Q : A → Prop) :
  (∀ w', keeps w w' → reaches (f (w', None)) (value Q)) →
  reaches (w' ← setCondition w c; u ← status_update w'; f u) (value Q).
Proof.
  intros Hf. eapply reaches_bind; [apply set_condition_keeps| |done]. intros w' Hk.
  eapply reaches_bind; [apply status_update_good| |done]. intros u ->. by apply Hf.
Qed.
Lemma cluster_client_good ns cd : reaches (GetClusterClientForCD MgmtClient ns cd) (value (λ x, ∃ c, x = Ok c)).
Proof.
  unfold GetClusterClientForCD. apply reaches_call. intros x (s & -> & [bytes ->]).
  apply reaches_call. intros x [cfg ->]. apply reaches_call. intros x [c ->]. apply reaches_ret. by exists c.
Qed.
Lemma resolve_class_good w : reaches (resolveWorkspaceClass r w) (value (λ x, x = (w, Ok (Some wsc)))).
Proof. apply reaches_call. intros x ->. by apply reaches_ret. Qed.
Lemma resolve_cluster_good w :
  reaches (resolveClusterDeployment w) (value (λ x, keeps w x.1.1.1 ∧ x.1.2 = true ∧ x.2 = None)).
Proof.
  unfold resolveClusterDeployment. cbv zeta. apply reaches_call. intros x [cd ->].
  eapply reaches_bind; [apply set_condition_keeps| |done]. intros w' Hk. by apply reaches_ret.
Qed.
Lemma feasibility_good c res : reaches (computeFeasibility c res) (value (λ x, ∃ f, x = Ok f)).
Proof.
  apply reaches_call. intros x ->. apply reaches_call. intros x ->. apply reaches_call. intros now _.
  apply reaches_ret. by eexists.
Qed.
Lemma refresh_good w : reaches (refreshFeasibility w wsc) (value (λ x, keeps w x.1.1 ∧ x.2 = None)).
Proof.
  unfold refreshFeasibility. cbv zeta. eapply reaches_bind; [apply cluster_client_good| |done]. intros x [c ->].
  eapply reaches_bind; [apply feasibility_good| |done]. intros x [f ->].
  apply condition_status_good. intros w' Hk. by apply reaches_ret.
Qed.
Lemma same_queue w w' k items :
  keeps w w' → existsb (older_waiting w' k) items = existsb (older_waiting w k) items.
Proof.
  intros [[Hm Hs] _]. pose proof (f_equal m_UID Hm) as Hu. pose proof (f_equal m_CreationTimestamp Hm) as Ht.
  simpl in Hu, Ht.
  unfold older_waiting, isOlderWorkspace. by rewrite Hu, Ht, Hs.
Qed.
Lemma gate_good w : keeps w0 w → has_room → reaches (gateGPUOffering r w wsc) (value (λ x, x.1.1 = w ∧ x.2 = true)).
Proof.
  intros Hk Hroom. unfold gateGPUOffering. cbv zeta. fold (resolved_of w wsc). rewrite (keeps_resolved w Hk).
  destruct (bool_decide _) eqn:Es; [by apply reaches_ret|]. apply bool_decide_eq_false in Es.
  destruct Hroom as [?|[Hf Hd]]; [done|].
  eapply reaches_bind; [apply cluster_client_good| |done]. intros x [c ->].
  apply reaches_call. intros x ->. apply reaches_call. intros x ->. rewrite Hf. cbn [negb].
  assert (Hb : ((0 <? gpuDemand (resolved_of w0 wsc))%Z && (Free (AvailabilityForSelector nodes pods
            (gpuSelectorOf (resolved_of w0 wsc))) <? gpuDemand (resolved_of w0 wsc))%Z) = false).
  { apply andb_false_iff. destruct Hd; [left|right]; by apply Z.ltb_ge. }
  rewrite Hb. eapply (reaches_bind _ _ _ (λ x, x = Ok false)); [| |done].
  - apply reaches_call. intros x (items & -> & Ho). apply reaches_ret. f_equal.
    by rewrite (same_queue w0 w).
  - intros x ->. by apply reaches_ret.
Qed.

(** *** Prerequisites *)
Definition unconstrained : Prop := Forall (λ p, t_VersionConstraint (pr_ServiceTemplate p) = "") prerequisites.

Lemma evaluate_good w v ps sts :
  keeps w0 w → (∀ p, p ∈ ps → p ∈ prerequisites ∧ t_VersionConstraint (pr_ServiceTemplate p) = "") →
  reaches (evaluate_loop MgmtClient w v ps PrerequisitesVerdictSatisfied sts)
    (value (λ x, ∃ l, x = Ok (PrerequisitesVerdictSatisfied, l))).
Proof.
  intros [[_ Hs] _]. revert sts. induction ps as [|p ps IH]; intros sts Hps; [apply reaches_ret; by eexists|].
  cbn [evaluate_loop]. destruct (Hps p (list_elem_of_here _ _)) as [Hp Hv]. rewrite bool_decide_false by auto.
  apply reaches_call. intros x (_ & Hx & _). destruct (Hx p Hp) as (ss & -> & Hsat).
  { unfold prereq_key. by rewrite Hs. }
  destruct (with_own_ss p ss _) as [st o]. simpl in Hsat. subst o. apply IH. intros q Hq. apply Hps. by right.
Qed.
Lemma prerequisites_good w :
  keeps w0 w → unconstrained →
  reaches (reconcilePrerequisites r w wsc) (value (λ x, keeps w x.1.1.1 ∧ x.1.2 = false ∧ x.2 = None)).
Proof.
  intros Hk Hu. unfold reconcilePrerequisites.
  eapply (reaches_bind _ _ _ (λ x, ∃ l, x = Ok (PrerequisitesVerdictSatisfied, l))).
  - unfold evaluatePrerequisites. apply reaches_call. intros x [cd ->]. apply evaluate_good; [done|].
    intros p Hp. split; [done|]. unfold unconstrained in Hu. rewrite Forall_forall in Hu. by apply Hu.
  - intros x [l ->]. cbv zeta. unfold set_prereq_condition.
    eapply reaches_bind; [apply set_condition_keeps| |done]. intros w' Hk'. by apply reaches_ret.
  - done.
Qed.

(** *** Deployment *)

(** The run ends with an accepted write of the status in phase [p]. *)
Definition ends_in (p : Phase) (next : Result) (tr : list event) (res : ctrl_result) : Prop :=
  res = ok_result next ∧ ∃ pre w, tr = pre ++ [Ev (StatusUpdate KWSD MgmtClient w) (Ok w)] ∧
    identity w0 w ∧ w_Phase w = p.
Lemma ends_in_app p n t1 t2 res : ends_in p n t2 res → ends_in p n (t1 ++ t2) res.
Proof. intros (-> & pre & w & -> & Hw). split; [done|]. exists (t1 ++ pre), w. by rewrite <- app_assoc. Qed.
Lemma final_write w p n (f : WorkspaceDeployment * option error → prog ctrl_result) :
  identity w0 w → w_Phase w = p → f (w, None) = mret (ok_result n) →
  reaches (u ← status_update w; f u) (ends_in p n).
Proof.
  intros Hi Hp Hf tr res Hx Hg. apply exec_bind in Hx as (t1 & t2 & u & -> & H1 & H2).
  unfold status_update in H1. apply exec_bind in H1 as (t3 & t4 & x & -> & ->%exec_call & H1).
  apply Forall_app in Hg as [[-> _]%Forall_cons _]. destruct H1 as [-> ->]. rewrite Hf in H2. destruct H2 as [-> ->].
  split; [done|]. by exists [], w.
Qed.

Lemma namespace_good c w m : reaches (ensureWorkspaceNamespace c w m) (value (λ x, x = Ok true)).
Proof.
  unfold ensureWorkspaceNamespace. cbv zeta. apply reaches_call. intros [ns|err] Hx; simpl in Hx; rewrite Hx.
  - destruct (applyMissingLabels _ _) as [ns' changed]. destruct changed; [|by apply reaches_ret].
    apply reaches_call. intros x ->. by apply reaches_ret.
  - apply reaches_call. intros x [o ->]. by apply reaches_ret.
Qed.
(** The workspace's ServiceSet, holding its one service, has been written: the one found
    under its key was updated with it, or none was there and it was created. *)
Definition service_written (tr : list event) : Prop :=
  ∃ v, (gpuSelectorOf (resolved_of w0 wsc) ≠ ∅ → wsc_DefaultValues (wsc_Spec wsc) ≠ Some (RawVal JNull) →
          carries_selector v (gpuSelectorOf (resolved_of w0 wsc))) ∧
    let svc := workspace_service w0 wsc v in
    ((∃ ss, Ev (Get KSS MgmtClient (ss_key w0)) (Ok ss) ∈ tr ∧
        Ev (Update KSS MgmtClient (set_services [svc] ss)) (Ok (set_services [svc] ss)) ∈ tr) ∨
     (∃ err ss owner m x, Ev (Get KSS MgmtClient (ss_key w0)) (Err err) ∈ tr ∧ IsNotFound err = true ∧
        ss_Services ss = [svc] ∧ {| k_Namespace := m_Namespace (ss_meta ss); k_Name := m_Name (ss_meta ss) |} = ss_key w0 ∧
        Ev (SetOwnerReference owner (ss_meta ss)) (Ok m) ∈ tr ∧
        Ev (Create KSS MgmtClient (set_ss_meta m ss)) (Ok x) ∈ tr)).
Lemma service_written_mono tr tr' : (∀ e, e ∈ tr → e ∈ tr') → service_written tr → service_written tr'.
Proof.
  intros Hsub (v & Hv & [(ss & H1 & H2)|(err & ss & o & m & x & H1 & Hn & Hs & Hk & H2 & H3)]);
    exists v; (split; [exact Hv|]); [left|right].
  - exists ss. auto.
  - exists err, ss, o, m, x. split_and!; auto.
Qed.

Lemma identity_service w v : identity w0 w → workspace_service w wsc v = workspace_service w0 wsc v.
Proof.
  intros [Hm Hs]. pose proof (f_equal m_Name Hm) as Hn. simpl in Hn.
  unfold workspace_service, serviceEntryName, workspaceNamespaceName, HelmReleaseName, WorkspaceNamespaceName.
  by rewrite Hn, Hs.
Qed.
Lemma identity_key w : identity w0 w → ss_key w = ss_key w0.
Proof.
  intros [Hm Hs]. pose proof (f_equal m_Name Hm) as Hn. simpl in Hn. unfold ss_key, serviceSetName. by rewrite Hn, Hs.
Qed.

Lemma serviceset_good w v :
  identity w0 w →
  (gpuSelectorOf (resolved_of w0 wsc) ≠ ∅ → wsc_DefaultValues (wsc_Spec wsc) ≠ Some (RawVal JNull) →
     carries_selector v (gpuSelectorOf (resolved_of w0 wsc))) →
  reaches (ensureWorkspaceServiceSet MgmtClient w wsc v) (λ tr x, x = None ∧ service_written tr).
Proof.
  intros Hi Hv. unfold ensureWorkspaceServiceSet. cbv zeta. rewrite (identity_service w v Hi), (identity_key w Hi).
  apply reaches_call. intros [ss|err] (Hx & _).
  - apply reaches_call. intros x Hu. cbn in Hu. subst x. apply reaches_ret. split; [done|]. exists v.
    split; [exact Hv|]. left. exists ss. split; in_trace.
  - rewrite Hx. cbn [negb]. apply reaches_call. intros x [m Hm]. subst x. apply reaches_call.
    intros x [o Ho]. cbn in Ho. subst x. apply reaches_ret. split; [done|]. exists v. split; [exact Hv|]. right. 
    exists err, (new_serviceset (serviceSetName w) (r_Namespace (w_CDRef w)) (r_Name (w_CDRef w))
                   {[ adapterLabel := adapterValue ]} (workspace_service w0 wsc v)), (w_meta w), m, o.
    split; [in_trace|]. split; [exact Hx|]. split; [reflexivity|]. split; [|split; in_trace].
    rewrite <- (identity_key w Hi). reflexivity.
Qed.
Lemma resolve_gpu_good c res :
  reaches (resolveGPUResource c res) (value (λ x, gpuSelectorOf x.1 = gpuSelectorOf res)).
Proof. intros tr a Hx _. by eapply resolve_gpu_selector. Qed.

(** The values of the class and the user merge. *)
Definition values_merge : Prop :=
  ∃ m, mergeValuesMap (wsc_DefaultValues (wsc_Spec wsc)) (Values (w_Spec w0)) = Returns (Ok m).

(** A condition set on the way. *)
Lemma set_condition_identity w c : identity w0 w → reaches (setCondition w c) (value (identity w0)).
Proof.
  intros [Hm Hs]. eapply reaches_conseq; [apply set_condition_keeps|]. intros _ w' [[H1 H2] _]. split; congruence.
Qed.

(** A deployment: the ServiceSet is written, and then the phase Deploying. *)
Definition starts (tr : list event) (res : ctrl_result) : Prop :=
  ends_in PhaseDeploying requeue tr res ∧ service_written tr.
Lemma starts_app t1 t2 res : starts t2 res → starts (t1 ++ t2) res.
Proof. intros [He Hs]. split; [by apply ends_in_app|]. eapply service_written_mono; [|exact Hs]. sub_trace. Qed.

Lemma deploy_good c w v :
  identity w0 w →
  (gpuSelectorOf (resolved_of w0 wsc) ≠ ∅ → wsc_DefaultValues (wsc_Spec wsc) ≠ Some (RawVal JNull) →
     carries_selector v (gpuSelectorOf (resolved_of w0 wsc))) →
  reaches (deploy r c w wsc v) starts.
Proof.
  intros Hi Hv. unfold deploy. eapply reaches_bind; [apply namespace_good| |intros; by apply starts_app].
  intros x ->. eapply reaches_seq; [by apply serviceset_good|]. intros t1 x [-> Hs]. cbv zeta.
  eapply reaches_conseq; [by apply (final_write _ PhaseDeploying requeue)|]. intros tr res He. split; [by apply ends_in_app|].
  eapply service_written_mono; [|exact Hs]. sub_trace.
Qed.

Lemma serializes values : ∃ v, serializeValues values = Ok v.
Proof. unfold serializeValues. cbv zeta. destruct (bool_decide _); eauto. Qed.

Lemma start_good w : keeps w0 w → values_merge → reaches (startDeployment r w wsc) starts.
Proof.
  intros [Hi Hp] [m Hmerge]. unfold startDeployment. cbv zeta.
  eapply reaches_bind; [apply cluster_client_good| |intros; by apply starts_app]. intros x [c ->].
  eapply reaches_bind; [apply resolve_gpu_good| |intros; by apply starts_app]. intros [res name] Hsel. cbn [fst] in Hsel.
  fold (resolved_of w wsc) in Hsel. rewrite (keeps_resolved w (conj Hi Hp)) in Hsel.
  cbn [w_Spec set_resolved upd_status]. rewrite (proj2 Hi), Hmerge.
  destruct (chart_values _ _ _ _) as [values warnings] eqn:Ec.
  eapply (reaches_bind _ _ _ (identity w0)); [| |intros; by apply starts_app].
  - unfold setResourcesInjectedCondition. destruct warnings; by apply set_condition_identity.
  - intros w3 Hi3. destruct (serializeValues values) as [v|err] eqn:Es; [|by destruct (serializes values) as [? ?]; congruence].
    apply deploy_good; [done|]. intros Hne Hc. destruct (merge_some _ _ _ Hmerge Hc) as [m' ->].
    rewrite <- Hsel in *. by eapply chart_values_selector.
Qed.

(** *** Readiness *)
Lemma scan_good w entry svcs svc :
  find_first (λ s, bool_decide (sv_Name s = entry)) svcs = Some svc → sv_State svc = StateDeployed →
  reaches (scan_services r w entry svcs) (ends_in PhaseRunning running_requeue).
Proof.
  intros Hf Hd. induction svcs as [|s svcs IH]; [done|]. cbn [find_first scan_services] in *.
  destruct (decide (sv_Name s = entry)) as [He|He].
  2: { rewrite bool_decide_false in Hf by done. rewrite bool_decide_true by done. by apply IH. }
  rewrite bool_decide_true in Hf by done. injection Hf as ->. rewrite (bool_decide_false (sv_Name svc ≠ entry)) by auto.
  eapply (reaches_bind _ _ _ (λ x, ∃ w, x = Ok w ∧ keeps w0 w)); [| |intros; by apply ends_in_app].
  { intros tr x ->%exec_call [Hx _]%Forall_cons. exact Hx. }
  intros x (w1 & -> & [Hi _]). rewrite Hd. cbv zeta.
  eapply (reaches_bind _ _ _ (λ w', identity w0 w' ∧ w_Phase w' = PhaseRunning)); [| |intros; by apply ends_in_app].
  { eapply reaches_conseq; [apply set_condition_keeps|]. intros _ w' [[H1 H2] H3]. destruct Hi as [I1 I2].
    split; [|exact H3]. by split; [rewrite H1|rewrite H2]. }
  intros w2 [Hi2 Hp2].
  eapply (reaches_bind _ _ _ (λ w', identity w0 w' ∧ w_Phase w' = PhaseRunning)); [| |intros; by apply ends_in_app].
  { eapply reaches_conseq; [apply set_condition_keeps|]. intros _ w' [[H1 H2] H3]. destruct Hi2 as [I1 I2].
    split; [|by rewrite H3]. split; congruence. }
  intros w3 [Hi3 Hp3]. by apply final_write.
Qed.
Lemma readiness_good w :
  keeps w0 w → released = true → reaches (checkServiceReadiness r w) (ends_in PhaseRunning running_requeue).
Proof.
  intros [[Hm Hs] _] Hr. unfold checkServiceReadiness.
  pose proof (f_equal m_Name Hm) as Hn. simpl in Hn.
  assert (Hk : ss_key w = ss_key w0) by (unfold ss_key, serviceSetName; by rewrite Hn, Hs).
  assert (He : serviceEntryName w = serviceEntryName w0) by (unfold serviceEntryName, HelmReleaseName; by rewrite Hn, Hs).
  eapply (reaches_bind _ _ _ (λ x, ∃ ss, x = Ok ss ∧ release_deployed ss)); [| |intros; by apply ends_in_app].
  - intros tr x ->%exec_call [(_ & _ & Hx) _]%Forall_cons. by apply Hx.
  - intros x (ss & -> & svc & Hf & Hd). rewrite He. by eapply scan_good.
Qed.

(** *** The dispatch *)

(** What a run from [w0] needs besides cooperation, and where it ends. *)
Definition may_proceed : Prop :=
  match w_Phase w0 with
  | PhaseDeploying => released = true
  | PhaseRunning | PhaseFailed => False
  | _ => has_room ∧ values_merge
  end.
Definition proceeds : list event → ctrl_result → Prop :=
  match w_Phase w0 with
  | PhaseDeploying => ends_in PhaseRunning running_requeue
  | _ => starts
  end.
Lemma proceeds_app t1 t2 res : proceeds t2 res → proceeds (t1 ++ t2) res.
Proof. unfold proceeds. destruct (w_Phase w0); first [apply ends_in_app|apply starts_app]. Qed.
(** One more stage in front. *)
Ltac stage lem := eapply reaches_bind; [apply lem; try done| |intros; by apply proceeds_app].

Context (Hproceed : may_proceed) (Hu : unconstrained).

Lemma phase_good w : keeps w0 w → reaches (reconcile_phase r rp w wsc) proceeds.
Proof.
  intros Hk. unfold reconcile_phase, proceeds, may_proceed in *. pose proof (proj2 Hk) as ->.
  destruct (w_Phase w0); try done; try (by apply start_good; [|apply Hproceed]). by apply readiness_good.
Qed.
Lemma prereq_step_good w : keeps w0 w → reaches (reconcile_prerequisites_step r rp w wsc) proceeds.
Proof.
  intros Hk. unfold reconcile_prerequisites_step. destruct (wsc_Prerequisites _) eqn:Ep; [by apply phase_good|].
  stage prerequisites_good. intros [[[w' res] d] err] (Hk' & Hd & He). cbn [fst snd] in *. subst d err.
  apply phase_good. by eapply keeps_trans.
Qed.
Lemma gate_step_good w : keeps w0 w → reaches (gate_step r rp w wsc) proceeds.
Proof.
  intros Hk. unfold gate_step.
  assert (Hg : has_room → reaches (g ← gateGPUOffering r w wsc; let '(wsd, res, ok) := g in
     if negb ok then mret (ok_result res) else reconcile_prerequisites_step r rp wsd wsc) proceeds).
  { intros Hroom. stage gate_good. intros [[w' res] ok] [Hw' Hok]. cbn [fst snd] in *. subst w' ok.
    by apply prereq_step_good. }
  pose proof Hproceed as Hmp. unfold may_proceed in Hmp. rewrite (proj2 Hk).
  destruct (w_Phase w0); try (by apply Hg, Hmp); try done. by apply prereq_step_good.
Qed.
Lemma feasibility_step_good w : keeps w0 w → reaches (feasibility_step r rp w wsc) proceeds.
Proof.
  intros Hk. unfold feasibility_step.
  assert (Hf : reaches (f ← refreshFeasibility w wsc; let '(wsd, res, err) := f in
     match err with Some err => mret (Returned res (Some err)) | None => gate_step r rp wsd wsc end) proceeds).
  { stage refresh_good. intros [[w' res] err] [Hk' He]. cbn [fst snd] in *. subst err.
    apply gate_step_good. by eapply keeps_trans. }
  destruct (w_Phase w); try exact Hf; by apply gate_step_good.
Qed.
Lemma live_good w : keeps w0 w → reaches (reconcile_live r rp w) proceeds.
Proof.
  intros Hk. unfold reconcile_live. stage resolve_class_good. intros x ->. cbn [fst snd].
  stage set_condition_keeps. intros w1 Hk1. assert (keeps w0 w1) by by eapply keeps_trans.
  unfold cluster_step. destruct (bool_decide _); [|by apply feasibility_step_good].
  stage resolve_cluster_good. intros [[[w2 res] ok] err] (Hk2 & Hok & He). cbn [fst snd] in *. subst ok err.
  apply feasibility_step_good. by eapply keeps_trans.
Qed.
Lemma reconcile_good key :
  Suspend (w_Spec w0) = false → deleting (w_meta w0) = false → reaches (Reconcile r rp key) proceeds.
Proof.
  intros Hsu Hde. unfold Reconcile.
  eapply (reaches_bind _ _ _ (λ x, ∃ w, x = Ok w ∧ keeps w0 w)); [| |intros; by apply proceeds_app].
  { intros tr x ->%exec_call [Hx _]%Forall_cons. exact Hx. }
  intros x (w & -> & Hk). pose proof Hk as [[Hm Hs] Hp].
  assert (Hdw : deleting (w_meta w) = deleting (w_meta w0)) by (pose proof (f_equal m_DeletionTimestamp Hm) as Hd; simpl in Hd; unfold deleting; by rewrite Hd).
  rewrite Hs, Hsu, Hdw, Hde. destruct (negb _); [|by apply live_good].
  stage update_wsd_good. intros u ->. cbn [fst snd]. apply live_good. split; [|exact Hp]. split; [|exact Hs].
  rewrite <- Hm. unfold AddFinalizer. simpl. by destruct (ContainsFinalizer _ _).
Qed.
End cooperation.


(** ** A concrete pair of runs

    The in-memory server accepts every write and never changes the class, the cluster
    or its nodes; the other answers are tested. *)
Definition static_part (f : world) := (f_wsc f, f_cd f, f_nodes f, f_pods f, f_child_up f).
Definition from_fake (f : world) (e : event) : Prop :=
  match e with Ev rq x => ∃ f', static_part f' = static_part f ∧ x = (fake _ rq f').1 end.
Lemma fake_static R (rq : req R) f : static_part (fake R rq f).2 = static_part f.
Proof. by destruct rq; try done; destruct k. Qed.
Lemma run_from_fake {A} (p : prog A) f : Forall (from_fake f) (run fake p f).1.1.
Proof.
  revert f. induction p as [a|R rq k IH]; intros f; simpl; [constructor|].
  pose proof (fake_static R rq f) as Hs. destruct (fake R rq f) as [x f'] eqn:Ef. specialize (IH x f').
  destruct (run fake (k x) f') as [[tr a] f2]. constructor.
  - exists f. split; [done|]. by rewrite Ef.
  - eapply Forall_impl; [exact IH|]. intros [R' rq' y] (f3 & H3 & ->). exists f3. split; [by rewrite H3|done].
Qed.

(** The workspace of the example, but for its status. *)
Definition is_none {A} (o : option A) : bool := match o with None => true | Some _ => false end.
Definition gpu_resourcesb (x : WorkspaceResourceSpec) : bool :=
  let p := PerReplica x in
  is_none (Replicas x) && is_none (CPU p) && is_none (Memory p) && is_none (Storage p) && bdec (GPUCount p = Some 1%Z) &&
  is_none (GPUVendor_ p) && bdec (GPUType p = Some "H100") && is_none (GPUNodeSelector p).
Definition gpu_specb (s : WorkspaceDeploymentSpec) : bool :=
  bdec (WorkspaceClassRef s = "jupyter") && bdec (ClusterDeploymentRef_ s = {| r_Name := "cd"; r_Namespace := "ns" |}) &&
  is_none (Values s) && negb (Suspend s) && match Resources s with Some x => gpu_resourcesb x | None => false end.
Lemma is_none_spec {A} (o : option A) : is_none o = true ↔ o = None.
Proof. by destruct o. Qed.
Lemma gpu_specb_spec s : gpu_specb s = true → s = w_Spec (gpu_wsd 1).
Proof.
  unfold gpu_specb. rewrite !andb_true_iff, !bool_decide_eq_true, negb_true_iff, is_none_spec.
  destruct s as [c d [[n p]|] v su]; simpl; [|by intros [_ ?]]. intros ((((-> & ->) & ->) & ->) & Hr).
  unfold gpu_resourcesb in Hr.
  rewrite !andb_true_iff, !bool_decide_eq_true, !is_none_spec in Hr. destruct p; simpl in *. destruct_and!. by subst.
Qed.
Definition keepsb (w0 w : WorkspaceDeployment) : bool :=
  bdec (set_finalizers [] (w_meta w) = set_finalizers [] (w_meta w0)) && gpu_specb (w_Spec w) && bdec (w_Phase w = w_Phase w0).
Definition release_deployedb (w0 : WorkspaceDeployment) (ss : ServiceSet) : bool :=
  match find_first (λ s, bool_decide (sv_Name s = serviceEntryName w0)) (ss_Status ss) with
  | Some svc => bdec (sv_State svc = StateDeployed)
  | None => false
  end.

(** The answers that depend on what was written before. *)
Definition dynamic_good (w0 : WorkspaceDeployment) (released : bool) (e : event) : bool :=
  match e with
  | Ev rq x =>
      match rq in req R return R → bool with
      | Get k _ key =>
          match k return res (obj k) → bool with
          | KWSD => λ x, match x with Ok w => keepsb w0 w | Err _ => false end
          | KNamespace => λ x, match x with Ok ns => negb (deleting (ns_meta ns)) | Err err => IsNotFound err end
          | KSS => λ x, match x with
                        | Ok ss => negb (released && bdec (key = ss_key w0)) || release_deployedb w0 ss
                        | Err err => IsNotFound err && negb (released && bdec (key = ss_key w0))
                        end
          | _ => λ _, true
          end
      | ListObjs k _ _ =>
          match k return res (list (obj k)) → bool with
          | KWSD => λ x, match x with
                         | Ok items => negb (existsb (older_waiting w0 (selectorKey (gpuSelectorOf
                                               (resolved_of w0 (example_class []))))) items)
                         | Err _ => false
                         end
          | _ => λ _, true
          end
      | _ => λ _, true
      end x
  end.

Lemma from_fake_good f w0 released e :
  static_part f = static_part (fake_world 1) → w_Spec w0 = w_Spec (gpu_wsd 1) →
  from_fake f e → dynamic_good w0 released e = true →
  good (example_class []) (f_nodes (fake_world 1)) [] w0 released e.
Proof.
  intros Hf Hw. destruct e as [R rq x]. intros (f' & Hs & ->). rewrite Hf in Hs. injection Hs as Hc Hcd Hn Hp Hu.
  destruct rq; simpl; rewrite ?Hn, ?Hp; try done; try (by eexists).
  - destruct k; simpl; rewrite ?Hc, ?Hcd, ?Hn, ?Hp, ?Hu; try done; try (by eexists).
    + destruct (f_wsd f') as [w|]; [|done]. simpl. unfold keepsb. rewrite !andb_true_iff, !bool_decide_eq_true.
      intros [[H1 H2%gpu_specb_spec] H3]. exists w. split; [done|]. split; [|done]. split; [done|congruence].
    + intros Hd. split; [|split; [by intros p ?%not_elem_of_nil|]].
      * by destruct (find_first _ _).
      * intros -> ->. revert Hd. rewrite bool_decide_true by done. destruct (find_first _ _) as [ss|]; [|done]. simpl.
        unfold release_deployedb, release_deployed. destruct (find_first _ (ss_Status ss)) as [svc|] eqn:E; [|done].
        intros Hd%bool_decide_eq_true. exists ss. split; [done|]. by exists svc.
    + destruct (find_first _ _); [|done]. simpl. apply negb_true_iff.
  - destruct k; simpl; rewrite ?Hn, ?Hp; try done. intros Hd. eexists. split; [done|]. by apply negb_true_iff.
Qed.
Lemma fake_run_good f w0 released key :
  static_part f = static_part (fake_world 1) → w_Spec w0 = w_Spec (gpu_wsd 1) →
  forallb (dynamic_good w0 released) (run fake (Reconcile fake_reconciler None key) f).1.1 = true →
  Forall (good (example_class []) (f_nodes (fake_world 1)) [] w0 released) (run fake (Reconcile fake_reconciler None key) f).1.1.
Proof.
  intros Hf Hw Hd. pose proof (run_from_fake (Reconcile fake_reconciler None key) f) as Hr.
  rewrite Forall_forall in Hr |- *. intros e He. apply (from_fake_good f); [done|done|by apply Hr|].
  rewrite forallb_forall in Hd. by apply Hd, list_elem_of_In.
Qed.

Definition first_run : list event * ctrl_result * world := reconcile_once (fake_world 1).
Definition deploying_wsd : WorkspaceDeployment := default (gpu_wsd 1) (f_wsd first_run.2).
Definition next_run : list event * ctrl_result * world := reconcile_once (deploy_all first_run.2).
Lemma first_run_good : Forall (good (example_class []) (f_nodes (fake_world 1)) [] (gpu_wsd 1) false) (events_of first_run).
Proof. apply fake_run_good; [done|done|vm_compute; reflexivity]. Qed.
Lemma next_run_good w1 :
  w_Spec w1 = w_Spec (gpu_wsd 1) → forallb (dynamic_good w1 true) (events_of next_run) = true →
  Forall (good (example_class []) (f_nodes (fake_world 1)) [] w1 true) (events_of next_run).
Proof. intros Hs Hd. apply fake_run_good; [vm_compute; reflexivity|exact Hs|exact Hd]. Qed.
Lemma first_run_writes : last (omap wsd_status (events_of first_run)) = Some deploying_wsd.
Proof. vm_compute. reflexivity. Qed.
Lemma next_run_cooperates : forallb (dynamic_good deploying_wsd true) (events_of next_run) = true.
Proof. vm_compute. reflexivity. Qed.

