(* ===== verification/Deletion.v ===== *)
(** * Deletion: order and progress

    Routes, then ServiceSet, then namespace, then finalizer; and no remote cluster
    can keep a workspace from being deleted once the grace period is over. *)

From S2P Require Import Prelude GoString Api Naming QuantityNano Prog Gpu Values Feasibility Cluster.
From S2P Require Import ServiceSets Failure Prerequisites Routes Controller Reconcile Fake.

(** ** Vocabulary *)

(** The API server said that the target cluster is absent or going away. *)
Definition cluster_gone (w : WorkspaceDeployment) (e : event) : Prop :=
  ∃ x, e = Ev (Get KCD MgmtClient (cd_key w)) x ∧
    match x with Err err => IsNotFound err = true | Ok cd => deleting (cd_meta cd) = true end.

(** A request that changes the child cluster's namespaces, or a ServiceSet. *)
Definition touches_namespace (e : event) : Prop := ∃ c, ev_target e = Some (KNamespace, c).
Definition touches_serviceset (e : event) : Prop := ∃ c, ev_target e = Some (KSS, c).
(** The last step: the update that drops the finalizer. *)
Definition drops_finalizer (e : event) : Prop :=
  ∃ w x, e = Ev (Update KWSD MgmtClient w) x ∧ ContainsFinalizer (w_meta w) WorkspaceDeploymentFinalizer = false.

Lemma RemoveFinalizer_absent m f : ContainsFinalizer (RemoveFinalizer f m) f = false.
Proof.
  unfold ContainsFinalizer, RemoveFinalizer. apply bool_decide_eq_false. simpl.
  rewrite list_elem_of_filter. by intros [? _].
Qed.

(** Nothing in a trace satisfies [P]. *)
Abbreviation none P := (Forall (λ e, ¬ P e)).

Lemma always_none {A} (P : event → Prop) (Q : event → Prop) (p : prog A) tr a :
  exec p tr a → always Q p → (∀ e, Q e → ¬ P e) → none P tr.
Proof. intros Hx Hp Hi. eapply Forall_impl; [by eapply Hp|exact Hi]. Qed.

Lemma read_only_ns e : read_only e → ¬ touches_namespace e.
Proof. intros H [c Hc]. unfold read_only in H. congruence. Qed.
Lemma read_only_ss e : read_only e → ¬ touches_serviceset e.
Proof. intros H [c Hc]. unfold read_only in H. congruence. Qed.
Lemma writes_ss_ns c e : writes_only KSS c e → ¬ touches_namespace e.
Proof. intros [H|H] [? Hc]; congruence. Qed.
Lemma provider_ss e : provider_event e → ¬ touches_serviceset e.
Proof. intros [_ Ht] [c Hc]. by destruct (Ht c). Qed.
Lemma writes_wsd_ns e : writes_only KWSD MgmtClient e → ¬ touches_namespace e.
Proof. intros [H|H] [? Hc]; congruence. Qed.
Lemma writes_wsd_ss e : writes_only KWSD MgmtClient e → ¬ touches_serviceset e.
Proof. intros [H|H] [? Hc]; congruence. Qed.

Lemma mark_deleting_writes w : always (writes_only KWSD MgmtClient) (mark_deleting w).
Proof. unfold mark_deleting, status_update. prove_always; by (left + right). Qed.
Lemma remove_finalizer_writes w : always (writes_only KWSD MgmtClient) (remove_finalizer w).
Proof. unfold remove_finalizer, update_wsd. prove_always; by (left + right). Qed.
Lemma gone_reads w : always read_only (targetClusterGone w).
Proof. unfold targetClusterGone. prove_always. Qed.

Lemma gone_exec w tr b :
  exec (targetClusterGone w) tr (Ok b) →
  ∃ e, tr = [e] ∧ (b = true → cluster_gone w e) ∧
    (b = false → ∃ cd, e = Ev (Get KCD MgmtClient (cd_key w)) (Ok cd) ∧ deleting (cd_meta cd) = false).
Proof.
  unfold targetClusterGone. intros Hx. exec_step Hx as [cd|err].
  - exec_inv. simplify_eq. eexists. split; [done|]. split; intros Hd; [eexists; split; [done|exact Hd]|eauto].
  - destruct (IsNotFound err) eqn:E; exec_inv; [|done]. simplify_eq. eexists. split; [done|].
    split; [|done]. intros _. eexists. split; [done|exact E].
Qed.

Section deletion.
Context (r : Reconciler) (rp : option RouteProvider).
Context (Hlaws : ∀ p, rp = Some p → RouteProviderLaws p).

(** ** The stages of one run *)
Inductive delete_run (w : WorkspaceDeployment) : list event → ctrl_result → Prop :=
  | run_no_finalizer :
      ContainsFinalizer (w_meta w) WorkspaceDeploymentFinalizer = false → delete_run w [] (ok_result no_requeue)
  | run_routes w1 t1 t2 :
      exec (mark_deleting w) t1 w1 → exec (cleanupRoutes r rp w1) t2 false →
      delete_run w (t1 ++ t2) (ok_result requeue)
  | run_unknown w1 t1 t2 t3 err :
      exec (mark_deleting w) t1 w1 → exec (cleanupRoutes r rp w1) t2 true →
      exec (targetClusterGone w1) t3 (Err err) →
      delete_run w (t1 ++ t2 ++ t3) (failed_result err)
  | run_backend w1 t1 t2 t3 t4 gone res :
      exec (mark_deleting w) t1 w1 → exec (cleanupRoutes r rp w1) t2 true →
      exec (targetClusterGone w1) t3 (Ok gone) → exec (delete_backend r w1 gone) t4 res →
      delete_run w (t1 ++ t2 ++ t3 ++ t4) res.

Lemma reconcileDelete_run w tr res : exec (reconcileDelete r rp w) tr res → delete_run w tr res.
Proof.
  unfold reconcileDelete. intros Hx. apply exec_if in Hx as [[Hf Hx]|[_ Hx]].
  { exec_inv. apply run_no_finalizer. by apply negb_true_iff. }
  apply exec_bind in Hx as (t1 & t2 & w1 & -> & H1 & Hx).
  apply exec_bind in Hx as (t3 & t4 & ok & -> & H2 & Hx).
  destruct ok; cbn [negb] in Hx; cycle 1.
  { exec_inv. rewrite app_nil_r. by eapply run_routes. }
  apply exec_bind in Hx as (t5 & t6 & [gone|err] & -> & H3 & Hx).
  - by eapply run_backend.
  - exec_inv. rewrite app_nil_r. by eapply run_unknown.
Qed.

(** The backend of a live cluster, up to the finalizer. *)
Lemma backend_live w t res :
  exec (delete_backend r w false) t res →
  ∃ t1 t2, t = t1 ++ t2 ∧
    ((∃ x, exec (ensureWorkspaceServiceSetDeleted MgmtClient w) t1 x ∧ x ≠ Ok true ∧ t2 = [] ∧
        res = match x with Ok _ => ok_result requeue | Err err => failed_result err end) ∨
     exec (ensureWorkspaceServiceSetDeleted MgmtClient w) t1 (Ok true) ∧
     ∃ t3 t4 ns, t2 = t3 ++ t4 ∧ exec (cleanupWorkspaceNamespace r w) t3 ns ∧
       (ns.2 = false ∧ t4 = [] ∨ ns.2 = true ∧ exec (remove_finalizer w) t4 res)).
Proof.
  unfold delete_backend. intros Hx. apply exec_bind in Hx as (t1 & t2 & x & -> & H1 & Hx).
  exists t1, t2. split; [done|]. destruct x as [[|]|err]; [right|left; exists (Ok false)|left; exists (Err err)];
    [|by exec_inv..]. split; [done|].
  apply exec_bind in Hx as (t3 & t4 & ns & -> & H2 & Hx). exists t3, t4, ns. split; [done|]. split; [done|].
  destruct (ns.2); cbn [negb] in Hx; [by right|]. left. by exec_inv.
Qed.

(** ** Order *)

(** The requests whose order matters. *)
Definition ordered (e : event) : Prop :=
  touches_serviceset e ∨ touches_namespace e ∨ wsd_updated e ≠ None.

Lemma read_only_unordered e : read_only e → ¬ ordered e.
Proof.
  intros He [Hs|[Hn|Hu]]; [by eapply read_only_ss|by eapply read_only_ns|]. apply Hu.
  destruct e as [R rq x]. destruct rq as [| | |k c y| | | | | | | | | | | | | | |]; try done.
Qed.
Lemma mark_unordered w tr a : exec (mark_deleting w) tr a → none ordered tr.
Proof.
  unfold mark_deleting, status_update. intros Hx. apply exec_if in Hx as [[_ Hx]|[_ Hx]]; [|exec_inv; constructor].
  apply exec_bind in Hx as (t1 & t2 & u & -> & Hx & [-> _]). rewrite app_nil_r.
  apply exec_bind in Hx as (t2 & t3 & x & -> & ->%exec_call & Hx).
  assert (t3 = []) as -> by (destruct x; by exec_inv). apply Forall_singleton.
  intros [[c [=]]|[[c [=]]|Hu]]. by apply Hu.
Qed.
(** A provider may write namespaces of its own, on the regional cluster. *)
Lemma provider_ordered e : provider_event e → ordered e → touches_namespace e.
Proof.
  intros He [Hs|[Hn|Hu]]; [by apply provider_ss in Hs|done|]. destruct Hu.
  destruct He as [[_ Ht] _]. destruct e as [R rq x]. destruct rq as [| | |k c y| | | | | | | | | | | | | | |]; try done.
  destruct k; try done. by destruct (Ht c).
Qed.
Lemma gone_unordered w tr a : exec (targetClusterGone w) tr a → none ordered tr.
Proof. intros Hx. eapply always_none; [exact Hx|apply gone_reads|apply read_only_unordered]. Qed.

(** The requests that must wait for the ServiceSet to be gone. *)
Definition late (e : event) : Prop := touches_namespace e ∨ wsd_updated e ≠ None.
Lemma ss_writer_not_late {A} (p : prog A) c tr a :
  exec p tr a → always (writes_only KSS c) p → none late tr.
Proof.
  intros Hx Hp. eapply always_none; [exact Hx|exact Hp|]. intros e He [Hn|Hu]; [by eapply writes_ss_ns|].
  apply Hu. destruct e as [R rq x]. destruct rq as [| | |k c' y| | | | | | | | | | | | | | |]; try done.
  destruct k; try done. by destruct He.
Qed.

Lemma remove_finalizer_exec w tr res :
  exec (remove_finalizer w) tr res →
  ∃ e, tr = [e] ∧ drops_finalizer e.
Proof.
  unfold remove_finalizer, update_wsd. intros Hx. apply exec_bind in Hx as (t1 & t2 & u & -> & H1 & Hx).
  assert (t2 = []) as -> by (destruct (u.2); by exec_inv). rewrite app_nil_r.
  apply exec_bind in H1 as (t2 & t3 & x & -> & ->%exec_call & H1).
  assert (t3 = []) as -> by (destruct x; by exec_inv).
  eexists. split; [done|]. eexists _, x. split; [done|]. apply RemoveFinalizer_absent.
Qed.

(** The only event of a one-event trace. *)
Lemma single_split {A} {e : A} {pre e' post} : [e] = pre ++ e' :: post → pre = [] ∧ e' = e ∧ post = [].
Proof. destruct pre as [|? [|]]; intros; simplify_eq/=; done. Qed.

(** The route provider's stage of a run: [e] writes a namespace of the provider. *)
Definition in_routes (w1 : WorkspaceDeployment) (t1 pre : list event) (e : event) : Prop :=
  touches_namespace e ∧ ∃ b p q, pre = t1 ++ p ∧ exec (cleanupRoutes r rp w1) (p ++ e :: q) b.

(** Any other ordered request comes after the first two stages. *)
Lemma past_both w w1 b t1 t2 t pre e post :
  exec (mark_deleting w) t1 w1 → exec (cleanupRoutes r rp w1) t2 b → ordered e →
  pre ++ e :: post = t1 ++ t2 ++ t →
  in_routes w1 t1 pre e ∨ ∃ p, pre = t1 ++ t2 ++ p ∧ t = p ++ e :: post.
Proof.
  intros H1 H2 Ho Heq.
  destruct (split_past (mark_unordered _ _ _ H1) (λ Hn, Hn Ho) Heq) as (p & -> & Hp).
  destruct (stage_of (eq_sym Hp)) as [[q ->]|(p' & -> & ->)]; [left|right; by exists p'].
  split; [|by exists b, p, q]. apply provider_ordered; [|done].
  pose proof (cleanup_routes_events r rp w1 Hlaws _ _ H2) as Hp2.
  apply Forall_app in Hp2 as [_ Hp2]. by apply Forall_inv in Hp2.
Qed.

(** The order within the backend. *)
Lemma backend_order w gone t res pre e post :
  exec (delete_backend r w gone) t res → pre ++ e :: post = t → late e →
  (gone = true ∨ Exists (not_found_ss MgmtClient w) pre) ∧
  (touches_namespace e → gone = false) ∧ (wsd_updated e ≠ None → drops_finalizer e ∧ post = []).
Proof.
  intros Hx Heq Hl.
  assert (Hfin : ∀ t' p', exec (remove_finalizer w) t' res → p' ++ e :: post = t' →
            ¬ touches_namespace e ∧ drops_finalizer e ∧ post = []).
  { intros t' p' Hr Heq'. apply remove_finalizer_exec in Hr as (e' & -> & Hd).
    apply eq_sym, single_split in Heq' as (-> & -> & ->). split_and!; [|done|done].
    destruct Hd as (? & ? & -> & _). by intros [? [=]]. }
  destruct gone.
  - unfold delete_backend in Hx. apply exec_bind in Hx as (t1 & t2 & err & -> & H1 & Hx).
    destruct (split_past (ss_writer_not_late _ _ _ _ H1 (force_delete_writes _ _)) (λ Hn, Hn Hl) Heq) as (pre' & -> & ->).
    destruct err; [exec_inv; by destruct pre'|].
    destruct (Hfin _ _ Hx eq_refl) as (Hn & Hd & ->). split_and!; [by left|done|done].
  - destruct (backend_live _ _ _ Hx) as (t1 & t2 & -> & [(x & H1 & _ & -> & _)|(H1 & t3 & t4 & ns & -> & H3 & H4)]).
    + exfalso. pose proof (ss_writer_not_late _ _ _ _ H1 (ensure_ss_deleted_writes _ _)) as Hn.
      rewrite app_nil_r in Heq. subst t1. rewrite Forall_forall in Hn. eapply (Hn e); [|done].
      apply elem_of_app. right. apply list_elem_of_here.
    + destruct (split_past (ss_writer_not_late _ _ _ _ H1 (ensure_ss_deleted_writes _ _)) (λ Hn, Hn Hl) Heq)
        as (pre' & -> & Heq').
      apply gone_last in H1 as (p1 & e1 & -> & He1).
      split_and!; [right; apply Exists_app; left; apply Exists_app; right; by apply Exists_cons_hd|done|].
      intros Hu. assert (Hns : Forall (λ e, wsd_updated e = None) t3).
      { eapply exec_always; [exact H3|]. unfold cleanupWorkspaceNamespace, deleteWorkspaceNamespace,
          getChildClusterClient, GetClusterClientForCD, remoteCleanupGraceExpired, abandonCleanup, record_event.
        prove_always. }
      symmetry in Heq'. destruct (split_past Hns Hu Heq') as (pre2 & -> & ->).
      destruct H4 as [[_ H4]|[_ H4]]; [by destruct pre2|]. by destruct (Hfin _ _ H4 eq_refl) as (_ & Hd & ->).
Qed.

(** C8: In every run of the deletion handler: no ServiceSet is touched before the
    routes are cleaned up (or their cleanup is abandoned); the workspace namespace
    is touched only after the API server has reported this workspace's ServiceSet
    gone (the route provider, in its own stage, may write its mirror namespaces);
    and the finalizer is dropped last, only when the ServiceSet or the target
    cluster is gone. *)
Theorem deletion_order w tr res pre e post :
  exec (reconcileDelete r rp w) tr res → tr = pre ++ e :: post → ordered e →
  ∃ w1 t1, exec (mark_deleting w) t1 w1 ∧
    (in_routes w1 t1 pre e ∨
     ∃ t2 t3, pre = t1 ++ t2 ++ t3 ∧ exec (cleanupRoutes r rp w1) t2 true ∧
       (touches_namespace e → Exists (not_found_ss MgmtClient w1) t3) ∧
       (wsd_updated e ≠ None → drops_finalizer e ∧ post = [] ∧
          (Exists (cluster_gone w1) t3 ∨ Exists (not_found_ss MgmtClient w1) t3))).
Proof.
  intros Hx -> Ho. apply reconcileDelete_run in Hx. inversion Hx as [Hf Ht|w1 t1 t2 H1 H2 Ht|
    w1 t1 t2 t3 err H1 H2 H3 Ht|w1 t1 t2 t3 t4 gone res' H1 H2 H3 H4 Ht]; subst; [by destruct pre|..];
    exists w1, t1; (split; [done|]); symmetry in Ht.
  - rewrite <- (app_nil_r t2) in Ht.
    destruct (past_both _ _ _ _ _ _ _ _ _ H1 H2 Ho Ht) as [Hr|(p & _ & Hp)]; [by left|]. by destruct p.
  - destruct (past_both _ _ _ _ _ _ _ _ _ H1 H2 Ho Ht) as [Hr|(p & -> & Hp)]; [by left|].
    rewrite <- (app_nil_r t3) in Hp. symmetry in Hp.
    destruct (split_past (gone_unordered _ _ _ H3) (λ Hn, Hn Ho) Hp) as (p' & _ & Hp').
    by destruct p'.
  - destruct (past_both _ _ _ _ _ _ _ _ _ H1 H2 Ho Ht) as [Hr|(p & -> & Hp)]; [by left|]. symmetry in Hp.
    destruct (split_past (gone_unordered _ _ _ H3) (λ Hn, Hn Ho) Hp) as (p' & -> & Hp').
    right. exists t2, (t3 ++ p'). split; [done|]. split; [done|].
    pose proof (λ Hl, backend_order _ _ _ _ _ _ _ H4 (eq_sym Hp') Hl) as Hb.
    destruct (gone_exec _ _ _ H3) as (eg & -> & Hg & _). split.
    + intros Hn. destruct (Hb (or_introl Hn)) as ([->|Hs] & Hf & _); [by specialize (Hf Hn)|].
      apply Exists_app. by right.
    + intros Hu. destruct (Hb (or_intror Hu)) as (Hs & _ & Hf). destruct (Hf Hu) as [Hd ->].
      split; [done|]. split; [done|]. rewrite !Exists_app. destruct Hs as [->|Hs]; [|by right; right].
      left. left. apply Exists_cons_hd. by apply Hg.
Qed.
End deletion.

Section progress.
Context (r : Reconciler) (rp : option RouteProvider).

(** ** Progress *)

(** The management cluster answers this workspace's own requests, and by its
    clock the deletion is older than the grace period.  Nothing is said of the
    child cluster, of the route provider or of failing status writes. *)
Definition answered {A} (x : res A) : Prop :=
  match x with Ok _ => True | Err err => IsNotFound err = true end.
Definition cooperates (t : Z) (e : event) : Prop :=
  match e with
  | Ev rq x =>
      match rq in req R return R → Prop with
      | Now => λ now, (remoteCleanupGracePeriod < now - t)%Z
      | Get k MgmtClient _ => λ x, k = KCD ∨ k = KSS → answered x
      | Delete k MgmtClient _ => λ x, k = KSS → answered x
      | PatchFinalizers k MgmtClient _ => λ x, k = KSS → answered x
      | Update k MgmtClient _ => λ x, k = KWSD → ∃ o, x = Ok o
      | StatusUpdate k _ o =>
          match k return obj k → res (obj k) → Prop with
          | KWSD => λ o x, match x with Ok o' => w_meta o' = w_meta o ∧ w_Spec o' = w_Spec o | Err _ => True end
          | _ => λ _ _, True
          end o
      | _ => λ _, True
      end x
  end.

Lemma mark_deleting_coop w t tr w1 :
  exec (mark_deleting w) tr w1 → Forall (cooperates t) tr → w_meta w1 = w_meta w ∧ w_Spec w1 = w_Spec w.
Proof.
  unfold mark_deleting, status_update. intros Hx Hc. apply exec_if in Hx as [[_ Hx]|[_ Hx]]; [|by exec_inv].
  apply exec_bind in Hx as (t1 & t2 & u & -> & Hx & [-> ->]).
  apply exec_bind in Hx as (t3 & t4 & x & -> & ->%exec_call & Hx).
  apply Forall_inv in Hc. destruct x as [o|]; exec_inv; [exact Hc|done].
Qed.

Lemma expired_coop w t tr b :
  exec (remoteCleanupGraceExpired w) tr b → m_DeletionTimestamp (w_meta w) = Some t →
  Forall (cooperates t) tr → b = true.
Proof.
  intros Hx Ht Hc. destruct (grace_exec _ _ _ _ Hx Ht) as (now & -> & ->). apply Forall_inv in Hc.
  by apply Z.ltb_lt.
Qed.

Lemma cleanup_coop w t tr b :
  exec (cleanupRoutes r rp w) tr b → m_DeletionTimestamp (w_meta w) = Some t →
  Forall (cooperates t) tr → b = true.
Proof.
  unfold cleanupRoutes. intros Hx Ht Hc. destruct rp as [p|]; [|by exec_inv].
  apply exec_bind in Hx as (t1 & t2 & x & -> & _ & Hx). cbv zeta in Hx.
  apply exec_bind in Hx as (t3 & t4 & y & -> & _ & Hx). destruct y as [|err]; [by exec_inv|].
  apply exec_bind in Hx as (t5 & t6 & ex & -> & He & Hx). rewrite !Forall_app in Hc.
  rewrite (expired_coop _ _ _ _ He Ht) in Hx by tauto. by exec_inv.
Qed.

Lemma delete_ns_true c w tr b : exec (deleteWorkspaceNamespace c w) tr (Ok b) → b = true.
Proof.
  unfold deleteWorkspaceNamespace. cbv zeta. intros Hx. exec_inv. destruct x as [ns|err].
  - destruct (deleting (ns_meta ns)); exec_inv; [by simplify_eq|].
    destruct x as [|err]; [exec_inv; by simplify_eq|]. destruct (IsNotFound err); exec_inv; by simplify_eq.
  - destruct (IsNotFound err); exec_inv; by simplify_eq.
Qed.

Lemma namespace_coop w t tr ns :
  exec (cleanupWorkspaceNamespace r w) tr ns → m_DeletionTimestamp (w_meta w) = Some t →
  Forall (cooperates t) tr → ns.2 = true.
Proof.
  unfold cleanupWorkspaceNamespace. cbv zeta. intros Hx Ht Hc.
  assert (Hg : ∀ err tr, exec (expired ← remoteCleanupGraceExpired w;
      if expired : bool then _ ← abandonCleanup r w "workspace namespace cleanup" err; mret (no_requeue, true)
      else mret (requeue, false)) tr ns → Forall (cooperates t) tr → ns.2 = true).
  { clear Hx Hc. intros err tr' Hx Hc. apply exec_bind in Hx as (t1 & t2 & ex & -> & He & Hx).
    apply Forall_app in Hc as [Hc _]. rewrite (expired_coop _ _ _ _ He Ht Hc) in Hx. by exec_inv. }
  apply exec_bind in Hx as (t1 & t2 & [c|err] & -> & _ & Hx); apply Forall_app in Hc as [_ Hc]; [|by eapply Hg].
  apply exec_bind in Hx as (t3 & t4 & [b|err] & -> & Hd & Hx); apply Forall_app in Hc as [_ Hc]; [|by eapply Hg].
  rewrite (delete_ns_true _ _ _ _ Hd) in Hx. by exec_inv.
Qed.

Lemma force_coop w t tr err :
  exec (forceDeleteWorkspaceServiceSet MgmtClient w) tr err → Forall (cooperates t) tr → err = None.
Proof.
  unfold forceDeleteWorkspaceServiceSet. cbv zeta. intros Hx Hc.
  apply exec_bind in Hx as (t1 & t2 & x & -> & ->%exec_call & Hx). apply Forall_cons in Hc as [Hx0 Hc].
  specialize (Hx0 (or_intror eq_refl)). destruct x as [ss|e]; simpl in Hx0; cycle 1.
  { rewrite Hx0 in Hx. by exec_inv. }
  assert (Hp : ∀ tr, exec (if bool_decide (m_Finalizers (ss_meta ss) ≠ []) then
      r ← call (PatchFinalizers KSS MgmtClient (set_ss_meta (set_finalizers [] (ss_meta ss)) ss));
      match r with
      | Err err => if IsNotFound err then mret None
                   else mret (Some (wrapf "failed to clear ServiceSet finalizers" err))
      | Ok _ => mret None
      end else mret None) tr err → Forall (cooperates t) tr → err = None).
  { clear Hx Hc. intros tr' Hx Hc. apply exec_if in Hx as [[_ Hx]|[_ Hx]]; [|by exec_inv].
    apply exec_bind in Hx as (t3 & t4 & x & -> & ->%exec_call & Hx). apply Forall_cons in Hc as [Hp _].
    specialize (Hp eq_refl). destruct x as [|e]; simpl in Hp; [by exec_inv|]. rewrite Hp in Hx. by exec_inv. }
  apply exec_if in Hx as [[_ Hx]|[_ Hx]]; [|by eapply Hp].
  apply exec_bind in Hx as (t3 & t4 & x & -> & ->%exec_call & Hx). apply Forall_cons in Hc as [Hd Hc].
  specialize (Hd eq_refl). assert (ignore_not_found x = None) as Hi by (destruct x; simpl in *; by rewrite ?Hd).
  rewrite Hi in Hx. by eapply Hp.
Qed.

(** A ServiceSet that is not yet gone was seen. *)
Lemma ss_deleted_coop w t tr x :
  exec (ensureWorkspaceServiceSetDeleted MgmtClient w) tr x → Forall (cooperates t) tr →
  x = Ok true ∨ x = Ok false ∧ ∃ ss, Ev (Get KSS MgmtClient (ss_key w)) (Ok ss) ∈ tr.
Proof.
  unfold ensureWorkspaceServiceSetDeleted. cbv zeta. intros Hx Hc.
  apply exec_bind in Hx as (t1 & t2 & y & -> & ->%exec_call & Hx). apply Forall_cons in Hc as [Hy Hc].
  specialize (Hy (or_intror eq_refl)). destruct y as [ss|e]; simpl in Hy; cycle 1.
  { rewrite Hy in Hx. exec_inv. by left. }
  assert (Hre : ∀ tr, exec (again ← call (Get KSS MgmtClient (ss_key w));
            match again with
            | Err err => if IsNotFound err then mret (Ok true)
                         else mret (Err (wrapf "failed to re-check ServiceSet" err))
            | Ok _ => mret (Ok false)
            end) tr x → Forall (cooperates t) tr → x = Ok true ∨ x = Ok false).
  { clear Hx Hc. intros tr' Hx Hc. apply exec_bind in Hx as (t3 & t4 & z & -> & ->%exec_call & Hx).
    apply Forall_cons in Hc as [Hz _]. specialize (Hz (or_intror eq_refl)). destruct z as [|e]; simpl in Hz.
    - exec_inv. by right.
    - rewrite Hz in Hx. exec_inv. by left. }
  assert (x = Ok true ∨ x = Ok false) as [-> | ->]; [|by left|right; split; [done|exists ss; in_trace]].
  apply exec_if in Hx as [[_ Hx]|[_ Hx]]; [|by eapply Hre].
  apply exec_bind in Hx as (t3 & t4 & z & -> & ->%exec_call & Hx). apply Forall_cons in Hc as [Hd Hc].
  specialize (Hd eq_refl). assert (ignore_not_found z = None) as Hi by (destruct z; simpl in *; by rewrite ?Hd).
  rewrite Hi in Hx. by eapply Hre.
Qed.

Lemma remove_coop w t tr res :
  exec (remove_finalizer w) tr res → Forall (cooperates t) tr →
  res = ok_result no_requeue ∧ ∃ e, tr = [e] ∧ drops_finalizer e.
Proof.
  intros Hx Hc. split; [|by eapply remove_finalizer_exec].
  unfold remove_finalizer, update_wsd in Hx. apply exec_bind in Hx as (t1 & t2 & u & -> & H1 & Hx).
  apply exec_bind in H1 as (t3 & t4 & x & -> & ->%exec_call & H1). apply Forall_cons in Hc as [Hu _].
  destruct (Hu eq_refl) as [o ->]. destruct H1 as [_ ->]. by destruct Hx.
Qed.

(** C5: Once the grace period is over, a cooperating management cluster is enough: the
    run ends by dropping the finalizer and asks for no further run, whatever the
    child cluster and the route provider answered.  The one thing that can still
    hold the deletion is the workspace's own ServiceSet, still present while its
    cluster is alive. *)
Theorem expired_deletion_completes w t tr res :
  exec (reconcileDelete r rp w) tr res →
  ContainsFinalizer (w_meta w) WorkspaceDeploymentFinalizer = true →
  m_DeletionTimestamp (w_meta w) = Some t →
  Forall (cooperates t) tr →
  (res = ok_result no_requeue ∧ ∃ pre e, tr = pre ++ [e] ∧ drops_finalizer e) ∨
  (res = ok_result requeue ∧ (∃ w1 ss, w_Spec w1 = w_Spec w ∧ Ev (Get KSS MgmtClient (ss_key w1)) (Ok ss) ∈ tr) ∧
   ∃ cd, Ev (Get KCD MgmtClient (cd_key w)) (Ok cd) ∈ tr ∧ deleting (cd_meta cd) = false).
Proof.
  intros Hx Hf Ht Hc. apply reconcileDelete_run in Hx. inversion Hx as [Hf' Htr|w1 t1 t2 H1 H2 Htr|
    w1 t1 t2 t3 err H1 H2 H3 Htr|w1 t1 t2 t3 t4 gone res' H1 H2 H3 H4 Htr]; subst; [congruence|..];
    rewrite !Forall_app in Hc; destruct (mark_deleting_coop _ _ _ _ H1 (proj1 Hc)) as [Hm Hs];
    rewrite <- Hm in Ht.
  - by pose proof (cleanup_coop _ _ _ _ H2 Ht (proj2 Hc)).
  - exfalso. unfold targetClusterGone in H3. apply exec_bind in H3 as (t4 & t5 & x & -> & ->%exec_call & H3).
    destruct Hc as (_ & _ & Hc). apply Forall_cons in Hc as [Hk _]. specialize (Hk (or_introl eq_refl)).
    destruct x as [|e]; simpl in Hk; [by exec_inv|]. rewrite Hk in H3. by exec_inv.
  - assert (Hcd : cd_key w1 = cd_key w) by (unfold cd_key, w_CDRef; by rewrite Hs).
    destruct gone; [|destruct (gone_exec _ _ _ H3) as (e3 & -> & _ & Hal); destruct (Hal eq_refl) as (cd & -> & Hd)].
    + unfold delete_backend in H4. apply exec_bind in H4 as (t5 & t6 & err & -> & H5 & H4).
      rewrite Forall_app in Hc. rewrite (force_coop _ _ _ _ H5 (proj1 (proj2 (proj2 (proj2 Hc))))) in H4.
      destruct (remove_coop _ t _ _ H4) as (-> & e & -> & He); [tauto|]. left. split; [done|].
      exists (t1 ++ t2 ++ t3 ++ t5), e. split; [by rewrite <- !app_assoc|done].
    + destruct (backend_live _ _ _ _ H4) as (t5 & t6 & -> & Hb). rewrite Forall_app in Hc.
      destruct Hb as [(x & H5 & Hne & -> & ->)|(H5 & t7 & t8 & ns & -> & H7 & H8)].
      * destruct (ss_deleted_coop _ t _ _ H5) as [->|(-> & ss & Hss)]; [tauto|done|]. right.
        split; [done|]. split.
        { exists w1, ss. split; [done|]. rewrite app_nil_r. in_trace. }
        exists cd. split; [rewrite <- Hcd; in_trace|done].
      * left. rewrite Forall_app in Hc. destruct H8 as [[Hns _]|[_ H8]].
        { rewrite (namespace_coop _ t _ _ H7 Ht) in Hns by tauto. done. }
        destruct (remove_coop _ t _ _ H8) as (-> & e & -> & He); [tauto|]. split; [done|].
        exists (t1 ++ t2 ++ [Ev (Get KCD MgmtClient (cd_key w1)) (Ok cd)] ++ t5 ++ t7), e.
        split; [by rewrite <- !app_assoc|done].
Qed.
End progress.

(** ** The finalizer comes first *)

(** The workspace carries the finalizer by the time of [tr]: the server delivered it
    so, or accepted the update that adds it. *)
Definition has_finalizer (w : WorkspaceDeployment) : Prop :=
  ContainsFinalizer (w_meta w) WorkspaceDeploymentFinalizer = true.
Definition finalizer_held (key : ObjectKey) (tr : list event) : Prop :=
  ∃ w, Ev (Get KWSD MgmtClient key) (Ok w) ∈ tr ∧ Suspend (w_Spec w) = false ∧
    (has_finalizer w ∨
     deleting (w_meta w) = false ∧
     ∃ w1 w2, Ev (Update KWSD MgmtClient w1) (Ok w2) ∈ tr ∧ has_finalizer w1 ∧ w_Spec w1 = w_Spec w).

Lemma AddFinalizer_contains m f : ContainsFinalizer (AddFinalizer f m) f = true.
Proof.
  unfold AddFinalizer. destruct (ContainsFinalizer m f) eqn:E; [done|]. unfold ContainsFinalizer. simpl.
  apply bool_decide_eq_true. apply elem_of_app. right. apply list_elem_of_here.
Qed.

(** C18: Nothing is created, changed or deleted anywhere for a workspace before its
    finalizer is in place, so whatever was created will be cleaned up: in every run
    the only mutating request made without it is the update that adds it.  And a
    suspended workspace is not touched: a run with any mutating request began by
    reading the workspace, and found it not suspended. *)
Theorem finalizer_before_effects `{QuantityOps} r rp key tr res pre e post :
  exec (Reconcile r rp key) tr res → tr = pre ++ e :: post → ev_mutates e = true →
  (∃ w rest, pre = Ev (Get KWSD MgmtClient key) (Ok w) :: rest ∧ Suspend (w_Spec w) = false) ∧
  (finalizer_held key pre ∨ ∃ w, wsd_updated e = Some w ∧ has_finalizer w ∧ ev_target e = Some (KWSD, MgmtClient)).
Proof.
  intros Hx -> Hm. unfold Reconcile in Hx. apply exec_bind in Hx as (t1 & t2 & x & Heq & ->%exec_call & Hx).
  destruct pre as [|e' pre]; injection Heq as -> <-; [done|].
  destruct x as [w|err]; [|destruct (IsNotFound err); exec_inv; by destruct pre].
  assert (Hg : Ev (Get KWSD MgmtClient key) (Ok w) ∈ Ev (Get KWSD MgmtClient key) (Ok w) :: pre) by apply list_elem_of_here.
  apply exec_if in Hx as [[_ Hx]|[Hs Hx]]; [exec_inv; by destruct pre|]. split; [by exists w, pre|].
  apply exec_if in Hx as [[Hd Hx]|[Hd Hx]].
  - unfold reconcileDelete in Hx. apply exec_if in Hx as [[_ Hx]|[Hf _]]; [exec_inv; by destruct pre|].
    left. exists w. split_and!; [done|done|]. left. by apply negb_false_iff.
  - apply exec_if in Hx as [[Hf Hx]|[Hf Hx]].
    + unfold update_wsd in Hx. apply exec_bind in Hx as (t3 & t4 & u & Heq2 & Hu & Hx).
      apply exec_bind in Hu as (t5 & t6 & y & -> & ->%exec_call & Hu).
      destruct pre as [|e1 pre]; injection Heq2 as -> Ht4.
      { right. eexists. split_and!; [done|apply AddFinalizer_contains|done]. }
      destruct y as [w2|err]; destruct Hu as [-> ->]; [|destruct Hx as [-> _]; by destruct pre].
      left. exists w. split_and!; [done|done|]. right. split; [done|].
      eexists _, w2. split_and!; [apply list_elem_of_further, list_elem_of_here|apply AddFinalizer_contains|done].
    + left. exists w. split_and!; [done|done|]. left. by apply negb_false_iff.
Qed.

Definition deletes_or_creates (e : event) : bool := bool_decide (ev_target e = Some (KSS, MgmtClient)).
Lemma finalizer_before_effects_witness :
  ∃ pre w rest, pre = Ev (Get KWSD MgmtClient the_key) (Ok w) :: rest ∧ Suspend (w_Spec w) = false ∧ finalizer_held the_key pre.
Proof.
  destruct (event_of_run deletes_or_creates (events_of (reconcile_once (fake_world 1)))) as (pre & e & post & Htr & He).
  { vm_compute. reflexivity. }
  apply bool_decide_eq_true in He.
  assert (Hm : ev_mutates e = true).
  { destruct e as [R rq x]. revert He. clear. destruct rq; simpl; intros H; (reflexivity || discriminate H). }
  destruct (finalizer_before_effects fake_reconciler None the_key _ (reconcile_once (fake_world 1)).1.2 pre e post
              (fake_exec _) Htr Hm) as [(w & rest & Hpre & Hs) [Hf|(w' & _ & _ & Ht)]].
  { exists pre, w, rest. split; [exact Hpre|]. split; [exact Hs|exact Hf]. }
  exfalso. rewrite Ht in He. discriminate.
Defined.

(** ** Concrete deletions *)
Definition deletion_run (up : bool) : list event * ctrl_result * world :=
  run fake (reconcileDelete fake_reconciler None (deleted_wsd 0)) (deletion_world up).
Lemma deletion_exec up :
  exec (reconcileDelete fake_reconciler None (deleted_wsd 0)) (events_of (deletion_run up)) (deletion_run up).1.2.
Proof. apply run_exec. Qed.

(** The fake management cluster always cooperates, if its clock is late enough. *)
Lemma fake_answers R (rq : req R) f t :
  (remoteCleanupGracePeriod < f_now f - t)%Z →
  cooperates t (Ev rq (fake R rq f).1) ∧ f_now (fake R rq f).2 = f_now f.
Proof.
  intros Ht. split.
  - assert (Hf : ∀ A (x : option A), answered (found x)) by (intros A [a|]; done).
    destruct rq as [k [| |] key|k c o|k [| |] x|k [| |] x|k c x|k [| |] x|k [| |] x| | | | | | | | | | | |]; simpl; try done.
    + intros [-> | ->]; apply Hf.
    + intros _. by eexists.
    + by destruct k.
  - destruct rq as [k c key|k c o|k c x|k c x|k c x|k c x|k c x| | | | | | | | | | | |]; try done; by destruct k.
Qed.
Lemma fake_cooperates {A} (p : prog A) f t :
  (remoteCleanupGracePeriod < f_now f - t)%Z → Forall (cooperates t) (run fake p f).1.1.
Proof.
  revert f. induction p as [a|R rq k IH]; intros f Ht; simpl; [constructor|].
  destruct (fake_answers R rq f t Ht) as [Hc Hn]. destruct (fake R rq f) as [x f'] eqn:E. simpl in Hc, Hn.
  specialize (IH x f'). destruct (run fake (k x) f') as [[tr a] f'']. simpl in *. constructor; [exact Hc|].
  apply IH. by rewrite Hn.
Qed.

Lemma deletion_order_witness :
  ∃ pre e post, events_of (deletion_run true) = pre ++ e :: post ∧ drops_finalizer e ∧ post = [].
Proof.
  destruct (event_of_run (λ e, match wsd_updated e with Some _ => true | None => false end)
              (events_of (deletion_run true))) as (pre & e & post & Htr & He).
  { vm_compute. reflexivity. }
  assert (Hu : wsd_updated e ≠ None) by (destruct (wsd_updated e); done).
  destruct (deletion_order fake_reconciler None no_provider (deleted_wsd 0) _ (deletion_run true).1.2 pre e post
              (deletion_exec true) Htr (or_intror (or_intror Hu))) as (w1 & t1 & _ & [[[c Hc] _]|(t2 & t3 & _ & _ & _ & Hd)]).
  - exfalso. destruct e as [R rq x]. destruct rq as [| | |k c' y| | | | | | | | | | | | | | |]; try done. by destruct k.
  - exists pre, e, post. split; [exact Htr|]. destruct (Hd Hu) as (H1 & H2 & _). by split.
Defined.

Lemma expired_deletion_completes_witness :
  (deletion_run false).1.2 = ok_result no_requeue ∧
  ∃ pre e, events_of (deletion_run false) = pre ++ [e] ∧ drops_finalizer e.
Proof.
  destruct (expired_deletion_completes fake_reconciler None (deleted_wsd 0) 0 (events_of (deletion_run false))
              (deletion_run false).1.2 (deletion_exec false)) as [Hd|(Hr & _)].
  - vm_compute. reflexivity.
  - reflexivity.
  - apply fake_cooperates. vm_compute. reflexivity.
  - exact Hd.
  - exfalso. revert Hr. vm_compute. discriminate.
Defined.
