(* ===== verification/Watch.v ===== *)
(** * From ServiceSet events back to workspaces

    [workspaceDeploymentForServiceSet]: which workspaces a change of a ServiceSet
    wakes up. *)

From S2P Require Import Prelude GoString Api Naming QuantityNano Prog Gpu Values Feasibility Cluster.
From S2P Require Import ServiceSets Failure Prerequisites Routes Controller Reconcile Fake.

(** Every read of [w]'s class answered with one that declares the template. *)
Definition class_declares (w : WorkspaceDeployment) (template : string) (tr : list event) : Prop :=
  ∀ x, Ev (Get KWSC MgmtClient (class_key w)) x ∈ tr → ∃ wsc, x = Ok wsc ∧ declares wsc template = true.

(** The loop adds only workspaces of that cluster whose class declares the
    template, keeps what it had, and misses none by name. *)
Lemma fan_out_spec cd template items reqs seen tr out :
  exec (fan_out cd template items reqs seen) tr out →
  (∀ n, n ∈ seen → ∃ k, k ∈ reqs ∧ k_Name k = n) →
  (∀ k, k ∈ out → k ∈ reqs ∨
     ∃ w wsc, w ∈ items ∧ k = wsd_key w ∧ r_Name (w_CDRef w) = cd ∧
       Ev (Get KWSC MgmtClient (class_key w)) (Ok wsc) ∈ tr ∧ declares wsc template = true) ∧
  (∀ k, k ∈ reqs → k ∈ out) ∧
  (∀ w, w ∈ items → r_Name (w_CDRef w) = cd → class_declares w template tr →
     ∃ k, k ∈ out ∧ k_Name k = w_Name w).
Proof.
  revert reqs seen tr. induction items as [|w items IH]; intros reqs seen tr Hx Hseen; cbn [fan_out] in Hx.
  { exec_inv. split; [auto|]. split; [auto|]. intros w Hw. by apply elem_of_nil in Hw. }
  apply exec_if in Hx as [[Hc Hx]|[Hc Hx]].
  - apply bool_decide_eq_true in Hc. destruct (IH _ _ _ Hx Hseen) as (H1 & H2 & H3). split_and!.
    + intros k [?|(w' & wsc & ? & Hrest)]%H1; [by left|]. right. exists w', wsc.
      split; [by apply list_elem_of_further|done].
    + done.
    + intros w' [->|Hw]%elem_of_cons Hn Hd; [done|]. by apply H3.
  - apply bool_decide_eq_false, dec_stable in Hc. apply exec_bind in Hx as (t1 & t & x & -> & ->%exec_call & Hx).
    simpl app.
    assert (Hgo : ∀ reqs' seen',
       exec (fan_out cd template items reqs' seen') t out → (∀ n, n ∈ seen' → ∃ k, k ∈ reqs' ∧ k_Name k = n) →
       (∀ k, k ∈ reqs' → k ∈ reqs ∨ k = wsd_key w ∧ ∃ wsc, x = Ok wsc ∧ declares wsc template = true) →
       (∀ k, k ∈ reqs → k ∈ reqs') →
       ((∃ wsc, x = Ok wsc ∧ declares wsc template = true) → ∃ k, k ∈ reqs' ∧ k_Name k = w_Name w) →
       (∀ k, k ∈ out → k ∈ reqs ∨
         ∃ w' wsc, w' ∈ w :: items ∧ k = wsd_key w' ∧ r_Name (w_CDRef w') = cd ∧
           Ev (Get KWSC MgmtClient (class_key w')) (Ok wsc) ∈ Ev (Get KWSC MgmtClient (class_key w)) x :: t ∧ declares wsc template = true) ∧
       (∀ k, k ∈ reqs → k ∈ out) ∧
       (∀ w', w' ∈ w :: items → r_Name (w_CDRef w') = cd → class_declares w' template (Ev (Get KWSC MgmtClient (class_key w)) x :: t) →
          ∃ k, k ∈ out ∧ k_Name k = w_Name w')).
    { intros reqs' seen' Hy Hs Hr Hmono Hself. destruct (IH _ _ _ Hy Hs) as (H1 & H2 & H3). split_and!.
      - intros k [Hk|(w' & wsc & Hw & He & Hcd & Hin & Hd)]%H1.
        + destruct (Hr k Hk) as [?|(-> & wsc & -> & Hd)]; [by left|]. right. exists w, wsc.
          split_and!; [apply list_elem_of_here|done|done|apply list_elem_of_here|done].
        + right. exists w', wsc. split_and!; [by apply list_elem_of_further|done|done|by apply list_elem_of_further|done].
      - intros k Hk. by apply H2, Hmono.
      - intros w' [->|Hw]%elem_of_cons Hn Hd.
        + destruct (Hself (Hd x (list_elem_of_here _ _))) as (k & Hk & Hkn). exists k. split; [by apply H2|done].
        + apply H3; [done|done|]. intros y Hy'. apply Hd. by apply list_elem_of_further. }
    destruct x as [wsc|err]; [|by eapply Hgo; [exact Hx|done|auto|auto|intros (? & ? & _)]].
    apply exec_if in Hx as [[Hb Hx]|[Hb Hx]].
    + apply andb_true_iff in Hb as [Hd _]. eapply Hgo; [exact Hx|..].
      * intros n [->|Hn]%elem_of_cons; [exists (wsd_key w); split; [apply elem_of_app; right; apply list_elem_of_here|done]|].
        destruct (Hseen n Hn) as (k & Hk & Hkn). exists k. split; [by apply elem_of_app; left|done].
      * intros k [?|Hk%list_elem_of_singleton]%elem_of_app; [by left|right]. split; [done|]. by exists wsc.
      * intros k Hk. by apply elem_of_app; left.
      * intros _. exists (wsd_key w). split; [apply elem_of_app; right; apply list_elem_of_here|done].
    + eapply Hgo; [exact Hx|done|auto|auto|]. intros (wsc' & [= <-] & Hd). rewrite Hd in Hb. simpl in Hb.
      apply negb_false_iff, bool_decide_eq_true in Hb. by apply Hseen.
Qed.

(** The cluster's name can be carried by a label. *)
Definition cluster_labelled (wsd : WorkspaceDeployment) : bool :=
  labelValueRE_MatchString (r_Name (w_CDRef wsd)).

(** The labels a prerequisite ServiceSet carries. *)
Lemma prerequisite_labels wsd wsc p v :
  let ss := prerequisite_serviceset wsd wsc p v in
  isPrerequisiteServiceSet ss = true ∧
  smget (m_Labels (ss_meta ss)) labelPrerequisiteCluster = sanitizeLabelValue (r_Name (w_CDRef wsd)) ∧
  smget (m_Labels (ss_meta ss)) labelPrerequisiteTemplate = sanitizeLabelValue (prereq_name p).
Proof.
  unfold isPrerequisiteServiceSet. simpl. split_and!; [apply bool_decide_eq_true|..];
    unfold smget, mget; simpl; by repeat first [rewrite lookup_insert_eq | rewrite lookup_insert_ne by done].
Qed.

(** The workspaces a listing delivers. *)
Definition listed (e : event) : option (list WorkspaceDeployment) :=
  match e with
  | Ev r x =>
      match r in req R return R → option (list WorkspaceDeployment) with
      | ListObjs KWSD _ _ => λ x, match x with Ok l => Some l | Err _ => None end
      | _ => λ _, None
      end x
  end.

(** The class a read delivers. *)
Definition got_class (e : event) : option WorkspaceClass :=
  match e with
  | Ev r x =>
      match r in req R return R → option WorkspaceClass with
      | Get KWSC _ _ => λ x, match x with Ok c => Some c | Err _ => None end
      | _ => λ _, None
      end x
  end.

(** C37: A request comes from a listed workspace, and a prerequisite ServiceSet finds
    its workspaces: every listed workspace on the same cluster whose class declares
    the prerequisite is requested (by name; the list is of one namespace), as long
    as the cluster's name is a valid label value. *)
Theorem prerequisite_event_reaches_workspace wsd wsc p v items tr out w :
  let ss := prerequisite_serviceset wsd wsc p v in
  let tr := Ev (ListObjs KWSD MgmtClient (list_in (m_Namespace (ss_meta ss)))) (Ok items) :: tr in
  exec (workspaceDeploymentForServiceSet ss) tr out →
  cluster_labelled wsd = true →
  w ∈ items → r_Name (w_CDRef w) = r_Name (w_CDRef wsd) →
  class_declares w (sanitizeLabelValue (prereq_name p)) tr →
  (∃ k, k ∈ out ∧ k_Name k = w_Name w) ∧
  (∀ k, k ∈ out → ∃ w', w' ∈ items ∧ k = wsd_key w' ∧ r_Name (w_CDRef w') = r_Name (w_CDRef wsd)).
Proof.
  intros ss tr' Hx Hv Hw Hcd Hd. subst tr'. destruct (prerequisite_labels wsd wsc p v) as (H1 & H2 & H3).
  fold ss in H1, H2, H3.
  unfold workspaceDeploymentForServiceSet in Hx. destruct Hx as (x & t & He & Hx).
  pose proof (f_equal (λ l, head l ≫= listed) He) as Hl. apply (f_equal tail) in He. simpl in He, Hl. subst t.
  destruct x as [items'|err]; [|done]. injection Hl as <-.
  rewrite H1, H2, H3 in Hx. clear H1 H2 H3. cbv zeta in Hx.
  assert (Hne : ∀ s, bool_decide (sanitizeLabelValue s = "") = false).
  { intros s. apply bool_decide_eq_false. intros He. destruct (sanitized_nonempty s He). }
  rewrite !Hne in Hx. simpl orb in Hx. cbv iota in Hx. rewrite sanitizeLabelValue_valid in Hx by done.
  destruct (fan_out_spec _ _ _ _ _ _ _ Hx) as (Hall & _ & Hreach); [intros n Hn; by apply elem_of_nil in Hn|].
  split.
  - apply Hreach; [done|done|]. intros y Hy. apply Hd. by apply list_elem_of_further.
  - intros k [Hk%elem_of_nil|(w' & wsc' & Hw' & Hk & Hc & _)]%Hall; [done|]. by exists w'.
Qed.

Lemma prerequisite_event_reaches_workspace_witness :
  let wsd := example_wsd "ns" "w" "cd" in
  let p := example_prereq "kuberay" "" in
  ∃ k, k ∈ [wsd_key wsd] ∧ k_Name k = "w".
Proof.
  pose (w := example_wsd "ns" "w" "cd"). pose (p := example_prereq "kuberay" ""). intros wsd p'.
  apply (prerequisite_event_reaches_workspace w (example_class [p]) p RawEmpty [w]
    [Ev (Get KWSC MgmtClient (class_key w)) (Ok (example_class [p]))] [wsd_key w] w).
  - eexists _, _. split; [reflexivity|]. eexists _, _. split; [reflexivity|]. split; reflexivity.
  - reflexivity.
  - apply list_elem_of_here.
  - reflexivity.
  - intros x [Hx|[Hx|[]%elem_of_nil]%elem_of_cons]%elem_of_cons.
    + pose proof (f_equal (λ e, match e with Ev r _ => match r with Get _ _ _ => true | _ => false end end) Hx) as Hb.
      discriminate Hb.
    + pose proof (f_equal got_class Hx) as Hb. exists (example_class [p]). destruct x as [c|err]; [|discriminate Hb].
      injection Hb as ->. split; reflexivity.
Defined.

(** A cluster whose name is no label value (longer than 63 bytes, say) is labelled
    with a hash, but the mapper compares the label with the raw name: a change of
    its prerequisite ServiceSets wakes no workspace of that cluster. *)
Theorem unlabelled_cluster_gets_no_events wsd wsc p v tr out k :
  exec (workspaceDeploymentForServiceSet (prerequisite_serviceset wsd wsc p v)) tr out →
  cluster_labelled wsd = false →
  k ∈ out → ∃ w, k = wsd_key w ∧ r_Name (w_CDRef w) ≠ r_Name (w_CDRef wsd).
Proof.
  intros Hx Hv Hk. unfold workspaceDeploymentForServiceSet in Hx. destruct Hx as (x & t & -> & Hx).
  destruct x as [items|err]; [|destruct Hx as [_ ->]; by apply elem_of_nil in Hk].
  destruct (prerequisite_labels wsd wsc p v) as (H1 & H2 & H3).
  rewrite H1, H2, H3 in Hx. clear H1 H2 H3. cbv zeta in Hx.
  apply exec_if in Hx as [[_ [_ ->]]|[_ Hx]]; [by apply elem_of_nil in Hk|].
  destruct (fan_out_spec _ _ _ _ _ _ _ Hx) as (Hall & _ & _); [intros n Hn; by apply elem_of_nil in Hn|].
  destruct (Hall k Hk) as [Hn%elem_of_nil|(w & _ & _ & -> & Hc & _)]; [done|]. exists w. split; [done|].
  intros He. rewrite He in Hc. by apply (sanitized_differs _ Hv).
Qed.

Definition long_name : string := "a-cluster-deployment-whose-name-is-longer-than-sixty-three-bytes-".
Definition long_prerequisite : ServiceSet :=
  prerequisite_serviceset (example_wsd "ns" "w" long_name) (example_class []) (example_prereq "kuberay" "") RawEmpty.
Lemma unlabelled_cluster_gets_no_events_witness :
  Forall (λ k, ∃ w, k = wsd_key w ∧ r_Name (w_CDRef w) ≠ long_name)
    (run fake (workspaceDeploymentForServiceSet long_prerequisite) (fake_world 1)).1.2.
Proof.
  apply Forall_forall. intros k.
  apply (unlabelled_cluster_gets_no_events (example_wsd "ns" "w" long_name) (example_class [])
    (example_prereq "kuberay" "") RawEmpty
    (run fake (workspaceDeploymentForServiceSet long_prerequisite) (fake_world 1)).1.1).
  - apply run_exec.
  - vm_compute. reflexivity.
Defined.
