(* ===== verification/Typing.v ===== *)
(** * Every write of a workspace is admitted

    The controller's side of the CRD schema: if what the server delivers passes the
    validation of [Schema], so does every object [Reconcile] sends, on every path.
    A write the server refuses would be retried for ever. *)

From S2P Require Import Prelude GoString Api Naming Schema QuantityNano Prog Gpu Values Feasibility Cluster.
From S2P Require Import ServiceSets Failure Prerequisites Routes Gateway Access Controller Reconcile Fake Phases Watch.

(** ** What is given, and what is kept *)
Abbreviation valid w := (valid_workspace w = true).

(** The schema leaves [spec.prerequisites] a plain list: that the names differ is an
    assumption (see [duplicate_prerequisites_are_refused]). *)
Definition admitted_class (c : WorkspaceClass) : Prop :=
  valid_class_spec (wsc_Spec c) = true ∧ NoDup (prereq_name <$> wsc_Prerequisites (wsc_Spec c)).

(** The server delivers what it has admitted. *)
Definition admitted (e : event) : Prop :=
  (∀ w, wsd_received e = Some w → valid w) ∧ (∀ c, got_class e = Some c → admitted_class c).
(** A workspace sent passes the validation. *)
Definition well_typed (e : event) : Prop :=
  ∀ w, wsd_status e = Some w ∨ wsd_updated e = Some w → valid w.

Abbreviation typed := (upholds admitted well_typed).

Lemma calm_well_typed e : calm e → well_typed e.
Proof.
  intros [_ Ht] w Hw. destruct e as [R r x]. destruct r as [| | |k c y|k c y| | | | | | | | | | | | | |];
    try (by destruct Hw); destruct k; try (by destruct Hw); by destruct (Ht c).
Qed.
Lemma typed_calm_front {A B} (p : prog A) (f : A → prog B) Q :
  always calm p → (∀ tr a, exec p tr a → typed (f a) Q) → typed (p ≫= f) Q.
Proof. intros Hp. apply upholds_front. eapply always_impl; [exact calm_well_typed|exact Hp]. Qed.

(** A calm program in front, its execution kept. *)
Ltac calm_front := apply typed_calm_front; [solve [auto with prog|apply always_call; intros; by split]|].

(** ** The validated parts of a status *)
Lemma forallb_true {A} (f : A → bool) l : forallb f l = true ↔ Forall (λ x, f x = true) l.
Proof. rewrite forallb_forall, Forall_forall. by setoid_rewrite list_elem_of_In. Qed.

Lemma valid_status_parts s :
  valid_status s = true ↔
  Forall (λ c, valid_condition c = true) (s_Conditions s) ∧ NoDup (c_Type <$> s_Conditions s) ∧
  if_set valid_resources (s_ResolvedResources s) = true ∧
  Forall (λ p, valid_prerequisite_status p = true) (s_Prerequisites s) ∧ NoDup (ps_Name <$> s_Prerequisites s) ∧
  if_set valid_feasibility (s_Feasibility s) = true ∧ NoDup (ae_Name <$> s_Access s).
Proof.
  unfold valid_status, unique_keys. rewrite !andb_true_iff, !forallb_true, !bool_decide_eq_true. tauto.
Qed.
Lemma valid_parts w :
  valid w ↔ valid_workspace_name (w_Name w) = true ∧ (0 ≤ w_Generation w)%Z ∧
    valid_deployment_spec (w_Spec w) = true ∧ valid_status (w_Status w) = true.
Proof. unfold valid_workspace. rewrite !andb_true_iff, Z.leb_le. tauto. Qed.

(** An assignment to the status that keeps it valid. *)
Lemma valid_upd_status f w :
  (valid_status (w_Status w) = true → valid_status (f (w_Status w)) = true) → valid w → valid (upd_status f w).
Proof. intros Hf. rewrite !valid_parts. simpl. naive_solver. Qed.
Lemma valid_update_condition conds c :
  valid_condition c = true → Forall (λ c, valid_condition c = true) conds →
  Forall (λ c, valid_condition c = true) (update_condition conds c).
Proof.
  intros Hc. induction 1 as [|e rest He Hr IH]; simpl; [by repeat constructor|].
  destruct (bool_decide _); [|by constructor]. constructor; [|done].
  destruct (bool_decide _); [done|exact Hc].
Qed.
Lemma update_condition_nodup conds c : NoDup (c_Type <$> conds) → NoDup (c_Type <$> update_condition conds c).
Proof.
  intros Hn. rewrite update_condition_types. case_bool_decide as Hin; [done|].
  apply NoDup_app. split; [done|]. split; [set_solver|]. apply NoDup_singleton.
Qed.

(** A condition literal: its type and reason are checked by computation. *)
Lemma valid_mk_condition w typ st reason msg :
  valid w → valid_condition_type typ && valid_reason reason = true → valid_condition (mk_condition w typ st reason msg) = true.
Proof.
  intros (_ & Hg & _)%valid_parts Ht. unfold valid_condition, mk_condition. simpl. rewrite Ht. by apply Z.leb_le.
Qed.
#[local] Ltac literal := apply valid_mk_condition; [done|vm_compute; reflexivity].

Lemma setCondition_typed w c : valid w → valid_condition c = true → typed (setCondition w c) (λ w', valid w').
Proof.
  intros Hw Hc. apply upholds_always; [eapply always_impl; [exact calm_well_typed|apply setCondition_calm]|].
  intros tr w' (now & _ & ->)%setCondition_exec. revert Hw. apply valid_upd_status.
  rewrite !valid_status_parts. simpl. intros (H1 & H2 & H3).
  split; [by apply valid_update_condition|]. split; [by apply update_condition_nodup|exact H3].
Qed.
Lemma status_update_typed w : valid w → typed (status_update w) (λ u, valid u.1).
Proof.
  intros Hw. apply upholds_call. intros x [Hr _]. split; [by intros w' [[= <-]|[=]]|].
  destruct x as [w'|err]; apply upholds_ret; [by apply Hr|done].
Qed.
Lemma update_wsd_typed w : valid w → typed (update_wsd w) (λ u, valid u.1).
Proof.
  intros Hw. apply upholds_call. intros x [Hr _]. split; [by intros w' [[=]|[= <-]]|].
  destruct x as [w'|err]; apply upholds_ret; [by apply Hr|done].
Qed.

(** A condition, then a status write. *)
Lemma condition_update_typed {A} w c (f : WorkspaceDeployment * option error → prog A) Q :
  valid w → valid_condition c = true → (∀ u, valid u.1 → typed (f u) Q) →
  typed (w' ← setCondition w c; u ← status_update w'; f u) Q.
Proof.
  intros Hw Hc Hf. eapply upholds_bind; [by apply setCondition_typed|]. intros w' Hw'.
  eapply upholds_bind; [by apply status_update_typed|]. exact Hf.
Qed.

Lemma markFailed_valid r w reason msg tr w' : exec (markFailed r w reason msg) tr w' → valid w → valid w'.
Proof.
  unfold markFailed. intros Hx Hw.
  assert (Hgo : ∀ fc : FailureContext, valid (upd_status (λ s, set_Message msg (set_Phase PhaseFailed (set_FailureContext (Some fc) s))) w)).
  { intros fc. revert Hw. by apply valid_upd_status. }
  destruct (w_Phase w), (s_FailureContext (w_Status w)); exec_inv; try (apply Hgo).
  revert Hw. by apply valid_upd_status.
Qed.

(** ** The resources resolved *)
Lemma if_set_or_else {A} (f : A → bool) x y :
  if_set f x = true → if_set f y = true → if_set f (or_else x y) = true.
Proof. by destruct x. Qed.
Lemma valid_resources_parts r :
  valid_resources r = true ↔
  if_set (λ n, 1 <=? n)%Z (Replicas r) = true ∧ if_set (λ n, 0 <=? n)%Z (GPUCount (PerReplica r)) = true ∧
  if_set valid_gpu_vendor (GPUVendor_ (PerReplica r)) = true.
Proof. unfold valid_resources, valid_requirements. by rewrite !andb_true_iff. Qed.
Lemma mergeResources_valid c u :
  valid_resources c = true → if_set valid_resources u = true → valid_resources (mergeResources c u) = true.
Proof.
  destruct u as [u|]; simpl; rewrite ?valid_resources_parts; [|done].
  intros (H1 & H2 & H3) (K1 & K2 & K3). split_and!; by apply if_set_or_else.
Qed.
Lemma set_vendor_valid v r : valid_gpu_vendor v = true → valid_resources r = true → valid_resources (set_vendor v r) = true.
Proof. rewrite !valid_resources_parts. simpl. tauto. Qed.
(** The vendor a GPU selector finds is one the schema knows. *)
Lemma vendorResources_valid : Forall (λ vr, valid_gpu_vendor (vendor vr) = true) vendorResources.
Proof. by repeat constructor. Qed.
Lemma found_vendor_valid `{QuantityOps} nodes pods sel :
  Found (AvailabilityForSelector nodes pods sel) = true →
  valid_gpu_vendor (sa_Vendor (AvailabilityForSelector nodes pods sel)) = true.
Proof.
  unfold AvailabilityForSelector. case_bool_decide; [done|]. case_match eqn:E; [done|]. intros _. simpl.
  apply negb_false_iff in E.
  destruct (avail_nodes_ok sel nodes nodes avail_acc0) as [[Hf _]|(n & vr & _ & _ & Hvr & _ & _ & ->)];
    [done|by left|congruence|].
  pose proof vendorResources_valid as Hall. rewrite Forall_forall in Hall. by apply Hall.
Qed.

Lemma feasibility_valid `{QuantityOps} nodes pods r now :
  valid_resources r = true → valid_feasibility (feasibility_status nodes pods r now) = true.
Proof.
  intros (_ & _ & Hv)%valid_resources_parts. unfold valid_feasibility, feasibility_status, valid_totals. simpl.
  rewrite Hv. simpl. unfold computeMissing. by destruct (_ || _).
Qed.

(** ** The prerequisite statuses *)
Definition valid_statuses (l : list PrerequisiteStatus) : Prop :=
  Forall (λ p, valid_prerequisite_status p = true) l ∧ NoDup (ps_Name <$> l).
Lemma valid_set_Prerequisites l w : valid_statuses l → valid w → valid (upd_status (set_Prerequisites l) w).
Proof. intros [H1 H2]. apply valid_upd_status. rewrite !valid_status_parts. simpl. tauto. Qed.

Lemma outcome_valid p s v : outcome_ok p (s, v) → valid_prerequisite_status s = true.
Proof.
  intros (_ & _ & H). unfold valid_prerequisite_status. apply bool_decide_eq_true.
  destruct v; try (by rewrite H); [done|by destruct H as [-> _]].
Qed.
Lemma outcomes_valid ps rs :
  NoDup (prereq_name <$> ps) → Forall2 outcome_ok ps rs → valid_statuses rs.*1.
Proof.
  intros Hn HF. split; [|by rewrite (outcome_names _ _ HF)].
  apply Forall_fmap. eapply Forall2_Forall_r; [exact HF|]. apply Forall_true. intros p [s v]. apply outcome_valid.
Qed.
Lemma evaluate_loop_valid c w v ps tr o sts :
  NoDup (prereq_name <$> ps) → exec (evaluate_loop c w v ps PrerequisitesVerdictSatisfied []) tr (Ok (o, sts)) → valid_statuses sts.
Proof.
  intros Hn Hx. apply evaluate_loop_spec in Hx as [(_ & p & _ & _ & ->)|(rs & -> & _ & HF)]; [|by eapply outcomes_valid].
  split; [by repeat constructor|apply NoDup_singleton].
Qed.

(** The installing loop keeps the names, and leaves no phase unset. *)
Lemma install_missing_names w wsc todo d tr l :
  exec (install_missing w wsc todo d) tr (Ok l) → ps_Name <$> l = ps_Name <$> (d ++ todo.*1).
Proof.
  revert d tr. induction todo as [|[st p] todo IH]; intros d tr Hx; cbn [install_missing] in Hx.
  { exec_inv. simplify_eq. by rewrite app_nil_r. }
  rewrite fmap_cons. cbn [fst]. apply exec_if in Hx as [[_ Hx]|[_ Hx]].
  - apply IH in Hx as ->. by rewrite <- app_assoc.
  - apply exec_bind in Hx as (t1 & t2 & err & -> & _ & Hx). destruct err; [by exec_inv|].
    apply IH in Hx as ->. by rewrite !fmap_app, <- app_assoc.
Qed.
Lemma install_missing_valid w wsc todo d tr l :
  exec (install_missing w wsc todo d) tr (Ok l) →
  Forall (λ p, valid_prerequisite_status p = true) (d ++ todo.*1) →
  Forall (λ p, valid_prerequisite_status p = true) l.
Proof.
  revert d tr. induction todo as [|[st p] todo IH]; intros d tr Hx Hv; cbn [install_missing] in Hx.
  { exec_inv. simplify_eq. by rewrite app_nil_r in Hv. }
  rewrite fmap_cons in Hv. cbn [fst] in Hv. apply exec_if in Hx as [[_ Hx]|[_ Hx]].
  - eapply IH; [exact Hx|]. by rewrite <- app_assoc.
  - apply exec_bind in Hx as (t1 & t2 & err & -> & _ & Hx). destruct err; [by exec_inv|].
    apply Forall_app in Hv as [Hd [Hs Ht]%Forall_cons]. eapply IH; [exact Hx|].
    rewrite <- app_assoc. apply Forall_app. split; [done|]. by constructor.
Qed.
Lemma zip_statuses (sts : list PrerequisiteStatus) (ps : list PrerequisiteSpec) :
  ps_Name <$> sts = prereq_name <$> ps → (zip sts ps).*1 = sts.
Proof. intros Hn. apply fst_zip. apply (f_equal length) in Hn. rewrite !length_fmap in Hn. lia. Qed.

(** ** The handlers *)
Section handlers.
Context `{QuantityOps} (r : Reconciler) (rp : option RouteProvider).
Hypothesis Hlaws : ∀ p, rp = Some p → RouteProviderLaws p ∧ RouteProviderEntries p.

Abbreviation any := (λ _, True).

Lemma fail_and_update_typed w reason msg : valid w → typed (fail_and_update r w reason msg) (λ w', valid w').
Proof.
  intros Hw. unfold fail_and_update. calm_front. intros tr w' Hx%markFailed_valid; [|done].
  eapply upholds_bind; [by apply status_update_typed|]. intros u Hu. by apply upholds_ret.
Qed.
Lemma hold_pending_typed w msg : valid w → typed (hold_pending w msg) (λ p, valid p.1).
Proof.
  intros Hw. unfold hold_pending. eapply upholds_bind.
  - apply status_update_typed. revert Hw. by apply valid_upd_status.
  - intros u Hu. by apply upholds_ret.
Qed.
Lemma enterWaiting_typed w res msg :
  valid w → valid_resources res = true → typed (enterWaiting r w res msg) (λ p, valid p.1).
Proof.
  intros Hw Hr. unfold enterWaiting. cbv zeta. calm_front. intros _ _ _. eapply upholds_bind.
  - apply status_update_typed. revert Hw. apply valid_upd_status. rewrite !valid_status_parts. simpl. tauto.
  - intros u Hu. by apply upholds_ret.
Qed.

Lemma merged_valid w wsc :
  valid w → admitted_class wsc → valid_resources (mergeResources (wsc_DefaultResources (wsc_Spec wsc)) (Resources (w_Spec w))) = true.
Proof.
  intros (_ & _ & Hs & _)%valid_parts [Hc _]. apply mergeResources_valid.
  - unfold valid_class_spec in Hc. by rewrite !andb_true_iff in Hc; destruct_and!.
  - unfold valid_deployment_spec in Hs. by apply andb_true_iff in Hs as [_ Hs].
Qed.

Lemma gate_typed w wsc : valid w → admitted_class wsc → typed (gateGPUOffering r w wsc) (λ g, valid g.1.1).
Proof.
  intros Hw Hc. pose proof (merged_valid w wsc Hw Hc) as Hm. unfold gateGPUOffering. cbv zeta.
  destruct (bool_decide _); [by apply upholds_ret|].
  assert (Hpend : ∀ msg, typed (hold_pending w msg ≫= λ p, mret (p.1, p.2, false)) (λ g, valid g.1.1)).
  { intros msg. eapply upholds_bind; [by apply hold_pending_typed|]. intros p Hp. by apply upholds_ret. }
  assert (Hwait : ∀ msg, typed (enterWaiting r w (mergeResources (wsc_DefaultResources (wsc_Spec wsc)) (Resources (w_Spec w))) msg
            ≫= λ p, mret (p.1, p.2, false)) (λ g, valid g.1.1)).
  { intros msg. eapply upholds_bind; [by apply enterWaiting_typed|]. intros p Hp. by apply upholds_ret. }
  calm_front. intros _ [cl|err] _; [|apply Hpend]. calm_front. intros _ [nodes|err] _; [|apply Hpend].
  calm_front. intros _ [pods|err] _; [|apply Hpend]. destruct (negb _).
  { eapply upholds_bind; [by apply fail_and_update_typed|]. intros w' Hw'. by apply upholds_ret. }
  destruct (_ && _); [apply Hwait|]. calm_front. intros _ [[|]|err] _; [apply Hwait|by apply upholds_ret..].
Qed.

Lemma resolve_class_typed w :
  valid w → typed (resolveWorkspaceClass r w) (λ x, valid x.1 ∧ ∀ c, x.2 = Ok (Some c) → admitted_class c).
Proof.
  intros Hw. unfold resolveWorkspaceClass. apply upholds_call.
  intros [wsc|err] [_ Hc]; (split; [by intros w' [[=]|[=]]|]).
  { apply upholds_ret. split; [done|]. intros c [= <-]. by apply Hc. }
  destruct (IsNotFound err); [|apply upholds_ret; split; [done|by intros c [=]]].
  calm_front. intros tr w' Hx%markFailed_valid; [|done]. apply condition_update_typed; [done|literal|].
  intros u Hu. apply upholds_ret. split; [done|]. simpl. by destruct (u.2); intros c [=].
Qed.
Lemma resolve_cluster_typed w : valid w → typed (resolveClusterDeployment w) (λ x, valid x.1.1.1).
Proof.
  intros Hw. unfold resolveClusterDeployment. cbv zeta. calm_front. intros _ [cd|err] _.
  - eapply upholds_bind; [apply setCondition_typed; [done|literal]|]. intros w' Hw'. by apply upholds_ret.
  - destruct (IsNotFound err); [|by apply upholds_ret].
    assert (valid (with_phase_msg PhasePending ("ClusterDeployment " +:+ quote (r_Name (w_CDRef w)) +:+
      " not found in namespace " +:+ quote (r_Namespace (w_CDRef w))) w)) by (revert Hw; by apply valid_upd_status).
    apply condition_update_typed; [done|literal|]. intros u Hu. destruct (u.2); by apply upholds_ret.
Qed.

Lemma compute_valid c res tr f :
  valid_resources res = true → exec (computeFeasibility c res) tr (Ok f) → valid_feasibility f = true.
Proof.
  intros Hr Hx. unfold computeFeasibility in Hx. exec_step Hx as [nodes|err]; [|by exec_inv].
  exec_step Hx as [pods|err]; [|by exec_inv]. exec_step Hx as now. destruct Hx as [_ [= ->]]. by apply feasibility_valid.
Qed.
Lemma refresh_typed w wsc : valid w → admitted_class wsc → typed (refreshFeasibility w wsc) (λ x, valid x.1.1).
Proof.
  intros Hw Hc. pose proof (merged_valid w wsc Hw Hc) as Hm. unfold refreshFeasibility. cbv zeta.
  assert (Hun : ∀ msg, typed (w' ← setCondition w (mk_condition w ConditionFeasible CondUnknown "FeasibilityUnknown" msg);
     u ← status_update w'; mret (u.1, requeue, None)) (λ x : WorkspaceDeployment * Result * option error, valid x.1.1)).
  { intros msg. apply condition_update_typed; [done|literal|]. intros u Hu. by apply upholds_ret. }
  calm_front. intros _ [cl|err] _; [|apply Hun]. calm_front. intros tr [feas|err] Hx; [|apply Hun].
  apply compute_valid in Hx; [|done].
  assert (valid (upd_status (set_Feasibility (Some feas)) w)).
  { revert Hw. apply valid_upd_status. rewrite !valid_status_parts. simpl. tauto. }
  apply condition_update_typed; [done|destruct (fs_Fits feas); literal|]. intros u Hu. by apply upholds_ret.
Qed.

(** *** Prerequisites *)
Lemma fail_prerequisites_typed w reason msg :
  valid w → valid_reason reason = true → typed (fail_prerequisites r w reason msg) (λ x, valid x.1.1.1).
Proof.
  intros Hw Hr. unfold fail_prerequisites, set_prereq_condition. calm_front. intros tr w' Hx%markFailed_valid; [|done].
  apply condition_update_typed; [done| |intros u Hu; by apply upholds_ret].
  apply valid_mk_condition; [done|]. rewrite Hr. vm_compute. reflexivity.
Qed.
Lemma hold_installing_typed w l : valid w → typed (hold_installing w l) (λ x, valid x.1.1.1).
Proof.
  intros Hw. unfold hold_installing, set_prereq_condition. cbv zeta.
  assert (valid (with_phase_msg PhaseInstallingPrerequisites (installingMessage l) w)) by (revert Hw; by apply valid_upd_status).
  apply condition_update_typed; [done|literal|]. intros u Hu. destruct (u.2); by apply upholds_ret.
Qed.
Lemma evaluate_valid w wsc tr v sts :
  admitted_class wsc → exec (evaluatePrerequisites MgmtClient w wsc) tr (Ok (v, sts)) →
  valid_statuses sts ∧ (v = PrerequisitesVerdictInvalid ∨ ps_Name <$> sts = prereq_name <$> wsc_Prerequisites (wsc_Spec wsc)).
Proof.
  intros [_ Hn] Hx. unfold evaluatePrerequisites in Hx. exec_step Hx as [cd|err].
  2: { destruct (IsNotFound err); by exec_inv. }
  split; [by eapply evaluate_loop_valid|]. apply evaluate_loop_spec in Hx as [(-> & _)|(rs & -> & _ & HF)]; [by left|].
  right. by rewrite app_nil_l, (outcome_names _ _ HF).
Qed.
Lemma prerequisites_typed w wsc : valid w → admitted_class wsc → typed (reconcilePrerequisites r w wsc) (λ x, valid x.1.1.1).
Proof.
  intros Hw Hc. unfold reconcilePrerequisites. calm_front. intros tr [[v sts]|err] Hx; [|by apply upholds_ret].
  apply evaluate_valid in Hx as [Hs Hnames]; [|done]. cbv zeta. set (w1 := upd_status _ w).
  assert (Hw1 : valid w1) by by apply valid_set_Prerequisites.
  destruct v; try (apply fail_prerequisites_typed; [done|vm_compute; reflexivity]).
  - eapply upholds_bind; [apply setCondition_typed; [done|literal]|]. intros w' Hw'. by apply upholds_ret.
  - by apply hold_installing_typed.
  - destruct Hnames as [[=]|Hnames]. calm_front. intros tr2 [l|err] Hx; [|by apply upholds_ret].
    apply zip_statuses in Hnames as Hz. destruct Hs as [Hs1 Hs2].
    apply hold_installing_typed, valid_set_Prerequisites; [|done]. split.
    + eapply install_missing_valid; [exact Hx|]. by rewrite Hz.
    + apply install_missing_names in Hx as ->. by rewrite Hz.
Qed.

(** *** Deployment *)
Lemma resolve_gpu_valid c res tr x :
  valid_resources res = true → exec (resolveGPUResource c res) tr x → valid_resources x.1 = true.
Proof.
  intros Hr. unfold resolveGPUResource. cbv zeta.
  assert (Hv : valid_resources (vendor_fallback res).1 = true) by (unfold vendor_fallback; by destruct (GPUVendor_ _)).
  intros [[_ Hx]|[_ Hx]]%exec_if; [|exec_inv; done]. exec_step Hx as [nodes|err]; [|exec_inv; done].
  destruct (Found _) eqn:Ef; [|exec_inv; done]. exec_inv. simpl.
  destruct (GPUVendor_ _); [done|]. apply set_vendor_valid; [by apply found_vendor_valid|done].
Qed.
Lemma set_resolved_valid res w : valid_resources res = true → valid w → valid (set_resolved res w).
Proof. intros Hr. apply valid_upd_status. rewrite !valid_status_parts. simpl. tauto. Qed.

Lemma fail_internal_typed w what err : valid w → typed (fail_internal r w what err) any.
Proof.
  intros Hw. unfold fail_internal. eapply upholds_bind; [by apply fail_and_update_typed|]. intros. by apply upholds_ret.
Qed.
Lemma hold_pending_end w msg (f : _ → prog ctrl_result) : valid w → (∀ p, ∃ c, f p = mret c) → typed (hold_pending w msg ≫= f) any.
Proof.
  intros Hw Hf. eapply upholds_bind; [by apply hold_pending_typed|]. intros p _. destruct (Hf p) as [c ->].
  by apply upholds_ret.
Qed.
Lemma deploy_typed c w wsc v : valid w → typed (deploy r c w wsc v) any.
Proof.
  intros Hw. unfold deploy. calm_front. intros _ [[|]|err] _; [| |by apply upholds_ret].
  - calm_front. intros _ [err|] _; [by apply fail_internal_typed|]. cbv zeta. eapply upholds_bind.
    + apply status_update_typed. revert Hw. by apply valid_upd_status.
    + intros u _. destruct (u.2); by apply upholds_ret.
  - apply hold_pending_end; [done|by eexists].
Qed.
Lemma start_typed w wsc : valid w → admitted_class wsc → typed (startDeployment r w wsc) any.
Proof.
  intros Hw Hc. pose proof (merged_valid w wsc Hw Hc) as Hm. unfold startDeployment. cbv zeta.
  set (res := mergeResources _ _) in *. set (w1 := upd_status (set_ServiceEntryName _) _).
  assert (Hw1 : valid w1) by (apply valid_upd_status; [done|by apply set_resolved_valid]).
  calm_front. intros _ [cl|err] _; [|apply hold_pending_end; [done|by eexists]].
  calm_front. intros tr [res' name] Hx%resolve_gpu_valid; [|done]. cbn [fst] in Hx.
  assert (Hw2 : valid (set_resolved res' w1)) by by apply set_resolved_valid.
  destruct (mergeValuesMap _ _) as [[merged|err]|]; [|by apply fail_internal_typed|by apply upholds_ret].
  destruct (chart_values _ _ _ _) as [values warnings]. eapply (upholds_bind _ _ _ _ (λ w', valid w')).
  - unfold setResourcesInjectedCondition. destruct warnings; (apply setCondition_typed; [done|literal]).
  - intros w3 Hw3. destruct (serializeValues values) as [v|err]; [by apply deploy_typed|by apply fail_internal_typed].
Qed.

Lemma scan_typed w entry svcs : typed (scan_services r w entry svcs) any.
Proof.
  revert w. induction svcs as [|svc svcs IH]; intros w; [by apply upholds_ret|]. cbn [scan_services].
  destruct (bool_decide _); [apply IH|]. apply upholds_call.
  intros [fresh|err] [Hr _]; (split; [by intros w' [[=]|[=]]|]); [|by apply upholds_ret].
  specialize (Hr _ eq_refl). destruct (sv_State svc); [| |apply IH].
  - cbv zeta. assert (Hw1 : valid (upd_status (λ s, set_FailureContext None (set_Phase PhaseRunning s)) fresh))
      by (revert Hr; by apply valid_upd_status).
    eapply upholds_bind; [apply setCondition_typed; [done|literal]|]. intros w2 Hw2.
    apply condition_update_typed; [done|literal|]. intros u _. destruct (u.2); by apply upholds_ret.
  - calm_front. intros tr w2 Hx%markFailed_valid; [|done]. apply condition_update_typed; [done|literal|].
    intros u _. destruct (u.2); by apply upholds_ret.
Qed.
Lemma readiness_typed w : typed (checkServiceReadiness r w) any.
Proof.
  unfold checkServiceReadiness. calm_front. intros _ [ss|err] _; [apply scan_typed|].
  destruct (IsNotFound err); by apply upholds_ret.
Qed.

(** *** Routes *)
Lemma routes_condition_valid w entries : valid w → valid_condition (routes_condition w entries).2 = true.
Proof. intros Hw. unfold routes_condition. destruct (foldl _ _ _) as [[|] msg]; literal. Qed.
Lemma class_endpoints_unique wsc : admitted_class wsc → NoDup (ep_Name <$> wsc_AccessEndpoints (wsc_Spec wsc)).
Proof.
  intros [Hc _]. unfold valid_class_spec, unique_keys in Hc. rewrite !andb_true_iff, bool_decide_eq_true in Hc. tauto.
Qed.
Lemma routes_typed w wsc : valid w → admitted_class wsc → typed (reconcileRoutes rp w wsc) any.
Proof.
  intros Hw Hc%class_endpoints_unique. unfold reconcileRoutes. destruct rp as [p|]; [|by apply upholds_ret].
  destruct (Hlaws p eq_refl) as [HL HE].
  destruct (wsc_AccessEndpoints (wsc_Spec wsc)) as [|ep eps]; [by apply upholds_ret|].
  apply typed_calm_front; [apply provider_calm, ensure_routes_frame|]. intros tr [entries|err] Hx.
  - apply HE in Hx. pose proof (routes_condition_valid w entries Hw) as Hcond.
    destruct (routes_condition w entries) as [ready cond]. cbv zeta.
    assert (Hfin : typed (if negb ready then mret (requeue, true, None) else mret (no_requeue, false, (None : option error))) any)
      by (destruct ready; by apply upholds_ret).
    destruct (negb (routes_unchanged w entries cond)); [|exact Hfin].
    assert (Hw1 : valid (upd_status (set_Access entries) w)).
    { revert Hw. apply valid_upd_status. rewrite !valid_status_parts. simpl. rewrite Hx. tauto. }
    apply condition_update_typed; [done|done|]. intros u _. destruct (u.2); [by apply upholds_ret|exact Hfin].
  - assert (Hcond : ∀ reason msg, reason ∈ ["RoutingInfraNotReady"; "RoutingError"] →
      typed (w' ← setCondition w (mk_condition w ConditionRoutesReady CondFalse reason msg);
             _ ← status_update w'; mret (requeue, true, (None : option error))) any).
    { intros reason msg Hr. apply condition_update_typed; [done| |by intros; apply upholds_ret].
      rewrite !elem_of_cons, elem_of_nil in Hr. destruct Hr as [->|[->|[]]]; literal. }
    destruct (IsInfraNotReady err); apply Hcond; set_solver.
Qed.

(** *** Deletion *)
Lemma remove_finalizer_typed w : valid w → typed (remove_finalizer w) any.
Proof.
  intros Hw. unfold remove_finalizer. eapply upholds_bind; [by apply update_wsd_typed|].
  intros u _. destruct (u.2); by apply upholds_ret.
Qed.
Lemma delete_backend_typed w gone : valid w → typed (delete_backend r w gone) any.
Proof.
  intros Hw. unfold delete_backend. destruct gone.
  - calm_front. intros _ [err|] _; [by apply upholds_ret|by apply remove_finalizer_typed].
  - calm_front. intros _ [[|]|err] _; [|by apply upholds_ret..].
    apply typed_calm_front; [apply cleanup_namespace_calm|]. intros _ ns _.
    destruct (negb ns.2); [by apply upholds_ret|by apply remove_finalizer_typed].
Qed.
Lemma delete_typed w : valid w → typed (reconcileDelete r rp w) any.
Proof.
  intros Hw. unfold reconcileDelete. destruct (negb _); [by apply upholds_ret|].
  eapply (upholds_bind _ _ _ _ (λ w', valid w')).
  - unfold mark_deleting. case_bool_decide; [|by apply upholds_ret].
    eapply upholds_bind; [apply status_update_typed; revert Hw; by apply valid_upd_status|].
    intros u Hu. by apply upholds_ret.
  - intros w1 Hw1. apply typed_calm_front; [apply cleanup_routes_calm; intros p Hp; by apply Hlaws|].
    intros _ ok _. destruct (negb ok); [by apply upholds_ret|]. calm_front.
    intros _ [gone|err] _; [|by apply upholds_ret].
    by apply delete_backend_typed.
Qed.

(** *** The dispatch *)
Lemma phase_typed w wsc : valid w → admitted_class wsc → typed (reconcile_phase r rp w wsc) any.
Proof.
  intros Hw Hc. unfold reconcile_phase. destruct (w_Phase w); try (by apply start_typed).
  - apply readiness_typed.
  - eapply upholds_bind; [by apply routes_typed|]. intros [[res retry] err] _.
    destruct err; [|destruct retry]; by apply upholds_ret.
  - by apply upholds_ret.
Qed.
Lemma prereq_step_typed w wsc : valid w → admitted_class wsc → typed (reconcile_prerequisites_step r rp w wsc) any.
Proof.
  intros Hw Hc. unfold reconcile_prerequisites_step. destruct (wsc_Prerequisites _); [by apply phase_typed|].
  eapply upholds_bind; [by apply prerequisites_typed|]. intros [[[w' res] d] err] Hw'. cbn [fst] in Hw'.
  destruct err; [by apply upholds_ret|]. destruct d; [by apply upholds_ret|by apply phase_typed].
Qed.
Lemma gate_step_typed w wsc : valid w → admitted_class wsc → typed (gate_step r rp w wsc) any.
Proof.
  intros Hw Hc. unfold gate_step.
  assert (Hg : typed (g ← gateGPUOffering r w wsc; let '(wsd, res, ok) := g in
     if negb ok then mret (ok_result res) else reconcile_prerequisites_step r rp wsd wsc) any).
  { eapply upholds_bind; [by apply gate_typed|]. intros [[w' res] ok] Hw'. cbn [fst] in Hw'.
    destruct ok; [by apply prereq_step_typed|by apply upholds_ret]. }
  destruct (w_Phase w); try exact Hg; by apply prereq_step_typed.
Qed.
Lemma feasibility_step_typed w wsc : valid w → admitted_class wsc → typed (feasibility_step r rp w wsc) any.
Proof.
  intros Hw Hc. unfold feasibility_step.
  assert (Hf : typed (f ← refreshFeasibility w wsc; let '(wsd, res, err) := f in
     match err with Some err => mret (Returned res (Some err)) | None => gate_step r rp wsd wsc end) any).
  { eapply upholds_bind; [by apply refresh_typed|]. intros [[w' res] err] Hw'. cbn [fst] in Hw'.
    destruct err; [by apply upholds_ret|by apply gate_step_typed]. }
  destruct (w_Phase w); try exact Hf; by apply gate_step_typed.
Qed.
Lemma cluster_step_typed w wsc : valid w → admitted_class wsc → typed (cluster_step r rp w wsc) any.
Proof.
  intros Hw Hc. unfold cluster_step. destruct (bool_decide _); [|by apply feasibility_step_typed].
  eapply upholds_bind; [by apply resolve_cluster_typed|]. intros [[[w' res] ok] err] Hw'. cbn [fst] in Hw'.
  destruct err; [by apply upholds_ret|]. destruct ok; [by apply feasibility_step_typed|by apply upholds_ret].
Qed.
Lemma live_typed w : valid w → typed (reconcile_live r rp w) any.
Proof.
  intros Hw. unfold reconcile_live. eapply upholds_bind; [by apply resolve_class_typed|]. intros [w' x] [Hw' Hc].
  cbn [fst snd] in *. destruct x as [[wsc|]|err]; [|by apply upholds_ret..].
  eapply upholds_bind; [apply setCondition_typed; [done|literal]|]. intros w2 Hw2.
  apply cluster_step_typed; [done|by apply Hc].
Qed.
Lemma reconcile_typed key : typed (Reconcile r rp key) any.
Proof.
  unfold Reconcile. apply upholds_call. intros [w|err] [Hr _]; (split; [by intros w' [[=]|[=]]|]);
    [|destruct (IsNotFound err); by apply upholds_ret].
  specialize (Hr _ eq_refl). destruct (Suspend (w_Spec w)); [by apply upholds_ret|].
  destruct (deleting (w_meta w)); [by apply delete_typed|]. destruct (negb _); [|by apply live_typed].
  assert (Hw1 : valid (upd_meta (AddFinalizer WorkspaceDeploymentFinalizer) w)).
  { unfold AddFinalizer. revert Hr. rewrite !valid_parts. simpl. by destruct (ContainsFinalizer _ _). }
  eapply upholds_bind; [by apply update_wsd_typed|]. intros u Hu.
  destruct (u.2); [by apply upholds_ret|by apply live_typed].
Qed.
End handlers.

(** C7: Whatever [Reconcile] writes passes the validation of the CRD: if every workspace
    and class the server delivers is admitted, the class's prerequisites have distinct
    names and the route provider returns one entry per endpoint, then every workspace
    sent by a status write or an update, on every path and whatever else is answered,
    has valid conditions and resources, no GPU vendor but the two of the enum, and no
    two conditions, prerequisites or access entries under one key. *)
Theorem writes_are_well_typed `{QuantityOps} r rp key tr res :
  (∀ p, rp = Some p → RouteProviderLaws p ∧ RouteProviderEntries p) →
  exec (Reconcile r rp key) tr res → Forall admitted tr → Forall well_typed tr.
Proof. intros Hl Hx Ha. by destruct (reconcile_typed r rp Hl key tr res Hx Ha). Qed.

(** ** A concrete run *)
Definition admittedb (e : event) : bool :=
  match wsd_received e with Some w => valid_workspace w | None => true end &&
  match got_class e with
  | Some c => valid_class_spec (wsc_Spec c) && bool_decide (NoDup (prereq_name <$> wsc_Prerequisites (wsc_Spec c)))
  | None => true
  end.
Lemma admittedb_spec e : admittedb e = true → admitted e.
Proof.
  unfold admittedb, admitted, admitted_class. intros [H1 H2]%andb_true_iff. split.
  - intros w Hw. by rewrite Hw in H1.
  - intros c Hc. rewrite Hc in H2. by rewrite andb_true_iff, bool_decide_eq_true in H2.
Qed.
Lemma admittedb_trace tr : forallb admittedb tr = true → Forall admitted tr.
Proof. intros Ht%forallb_true. eapply Forall_impl; [exact Ht|exact admittedb_spec]. Qed.

Definition statuses_written (tr : list event) : list WorkspaceDeployment := omap wsd_status tr.
Definition typed_run : list event * ctrl_result * world := reconcile_once (with_prerequisite (fake_world 1)).

Lemma writes_are_well_typed_witness :
  length (statuses_written typed_run.1.1) = 2 ∧ Forall well_typed typed_run.1.1.
Proof.
  split; [vm_compute; reflexivity|].
  apply (writes_are_well_typed fake_reconciler None the_key _ typed_run.1.2).
  - intros p Hp. discriminate Hp.
  - apply fake_exec.
  - apply admittedb_trace. vm_compute. reflexivity.
Defined.

(** ** A class the schema admits and the status does not

    [spec.prerequisites] is a plain list, [status.prerequisites] a map by name. *)
Definition duplicated (w : WorkspaceDeployment) : Prop := ¬ NoDup (ps_Name <$> s_Prerequisites (w_Status w)).
Definition refused (e : event) : Prop := ∀ w, wsd_status e = Some w → valid_workspace w = false.
Abbreviation writes_refused := (upholds (λ _, True) refused).

Lemma duplicated_invalid w : duplicated w → valid_workspace w = false.
Proof. intros Hd. apply not_true_iff_false.
  by intros (_ & _ & _ & (_ & _ & _ & _ & Hn & _)%valid_status_parts)%valid_parts. Qed.
Lemma calm_refused e : calm e → refused e.
Proof. intros Hc w. by rewrite calm_no_status. Qed.
Lemma refused_calm {A B} (p : prog A) (f : A → prog B) Q :
  always calm p → (∀ tr a, exec p tr a → writes_refused (f a) Q) → writes_refused (p ≫= f) Q.
Proof. intros Hp. apply upholds_front. eapply always_impl; [exact calm_refused|exact Hp]. Qed.
Lemma duplicated_write {A} w c (f : WorkspaceDeployment * option error → prog A) Q :
  duplicated w → (∀ u, writes_refused (f u) Q) →
  writes_refused (w' ← setCondition w c; u ← status_update w'; f u) Q.
Proof.
  intros Hd Hf. apply refused_calm; [auto with prog|]. intros tr w' (now & _ & ->)%setCondition_exec.
  eapply (upholds_bind _ _ _ _ (λ _, True)); [|intros u _; apply Hf].
  apply upholds_call. intros x _. split; [|by destruct x; apply upholds_ret].
  intros w2 [= <-]. by apply duplicated_invalid.
Qed.
Lemma markFailed_prerequisites r w reason msg tr w' :
  exec (markFailed r w reason msg) tr w' → s_Prerequisites (w_Status w') = s_Prerequisites (w_Status w).
Proof.
  unfold markFailed. intros Hx. destruct (w_Phase w), (s_FailureContext (w_Status w)); by exec_inv.
Qed.

Lemma evaluate_duplicated w wsc tr v sts :
  ¬ NoDup (prereq_name <$> wsc_Prerequisites (wsc_Spec wsc)) →
  (∀ p, p ∈ wsc_Prerequisites (wsc_Spec wsc) → t_VersionConstraint (pr_ServiceTemplate p) = "") →
  exec (evaluatePrerequisites MgmtClient w wsc) tr (Ok (v, sts)) →
  ps_Name <$> sts = prereq_name <$> wsc_Prerequisites (wsc_Spec wsc).
Proof.
  intros Hdup Hvc Hx. unfold evaluatePrerequisites in Hx.
  exec_step Hx as [cd|err]; [|destruct (IsNotFound err); by exec_inv].
  apply evaluate_loop_spec in Hx as [(_ & p & Hp & Hc & _)|(rs & -> & _ & HF)]; [by rewrite Hvc in Hc|].
  by rewrite app_nil_l, (outcome_names _ _ HF).
Qed.

(** A class that lists one template twice is admitted by the schema, but no status
    write of the prerequisite step is: the workspace's [status.prerequisites], a map
    by name, gets the name twice, and every such write is refused and retried.  The
    step ends without a write only when all is satisfied, and hands on a workspace
    with the same defect. *)
Theorem duplicate_prerequisites_are_refused r w wsc :
  ¬ NoDup (prereq_name <$> wsc_Prerequisites (wsc_Spec wsc)) →
  (∀ p, p ∈ wsc_Prerequisites (wsc_Spec wsc) → t_VersionConstraint (pr_ServiceTemplate p) = "") →
  writes_refused (reconcilePrerequisites r w wsc) (λ x, x.2 = None → x.1.2 = false → valid_workspace x.1.1.1 = false).
Proof.
  intros Hdup Hvc. set (Q := λ x : WorkspaceDeployment * Result * bool * option error, _).
  assert (Hend : ∀ w' res err, Q (w', res, true, err)) by (intros w' res err _ [=]).
  unfold reconcilePrerequisites. apply refused_calm; [auto with prog|].
  intros tr [[v sts]|err] Hx; [|by apply upholds_ret].
  apply evaluate_duplicated in Hx as Hn; [|done..]. cbv zeta. set (w1 := upd_status _ w).
  assert (Hw1 : duplicated w1) by (unfold duplicated; simpl; by rewrite Hn).
  assert (Hfail : ∀ reason msg, writes_refused (fail_prerequisites r w1 reason msg) Q).
  { intros reason msg. unfold fail_prerequisites, set_prereq_condition. apply refused_calm; [auto with prog|].
    intros tr2 w2 Hm%markFailed_prerequisites. apply duplicated_write; [|intros u; by apply upholds_ret].
    unfold duplicated. by rewrite Hm. }
  assert (Hinst : ∀ w2 l, duplicated w2 → writes_refused (hold_installing w2 l) Q).
  { intros w2 l Hw2. unfold hold_installing, set_prereq_condition. cbv zeta.
    apply duplicated_write; [done|]. intros u. destruct (u.2); by apply upholds_ret. }
  destruct v; [|by apply Hinst| |apply Hfail..].
  - unfold set_prereq_condition. apply refused_calm; [auto with prog|].
    intros tr2 w2 (now & _ & ->)%setCondition_exec. apply upholds_ret. intros _ _. by apply duplicated_invalid.
  - apply refused_calm; [auto with prog|]. intros tr2 [l|err] Hl; [|by apply upholds_ret]. apply Hinst.
    unfold duplicated. simpl. apply install_missing_names in Hl as ->. rewrite app_nil_l, zip_statuses by done.
    by rewrite Hn.
Qed.

(** Such a class: the schema and the class controller admit it. *)
Definition double_class : WorkspaceClass := example_class [example_prereq "kuberay" ""; example_prereq "kuberay" ""].
Lemma duplicate_prerequisites_are_refused_witness :
  valid_class_spec (wsc_Spec double_class) = true ∧
  writes_refused (reconcilePrerequisites fake_reconciler (gpu_wsd 1) double_class)
    (λ x, x.2 = None → x.1.2 = false → valid_workspace x.1.1.1 = false).
Proof.
  split; [vm_compute; reflexivity|]. apply (duplicate_prerequisites_are_refused fake_reconciler (gpu_wsd 1) double_class).
  - intros Hn. apply (bool_decide_eq_true_2 (NoDup _)) in Hn. vm_compute in Hn. discriminate Hn.
  - intros p Hp. unfold double_class in Hp. simpl in Hp. rewrite !elem_of_cons, elem_of_nil in Hp.
    destruct Hp as [->|[->|[]]]; reflexivity.
Defined.
