(* ===== verification/Colony.v ===== *)
(** * The Colony controller: [internal/controller/infra/colony_controller.go]

    A colony's clusters are ensured one by one, its status is computed from their
    ClusterDeployments, and then each child cluster is told its API endpoint and the
    kubeconfigs are collected.  [colony] is the object in hand; a step that changes
    it returns it. *)

From S2P Require Import Prelude GoString Api InfraApi Prog Gpu Values Cluster ClusterDeployments Discovery.
From S2P Require Import Routes Controller.

Definition colonyFinalizer : string := "colony.infra.exalsius.ai/finalizer".
Definition conditionTypeClustersReady : string := "ClustersReady".
Definition requeue_after (d : Z) : Result := {| RequeueAfter := d |}.

(** [errors.Join]: [errors.As] finds the first API error among them. *)
Definition join_errors (errs : list error) : error :=
  {| e_code := match find_first (λ e, bdec (e_code e ≠ EOther)) errs with Some e => e_code e | None => EOther end;
     e_text := Join (e_text <$> errs) (String (Ascii.ascii_of_nat 10) EmptyString) |}.
(** fmt's [%v] of a list of strings. *)
Definition format_list (l : list string) : string := "[" +:+ Join l " " +:+ "]".

(** ** Which errors count as not ready; they only choose a log line. *)
Definition isConnectionError (err : option error) : bool :=
  match err with
  | None => false
  | Some err =>
      Contains (e_text err) "connection refused" || Contains (e_text err) "i/o timeout"
      || Contains (e_text err) "no such host" || Contains (e_text err) "connect: connection timed out"
  end.
Definition getNotReadyReason (err : error) : string :=
  if IsNotFound err then "kubeconfig not found"
  else if Contains (e_text err) "connection refused" then "API server not ready"
  else if Contains (e_text err) "i/o timeout" then "API server timeout"
  else if Contains (e_text err) "no such host" then "DNS not ready"
  else "cluster starting up".

(** ** Deletion *)
Fixpoint status_attempts (colony : Colony) (phase : string) (attempts : nat) (backoff : Z) : prog (res Colony) :=
  match attempts with
  | O => mret (Err (errorf "failed to update Colony status after 5 attempts due to conflicts"))
  | S attempts =>
      x ← call (Get KColony MgmtClient (ObjectKeyFromObject (col_meta colony)));
      match x with
      | Err err => if IsNotFound err then mret (Ok colony)
                   else mret (Err (wrapf "failed to get latest version of Colony" err))
      | Ok latest =>
          y ← call (StatusUpdate KColony MgmtClient (upd_col_status (set_col_Phase phase) latest));
          match y with
          | Err err =>
              if IsConflict err then
                _ ← call (Sleep backoff);
                status_attempts colony phase attempts (2 * backoff)
              else mret (Err (wrapf "failed to update Colony status" err))
          | Ok latest => mret (Ok latest)
          end
      end
  end.
Definition updateColonyStatusWithRetry (colony : Colony) (phase : string) : prog (res Colony) :=
  status_attempts colony phase maxRetries initialBackoff.

(** [stillExists]. *)
Definition cleanupAssociatedResources (colony : Colony) (colonyCluster : ColonyCluster) : prog (res bool) :=
  let clusterDeploymentName := deployment_name colony colonyCluster in
  x ← call (Get KCD MgmtClient {| k_Namespace := col_Namespace colony; k_Name := clusterDeploymentName |});
  match x with
  | Err err =>
      if IsNotFound err then
        _ ← DeletePVCForClusterDeployment MgmtClient clusterDeploymentName (col_Namespace colony);
        mret (Ok false)
      else mret (Err err)
  | Ok clusterDeployment =>
      if deleting (cd_meta clusterDeployment) then mret (Ok true)
      else
        y ← call (Delete KCD MgmtClient clusterDeployment);
        match y with
        | Err err => if negb (IsNotFound err) then mret (Err err) else mret (Ok true)
        | Ok _ => mret (Ok true)
        end
  end.
Fixpoint cleanup_clusters (colony : Colony) (clusters : list ColonyCluster) (anyStillDeleting : bool) : prog (res bool) :=
  match clusters with
  | [] => mret (Ok anyStillDeleting)
  | cc :: clusters =>
      stillExists ←? cleanupAssociatedResources colony cc;
      cleanup_clusters colony clusters (anyStillDeleting || stillExists)
  end.
Definition remove_colony_finalizer (key : ObjectKey) : prog ctrl_result :=
  x ← call (Get KColony MgmtClient key);
  match x with
  | Err err => if IsNotFound err then mret (ok_result no_requeue) else mret (failed_result err)
  | Ok colony =>
      y ← call (Update KColony MgmtClient (upd_col_meta (RemoveFinalizer colonyFinalizer) colony));
      match y with Err err => mret (failed_result err) | Ok _ => mret (ok_result no_requeue) end
  end.
Definition handleColonyDeletion (key : ObjectKey) (colony : Colony) : prog ctrl_result :=
  x ← updateColonyStatusWithRetry colony "Deleting";
  match x with
  | Err err => mret (failed_result err)
  | Ok colony =>
      y ← cleanup_clusters colony (ColonyClusters (col_Spec colony)) false;
      match y with
      | Err err => mret (failed_result err)
      | Ok true => mret (ok_result (requeue_after (10 * Second)))
      | Ok false => remove_colony_finalizer key
      end
  end.

Definition addFinalizer (colony : Colony) : prog ctrl_result :=
  x ← call (Update KColony MgmtClient (upd_col_meta (AddFinalizer colonyFinalizer) colony));
  match x with Err err => mret (failed_result err) | Ok _ => mret (ok_result no_requeue) end.

Section colony.
Context `{QuantityOps} `{InfraLib}.
(** The order in which Go ranges over the offerings of a cluster. *)
Context (iter : list Offering → list Offering).

(** ** Ensuring the clusters *)
Definition ensure_cluster (st : Colony * list error) (colonyCluster : ColonyCluster) : prog (Colony * list error) :=
  let '(colony, clusterErrs) := st in
  match cc_ClusterDeploymentSpec colonyCluster with
  | None => mret (colony, clusterErrs)
  | Some _ =>
      x ← EnsureClusterDeployment MgmtClient colony colonyCluster;
      let '(colony, err) := x in
      mret (colony, match err with
                    | None => clusterErrs
                    | Some err => clusterErrs ++ [wrapf ("cluster " +:+ quote (cc_ClusterName colonyCluster)) err]
                    end)
  end.
Definition ensure_clusters (colony : Colony) : prog (Colony * list error) :=
  foldM ensure_cluster (colony, []) (ColonyClusters (col_Spec colony)).

(** ** updateColonyStatusFromClusters *)
Definition total_clusters (colony : Colony) : Z :=
  Z.of_nat (length (filter (λ cc, is_Some (cc_ClusterDeploymentSpec cc)) (ColonyClusters (col_Spec colony)))).
Definition ref_string (ref : ObjectReference) : string := or_Namespace ref +:+ "/" +:+ or_Name ref.
(** Only a Ready condition that is False makes a cluster not ready. *)
Definition cd_ready (cd : ClusterDeployment) : bool :=
  negb (existsb (λ c, bdec (c_Type c = ReadyCondition) && bdec (c_Status c = CondFalse)) (cd_Conditions cd)).
(** The number of ready clusters and the names of the others. *)
Fixpoint count_ready (refs : list ObjectReference) (readyClusters : Z) (notReadyClusters : list string)
    : prog (res (Z * list string)) :=
  match refs with
  | [] => mret (Ok (readyClusters, notReadyClusters))
  | ref :: refs =>
      x ← call (Get KCD MgmtClient (ref_key ref));
      match x with
      | Err err =>
          if IsNotFound err then count_ready refs readyClusters (notReadyClusters ++ [ref_string ref +:+ " (not found)"])
          else mret (Err err)
      | Ok cd =>
          if cd_ready cd then count_ready refs (readyClusters + 1) notReadyClusters
          else count_ready refs readyClusters (notReadyClusters ++ [ref_string ref])
      end
  end.
Definition ready_condition (status : ConditionStatus) (reason msg : string) : Condition :=
  {| c_Type := conditionTypeClustersReady; c_Status := status; c_Reason := reason; c_Message := msg;
     c_ObservedGeneration := 0; c_LastTransitionTime := 0 |}.
(** The phase and the condition. *)
Definition clusters_verdict (readyClusters totalClusters : Z) (notReadyClusters : list string)
    (clusterErrs : list error) : string * Condition :=
  if bdec (clusterErrs ≠ []) then
    let msg := itoa readyClusters +:+ "/" +:+ itoa totalClusters +:+ " clusters ready. Failed to ensure: "
               +:+ format_list (e_text <$> clusterErrs) in
    let msg := if bdec (notReadyClusters ≠ []) then msg +:+ ". Not ready: " +:+ format_list notReadyClusters else msg in
    ("Degraded", ready_condition CondFalse "ClusterEnsureFailed" msg)
  else if bdec (readyClusters ≠ totalClusters) || bdec (notReadyClusters ≠ []) then
    ("Provisioning", ready_condition CondFalse "NotAllClustersReady"
       (itoa readyClusters +:+ " out of " +:+ itoa totalClusters +:+ " clusters are ready. Not ready clusters: "
        +:+ format_list notReadyClusters))
  else
    ("Ready", ready_condition CondTrue "AllClustersReady"
       ("All " +:+ itoa totalClusters +:+ " clusters of the colony are ready")).
Definition updateColonyStatusFromClusters (colony : Colony) (clusterErrs : list error) : prog (res Colony) :=
  x ←? count_ready (col_Refs colony) 0 [];
  let '(readyClusters, notReadyClusters) := x in
  let totalClusters := total_clusters colony in
  let '(phase, condition) := clusters_verdict readyClusters totalClusters notReadyClusters clusterErrs in
  now ← call Now;
  mret (Ok (upd_col_status (λ s,
    {| cs_Phase := phase;
       cs_Conditions := SetStatusCondition now (cs_Conditions s) condition;
       cs_ClusterDeploymentRefs := cs_ClusterDeploymentRefs s;
       cs_TotalClusters := int32_wrap totalClusters;
       cs_ReadyClusters := int32_wrap readyClusters;
       cs_GPUInventory := cs_GPUInventory s |}) colony)).

(** ** GPU inventory *)
Definition gpu_offering (o : Offering) : GPUOffering :=
  {| go_Model := o_Model o; go_Selector := o_Selector o; go_Vendor := o_Vendor o; go_ResourceName := o_ResourceName o;
     go_Total := o_Total o; go_Nodes := o_Nodes o; go_Labels := o_Labels o |}.
Definition scanClusterGPUOfferings (childClient : client) : prog (res (list GPUOffering)) :=
  nodes ←? call (ListObjs KNode childClient list_all);
  mret (Ok (gpu_offering <$> DeriveOfferings iter nodes no_options)).
Definition keepPrevious (previous : gmap string ClusterGPUInventory) (name : string)
    (inventory : gmap string ClusterGPUInventory) : gmap string ClusterGPUInventory :=
  match previous !! name with Some prev => <[name := prev]> inventory | None => inventory end.
Definition refresh_cluster (previous inventory : gmap string ClusterGPUInventory) (ref : ObjectReference)
    : prog (gmap string ClusterGPUInventory) :=
  childClient ← GetClusterClientForCD MgmtClient (or_Namespace ref) (or_Name ref);
  match childClient with
  | Err _ => mret (keepPrevious previous (or_Name ref) inventory)
  | Ok childClient =>
      offerings ← scanClusterGPUOfferings childClient;
      match offerings with
      | Err _ => mret (keepPrevious previous (or_Name ref) inventory)
      | Ok offerings =>
          now ← call Now;
          mret (<[or_Name ref := {| gi_LastUpdated := now; gi_Offerings := offerings |}]> inventory)
      end
  end.
Definition refreshGPUInventory (colony : Colony) : prog Colony :=
  inventory ← foldM (refresh_cluster (cs_GPUInventory (col_Status colony))) ∅ (col_Refs colony);
  mret (upd_col_status (set_GPUInventory inventory) colony).

(** ** API endpoints *)
Definition publish_endpoint (colony : Colony) (ref : ObjectReference) : prog (outcome unit) :=
  let continue := mret (Returns (Ok tt)) in
  let clusterName := ExtractClusterNameFromDeploymentName (or_Name ref) (col_Name colony) in
  if bdec (clusterName = "") then continue
  else
    x ← ResolveRegionalClient MgmtClient colony clusterName;
    let '(regionalClient, isRegional, err) := x in
    match err with
    | Some _ => continue
    | None =>
        let discoveryClient := if isRegional : bool then default MgmtClient regionalClient else MgmtClient in
        service ← DiscoverControlPlaneService discoveryClient (col_Namespace colony) (col_Name colony) clusterName;
        match service with
        | Err _ => continue
        | Ok service =>
            capiCluster ← if bdec (svc_Type service = ServiceTypeNodePort)
                          then GetCAPICluster discoveryClient (col_Namespace colony) (or_Name ref)
                          else mret (Ok None);
            match capiCluster with
            | Err _ => continue
            | Ok capiCluster =>
                match DetermineAPIEndpoint service capiCluster with
                | Err _ => continue
                | Ok endpoint =>
                    o ← EnsureAPIEndpointConfigMap MgmtClient colony clusterName endpoint regionalClient;
                    match o with Panics => mret Panics | Returns _ => continue end
                end
            end
        end
    end.
(** A panic ends the loop. *)
Fixpoint publish_endpoints (colony : Colony) (refs : list ObjectReference) : prog (outcome unit) :=
  match refs with
  | [] => mret (Returns (Ok tt))
  | ref :: refs =>
      o ← publish_endpoint colony ref;
      match o with Panics => mret Panics | Returns _ => publish_endpoints colony refs end
  end.
Definition ensureAPIEndpointConfigMapForAllClusters (colony : Colony) : prog (outcome unit) :=
  publish_endpoints colony (col_Refs colony).

(** ** The aggregated kubeconfig secret *)
Definition mirrorKubeconfigSecret (colony : Colony) (sourceSecret : Secret) : prog (res unit) :=
  let name := m_Name (sec_meta sourceSecret) in
  x ← call (Get KSecret MgmtClient {| k_Namespace := col_Namespace colony; k_Name := name |});
  match x with
  | Err err =>
      if IsNotFound err then
        _ ←? wrap_err ("failed to create mirrored kubeconfig secret " +:+ quote name)
               (call (Create KSecret MgmtClient
                  {| sec_meta := new_meta name (col_Namespace colony)
                       (Some (<["app.kubernetes.io/managed-by" := "exalsius-operator"]>
                             (<["exalsius.ai/mirrored-kubeconfig" := "true"]> {[ "exalsius.ai/colony" := col_Name colony ]})));
                     sec_Data := sec_Data sourceSecret |}));
        mret (Ok tt)
      else mret (Err (wrapf ("failed to get mirrored kubeconfig secret " +:+ quote name) err))
  | Ok mirrorSecret =>
      if bdec (mget (sec_Data mirrorSecret) "value" ≠ mget (sec_Data sourceSecret) "value") then
        _ ←? wrap_err ("failed to update mirrored kubeconfig secret " +:+ quote name)
               (call (Update KSecret MgmtClient {| sec_meta := sec_meta mirrorSecret; sec_Data := sec_Data sourceSecret |}));
        mret (Ok tt)
      else mret (Ok tt)
  end.

Definition secret_reference (ref : ObjectReference) : ObjectReference :=
  {| or_APIVersion := "v1"; or_Kind := "Secret"; or_Namespace := or_Namespace ref;
     or_Name := or_Name ref +:+ "-kubeconfig" |}.
Definition early (res : Result) (err : option error) : gmap string string + Result * option error := inr (res, err).
(** The kubeconfig of one cluster is there (on a regional child: mirrored), or the
    early return. *)
Definition collect_kubeconfig (colony : Colony) (references : gmap string string) (ref : ObjectReference)
    : prog (gmap string string + Result * option error) :=
  let key := {| k_Namespace := or_Namespace ref; k_Name := or_Name ref +:+ "-kubeconfig" |} in
  let clusterName := ExtractClusterNameFromDeploymentName (or_Name ref) (col_Name colony) in
  let add := match MarshalObjectReference (secret_reference ref) with
             | Err err => early no_requeue (Some err)
             | Ok refBytes => inl (<[or_Name ref := refBytes]> references)
             end in
  let missing err := if IsNotFound err then early (requeue_after (10 * Second)) None else early no_requeue (Some err) in
  x ← ResolveRegionalClient MgmtClient colony clusterName;
  let '(regionalClient, isRegional, _) := x in
  match (if isRegional : bool then regionalClient else None) with
  | Some regionalClient =>
      s ← call (Get KSecret regionalClient key);
      match s with
      | Err err => mret (missing err)
      | Ok kubeconfigSecret =>
          m ← mirrorKubeconfigSecret colony kubeconfigSecret;
          match m with Err err => mret (early no_requeue (Some err)) | Ok _ => mret add end
      end
  | None =>
      s ← call (Get KSecret MgmtClient key);
      match s with Err err => mret (missing err) | Ok _ => mret add end
  end.
Fixpoint collect_kubeconfigs (colony : Colony) (references : gmap string string) (refs : list ObjectReference)
    : prog (gmap string string + Result * option error) :=
  match refs with
  | [] => mret (inl references)
  | ref :: refs =>
      x ← collect_kubeconfig colony references ref;
      match x with
      | inr stop => mret (inr stop)
      | inl references => collect_kubeconfigs colony references refs
      end
  end.
Definition write_aggregated_secret (colony : Colony) (references : gmap string string) : prog (Result * option error) :=
  let name := col_Name colony +:+ "-kubeconfigs" in
  x ← call (Get KSecret MgmtClient {| k_Namespace := col_Namespace colony; k_Name := name |});
  match x with
  | Err err =>
      if IsNotFound err then
        y ← call (Create KSecret MgmtClient {| sec_meta := new_meta name (col_Namespace colony) None;
                                               sec_Data := references |});
        mret (no_requeue, match y with Err err => Some err | Ok _ => None end)
      else mret (no_requeue, Some err)
  | Ok aggregated =>
      y ← call (Update KSecret MgmtClient {| sec_meta := sec_meta aggregated; sec_Data := references |});
      match y with
      | Err err => mret (no_requeue, Some err)
      | Ok aggregated =>
          (* in memory only *)
          z ← call (SetControllerReference (col_meta colony) (sec_meta aggregated));
          mret (no_requeue, match z with Err err => Some err | Ok _ => None end)
      end
  end.
Definition ensureAggregatedKubeconfigSecretExists (colony : Colony) : prog (Result * option error) :=
  x ← collect_kubeconfigs colony ∅ (col_Refs colony);
  match x with
  | inr stop => mret stop
  | inl references => write_aggregated_secret colony references
  end.

(** ** reconcileColony *)
Definition finish_colony (colony : Colony) (clusterErrs : list error) : prog ctrl_result :=
  if bdec (clusterErrs ≠ []) then mret (failed_result (join_errors clusterErrs))
  else if bdec (cs_ReadyClusters (col_Status colony) ≠ cs_TotalClusters (col_Status colony)) then
    mret (ok_result (requeue_after (30 * Second)))
  else
    x ← ensureAggregatedKubeconfigSecretExists colony;
    let '(result, err) := x in
    match err with
    | Some err => mret (Returned result (Some err))
    | None => if (0 <? RequeueAfter result)%Z then mret (ok_result result)
              else mret (ok_result (requeue_after (5 * Minute)))
    end.
Definition persist_status (origForStatusPatch colony : Colony) (clusterErrs : list error) : prog ctrl_result :=
  x ← call (StatusPatch KColony MgmtClient origForStatusPatch colony);
  match x with
  | Err err => mret (Returned (requeue_after (10 * Second)) (Some err))
  | Ok colony =>
      o ← ensureAPIEndpointConfigMapForAllClusters colony;
      match o with
      | Panics => mret ReconcilePanicked
      | Returns _ => finish_colony colony clusterErrs
      end
  end.
Definition reconcileColony (colony : Colony) : prog ctrl_result :=
  x ← CleanupOrphanedClusterDeployments MgmtClient colony;
  match x with
  | Err err => mret (failed_result err)
  | Ok (colony, hasPendingDeletions) =>
      if hasPendingDeletions : bool then mret (ok_result (requeue_after (10 * Second)))
      else
        let origForStatusPatch := colony in
        st ← ensure_clusters colony;
        let '(colony, clusterErrs) := st in
        y ← updateColonyStatusFromClusters colony clusterErrs;
        match y with
        | Err err => mret (Returned (requeue_after (10 * Second)) (Some err))
        | Ok colony =>
            colony ← refreshGPUInventory colony;
            persist_status origForStatusPatch colony clusterErrs
        end
  end.

Definition reconcile_colony (key : ObjectKey) : prog ctrl_result :=
  x ← call (Get KColony MgmtClient key);
  match x with
  | Err err => if IsNotFound err then mret (ok_result no_requeue) else mret (failed_result err)
  | Ok colony =>
      if deleting (col_meta colony) then handleColonyDeletion key colony
      else if negb (ContainsFinalizer (col_meta colony) colonyFinalizer) then addFinalizer colony
      else reconcileColony colony
  end.
End colony.
