(* ===== verification/ColonyFake.v ===== *)
(** * A small server for concrete runs of the colony controller

    One colony with two clusters, a deployment for each, and one Service that every
    listing of Services returns. *)

From S2P Require Import Prelude GoString Api InfraApi QuantityNano Prog Gpu Values Cluster ClusterDeployments Discovery.
From S2P Require Import Routes Controller Fake Colony.

Definition example_infra : InfraLib :=
  {| UnmarshalClusterDeploymentSpec _ := Ok empty_cdspec;
     MarshalClusterDeploymentSpec _ := Ok "{}";
     MarshalObjectReference ref := Ok (or_Name ref);
     ReadyCondition := "Ready";
     SetStatusCondition now cs c :=
       {| c_Type := c_Type c; c_Status := c_Status c; c_Reason := c_Reason c; c_Message := c_Message c;
          c_ObservedGeneration := c_ObservedGeneration c; c_LastTransitionTime := now |}
       :: filter (λ d, c_Type d ≠ c_Type c) cs |}.

Definition example_cluster (name : string) : ColonyCluster :=
  {| cc_ClusterName := name; cc_ClusterDeploymentSpec := Some "{}"; cc_ClusterLabels := None; cc_ClusterAnnotations := None |}.
Definition example_ref (name : string) : ObjectReference :=
  {| or_APIVersion := ""; or_Kind := ""; or_Namespace := "ns"; or_Name := name |}.
Definition example_colony (meta : ObjectMeta) (clusters refs : list string) : Colony :=
  {| col_meta := meta; col_Spec := {| ColonyClusters := example_cluster <$> clusters |};
     col_Status := {| cs_Phase := ""; cs_Conditions := []; cs_ClusterDeploymentRefs := example_ref <$> refs;
                      cs_TotalClusters := 0; cs_ReadyClusters := 0; cs_GPUInventory := ∅ |} |}.
Definition live_meta : ObjectMeta := set_finalizers [colonyFinalizer] (new_meta "col" "ns" None).
Definition deleted_meta : ObjectMeta :=
  {| m_Name := "col"; m_Namespace := "ns"; m_UID := ""; m_Labels := None; m_Annotations := None;
     m_Finalizers := [colonyFinalizer]; m_OwnerUIDs := []; m_DeletionTimestamp := Some 1%Z;
     m_CreationTimestamp := 0; m_Generation := 0 |}.

Definition port (name : string) (n : Z) : ServicePort :=
  {| sp_Name := name; sp_Port := n; sp_Protocol := "TCP"; sp_TargetPort := ""; sp_NodePort := 0 |}.
Definition example_service : Service :=
  {| svc_meta := new_meta "kmc-col-a" "ns" None; svc_Ports := [port "api" 6443; port "konnectivity" 8132];
     svc_Type := ServiceTypeLoadBalancer; svc_ClusterIP := "10.0.0.1";
     svc_Ingress := [{| ing_IP := "192.0.2.1"; ing_Hostname := "" |}] |}.

(** The deployments stored change; conflicts are answered to the first updates. *)
Record colony_world := { cw_cds : list ClusterDeployment; cw_conflicts : nat }.
Definition conflict : error := {| e_code := EConflict; e_text := "conflict" |}.
Definition colony_server (colony : Colony) (R : Type) (rq : req R) (w : colony_world) : R * colony_world :=
  match rq in req R return R * colony_world with
  | Get k _ key =>
      (match k return res (obj k) with
       | KColony => Ok colony
       | KCD => found (find_first (λ cd, keyed key (cd_meta cd)) (cw_cds w))
       | KSecret => Ok kubeconfig_secret
       | _ => Err not_found
       end, w)
  | ListObjs k _ _ =>
      (match k return res (list (obj k)) with
       | KService => Ok [example_service]
       | _ => Ok []
       end, w)
  | Create k _ x =>
      (Ok x, match k return obj k → colony_world with
             | KCD => λ cd, {| cw_cds := cd :: cw_cds w; cw_conflicts := cw_conflicts w |}
             | _ => λ _, w
             end x)
  | Update k _ x =>
      match cw_conflicts w with
      | O => (Ok x, w)
      | S n => (Err conflict, {| cw_cds := cw_cds w; cw_conflicts := n |})
      end
  | rq => (echo rq, w)
  end.
Definition world_of (cds : list string) (conflicts : nat) : colony_world :=
  {| cw_cds := (λ n, example_cd n "ns") <$> cds; cw_conflicts := conflicts |}.
