(* ===== verification/ClusterUpdates.v ===== *)
(** * Theorems about updates of ClusterDeployments

    [updateManagedFields] and [EnsureClusterDeployment] of
    [infra/clusterdeployment/clusterdeployment.go]: what a write carries and keeps,
    how often it is tried, when it settles. *)

From S2P Require Import Prelude GoString Api InfraApi Json Prog Cluster ClusterDeployments Discovery Colony ColonyFake.

(** ** What a write must be *)

Definition labels_of (cd : ClusterDeployment) : gmap string string := default ∅ (m_Labels (cd_meta cd)).
Definition annotations_of (cd : ClusterDeployment) : gmap string string := default ∅ (m_Annotations (cd_meta cd)).

(** [x] has what the colony wants. *)
Definition carries (m : Managed) (x : ClusterDeployment) : Prop :=
  (jsonConfigsEqual (cds_Config (cd_Spec x)) (newConfig m) = true ∨ cds_Config (cd_Spec x) = newConfig m) ∧
  cds_Credential (cd_Spec x) = newCredential m ∧
  cds_Template (cd_Spec x) = newTemplate m ∧
  cds_ServiceSpec (cd_Spec x) = newServiceSpec m ∧
  cds_PropagateCredentials (cd_Spec x) = newPropagateCredentials m ∧
  default ∅ (colonyLabels m) ⊆ labels_of x ∧
  default ∅ (colonyAnnotations m) ⊆ annotations_of x.
(** [x] has everything of [old] that the colony does not manage. *)
Definition keeps (m : Managed) (old x : ClusterDeployment) : Prop :=
  cds_Rest (cd_Spec x) = cds_Rest (cd_Spec old) ∧
  cd_StatusServices x = cd_StatusServices old ∧ cd_Conditions x = cd_Conditions old ∧
  set_annotations None (set_labels None (cd_meta x)) = set_annotations None (set_labels None (cd_meta old)) ∧
  (∀ k, default ∅ (colonyLabels m) !! k = None → labels_of x !! k = labels_of old !! k) ∧
  (∀ k, default ∅ (colonyAnnotations m) !! k = None → annotations_of x !! k = annotations_of old !! k).

Lemma map_assign_subseteq a b : b ⊆ map_assign a b.
Proof. apply map_union_subseteq_l. Qed.
Lemma map_assign_other a b k : b !! k = None → map_assign a b !! k = a !! k.
Proof. intros Hk. by rewrite map_assign_lookup, Hk. Qed.
Lemma map_assign_idem a b : map_assign (map_assign a b) b = map_assign a b.
Proof. apply map_eq. intros k. rewrite !map_assign_lookup. by destruct (b !! k). Qed.

Lemma sync_carries m old : carries m (sync_fields m old).1.
Proof.
  unfold carries, sync_fields, labels_of, annotations_of. simpl.
  split_and!; try done; try apply map_assign_subseteq.
  destruct (jsonConfigsEqual (cds_Config (cd_Spec old)) (newConfig m)) eqn:E; simpl; auto.
Qed.
Lemma sync_keeps m old : keeps m old (sync_fields m old).1.
Proof.
  unfold keeps, sync_fields, labels_of, annotations_of. simpl. split_and!; try done; intros k; apply map_assign_other.
Qed.
Lemma sync_unchanged m old : (sync_fields m old).2 = false → carries m old.
Proof.
  unfold sync_fields, carries, labels_of, annotations_of. simpl.
  rewrite !orb_false_iff, negb_false_iff, !bool_decide_eq_false.
  intros ((((((Hc & H1) & H2) & H3) & H4) & H5) & H6). apply dec_stable in H1, H2, H3, H4, H5, H6.
  split_and!; auto; [rewrite H5|rewrite H6]; apply map_assign_subseteq.
Qed.
(** Synchronising twice changes nothing the second time. *)
Lemma sync_settles m old :
  (newConfig m = None ∨ ∃ v, newConfig m = Some (RawVal v)) → (sync_fields m (sync_fields m old).1).2 = false.
Proof.
  intros Hc. unfold sync_fields. simpl. unfold mergeLabels, mergeAnnotations. simpl.
  rewrite !map_assign_idem, !bool_decide_false by auto. rewrite !orb_false_r. apply negb_false_iff.
  destruct (jsonConfigsEqual (cds_Config (cd_Spec old)) (newConfig m)) eqn:E; simpl; [done|].
  destruct Hc as [-> | [v ->]]; [done|]. apply json_eqb_sim, json_sim_refl.
Qed.

(** ** updateManagedFields *)
Section update.
Context (c : client) (key : ObjectKey) (m : Managed).

Definition writes (tr : list event) : nat := sum_list_with (λ e, if ev_mutates e then 1 else 0)%nat tr.
Definition slept (e : event) : Z := match e with Ev (Sleep d) _ => d | _ => 0%Z end.
Definition total_sleep (tr : list event) : Z := zsum slept tr.

(** A write follows the read it is made from. *)
Definition fresh_write (pre : list event) (e : event) : Prop :=
  ev_mutates e = true →
  ∃ pre' old x r, pre = pre' ++ [Ev (Get KCD c key) (Ok old)] ∧ e = Ev (Update KCD c x) r ∧
    keeps m old x ∧ carries m x.
(** How a run ends. *)
Definition ended (n : nat) (tr : list event) (out : res (option ClusterDeployment)) : Prop :=
  match out with
  | Ok None => ∃ pre old, tr = pre ++ [Ev (Get KCD c key) (Ok old)] ∧ carries m old
  | Ok (Some y) => ∃ pre x, tr = pre ++ [Ev (Update KCD c x) (Ok y)]
  | Err _ => (∃ pre e, tr = pre ++ [Ev (Get KCD c key) (Err e)]) ∨
             (∃ pre x e, tr = pre ++ [Ev (Update KCD c x) (Err e)] ∧ IsConflict e = false) ∨ writes tr = n
  end.

Lemma writes_app t1 t2 : writes (t1 ++ t2) = (writes t1 + writes t2)%nat.
Proof. apply sum_list_with_app. Qed.
Lemma fresh_write_app q pre e : fresh_write pre e → fresh_write (q ++ pre) e.
Proof.
  intros Hf He. destruct (Hf He) as (pre' & old & x & r & -> & ? & ? & ?).
  exists (q ++ pre'), old, x, r. by rewrite app_assoc.
Qed.
Lemma ended_app n t t2 out : ended n t2 out → ended (writes t + n) (t ++ t2) out.
Proof.
  destruct out as [[y|]|err]; simpl.
  - intros (pre & x & ->). exists (t ++ pre), x. by rewrite app_assoc.
  - intros (pre & old & -> & ?). exists (t ++ pre), old. by rewrite app_assoc.
  - intros [(pre & e & ->)|[(pre & x & e & -> & ?)|<-]].
    + left. exists (t ++ pre), e. by rewrite app_assoc.
    + right; left. exists (t ++ pre), x, e. by rewrite app_assoc.
    + right; right. apply writes_app.
Qed.

(** One rejected attempt. *)
Lemma round_justified old e b t :
  justified fresh_write t →
  justified fresh_write ([Ev (Get KCD c key) (Ok old); Ev (Update KCD c (sync_fields m old).1) (Err e); Ev (Sleep b) tt] ++ t).
Proof.
  intros Ht. apply justified_app; [|eapply justified_impl, Ht; intros; by apply fresh_write_app].
  apply justified_cons; [done|]. apply justified_cons; [|apply justified_cons; [done|apply justified_nil]].
  intros _. exists [], old, (sync_fields m old).1, (Err e). split_and!; try done; [apply sync_keeps|apply sync_carries].
Qed.

Lemma total_sleep_app t1 t2 : total_sleep (t1 ++ t2) = (total_sleep t1 + total_sleep t2)%Z.
Proof. apply zsum_app. Qed.
Lemma pow_ge_1 n : (1 ≤ 2 ^ Z.of_nat n)%Z.
Proof. pose proof (Z.pow_pos_nonneg 2 (Z.of_nat n)). lia. Qed.

(** An attempt that is not the start of another round. *)
Lemma last_attempt n b tr out :
  (0 ≤ b)%Z → justified fresh_write tr → (writes tr ≤ S n)%nat → total_sleep tr = 0%Z → ended (S n) tr out →
  justified fresh_write tr ∧ (writes tr ≤ S n)%nat ∧ (total_sleep tr ≤ b * (2 ^ Z.of_nat (S n) - 1))%Z ∧ ended (S n) tr out.
Proof. intros Hb ? ? -> ?. split_and!; try done. pose proof (pow_ge_1 (S n)). nia. Qed.

Lemma attempts_spec n : ∀ b, (0 ≤ b)%Z → posts (update_attempts c key m n b) (λ tr out,
  justified fresh_write tr ∧ (writes tr ≤ n)%nat ∧ (total_sleep tr ≤ b * (2 ^ Z.of_nat n - 1))%Z ∧ ended n tr out).
Proof.
  induction n as [|n IH]; intros b Hb tr out Hx; cbn [update_attempts] in Hx.
  { destruct Hx as [-> ->]. split_and!; [apply justified_nil|done| |right; by right].
    change (0 ≤ b * (2 ^ 0 - 1))%Z. lia. }
  apply exec_try in Hx as [(t1 & t2 & old & -> & H1%exec_wrap_ok%exec_call & Hx)|(e & H1 & ->)].
  2: { apply exec_wrap_err in H1 as (e' & ->%exec_call & ->). apply last_attempt; try done.
       - apply justified_cons; [done|apply justified_nil].
       - unfold writes; simpl; lia.
       - left. by exists [], e'. }
  subst t1. pose proof (sync_keeps m old) as Hk. pose proof (sync_carries m old) as Hc.
  destruct (sync_fields m old) as [x changed] eqn:Es. simpl in Hk, Hc.
  assert (Hw : ∀ r, justified fresh_write [Ev (Get KCD c key) (Ok old); Ev (Update KCD c x) r]).
  { intros r. apply justified_cons; [done|]. apply justified_cons; [|apply justified_nil].
    intros _. by exists [], old, x, r. }
  apply exec_if in Hx as [[Hn Hx]|[_ Hx]].
  { destruct Hx as [-> ->]. apply last_attempt; try done.
    - apply justified_cons; [done|apply justified_nil].
    - unfold writes; simpl; lia.
    - exists [], old. split; [done|]. apply sync_unchanged. rewrite Es. by apply negb_true_iff. }
  apply exec_bind in Hx as (t1 & t3 & r & -> & ->%exec_call & Hx). destruct r as [y|e].
  { destruct Hx as [-> ->]. apply last_attempt; try done; [apply Hw|unfold writes; simpl; lia|].
    by exists [Ev (Get KCD c key) (Ok old)], x. }
  destruct (IsConflict e) eqn:Ec.
  2: { destruct Hx as [-> ->]. apply last_attempt; try done; [apply Hw|unfold writes; simpl; lia|].
       right; left. by exists [Ev (Get KCD c key) (Ok old)], x, e. }
  apply exec_bind in Hx as (t1 & t4 & [] & -> & ->%exec_call & Hx).
  apply IH in Hx as (H1 & H2 & H3 & H4); [|lia].
  change (?a ++ ?b ++ ?d ++ t4) with ((a ++ b ++ d) ++ t4).
  set (round := [Ev (Get KCD c key) (Ok old)] ++ _ ++ _). split_and!.
  - pose proof (round_justified old e b t4 H1) as Hr. by rewrite Es in Hr.
  - rewrite writes_app. change (writes round) with 1%nat. lia.
  - rewrite total_sleep_app. change (total_sleep round) with (b + 0)%Z.
    rewrite Nat2Z.inj_succ, Z.pow_succ_r by lia. lia.
  - apply (ended_app n round t4 out) in H4. exact H4.
Qed.
End update.

(** C10: Updating a ClusterDeployment never takes anything from k0rdent and always
    ends.  Every write is made from the object read just before it: it carries all
    the colony manages and keeps everything else, foreign labels and annotations
    included.  At most five writes are tried and at most 3.1 seconds slept; the run
    ends with an accepted write, with a read that needs none, with an error of the
    server, or after five conflicts. *)
Theorem update_managed_fields_spec c existing m tr out :
  exec (updateManagedFields c existing m) tr out →
  let key := ObjectKeyFromObject (cd_meta existing) in
  justified (fresh_write c key m) tr ∧ (writes tr ≤ 5)%nat ∧ (total_sleep tr ≤ 3100 * Millisecond)%Z ∧
  ended c key m 5 tr out.
Proof. intros Hx key. apply attempts_spec in Hx; [|done]. exact Hx. Qed.

(** The wanted configuration is absent or a JSON document. *)
Definition config_decodes (m : Managed) : Prop := newConfig m = None ∨ ∃ v, newConfig m = Some (RawVal v).

(** An update settles: once the object it wrote is what the server stores, every
    later run reads it and writes nothing, provided the wanted configuration is
    absent or decodes. *)
Theorem update_settles c existing m old tr out :
  config_decodes m →
  exec (updateManagedFields c existing m)
    (Ev (Get KCD c (ObjectKeyFromObject (cd_meta existing))) (Ok (sync_fields m old).1) :: tr) out →
  tr = [] ∧ out = Ok None.
Proof.
  intros Hc Hx. unfold updateManagedFields, maxRetries in Hx. cbn [update_attempts] in Hx.
  apply exec_try in Hx as [(t1 & t2 & x & Ht & H1%exec_wrap_ok%exec_call & Hx)|(e & H1 & ->)].
  - subst t1. apply get_head_inj in Ht as [<-%(inj Ok) ->]. pose proof (sync_settles m old Hc) as Hs.
    destruct (sync_fields m (sync_fields m old).1) as [y changed]. simpl in Hs. subst changed. by destruct Hx as [-> ->].
  - apply exec_wrap_err in H1 as (e' & H1%exec_call & _). by apply (get_head_inj _ _ _ _ _ _ _ _ []) in H1 as [[=] _].
Qed.

(** A ClusterDeployment stored without labels is written on every run, whatever
    the colony wants: the merged map is never nil, the stored one is, and the API
    server drops an empty map again. *)
Theorem unlabelled_is_rewritten c existing m old tr out :
  m_Labels (cd_meta old) = None →
  exec (updateManagedFields c existing m)
    (Ev (Get KCD c (ObjectKeyFromObject (cd_meta existing))) (Ok old) :: tr) out →
  ∃ x r post, tr = Ev (Update KCD c x) r :: post.
Proof.
  intros Hl Hx. unfold updateManagedFields, maxRetries in Hx. cbn [update_attempts] in Hx.
  apply exec_try in Hx as [(t1 & t2 & x & Ht & H1%exec_wrap_ok%exec_call & Hx)|(e & H1 & ->)].
  - subst t1. apply get_head_inj in Ht as [<-%(inj Ok) ->]. unfold sync_fields in Hx. rewrite Hl in Hx.
    cbv zeta iota in Hx.
    rewrite (bool_decide_true (None ≠ mergeLabels None (colonyLabels m))) in Hx by done.
    rewrite orb_true_r in Hx. simpl in Hx. destruct Hx as (r & post & -> & _). by eexists _, r, post.
  - apply exec_wrap_err in H1 as (e' & H1%exec_call & _). by apply (get_head_inj _ _ _ _ _ _ _ _ []) in H1 as [[=] _].
Qed.

(** ** EnsureClusterDeployment *)
Definition target_of (ref : ObjectReference) : string * string := (or_Namespace ref, or_Name ref).

Lemma same_target_iff a b : same_target a b = true ↔ target_of a = target_of b.
Proof.
  unfold same_target, target_of. rewrite andb_true_iff, !bool_decide_eq_true. split; [by intros [-> ->]|].
  by intros [= -> ->].
Qed.

(** The status but for the references is as it was. *)
Definition same_but_refs (a b : ColonyStatus) : Prop :=
  cs_Phase b = cs_Phase a ∧ cs_Conditions b = cs_Conditions a ∧ cs_TotalClusters b = cs_TotalClusters a ∧
  cs_ReadyClusters b = cs_ReadyClusters a ∧ cs_GPUInventory b = cs_GPUInventory a.
(** A colony that has gained at most references. *)
Definition extends (colony colony' : Colony) : Prop :=
  col_meta colony' = col_meta colony ∧ col_Spec colony' = col_Spec colony ∧
  same_but_refs (col_Status colony) (col_Status colony') ∧
  col_Refs colony `prefix_of` col_Refs colony' ∧
  (NoDup (target_of <$> col_Refs colony) → NoDup (target_of <$> col_Refs colony')).
Lemma extends_refl colony : extends colony colony.
Proof. unfold extends, same_but_refs. by split_and!. Qed.
Lemma extends_trans a b c : extends a b → extends b c → extends a c.
Proof.
  intros (H1 & H2 & (S1 & S2 & S3 & S4 & S5) & H3 & H4) (H5 & H6 & (T1 & T2 & T3 & T4 & T5) & H7 & H8).
  unfold extends, same_but_refs. split_and!; try congruence; [by etrans|auto].
Qed.
(** A colony that references [ref], as it did before or by one more reference. *)
Definition gains (ref : ObjectReference) (colony colony' : Colony) : Prop :=
  extends colony colony' ∧ target_of ref ∈ target_of <$> col_Refs colony' ∧
  (col_Refs colony' = col_Refs colony ∨ col_Refs colony' = col_Refs colony ++ [ref]).
Lemma add_reference_spec ref colony : gains ref colony (add_reference ref colony).
Proof.
  unfold gains, add_reference. destruct (existsb _ _) eqn:E.
  - apply existsb_exists in E as (r & Hr & Ht). apply list_elem_of_In in Hr. apply same_target_iff in Ht.
    split; [apply extends_refl|]. rewrite <- Ht. split; [by apply list_elem_of_fmap_2|by left].
  - simpl. assert (Hn : target_of ref ∉ target_of <$> col_Refs colony).
    { intros (r & Hr & Hin)%list_elem_of_fmap. apply not_true_iff_false in E. apply E, existsb_exists.
      exists r. split; [by apply list_elem_of_In|]. by apply same_target_iff. }
    split; [|split; [rewrite fmap_app; apply elem_of_app; right; by left|by right]].
    unfold extends, same_but_refs. split_and!; try done; [by apply prefix_app_r|]. simpl. rewrite fmap_app. intros Hd.
    apply NoDup_app. split; [done|]. split; [|apply NoDup_singleton].
    intros t Ht ->%list_elem_of_singleton. done.
Qed.

(** *** Which deployment is referenced *)

(** The deployment as an answer of this run shows it. *)
Definition answered (c : client) (actual : ClusterDeployment) (tr : list event) : Prop :=
  (∃ key, Ev (Get KCD c key) (Ok actual) ∈ tr) ∨
  ∃ x, Ev (Update KCD c x) (Ok actual) ∈ tr ∨ Ev (Create KCD c x) (Ok actual) ∈ tr.
(** What an API server does: it answers with the object asked for. *)
Definition keyed_answer (e : event) : Prop :=
  match e with
  | Ev r x =>
      match r in req R return R → Prop with
      | Get KCD _ key => λ x, ∀ cd, x = Ok cd → ObjectKeyFromObject (cd_meta cd) = key
      | Update KCD _ y | Create KCD _ y => λ x, ∀ cd, x = Ok cd → ObjectKeyFromObject (cd_meta cd) = ObjectKeyFromObject (cd_meta y)
      | SetControllerReference _ m => λ x, ∀ m', x = Ok m' → ObjectKeyFromObject m' = ObjectKeyFromObject m
      | _ => λ _, True
      end x
  end.
Definition own_key (colony : Colony) (cc : ColonyCluster) : string * string :=
  (col_Namespace colony, col_Name colony +:+ "-" +:+ cc_ClusterName cc).
(** The deployment the run ended with, named after the colony and the cluster when
    the server answers with the objects asked for. *)
Definition own_deployment (c : client) (colony : Colony) (cc : ColonyCluster) (actual : ClusterDeployment)
    (tr : list event) : Prop :=
  answered c actual tr ∧ (Forall keyed_answer tr → target_of (reference actual) = own_key colony cc).

Lemma keeps_key m old x : keeps m old x → ObjectKeyFromObject (cd_meta x) = ObjectKeyFromObject (cd_meta old).
Proof.
  intros (_ & _ & _ & Hm & _). unfold ObjectKeyFromObject.
  pose proof (f_equal m_Name Hm) as Hn. pose proof (f_equal m_Namespace Hm) as Hns. simpl in Hn, Hns. by rewrite Hn, Hns.
Qed.
Definition update_sent (e : event) : option ClusterDeployment :=
  match e with Ev r _ => match r with Update KCD _ x => Some x | _ => None end end.
(** What an update ends with is the object under its key. *)
Lemma attempts_answer c key m n b tr y :
  (0 ≤ b)%Z → exec (update_attempts c key m n b) tr (Ok (Some y)) →
  answered c y tr ∧ (Forall keyed_answer tr → ObjectKeyFromObject (cd_meta y) = key).
Proof.
  intros Hb Hx. apply attempts_spec in Hx as (Hj & _ & _ & pre & x & ->); [|done].
  split; [right; exists x; left; in_trace|]. intros [Hpre [Hy _]%Forall_cons]%Forall_app.
  destruct (Hj pre _ [] eq_refl eq_refl) as (pre' & old & x' & r & -> & Heq & Hk & _).
  apply (f_equal update_sent) in Heq. injection Heq as <-. apply Forall_app in Hpre as [_ [Ho _]%Forall_cons].
  by rewrite (Hy y eq_refl), (keeps_key _ _ _ Hk), (Ho old eq_refl).
Qed.
Lemma ensure_deployment_answer c cd m tr actual :
  exec (ensure_deployment c cd m) tr (Ok actual) →
  answered c actual tr ∧ (Forall keyed_answer tr → ObjectKeyFromObject (cd_meta actual) = ObjectKeyFromObject (cd_meta cd)).
Proof.
  unfold ensure_deployment. intros Hx. apply exec_bind in Hx as (t1 & t2 & x & -> & ->%exec_call & Hx).
  destruct x as [existing|err].
  - apply exec_try_ok in Hx as (t3 & t4 & u & -> & H1 & [-> [= ->]]). rewrite app_nil_r.
    destruct u as [y|]; simpl.
    + apply attempts_answer in H1 as [Ha Hk]; [|done].
      split; [destruct Ha as [[k Hk']|(x & Hk')]; [left; exists k|right; exists x]; set_solver|].
      intros [Hg Ht]%Forall_cons. by rewrite (Hk Ht), (Hg existing eq_refl).
    + split; [left; eexists; by left|]. intros [Hg _]%Forall_cons. exact (Hg existing eq_refl).
  - apply exec_if in Hx as [[Hn ->%exec_call]|[_ [-> [=]]]].
    split; [right; exists cd; right; set_solver|]. intros [_ [Hg _]%Forall_cons]%Forall_cons. exact (Hg actual eq_refl).
Qed.

(** A write of EnsureClusterDeployment: a creation after the server said there is
    none, or an update of the managed fields. *)
Definition ensures `{InfraLib} (c : client) (colony : Colony) (cc : ColonyCluster) (pre : list event) (e : event) : Prop :=
  ev_mutates e = true →
  ∃ spec, GetClusterDeploymentSpec cc = Ok (Some spec) ∧
  let cd := new_deployment colony cc spec in
  ∃ meta, Ev (SetControllerReference (col_meta colony) (cd_meta cd)) (Ok meta) ∈ pre ∧
  let key := ObjectKeyFromObject meta in
  ((∃ err r, Ev (Get KCD c key) (Err err) ∈ pre ∧ IsNotFound err = true ∧ e = Ev (Create KCD c (set_cd_meta meta cd)) r) ∨
   (∃ existing, Ev (Get KCD c key) (Ok existing) ∈ pre ∧
      fresh_write c (ObjectKeyFromObject (cd_meta existing)) (managed_fields spec cc) pre e)).

Lemma ensure_deployment_spec c cd m tr out :
  exec (ensure_deployment c cd m) tr out →
  justified (λ pre e, ev_mutates e = true →
    (∃ err r, Ev (Get KCD c (ObjectKeyFromObject (cd_meta cd))) (Err err) ∈ pre ∧ IsNotFound err = true ∧
       e = Ev (Create KCD c cd) r) ∨
    (∃ existing, Ev (Get KCD c (ObjectKeyFromObject (cd_meta cd))) (Ok existing) ∈ pre ∧
       fresh_write c (ObjectKeyFromObject (cd_meta existing)) m pre e)) tr.
Proof.
  unfold ensure_deployment. intros Hx. apply exec_bind in Hx as (t1 & t2 & x & -> & ->%exec_call & Hx).
  apply justified_cons; [done|]. destruct x as [existing|err].
  - assert (Hj : justified (fresh_write c (ObjectKeyFromObject (cd_meta existing)) m) t2).
    { apply exec_try in Hx as [(t3 & t4 & u & -> & H1 & [-> ->])|(e & H1 & ->)]; rewrite ?app_nil_r;
        eapply (attempts_spec c (ObjectKeyFromObject (cd_meta existing)) m maxRetries initialBackoff); done. }
    eapply justified_impl, Hj. intros pre e He Hm. right. exists existing. split; [by left|].
    by apply (fresh_write_app _ _ _ [_]).
  - apply exec_if in Hx as [[Hn ->%exec_call]|[_ [-> _]]]; [|apply justified_nil].
    apply justified_cons; [|apply justified_nil]. intros _. left. eexists err, _. split_and!; [by left|done|done].
Qed.

Lemma ensure_cluster_exec `{InfraLib} c colony cc tr colony' out :
  exec (EnsureClusterDeployment c colony cc) tr (colony', out) →
  justified (ensures c colony cc) tr ∧ extends colony colony' ∧
  match out with
  | Some _ => colony' = colony
  | None => cc_ClusterDeploymentSpec cc = None ∧ tr = [] ∧ colony' = colony ∨
            ∃ actual, own_deployment c colony cc actual tr ∧ gains (reference actual) colony colony'
  end.
Proof.
  unfold EnsureClusterDeployment. destruct (GetClusterDeploymentSpec cc) as [[spec|]|err] eqn:E.
  2: { intros [-> [= -> ->]]. split_and!; [apply justified_nil|apply extends_refl|]. left.
       unfold GetClusterDeploymentSpec in E. destruct (cc_ClusterDeploymentSpec cc); [|done].
       by destruct (UnmarshalClusterDeploymentSpec s). }
  2: { intros [-> [= -> ->]]. split_and!; [apply justified_nil|apply extends_refl|done]. }
  intros Hx. apply exec_bind in Hx as (t1 & t2 & x & -> & ->%exec_call & Hx).
  destruct x as [meta|err]; [|destruct Hx as [-> [= -> ->]]; split_and!;
    [by apply justified_cons; [|apply justified_nil]|apply extends_refl|done]].
  apply exec_bind in Hx as (t3 & t4 & y & -> & Hy & Hx). apply ensure_deployment_spec in Hy as Hj.
  assert (t4 = []) as -> by (destruct y; by destruct Hx). rewrite app_nil_r. split.
  { apply justified_cons; [done|]. eapply justified_impl, Hj. intros pre e He Hm. exists spec. split; [done|].
    exists meta. split; [by left|]. destruct (He Hm) as [(err & r & H1 & H2 & H3)|(existing & H1 & H2)].
    - left. exists err, r. split_and!; [by right|done|done].
    - right. exists existing. split; [by right|]. by apply (fresh_write_app _ _ _ [_]). }
  destruct y as [actual|err]; destruct Hx as [_ [= -> ->]]; [|by split; [apply extends_refl|]].
  pose proof (add_reference_spec (reference actual) colony) as Hg. split; [apply Hg|]. right. exists actual.
  split; [|done]. apply ensure_deployment_answer in Hy as [Ha Hk]. split.
  - destruct Ha as [[k Ha]|(x & Ha)]; [left; exists k|right; exists x]; set_solver.
  - intros [Hm Ht]%Forall_cons. specialize (Hk Ht). cbn [set_cd_meta cd_meta] in Hk.
    rewrite (Hm meta eq_refl) in Hk. injection Hk as Hns Hn. unfold target_of. simpl. by rewrite Hns, Hn.
Qed.

(** C22: Ensuring a cluster's ClusterDeployment only creates it, owned by the colony
    and with the whole spec, after the server said there is none, or updates its
    managed fields; nothing is deleted.  The colony in hand changes in its references
    only.  On success it references the deployment an answer of this run showed,
    which is the one named after the colony and the cluster when the server answers
    with the objects asked for; the reference was there or is added, at the end and
    alone; references stay unique; and on failure nothing changes. *)
Theorem ensure_cluster_deployment_spec `{InfraLib} c colony cc tr colony' out :
  exec (EnsureClusterDeployment c colony cc) tr (colony', out) →
  justified (ensures c colony cc) tr ∧ extends colony colony' ∧
  match out with
  | Some _ => colony' = colony
  | None => cc_ClusterDeploymentSpec cc = None ∧ tr = [] ∧ colony' = colony ∨
            ∃ actual, own_deployment c colony cc actual tr ∧ gains (reference actual) colony colony'
  end.
Proof. apply ensure_cluster_exec. Qed.

(** ** On a concrete server: a deployment whose labels are stale, one conflict *)
Definition example_managed : Managed :=
  {| newConfig := Some (RawVal (JObj ∅)); newCredential := "cred"; newTemplate := "tpl";
     newServiceSpec := {| svs_Services := []; svs_Rest := "" |}; newPropagateCredentials := false;
     colonyLabels := Some {[ "team" := "a" ]}; colonyAnnotations := None |}.
Definition stored : ClusterDeployment := example_cd_with (Some {[ "kcm" := "x" ]}) "col-a" "ns".
Definition update_run := run (colony_server (example_colony live_meta [] []))
  (updateManagedFields MgmtClient stored example_managed) {| cw_cds := [stored]; cw_conflicts := 1 |}.

Lemma update_managed_fields_spec_witness :
  writes update_run.1.1 = 2%nat ∧ (total_sleep update_run.1.1 ≤ 3100 * Millisecond)%Z.
Proof.
  split; [vm_compute; reflexivity|].
  destruct (update_managed_fields_spec MgmtClient stored example_managed _ _
    (run_exec (colony_server (example_colony live_meta [] [])) _ {| cw_cds := [stored]; cw_conflicts := 1 |}))
    as (_ & _ & H & _). exact H.
Defined.

Lemma update_settles_witness :
  let synced := (sync_fields example_managed stored).1 in
  (run (colony_server (example_colony live_meta [] [])) (updateManagedFields MgmtClient stored example_managed)
     {| cw_cds := [synced]; cw_conflicts := 0 |}).1 =
  ([Ev (Get KCD MgmtClient (ObjectKeyFromObject (cd_meta stored))) (Ok synced)], Ok None).
Proof.
  intros synced.
  destruct (update_settles MgmtClient stored example_managed stored [] (Ok None)) as [_ _].
  - right. by eexists.
  - eexists _, _. split; [reflexivity|]. vm_compute. split; reflexivity.
  - vm_compute. reflexivity.
Defined.

Lemma unlabelled_is_rewritten_witness :
  ∃ x r post, (run (colony_server (example_colony live_meta [] [])) (updateManagedFields MgmtClient (example_cd "col-a" "ns") example_managed)
     (world_of ["col-a"] 0)).1.1 =
    Ev (Get KCD MgmtClient {| k_Namespace := "ns"; k_Name := "col-a" |}) (Ok (example_cd "col-a" "ns")) :: Ev (Update KCD MgmtClient x) r :: post.
Proof.
  destruct (unlabelled_is_rewritten MgmtClient (example_cd "col-a" "ns") example_managed (example_cd "col-a" "ns")
    (tail (run (colony_server (example_colony live_meta [] [])) (updateManagedFields MgmtClient (example_cd "col-a" "ns") example_managed)
     (world_of ["col-a"] 0)).1.1)
    (run (colony_server (example_colony live_meta [] [])) (updateManagedFields MgmtClient (example_cd "col-a" "ns") example_managed)
     (world_of ["col-a"] 0)).1.2) as (x & r & post & H).
  - reflexivity.
  - apply (run_exec (colony_server (example_colony live_meta [] [])) (updateManagedFields MgmtClient (example_cd "col-a" "ns") example_managed)
     (world_of ["col-a"] 0)).
  - exists x, r, post. rewrite <- H. reflexivity.
Defined.

Definition ensure_run := run (colony_server (example_colony live_meta ["a"] []))
  (EnsureClusterDeployment (H := example_infra) MgmtClient (example_colony live_meta ["a"] []) (example_cluster "a")) (world_of [] 0).
Lemma ensure_run_keyed : Forall keyed_answer ensure_run.1.1.
Proof. vm_compute. repeat constructor; try (intros ? [= <-]; reflexivity). all: intros; discriminate. Qed.
Lemma ensure_cluster_deployment_spec_witness :
  writes ensure_run.1.1 = 1%nat ∧ ensure_run.1.2.2 = None ∧
  ("ns", "col-a") ∈ target_of <$> col_Refs ensure_run.1.2.1.
Proof.
  split; [vm_compute; reflexivity|]. split; [vm_compute; reflexivity|].
  destruct (ensure_cluster_deployment_spec (H := example_infra) MgmtClient (example_colony live_meta ["a"] []) (example_cluster "a")
    ensure_run.1.1 ensure_run.1.2.1 None) as (_ & _ & [[H _]|(actual & [_ Hk] & _ & Hr & _)]).
  - assert (E : ensure_run.1.2 = (ensure_run.1.2.1, None)) by (vm_compute; reflexivity). rewrite <- E.
    apply (run_exec (colony_server (example_colony live_meta ["a"] [])) _ (world_of [] 0)).
  - discriminate H.
  - rewrite (Hk ensure_run_keyed) in Hr. exact Hr.
Defined.
