(* ===== verification/Orphans.v ===== *)
(** * Theorems about the clean-up of orphaned ClusterDeployments

    [CleanupOrphanedClusterDeployments] and [DeletePVCForClusterDeployment] of
    [infra/clusterdeployment/clusterdeployment.go]. *)

From S2P Require Import Prelude GoString Api InfraApi Json Prog Cluster ClusterDeployments ClusterUpdates Colony ColonyFake.

(** ** Orphaned ClusterDeployments *)
Section cleanup.
Context (c : client).

Definition cd_gone (ref : ObjectReference) (e : event) : Prop :=
  ∃ err, e = Ev (Get KCD c (ref_key ref)) (Err err) ∧ IsNotFound err = true.
(** What the clean-up of one reference may write: the deployment it has just read
    live, or, once that is gone, the volume claim of its etcd, wherever it is. *)
Definition cleanup_write (ref : ObjectReference) (pre : list event) (e : event) : Prop :=
  ev_mutates e = true →
  (∃ cd r, e = Ev (Delete KCD c cd) r ∧ deleting (cd_meta cd) = false ∧
     Ev (Get KCD c (ref_key ref)) (Ok cd) ∈ pre) ∨
  (∃ c' r, e = Ev (Delete KPVC c' (etcd_pvc (or_Name ref) (or_Namespace ref))) r ∧ Exists (cd_gone ref) pre).

Definition deletes_pvc (name ns : string) (e : event) : Prop :=
  ev_mutates e = true → ∃ c' r, e = Ev (Delete KPVC c' (etcd_pvc name ns)) r.
Lemma reads_delete_nothing name ns e : read_only e → deletes_pvc name ns e.
Proof. unfold read_only, deletes_pvc. destruct e as [R rq x]. by destruct rq. Qed.
Lemma reads_spare_pvcs name ns {A} (p : prog A) : always read_only p → always (deletes_pvc name ns) p.
Proof. apply always_impl, reads_delete_nothing. Qed.
Lemma regional_pvc_deletes name ns l : always (deletes_pvc name ns) (delete_regional_pvc c ns (etcd_pvc name ns) l).
Proof.
  induction l as [|rcd l IH]; cbn [delete_regional_pvc]; [prove_always|].
  apply always_bind; [apply reads_spare_pvcs, cluster_client_reads|]. intros [rc|err]; [|done].
  apply always_bind; [apply always_call; intros r _; by exists rc, r|].
  intros [u|err]; [prove_always|]. by apply always_if; [|prove_always].
Qed.
Lemma pvc_deletes name ns : always (deletes_pvc name ns) (DeletePVCForClusterDeployment c name ns).
Proof.
  unfold DeletePVCForClusterDeployment. cbv zeta.
  apply always_bind; [apply always_call; intros r _; by exists c, r|]. intros [u|err]; [prove_always|].
  apply always_if; [prove_always|]. apply always_bind.
  { apply reads_spare_pvcs. unfold FindRegionalClusterDeploymentsByRole. prove_always. }
  intros [l|err']; [apply regional_pvc_deletes|prove_always].
Qed.

Lemma cleanup_ref_spec ref : posts (cleanup_ref c ref) (λ tr out,
  justified (cleanup_write ref) tr ∧ (out = Ok OrphanGone → Exists (cd_gone ref) tr)).
Proof.
  unfold cleanup_ref. apply posts_call. intros [cd|err].
  - destruct (deleting (cd_meta cd)) eqn:Ed.
    + apply posts_ret. split; [|done]. apply justified_cons; [done|apply justified_nil].
    + apply posts_call. intros x.
      assert (Hj : justified (cleanup_write ref) [Ev (Get KCD c (ref_key ref)) (Ok cd); Ev (Delete KCD c cd) x]).
      { apply justified_cons; [done|]. apply justified_cons; [|apply justified_nil]. intros _. left.
        exists cd, x. split_and!; [done|done|by left]. }
      destruct x as [u|err]; [by apply posts_ret|]. by destruct (negb (IsNotFound err)); apply posts_ret.
  - destruct (IsNotFound err) eqn:En.
    + eapply (posts_bind _ _ (λ t _, Forall (deletes_pvc (or_Name ref) (or_Namespace ref)) t)).
      { intros t r Ht. by eapply pvc_deletes. }
      intros t1 r Ht. apply posts_ret. rewrite app_nil_r. split; [|intros _; constructor; by exists err].
      apply justified_cons; [done|]. eapply justified_forall; [exact Ht|]. intros pre e He Hm.
      destruct (He Hm) as (c' & r' & ->). right. exists c', r'. split; [done|]. constructor. by exists err.
    + apply posts_ret. split; [|done]. apply justified_cons; [done|apply justified_nil].
Qed.

Lemma cleanup_write_app ref q pre e : cleanup_write ref pre e → cleanup_write ref (q ++ pre) e.
Proof.
  intros Hw Hm. destruct (Hw Hm) as [(cd & r & -> & Hd & Hg)|(c' & r & -> & Hg)].
  - left. exists cd, r. split_and!; [done|done|]. apply elem_of_app. by right.
  - right. exists c', r. split; [done|]. apply Exists_app. by right.
Qed.

Definition orphaned (expected : list string) (refs : list ObjectReference) (ref : ObjectReference) : Prop :=
  ref ∈ refs ∧ or_Name ref ∉ expected.
Definition orphan_write (expected : list string) (refs : list ObjectReference) (pre : list event) (e : event) : Prop :=
  ev_mutates e = true → ∃ ref, orphaned expected refs ref ∧ cleanup_write ref pre e.

(** Every orphan is looked at: it is gone, or counted as pending. *)
Lemma cleanup_refs_spec expected refs : ∀ deleted pending, posts (cleanup_refs c expected refs deleted pending) (λ tr out,
  justified (orphan_write expected refs) tr ∧
  ∀ gone n, out = Ok (gone, n) →
    ∃ l, gone = deleted ++ l ∧ (pending ≤ n)%nat ∧
      Forall (λ ref, orphaned expected refs ref ∧ Exists (cd_gone ref) tr) l ∧
      (n = pending → ∀ ref, orphaned expected refs ref → ref ∈ l)).
Proof.
  induction refs as [|ref refs IH]; intros deleted pending; cbn [cleanup_refs].
  { apply posts_ret. split; [apply justified_nil|]. intros gone n [= <- <-]. exists [].
    rewrite app_nil_r. split_and!; [done|done|constructor|]. by intros _ ref [Hr%not_elem_of_nil _]. }
  assert (Hsub : ∀ r, orphaned expected refs r → orphaned expected (ref :: refs) r).
  { intros r [Hr ?]. split; [by right|done]. }
  assert (Hw : ∀ pre e, orphan_write expected refs pre e → orphan_write expected (ref :: refs) pre e).
  { intros pre e He Hm. destruct (He Hm) as (r & Hr & Hc). exists r. auto. }
  case_bool_decide as Hin.
  { eapply posts_conseq; [apply IH|]. intros tr out [Hj Ho]. split; [by eapply justified_impl|].
    intros gone n Hout. destruct (Ho gone n Hout) as (l & -> & Hn & Hl & Hall). exists l. split_and!; [done|done| |].
    - eapply Forall_impl; [exact Hl|]. intros r [? ?]. auto.
    - intros Hp r [[-> | Hr]%elem_of_cons Hne]; [done|]. by apply Hall. }
  assert (Hhere : orphaned expected (ref :: refs) ref) by (split; [by left|done]).
  assert (Hlift : ∀ t, justified (cleanup_write ref) t → justified (orphan_write expected (ref :: refs)) t).
  { intros t Ht. eapply justified_impl, Ht. intros pre e He Hm. by exists ref. }
  intros tr out Hx. apply exec_try in Hx as [(t1 & t2 & o & -> & H1 & Hx)|(e & H1 & ->)].
  2: { apply cleanup_ref_spec in H1 as [Hj _]. split; [by apply Hlift|by intros ? ?]. }
  apply cleanup_ref_spec in H1 as [Hj Hgone].
  assert (Hjoin : justified (orphan_write expected refs) t2 → justified (orphan_write expected (ref :: refs)) (t1 ++ t2)).
  { intros Hj2. apply justified_app; [by apply Hlift|]. eapply justified_impl, Hj2. intros pre e He Hm.
    destruct (He Hm) as (r & Hr & Hc). exists r. split; [auto|]. by apply cleanup_write_app. }
  assert (Hmore : ∀ l, Forall (λ r, orphaned expected refs r ∧ Exists (cd_gone r) t2) l →
    Forall (λ r, orphaned expected (ref :: refs) r ∧ Exists (cd_gone r) (t1 ++ t2)) l).
  { intros l Hl. eapply Forall_impl; [exact Hl|]. intros r [? ?]. split; [auto|]. apply Exists_app. by right. }
  destruct o; apply IH in Hx as [Hj2 Ho]; (split; [by apply Hjoin|]); intros gone n Hout;
    destruct (Ho gone n Hout) as (l & -> & Hn & Hl & Hall).
  - exists (ref :: l). rewrite <- app_assoc. split_and!; [done|done| |].
    + constructor; [|by apply Hmore]. split; [done|]. apply Exists_app. left. by apply Hgone.
    + intros Hp r [[-> | Hr]%elem_of_cons Hne]; [by left|]. right. by apply Hall.
  - exists l. split_and!; [done|lia|by apply Hmore|]. intros Hp. lia.
Qed.
End cleanup.

(** Waiting for a deletion succeeds only on the server's word, and then removes the
    volume claim; nothing is written before. *)
Lemma wait_for_deletion_spec c m n : posts (WaitForClusterDeletion c m n) (λ tr out,
  let ref := {| or_APIVersion := ""; or_Kind := ""; or_Namespace := m_Namespace m; or_Name := m_Name m |} in
  justified (cleanup_write c ref) tr ∧ (out = Ok tt → Exists (cd_gone c ref) tr)).
Proof.
  induction n as [|n IH]; cbn [WaitForClusterDeletion]; [by apply posts_ret; split; [apply justified_nil|]|].
  apply posts_call. intros x. cbv zeta. destruct (match x with Err err => IsNotFound err | Ok _ => false end) eqn:E.
  - destruct x as [cd|err]; [done|]. eapply (posts_bind _ _ (λ t _, Forall (deletes_pvc (m_Name m) (m_Namespace m)) t)).
    { intros t r Ht. by eapply pvc_deletes. }
    intros t1 r Ht. apply posts_ret. rewrite app_nil_r. split; [|intros _; constructor; by exists err].
    apply justified_cons; [done|]. eapply justified_forall; [exact Ht|]. intros pre e He Hm.
    destruct (He Hm) as (c' & r' & ->). right. exists c', r'. split; [done|]. constructor. by exists err.
  - eapply posts_conseq; [exact IH|]. intros t out [Hj Ho]. split; [|intros Hout; apply Exists_cons; right; by apply Ho].
    apply justified_cons; [done|]. eapply justified_impl, Hj. intros pre e. apply (cleanup_write_app _ _ [_]).
Qed.

Lemma orphan_write_app c expected refs q pre e :
  orphan_write c expected refs pre e → orphan_write c expected refs (q ++ pre) e.
Proof.
  intros He Hm. destruct (He Hm) as (r & Hr & Hc). exists r. split; [done|]. by apply cleanup_write_app.
Qed.
Lemma in_dropped gone refs ref : ref ∈ drop_refs gone refs ↔ ref ∈ refs ∧ target_of ref ∉ target_of <$> gone.
Proof.
  unfold drop_refs. rewrite list_elem_of_filter.
  enough (existsb (same_target ref) gone = false ↔ target_of ref ∉ target_of <$> gone) by tauto.
  rewrite <- not_true_iff_false, existsb_exists. apply not_iff_compat. split.
  - intros (g & Hg%list_elem_of_In & Ht%same_target_iff). rewrite Ht. by apply list_elem_of_fmap_2.
  - intros (g & Ht & Hg)%list_elem_of_fmap. exists g. split; [by apply list_elem_of_In|]. by apply same_target_iff.
Qed.

(** What a clean-up may write to the colony: its references, less those whose
    deployment the server reported gone. *)
Definition drops_gone (c : client) (colony : Colony) (pre : list event) (e : event) : Prop :=
  ∃ colony' r, e = Ev (StatusPatch KColony c colony colony') r ∧
    colony' = upd_col_status (set_ClusterDeploymentRefs (col_Refs colony')) colony ∧
    ∀ ref, ref ∈ col_Refs colony → ref ∉ col_Refs colony' →
      ∃ gone, target_of gone = target_of ref ∧ orphaned (expectedClusterNames colony) (col_Refs colony) gone ∧
        Exists (cd_gone c gone) pre.

Lemma cleanup_orphans_posts c colony : posts (CleanupOrphanedClusterDeployments c colony) (λ tr out,
  justified (λ pre e, ev_mutates e = true →
    orphan_write c (expectedClusterNames colony) (col_Refs colony) pre e ∨ drops_gone c colony pre e) tr ∧
  ∀ colony', out = Ok (colony', false) →
    ∀ ref, orphaned (expectedClusterNames colony) (col_Refs colony) ref → Exists (cd_gone c ref) tr).
Proof.
  intros tr out Hx. unfold CleanupOrphanedClusterDeployments in Hx.
  apply exec_try in Hx as [(t1 & t2 & [gone n] & -> & H1 & Hx)|(e & H1 & ->)].
  2: { apply cleanup_refs_spec in H1 as [Hj _]. split; [|done]. eapply justified_impl, Hj. auto. }
  apply cleanup_refs_spec in H1 as [Hj Ho]. destruct (Ho gone n eq_refl) as (l & -> & Hn & Hl & Hall). simpl in Hx.
  assert (Hj' : justified (λ pre e, ev_mutates e = true →
    orphan_write c (expectedClusterNames colony) (col_Refs colony) pre e ∨ drops_gone c colony pre e) t1).
  { eapply justified_impl, Hj. auto. }
  rewrite Forall_forall in Hl.
  assert (Hgone : bdec (0 < n)%nat = false → ∀ ref, orphaned (expectedClusterNames colony) (col_Refs colony) ref →
    Exists (cd_gone c ref) t1).
  { intros Hz%bool_decide_eq_false ref Hr. apply Hl, Hall; [lia|done]. }
  apply exec_if in Hx as [[_ [-> ->]]|[_ Hx]].
  { rewrite app_nil_r. split; [done|]. intros colony' [= _ Hz]. by apply Hgone. }
  assert (∃ r, t2 = [Ev (StatusPatch KColony c colony
            (upd_col_status (set_ClusterDeploymentRefs (drop_refs l (col_Refs colony))) colony)) r] ∧
          ∀ colony', out = Ok (colony', false) → bdec (0 < n)%nat = false) as (r & -> & Hout).
  { apply exec_try in Hx as [(t3 & t4 & p & -> & H3%exec_wrap_ok%exec_call & [-> ->])|(e & H3 & ->)].
    - subst t3. eexists. split; [done|]. by intros colony' [= _ Hz].
    - apply exec_wrap_err in H3 as (e' & ->%exec_call & ->). eexists. by split. }
  split.
  - apply justified_app; [done|]. apply justified_cons; [|apply justified_nil]. intros _. right. rewrite app_nil_r.
    eexists _, r. split; [done|]. split; [done|]. intros ref Hr Hd. simpl in Hd.
    rewrite in_dropped in Hd. destruct (decide (target_of ref ∈ target_of <$> l)) as [Ht|]; [|tauto].
    apply list_elem_of_fmap in Ht as (g & Ht & Hg). exists g. split; [done|]. by apply Hl.
  - intros colony' Hout' ref Hr. apply Exists_app. left. apply Hgone; [by eapply Hout|done].
Qed.

(** C12: The clean-up spares what the spec names.  It deletes a ClusterDeployment only
    if the status references it, the spec names no cluster of that name, and it was
    just read live; it deletes an etcd volume claim only after the server reported
    the orphaned deployment gone; and it drops a reference only then.  When it
    reports nothing pending, every orphan has been reported gone. *)
Theorem cleanup_spares_spec c colony tr out :
  exec (CleanupOrphanedClusterDeployments c colony) tr out →
  justified (λ pre e, ev_mutates e = true →
    orphan_write c (expectedClusterNames colony) (col_Refs colony) pre e ∨ drops_gone c colony pre e) tr ∧
  ∀ colony', out = Ok (colony', false) →
    ∀ ref, orphaned (expectedClusterNames colony) (col_Refs colony) ref → Exists (cd_gone c ref) tr.
Proof. apply cleanup_orphans_posts. Qed.

(** ** A colony that references a gone, a live and a wanted deployment *)
Definition orphans_colony : Colony := example_colony live_meta ["a"] ["col-gone"; "col-old"; "col-a"].
Definition orphans_run := run (colony_server orphans_colony)
  (CleanupOrphanedClusterDeployments MgmtClient orphans_colony) (world_of ["col-old"; "col-a"] 0).
Lemma cleanup_spares_spec_witness :
  writes orphans_run.1.1 = 3%nat ∧
  justified (λ pre e, ev_mutates e = true →
    orphan_write MgmtClient (expectedClusterNames orphans_colony) (col_Refs orphans_colony) pre e ∨
    drops_gone MgmtClient orphans_colony pre e) orphans_run.1.1.
Proof.
  split; [vm_compute; reflexivity|].
  destruct (cleanup_spares_spec MgmtClient orphans_colony _ _
    (run_exec (colony_server orphans_colony) _ (world_of ["col-old"; "col-a"] 0))) as [H _]. exact H.
Defined.
