(* ===== verification/Endpoints.v ===== *)
(** * Theorems about API endpoints

    The endpoint of a cluster as [DetermineAPIEndpoint] prints it, [parseEndpoint]
    reads it, and the colony controller publishes it to the child cluster
    ([infra/common/service_discovery.go], [infra/cilium/api_endpoint_configmap.go],
    [ensureAPIEndpointConfigMapForAllClusters]). *)

From Stdlib Require Import Ascii.
From S2P Require Import Prelude GoString Api InfraApi Prog Gpu Values Cluster ClusterDeployments Discovery Colony ColonyFake.

(** ** host:port *)
Lemma no_colon_in_itoa z : no_byte ":"%char (itoa z).
Proof. apply sall_itoa; [|done]. intros d. unfold pretty_N_char. by repeat case_match. Qed.
Lemma itoa_nonempty z : itoa z ≠ "".
Proof.
  assert (Hgo : ∀ x s, s ≠ "" → pretty_N_go x s ≠ "").
  { intros x. induction (N.lt_wf_0 x) as [x _ IH]. intros s Hs.
    destruct (decide (x = 0)%N) as [-> | Hx]; [done|]. rewrite pretty_N_go_step by lia.
    apply IH; [apply N.div_lt; lia|done]. }
  assert (Hn : ∀ x : N, pretty x ≠ "").
  { intros x. unfold pretty, pretty_N. case_decide; [done|]. rewrite pretty_N_go_step by lia. by apply Hgo. }
  unfold itoa, pretty, pretty_Z. destruct z as [|p|p]; [done|apply (Hn (Npos p))|done].
Qed.

Lemma get_app a b n : String.get (len a + n) (a +:+ b) = String.get n b.
Proof. by induction a as [|c a IH]. Qed.
Lemma prefix_head c d s t : HasPrefix (String c s) (String d "") = HasPrefix (String c t) (String d "").
Proof. unfold HasPrefix. cbn [String.prefix]. destruct (Ascii.ascii_dec d c); [by destruct s, t|done]. Qed.
Lemma parse_bracketed host port :
  no_byte "]"%char host → parseEndpoint ("[" +:+ host +:+ "]:" +:+ itoa port) = Ok (host, itoa port).
Proof.
  intros Hb. set (rest := ("]:" +:+ itoa port)%string). unfold parseEndpoint.
  assert (HasPrefix ("[" +:+ host +:+ rest) "[" = true) as -> by apply (prefix_app "[").
  assert (index_byte "]"%char ("[" +:+ host +:+ rest) = Some (S (len host))) as ->.
  { change (S <$> index_byte "]"%char (host +:+ String "]"%char (":" +:+ itoa port)) = Some (S (len host))).
    by rewrite index_byte_app. }
  assert (String.get (S (len host) + 1) ("[" +:+ host +:+ rest) = Some ":"%char) as ->.
  { change (String.get (len host + 1) (host +:+ rest) = Some ":"%char). by rewrite get_app. }
  f_equal. f_equal.
  - change (String.substring 0 (len host - 0) (host +:+ rest) = host). rewrite Nat.sub_0_r.
    pose proof (slice_prefix host rest) as Hs. unfold slice in Hs. by rewrite Nat.sub_0_r in Hs.
  - pose proof (slice_app ("[" +:+ host +:+ "]:") (itoa port)) as Hs. rewrite !sapp_assoc in Hs.
    assert (S (len host) + 2 = len ("[" +:+ host +:+ "]:"))%nat as ->; [rewrite !length_sapp; simpl; lia|exact Hs].
Qed.

(** A host name or address as Kubernetes reports it, without brackets of its own. *)
Definition plain_host (host : string) : Prop :=
  host ≠ "" ∧ HasPrefix host "[" = false ∧ no_byte "]"%char host.

(** Reading back what was printed: the ConfigMap gets exactly the host and the
    port of the endpoint, for names, IPv4 and IPv6 addresses alike. *)
Theorem endpoint_roundtrip host port :
  plain_host host → parseEndpoint (joinHostPort host port) = Ok (host, itoa port).
Proof.
  intros (Hne & Hp & Hb). unfold joinHostPort. destruct (index_byte ":" host) as [i|] eqn:Ei.
  - apply parse_bracketed, Hb.
  - apply index_byte_None in Ei. unfold parseEndpoint. destruct host as [|c host]; [done|].
    assert (HasPrefix (String c host +:+ ":" +:+ itoa port) "[" = false) as ->.
    { etrans; [apply prefix_head|exact Hp]. }
    change (String c host +:+ ":" +:+ itoa port) with (String c host +:+ String ":"%char (itoa port)).
    rewrite split_byte_app, split_byte_none by (done || apply no_colon_in_itoa).
    by rewrite bool_decide_false, bool_decide_false by (done || apply itoa_nonempty).
Qed.

(** ** Which endpoint *)

(** The address the workers of a cluster can dial, by the type of its service. *)
Inductive worker_endpoint (svc : Service) (capi : option Cluster) : string → Z → Prop :=
  | by_load_balancer host : GetServiceExternalAddress svc = Some host →
      worker_endpoint svc capi host (GetAPIServerPort svc)
  | by_node_port cl : svc_Type svc = ServiceTypeNodePort → capi = Some cl → cl_Host cl ≠ "" →
      worker_endpoint svc capi (cl_Host cl) (if bdec (cl_Port cl = 0%Z) then GetAPIServerPort svc else cl_Port cl)
  | by_cluster_ip : svc_Type svc ≠ ServiceTypeNodePort → GetServiceExternalAddress svc = None →
      worker_endpoint svc capi (svc_ClusterIP svc) (GetAPIServerPort svc).

Lemma determine_endpoint_iff svc capi ep :
  DetermineAPIEndpoint svc capi = Ok ep ↔
  no_cluster_ip svc = false ∧ ∃ host port, worker_endpoint svc capi host port ∧ ep = joinHostPort host port.
Proof.
  unfold DetermineAPIEndpoint. destruct (no_cluster_ip svc); [by split; [|intros [? _]]|].
  assert (Hlb : ∀ a, GetServiceExternalAddress svc = Some a → svc_Type svc ≠ ServiceTypeNodePort).
  { intros a. unfold GetServiceExternalAddress. case_bool_decide as Ht; [done|]. intros _ He. by rewrite He in Ht. }
  destruct (GetServiceExternalAddress svc) as [a|] eqn:Ea.
  { split; [intros [= <-]; split; [done|]; eexists _, _; split; [by apply by_load_balancer|done]|].
    intros (_ & h & p & Hw & ->). destruct Hw; try congruence. by destruct (Hlb a eq_refl). }
  case_bool_decide as Ht.
  - destruct capi as [cl|]; [case_bool_decide as Hh|].
    2: { split; [intros [= <-]; split; [done|]; eexists _, _; split; [by apply (by_node_port _ _ cl)|done]|].
         intros (_ & h & p & Hw & ->). by destruct Hw; simplify_eq. }
    all: split; [done|]; intros (_ & h & p & Hw & ->); by destruct Hw; simplify_eq.
  - split; [intros [= <-]; split; [done|]; eexists _, _; split; [by apply by_cluster_ip|done]|].
    intros (_ & h & p & Hw & ->). by destruct Hw; simplify_eq.
Qed.

(** The endpoint chosen is one the workers can dial: a load balancer's address
    when it has one; behind a NodePort the address the Cluster API publishes, never
    the unreachable ClusterIP; the ClusterIP otherwise.  The result is defined
    exactly when the service has a ClusterIP and such an address exists. *)
Theorem determine_endpoint_spec svc capi ep :
  DetermineAPIEndpoint svc capi = Ok ep ↔
  no_cluster_ip svc = false ∧ ∃ host port, worker_endpoint svc capi host port ∧ ep = joinHostPort host port.
Proof. apply determine_endpoint_iff. Qed.

Lemma existsb_find {A} (f : A → bool) l : existsb f l = true → ∃ x, find_first f l = Some x.
Proof.
  intros (x & Hx%list_elem_of_In & Hf)%existsb_exists. apply find_first_is_Some. by exists x.
Qed.
(** The port of a validated service is one of its ports, not the default. *)
Lemma validated_port svc :
  ValidateControlPlanePorts svc = None → ∃ p, p ∈ svc_Ports svc ∧ is_api_port p = true ∧ GetAPIServerPort svc = sp_Port p.
Proof.
  unfold ValidateControlPlanePorts, GetAPIServerPort. destruct (existsb is_api_port _) eqn:E; [|done]. intros _.
  destruct (find_first (λ p, api_name (sp_Name p)) (svc_Ports svc)) as [p|] eqn:E1.
  { apply find_first_Some in E1 as (? & Hn & _). exists p. unfold is_api_port. by rewrite Hn. }
  destruct (find_first (λ p, api_number (sp_Port p)) (svc_Ports svc)) as [p|] eqn:E2.
  { apply find_first_Some in E2 as (? & Hn & _). exists p. unfold is_api_port. by rewrite Hn, orb_true_r. }
  exfalso. apply existsb_exists in E as (p & Hp%list_elem_of_In & Ha). rewrite find_first_None, Forall_forall in E1, E2.
  unfold is_api_port in Ha. by rewrite (E1 p Hp), (E2 p Hp) in Ha.
Qed.

(** ** Publishing *)
Section publish.
Context (colony : Colony).

(** The cluster that hosts a cluster's control plane: its regional parent, or the
    management cluster. *)
Definition home_of (cluster : string) (home : client) (pre : list event) : Prop :=
  ∃ p t q rc isRegional, pre = p ++ t ++ q ∧
    exec (ResolveRegionalClient MgmtClient colony cluster) t (rc, isRegional, None) ∧ home = default MgmtClient rc.
(** [child] is built from the kubeconfig [home] keeps for the cluster. *)
Definition child_of (cluster : string) (home child : client) (pre : list event) : Prop :=
  ∃ s bytes cfg,
    Ev (Get KSecret home {| k_Namespace := col_Namespace colony;
                            k_Name := col_Name colony +:+ "-" +:+ cluster +:+ "-kubeconfig" |}) (Ok s) ∈ pre ∧
    sec_Data s !! "value" = Some bytes ∧
    Ev (RESTConfigFromKubeConfig bytes) (Ok cfg) ∈ pre ∧ Ev (NewClient cfg) (Ok child) ∈ pre.
Definition service_list (cluster : string) : ListOptions :=
  {| lo_InNamespace := Some (col_Namespace colony); lo_MatchingLabels := control_plane_labels (col_Name colony) cluster;
     lo_MatchingFields := ∅; lo_HasLabels := [] |}.
(** The service the endpoint comes from, and the Cluster API's object read for it. *)
Definition discovered (cluster name : string) (home : client) (svc : Service) (capi : option Cluster)
    (pre : list event) : Prop :=
  (∃ others, Ev (ListObjs KService home (service_list cluster)) (Ok (svc :: others)) ∈ pre) ∧
  ValidateControlPlanePorts svc = None ∧
  ∀ cl, capi = Some cl → Ev (Get KCluster home {| k_Namespace := col_Namespace colony; k_Name := name |}) (Ok cl) ∈ pre.
Definition configmap_key : ObjectKey := {| k_Namespace := "kube-system"; k_Name := "cp-api-endpoint" |}.
(** The child's ConfigMap, with this host and port: created under its name after the
    server said there is none, or updated from the object the server has under that
    name, with its metadata and other data. *)
Definition configmap_write (child : client) (h p : string) (pre : list event) (e : event) : Prop :=
  ∃ cm r, smget (cm_Data cm) "host" = h ∧ smget (cm_Data cm) "port" = p ∧
    ((∃ err, e = Ev (Create KConfigMap child cm) r ∧ m_Name (cm_meta cm) = "cp-api-endpoint" ∧
        m_Namespace (cm_meta cm) = "kube-system" ∧
        Ev (Get KConfigMap child configmap_key) (Err err) ∈ pre ∧ IsNotFound err = true) ∨
     (∃ old, e = Ev (Update KConfigMap child cm) r ∧ Ev (Get KConfigMap child configmap_key) (Ok old) ∈ pre ∧
        cm_meta cm = cm_meta old ∧
        ∀ k, k ≠ "host" → k ≠ "port" → smget (cm_Data cm) k = smget (cm_Data old) k)).
(** A write that publishes: to the child of a referenced cluster, the endpoint of
    that cluster's own control plane. *)
Definition publishes (refs : list ObjectReference) (pre : list event) (e : event) : Prop :=
  ∃ ref cluster home child svc capi host port h p,
    ref ∈ refs ∧ or_Name ref = col_Name colony +:+ "-" +:+ cluster ∧
    home_of cluster home pre ∧ discovered cluster (or_Name ref) home svc capi pre ∧
    worker_endpoint svc capi host port ∧ parseEndpoint (joinHostPort host port) = Ok (h, p) ∧
    child_of cluster home child pre ∧ configmap_write child h p pre e.

(** *** Stage by stage *)
Lemma resolve_reads c cluster : always read_only (ResolveRegionalClient c colony cluster).
Proof.
  unfold ResolveRegionalClient, FindRegionalClusterDeployment. prove_always.
Qed.
Lemma resolve_not_regional c cluster tr rc err :
  exec (ResolveRegionalClient c colony cluster) tr (rc, false, err) → rc = None.
Proof.
  unfold ResolveRegionalClient. destruct (GetColonyClusterByName colony cluster) as [cc|]; [|by intros [_ [= -> _]]].
  destruct (IsRegionalChild cc) as [[|] name]; [|by intros [_ [= -> _]]]. cbn [negb]. intros Hx.
  apply exec_bind in Hx as (t1 & t2 & [cd|e] & _ & _ & Hx); [|by destruct Hx].
  by apply exec_bind in Hx as (t3 & t4 & [c'|e] & _ & _ & Hx); destruct Hx.
Qed.
Lemma discover_spec c cluster : posts (DiscoverControlPlaneService c (col_Namespace colony) (col_Name colony) cluster)
  (λ tr out, Forall read_only tr ∧ ∀ svc, out = Ok svc →
     ValidateControlPlanePorts svc = None ∧ ∃ others, tr = [Ev (ListObjs KService c (service_list cluster)) (Ok (svc :: others))]).
Proof.
  unfold DiscoverControlPlaneService. apply posts_call. intros [[|svc others]|err].
  - apply posts_ret. split; [by repeat constructor|done].
  - destruct (no_cluster_ip svc); [apply posts_ret; split; [by repeat constructor|done]|].
    destruct (ValidateControlPlanePorts svc) eqn:E; apply posts_ret; (split; [by repeat constructor|]); [done|].
    intros s [= <-]. split; [done|]. by exists others.
  - apply posts_ret. split; [by repeat constructor|done].
Qed.
Lemma capi_spec c name : posts (GetCAPICluster c (col_Namespace colony) name) (λ tr out, Forall read_only tr ∧
  ∀ cl, out = Ok (Some cl) → Ev (Get KCluster c {| k_Namespace := col_Namespace colony; k_Name := name |}) (Ok cl) ∈ tr).
Proof.
  unfold GetCAPICluster. apply posts_call. intros [cl|err].
  - apply posts_ret. split; [by repeat constructor|]. intros ? [= <-]. by left.
  - destruct (IsNotFound err); apply posts_ret; (split; [by repeat constructor|done]).
Qed.
Lemma child_client_spec c cluster : posts (getClientForChildCluster c colony cluster) (λ tr out, Forall read_only tr ∧
  ∀ child, out = Ok child → child_of cluster c child tr).
Proof.
  intros tr out Hx. split; [eapply exec_always; [exact Hx|]; unfold getClientForChildCluster; prove_always|].
  intros child ->. unfold getClientForChildCluster in Hx.
  apply exec_try_ok in Hx as (t1 & t2 & s & -> & ->%exec_wrap_ok%exec_call & Hx).
  destruct (sec_Data s !! "value") as [bytes|] eqn:E; [|by destruct Hx].
  apply exec_try_ok in Hx as (t3 & t4 & cfg & -> & ->%exec_wrap_ok%exec_call & ->%exec_wrap_ok%exec_call).
  exists s, bytes, cfg. split_and!; [in_trace|done|in_trace|in_trace].
Qed.
Lemma write_configmap_spec child cluster h p : posts (write_configmap child colony cluster h p) (λ tr _,
  justified (λ pre e, ev_mutates e = true → configmap_write child h p pre e) tr).
Proof.
  unfold write_configmap. apply posts_call. intros [cm|err].
  - destruct (_ && _); [apply posts_ret; by apply justified_cons; [|apply justified_nil]|].
    destruct (cm_Data cm) as [data|] eqn:Ed; [|apply posts_ret; by apply justified_cons; [|apply justified_nil]].
    apply posts_call. intros x. apply posts_ret. apply justified_cons; [done|].
    apply justified_cons; [|apply justified_nil].
    intros _. eexists _, x. split_and!; [| |right; exists cm; split_and!; [done|by left|done|]]; simpl.
    + unfold smget. simpl. by rewrite mget_insert_ne, mget_insert.
    + unfold smget. simpl. by rewrite mget_insert.
    + intros k Hh Hp. unfold smget. simpl. rewrite !mget_insert_ne by done. by rewrite Ed.
  - destruct (IsNotFound err) eqn:En; [|apply posts_ret; by apply justified_cons; [|apply justified_nil]].
    apply posts_call. intros x. apply posts_ret. apply justified_cons; [done|].
    apply justified_cons; [|apply justified_nil].
    intros _. exists (new_configmap colony cluster h p), x. split_and!; [done|done|]. left. exists err.
    split_and!; try done. by left.
Qed.

(** *** One cluster, all clusters *)
Lemma extract_inv d name :
  ExtractClusterNameFromDeploymentName d (col_Name colony) = name → name ≠ "" → d = col_Name colony +:+ "-" +:+ name.
Proof.
  unfold ExtractClusterNameFromDeploymentName. set (pre := col_Name colony +:+ "-").
  destruct (Nat.leb_spec (len d) (len pre)); [by intros <-|]. case_bool_decide as Hp; [by intros <-|]. intros <- _.
  destruct (slice0_split d (len pre)) as [t Ht]; [lia|]. rewrite Hp in Ht.
  rewrite <- sapp_assoc. fold pre. rewrite Ht at 2 3. by rewrite slice_app.
Qed.
Lemma configmap_write_more child h p pre pre' e :
  (∀ e, e ∈ pre → e ∈ pre') → configmap_write child h p pre e → configmap_write child h p pre' e.
Proof. unfold configmap_write. naive_solver. Qed.
Lemma publishes_app refs q pre e : publishes refs pre e → publishes refs (q ++ pre) e.
Proof.
  intros (ref & cluster & home & child & svc & capi & host & port & h & p & H1 & H2 & H3 & H4 & H5 & H6 & H7 & H8).
  exists ref, cluster, home, child, svc, capi, host, port, h, p. split_and!; try done.
  - destruct H3 as (p' & t & q' & rc & ir & -> & ? & ?). exists (q ++ p'), t, q', rc, ir. by rewrite app_assoc.
  - destruct H4 as ([others Ho] & ? & Hc). split_and!; [exists others; apply elem_of_app; by right|done|].
    intros cl Hcl. apply elem_of_app. right. by apply Hc.
  - destruct H7 as (s & bytes & cfg & ? & ? & ? & ?). exists s, bytes, cfg.
    split_and!; try done; apply elem_of_app; by right.
  - eapply configmap_write_more, H8. intros e' He'. apply elem_of_app. by right.
Qed.

Lemma publish_spec refs ref : ref ∈ refs → posts (publish_endpoint colony ref) (λ tr _,
  justified (λ pre e, ev_mutates e = true → publishes refs pre e) tr).
Proof.
  intros Hin tr out Hx. unfold publish_endpoint in Hx. cbv zeta in Hx.
  set (cluster := ExtractClusterNameFromDeploymentName _ _) in Hx.
  case_bool_decide as Hname; [destruct Hx as [-> _]; apply justified_nil|].
  apply exec_bind in Hx as (t1 & t2 & [[rc ir] err] & -> & H1 & Hx). pose proof (resolve_reads _ _ _ _ H1) as Hr1.
  apply justified_reads; [done|]. destruct err as [err|]; [destruct Hx as [-> _]; apply justified_nil|].
  set (home := default MgmtClient rc).
  assert ((if ir then default MgmtClient rc else MgmtClient) = home) as Hhome.
  { destruct ir; [done|]. apply resolve_not_regional in H1. unfold home. by rewrite H1. }
  rewrite Hhome in Hx. apply exec_bind in Hx as (t3 & t4 & svc & -> & H2 & Hx).
  apply discover_spec in H2 as [Hr2 Hsvc]. apply justified_reads; [done|].
  destruct svc as [svc|err]; [|destruct Hx as [-> _]; apply justified_nil].
  destruct (Hsvc svc eq_refl) as (Hv & others & ->).
  apply exec_bind in Hx as (t5 & t6 & capi & -> & H3 & Hx).
  assert (Forall read_only t5 ∧ ∀ cl, capi = Ok (Some cl) →
    Ev (Get KCluster home {| k_Namespace := col_Namespace colony; k_Name := or_Name ref |}) (Ok cl) ∈ t5) as [Hr3 Hcapi].
  { case_bool_decide; [by apply capi_spec in H3|]. by destruct H3 as [-> ->]. }
  apply justified_reads; [done|]. destruct capi as [capi|err]; [|destruct Hx as [-> _]; apply justified_nil].
  destruct (DetermineAPIEndpoint svc capi) as [ep|err] eqn:Eep; [|destruct Hx as [-> _]; apply justified_nil].
  apply determine_endpoint_iff in Eep as (_ & host & port & Hw & ->).
  apply exec_bind in Hx as (t7 & t8 & o & -> & H4 & Hx). assert (t8 = []) as -> by (destruct o; by destruct Hx).
  rewrite app_nil_r. unfold EnsureAPIEndpointConfigMap in H4.
  destruct (parseEndpoint (joinHostPort host port)) as [[h p]|err] eqn:Ep; [|destruct H4 as [-> _]; apply justified_nil].
  apply exec_bind in H4 as (t9 & t10 & child & -> & H4 & Hx2). apply child_client_spec in H4 as [Hr4 Hchild].
  apply justified_reads; [done|]. destruct child as [child|err]; [|destruct Hx2 as [-> _]; apply justified_nil].
  apply write_configmap_spec in Hx2. eapply justified_impl, Hx2. intros pre e He Hm. specialize (He Hm).
  exists ref, cluster, home, child, svc, capi, host, port, h, p. split_and!; try done.
  - by apply extract_inv.
  - eexists [], t1, _, rc, ir. split; [reflexivity|]. done.
  - split_and!; [exists others; in_trace|done|]. intros cl ->. rewrite !elem_of_app. right. right. left. by apply Hcapi.
  - destruct (Hchild child eq_refl) as (s & bytes & cfg & ? & ? & ? & ?). exists s, bytes, cfg.
    split_and!; try done; rewrite !elem_of_app; tauto.
  - eapply configmap_write_more, He. intros e' He'. rewrite !elem_of_app. tauto.
Qed.

Lemma publish_all_spec refs : ∀ l, (∀ ref, ref ∈ l → ref ∈ refs) → posts (publish_endpoints colony l) (λ tr _,
  justified (λ pre e, ev_mutates e = true → publishes refs pre e) tr).
Proof.
  induction l as [|ref l IH]; intros Hl tr out Hx; cbn [publish_endpoints] in Hx; [destruct Hx as [-> _]; apply justified_nil|].
  apply exec_bind in Hx as (t1 & t2 & o & -> & H1 & Hx).
  apply (publish_spec refs) in H1; [|apply Hl; by left]. apply justified_app; [done|].
  destruct o; [|destruct Hx as [-> _]; apply justified_nil].
  apply IH in Hx; [|intros ? ?; apply Hl; by right]. eapply justified_impl, Hx. intros pre e He Hm.
  by apply publishes_app, He.
Qed.

(** C13: A child cluster is told its own API server.  Everything the controller writes
    while publishing endpoints is the [cp-api-endpoint] ConfigMap of a cluster the
    colony references, through a client built from that cluster's kubeconfig on the
    cluster that hosts its control plane; and what it says is the address workers
    can dial of that cluster's own control-plane service, read in the same run. *)
Theorem endpoints_are_their_own tr out :
  exec (ensureAPIEndpointConfigMapForAllClusters colony) tr out →
  justified (λ pre e, ev_mutates e = true → publishes (col_Refs colony) pre e) tr.
Proof. intros Hx. by eapply publish_all_spec; [|exact Hx]. Qed.
End publish.

(** ** On a concrete server *)
Lemma endpoint_roundtrip_witness :
  parseEndpoint (joinHostPort "2001:db8::1" 6443) = Ok ("2001:db8::1", "6443").
Proof. apply (endpoint_roundtrip "2001:db8::1" 6443). split; [discriminate|split; vm_compute; reflexivity]. Defined.

Definition endpoints_colony : Colony := example_colony live_meta ["a"] ["col-a"].
Definition endpoints_run := run (colony_server endpoints_colony)
  (ensureAPIEndpointConfigMapForAllClusters endpoints_colony) (world_of ["col-a"] 0).
Lemma endpoints_are_their_own_witness :
  existsb ev_mutates endpoints_run.1.1 = true ∧
  justified (λ pre e, ev_mutates e = true → publishes endpoints_colony (col_Refs endpoints_colony) pre e) endpoints_run.1.1.
Proof.
  split; [vm_compute; reflexivity|].
  exact (endpoints_are_their_own endpoints_colony _ _
    (run_exec (colony_server endpoints_colony) (ensureAPIEndpointConfigMapForAllClusters endpoints_colony) (world_of ["col-a"] 0))).
Defined.
