(* ===== verification/ColonyStatus.v ===== *)
(** * Theorems about a colony's status

    Ensuring the clusters, the phase and the ClustersReady condition, and the GPU
    inventory ([ensure_clusters], [updateColonyStatusFromClusters] and
    [refreshGPUInventory] of [colony_controller.go]). *)

From S2P Require Import Prelude GoString Api InfraApi Prog Gpu Values Cluster ClusterDeployments ClusterUpdates.
From S2P Require Import Discovery Routes Controller QuantityNano Colony ColonyFake.

(** What [meta.SetStatusCondition] documents: the condition of the type is the new
    one, up to its transition time, and the other types are left alone. *)
Definition of_type (t : string) (c : Condition) : bool := bdec (c_Type c = t).
Class InfraLaws `{InfraLib} := {
  set_status_condition_new now cs c :
    ∃ c', find_first (of_type (c_Type c)) (SetStatusCondition now cs c) = Some c' ∧
      c_Status c' = c_Status c ∧ c_Reason c' = c_Reason c ∧ c_Message c' = c_Message c;
  set_status_condition_other now cs c t :
    t ≠ c_Type c → find_first (of_type t) (SetStatusCondition now cs c) = find_first (of_type t) cs
}.

Section status.
Context `{QuantityOps} `{InfraLib}.

(** ** Ensuring *)

(** The run of one cluster, somewhere in the trace, with its outcome accounted for. *)
Definition was_ensured (cc : ColonyCluster) (tr : list event) (colony : Colony) (errs : list error) : Prop :=
  ∃ pre t post c1 c2 err, tr = pre ++ t ++ post ∧ exec (EnsureClusterDeployment MgmtClient c1 cc) t (c2, err) ∧
    col_meta c1 = col_meta colony ∧
    match err with
    | Some err => wrapf ("cluster " +:+ quote (cc_ClusterName cc)) err ∈ errs
    | None => ∃ actual, own_deployment MgmtClient colony cc actual t ∧
                target_of (reference actual) ∈ target_of <$> col_Refs colony
    end.

Lemma was_ensured_more cc q tr q' colony colony' errs errs' :
  was_ensured cc tr colony errs → extends colony colony' → errs `prefix_of` errs' →
  was_ensured cc (q ++ tr ++ q') colony' errs'.
Proof.
  intros (pre & t & post & c1 & c2 & err & -> & Hx & Hm1 & He) (Hm & _ & _ & [l Hl] & _) [l' ->].
  exists (q ++ pre), t, (post ++ q'), c1, c2, err. split; [by rewrite <- !app_assoc|]. split; [done|].
  split; [congruence|]. destruct err as [err|]; [apply elem_of_app; by left|].
  destruct He as (actual & [Ha Hk] & Hr). exists actual. split.
  - split; [done|]. unfold own_key. by rewrite Hm.
  - rewrite Hl, fmap_app. apply elem_of_app. by left.
Qed.

Lemma ensure_clusters_spec clusters : ∀ colony errs,
  posts (foldM ensure_cluster (colony, errs) clusters) (λ tr out,
    extends colony out.1 ∧ errs `prefix_of` out.2 ∧ (length out.2 ≤ length errs + length clusters)%nat ∧
    ∀ cc, cc ∈ clusters → cc_ClusterDeploymentSpec cc ≠ None → was_ensured cc tr out.1 out.2).
Proof.
  induction clusters as [|cc clusters IH]; intros colony errs tr out Hx; cbn [foldM] in Hx.
  { destruct Hx as [-> ->]. split_and!; [apply extends_refl|done|simpl; lia|]. by intros cc ?%not_elem_of_nil. }
  apply exec_bind in Hx as (t1 & t2 & [c1 errs1] & -> & H1 & Hx). apply IH in Hx as (He & Hp & Hlen & Hall).
  assert (Hone : extends colony c1 ∧ errs `prefix_of` errs1 ∧ (length errs1 ≤ length errs + 1)%nat ∧
    (cc_ClusterDeploymentSpec cc ≠ None → was_ensured cc t1 c1 errs1)).
  { unfold ensure_cluster in H1. destruct (cc_ClusterDeploymentSpec cc) as [raw|] eqn:Es.
    2: { destruct H1 as [-> [= -> ->]]. split_and!; [apply extends_refl|done|lia|done]. }
    apply exec_bind in H1 as (t3 & t4 & [c3 err] & -> & H1 & [-> [= -> ->]]).
    pose proof (ensure_cluster_exec _ _ _ _ _ _ H1) as (_ & Hext & Hout). rewrite app_nil_r.
    split_and!; [done|destruct err; [by apply prefix_app_r|done]|destruct err; rewrite ?length_app; simpl; lia|].
    intros _. exists [], t3, [], colony, c3, err. split; [by rewrite app_nil_r|]. split; [done|].
    split; [symmetry; apply Hext|]. destruct err as [err|]; [apply elem_of_app; right; by left|].
    destruct Hout as [[? _]|(actual & [Ha Hk] & (Hm & _) & Hr & _)]; [congruence|]. exists actual.
    split; [|done]. split; [done|]. unfold own_key. by rewrite Hm. }
  destruct Hone as (He1 & Hp1 & Hl1 & Hc1). split_and!.
  - by eapply extends_trans.
  - by etrans.
  - simpl. lia.
  - intros cc' [-> | Hin]%elem_of_cons Hs.
    + apply (was_ensured_more _ [] t1 t2 c1 _ errs1 _); [by apply Hc1|done|done].
    + rewrite <- (app_nil_r t2).
      apply (was_ensured_more _ t1 t2 [] out.1 _ out.2 _); [by apply Hall|apply extends_refl|done].
Qed.

(** An ensured cluster is referenced under its own name, or its error is reported. *)
Lemma ensured_outcome cc tr colony errs :
  was_ensured cc tr colony errs → Forall keyed_answer tr →
  own_key colony cc ∈ target_of <$> col_Refs colony ∨
  ∃ err, wrapf ("cluster " +:+ quote (cc_ClusterName cc)) err ∈ errs.
Proof.
  intros (pre & t & post & c1 & c2 & err & -> & _ & _ & He) [_ [Ht _]%Forall_app]%Forall_app.
  destruct err as [err|]; [right; by exists err|left]. destruct He as (actual & [_ Hk] & Hr). by rewrite <- (Hk Ht).
Qed.

(** C23: One cluster's failure does not block the others.  Every cluster of the spec
    that has a deployment spec is ensured in the run, in whatever way the others
    end: either the colony afterwards references the deployment that run of it ended
    with, or its error is among those reported.  When the server answers with the
    objects asked for, that reference has the colony's namespace and the name of
    colony and cluster.  The colony changes in its references only, which stay
    unique, and there is at most one error per cluster. *)
Theorem cluster_failures_are_isolated colony tr colony' errs :
  exec (ensure_clusters colony) tr (colony', errs) →
  extends colony colony' ∧ (length errs ≤ length (ColonyClusters (col_Spec colony)))%nat ∧
  ∀ cc, cc ∈ ColonyClusters (col_Spec colony) → cc_ClusterDeploymentSpec cc ≠ None →
    was_ensured cc tr colony' errs ∧
    (Forall keyed_answer tr →
     own_key colony cc ∈ target_of <$> col_Refs colony' ∨
     ∃ err, wrapf ("cluster " +:+ quote (cc_ClusterName cc)) err ∈ errs).
Proof.
  intros Hx. apply ensure_clusters_spec in Hx as (H1 & _ & H3 & H4). split_and!; [done|done|].
  intros cc Hcc Hs. specialize (H4 cc Hcc Hs). split; [done|]. intros Hk%(ensured_outcome _ _ _ _ H4).
  unfold own_key in *. by rewrite (proj1 H1) in Hk.
Qed.

(** ** The phase *)

(** What the server answers about one reference: its deployment, or that there is
    none. *)
Definition observed (ref : ObjectReference) (e : event) (o : option ClusterDeployment) : Prop :=
  match o with
  | Some cd => e = Ev (Get KCD MgmtClient (ref_key ref)) (Ok cd)
  | None => ∃ err, e = Ev (Get KCD MgmtClient (ref_key ref)) (Err err) ∧ IsNotFound err = true
  end.
Definition is_ready (o : option ClusterDeployment) : bool :=
  match o with Some cd => cd_ready cd | None => false end.
Definition ready_count (os : list (option ClusterDeployment)) : nat := length (filter (λ o, is_ready o = true) os).

Lemma ready_count_cons o os : ready_count (o :: os) = ((if is_ready o then 1 else 0) + ready_count os)%nat.
Proof. unfold ready_count. rewrite filter_cons. by destruct (is_ready o); case_decide. Qed.
Lemma ready_count_le os : (ready_count os ≤ length os)%nat.
Proof. apply length_filter. Qed.
Lemma ready_count_all os : ready_count os = length os ↔ Forall (λ o, is_ready o = true) os.
Proof.
  induction os as [|o os IH]; [by split|]. rewrite ready_count_cons, Forall_cons. simpl.
  pose proof (ready_count_le os).
  destruct (is_ready o); split; intros Hr; [split; [done|]; apply IH; lia| |lia|by destruct Hr].
  destruct Hr as [_ Hr]. apply IH in Hr. lia.
Qed.

Lemma count_ready_spec refs : ∀ n l, posts (count_ready refs n l) (λ tr out, ∀ m l', out = Ok (m, l') →
  ∃ os, Forall3 observed refs tr os ∧ m = (n + Z.of_nat (ready_count os))%Z ∧
    length l' = (length l + (length os - ready_count os))%nat).
Proof.
  induction refs as [|ref refs IH]; intros n l tr out Hx m l' Hout; cbn [count_ready] in Hx.
  { destruct Hx as [-> ->]. injection Hout as -> ->. exists []. split; [apply Forall3_nil|]. unfold ready_count.
    simpl. lia. }
  apply exec_bind in Hx as (t1 & t2 & x & -> & ->%exec_call & Hx).
  assert (Hstep : ∀ o n' l1, observed ref (Ev (Get KCD MgmtClient (ref_key ref)) x) o →
    n' = (n + if is_ready o then 1 else 0)%Z → length l1 = (length l + if is_ready o then 0 else 1)%nat →
    exec (count_ready refs n' l1) t2 out →
    ∃ os, Forall3 observed (ref :: refs) ([Ev (Get KCD MgmtClient (ref_key ref)) x] ++ t2) os ∧
      m = (n + Z.of_nat (ready_count os))%Z ∧ length l' = (length l + (length os - ready_count os))%nat).
  { intros o n' l1 Ho -> Hl1 Hx'. apply IH in Hx'. destruct (Hx' m l' Hout) as (os & Hf & -> & Hl').
    exists (o :: os). split; [by constructor|]. rewrite ready_count_cons. pose proof (ready_count_le os). simpl.
    destruct (is_ready o); split; lia. }
  destruct x as [cd|err].
  - apply exec_if in Hx as [[Hr Hx]|[Hr Hx]]; eapply (Hstep (Some cd)); try exact Hx; simpl; rewrite ?Hr; try done;
      rewrite ?length_app; simpl; lia.
  - destruct (IsNotFound err) eqn:En; [|destruct Hx as [_ ->]; done].
    eapply (Hstep None); [by exists err| | |exact Hx]; simpl; rewrite ?length_app; simpl; lia.
Qed.

(** C20: The status tells what this run has read.  Every reference is looked up; the
    phase is Degraded exactly when a cluster could not be ensured, and Ready exactly
    when none failed, every deployment found reports no False readiness, and there
    are as many of them as clusters with a deployment spec; otherwise it is
    Provisioning.  The ClustersReady condition is True exactly when the phase is
    Ready, the counters are those numbers, and nothing else changes: metadata, spec,
    references, GPU inventory and the conditions of other types are as they were. *)
Theorem colony_phase_spec `{!InfraLaws} colony errs tr colony' :
  exec (updateColonyStatusFromClusters colony errs) tr (Ok colony') →
  ∃ os reads now, tr = reads ++ [Ev Now now] ∧ Forall3 observed (col_Refs colony) reads os ∧
    let st := col_Status colony' in
    let ready := errs = [] ∧ Forall (λ o, is_ready o = true) os ∧ Z.of_nat (length os) = total_clusters colony in
    (cs_Phase st = "Degraded" ↔ errs ≠ []) ∧ (cs_Phase st = "Ready" ↔ ready) ∧
    (cs_Phase st = "Provisioning" ↔ errs = [] ∧ ¬ ready) ∧
    (∃ c, find_first (of_type conditionTypeClustersReady) (cs_Conditions st) = Some c ∧ (c_Status c = CondTrue ↔ ready)) ∧
    cs_ReadyClusters st = int32_wrap (Z.of_nat (ready_count os)) ∧ cs_TotalClusters st = int32_wrap (total_clusters colony) ∧
    col_meta colony' = col_meta colony ∧ col_Spec colony' = col_Spec colony ∧ col_Refs colony' = col_Refs colony ∧
    cs_GPUInventory st = cs_GPUInventory (col_Status colony) ∧
    ∀ t, t ≠ conditionTypeClustersReady →
      find_first (of_type t) (cs_Conditions st) = find_first (of_type t) (cs_Conditions (col_Status colony)).
Proof.
  intros Hx. unfold updateColonyStatusFromClusters in Hx.
  apply exec_try_ok in Hx as (reads & t2 & [m l] & -> & Hcount & Hx). apply count_ready_spec in Hcount.
  destruct (Hcount m l eq_refl) as (os & Hos & -> & Hl). cbv zeta in Hx. rewrite Z.add_0_l in Hx.
  destruct (clusters_verdict _ _ _ _) as [phase cond] eqn:Ev.
  apply exec_bind in Hx as (t3 & t4 & now & -> & ->%exec_call & [-> [= ->]]). exists os, reads, now.
  split; [by rewrite app_nil_r|]. split; [done|]. cbv zeta. simpl.
  assert (Hready : Forall (λ o, is_ready o = true) os ∧ Z.of_nat (length os) = total_clusters colony ↔
    Z.of_nat (ready_count os) = total_clusters colony ∧ l = []).
  { rewrite <- ready_count_all. pose proof (ready_count_le os). rewrite <- length_zero_iff_nil, Hl. simpl. lia. }
  set (ready := errs = [] ∧ _ ∧ _).
  assert (Hv : (phase = "Degraded" ∧ errs ≠ [] ∨ phase = "Ready" ∧ ready ∨ phase = "Provisioning" ∧ errs = [] ∧ ¬ ready) ∧
    c_Type cond = conditionTypeClustersReady ∧ (c_Status cond = CondTrue ↔ ready)).
  { unfold clusters_verdict in Ev. case_bool_decide as Herr; simplify_eq.
    { split_and!; [by left|done|]. split; [done|intros [? _]; done]. }
    destruct (_ || _) eqn:E; simplify_eq.
    - assert (¬ ready). { intros (_ & Hr%Hready). apply orb_true_iff in E. rewrite !bool_decide_eq_true in E. tauto. }
      split_and!; [auto|done|]. by split.
    - assert (ready).
      { split; [done|]. apply Hready. apply orb_false_iff in E. rewrite !bool_decide_eq_false in E.
        destruct E as [E1%dec_stable E2%dec_stable]. done. }
      split_and!; [auto|done|]. by split. }
  destruct Hv as (Hv & Htype & Hstatus).
  destruct (set_status_condition_new now (cs_Conditions (col_Status colony)) cond) as (c & Hc & Hs & _).
  rewrite Htype in Hc. split_and!; try done.
  1-3: destruct Hv as [[-> ?]|[[-> ?]|(-> & ? & ?)]]; split; try done; unfold ready in *; naive_solver.
  - exists c. by rewrite Hs.
  - intros t Ht. apply set_status_condition_other. by rewrite Htype.
Qed.
End status.

(** ** The GPU inventory *)
Section inventory.
Context `{QuantityOps} (iter : list Offering → list Offering) (previous : gmap string ClusterGPUInventory).

(** An entry computed in this run from the nodes of the referenced cluster. *)
Definition scanned (ref : ObjectReference) (x : ClusterGPUInventory) (tr : list event) : Prop :=
  ∃ child nodes now pre t post,
    tr = pre ++ t ++ [Ev (ListObjs KNode child list_all) (Ok nodes); Ev Now now] ++ post ∧
    exec (GetClusterClientForCD MgmtClient (or_Namespace ref) (or_Name ref)) t (Ok child) ∧
    x = {| gi_LastUpdated := now; gi_Offerings := gpu_offering <$> DeriveOfferings iter nodes no_options |}.
Definition entry_of (refs : list ObjectReference) (name : string) (x : ClusterGPUInventory) (tr : list event) : Prop :=
  ∃ ref, ref ∈ refs ∧ or_Name ref = name ∧ (previous !! name = Some x ∨ scanned ref x tr).

Lemma scanned_more ref x q tr q' : scanned ref x tr → scanned ref x (q ++ tr ++ q').
Proof.
  intros (child & nodes & now & pre & t & post & -> & Hx & ->).
  exists child, nodes, now, (q ++ pre), t, (post ++ q'). split; [by rewrite <- !app_assoc|done].
Qed.
Lemma entry_of_more refs refs' name x q tr q' :
  (∀ ref, ref ∈ refs → ref ∈ refs') → entry_of refs name x tr → entry_of refs' name x (q ++ tr ++ q').
Proof. intros Hr (ref & Hin & Hn & [Hp|Hs]); exists ref; split_and!; auto. right. by apply scanned_more. Qed.

(** One cluster: the entry kept, or a fresh one. *)
Lemma refresh_cluster_spec inventory ref : posts (refresh_cluster iter previous inventory ref) (λ tr inv,
  (∀ name, name ≠ or_Name ref → inv !! name = inventory !! name) ∧
  (∀ x, inv !! or_Name ref = Some x → inventory !! or_Name ref = Some x ∨ previous !! or_Name ref = Some x ∨ scanned ref x tr) ∧
  (is_Some (inventory !! or_Name ref) ∨ is_Some (previous !! or_Name ref) → is_Some (inv !! or_Name ref))).
Proof.
  assert (Hkeep : ∀ tr, let inv := keepPrevious previous (or_Name ref) inventory in
    (∀ name, name ≠ or_Name ref → inv !! name = inventory !! name) ∧
    (∀ x, inv !! or_Name ref = Some x → inventory !! or_Name ref = Some x ∨ previous !! or_Name ref = Some x ∨ scanned ref x tr) ∧
    (is_Some (inventory !! or_Name ref) ∨ is_Some (previous !! or_Name ref) → is_Some (inv !! or_Name ref))).
  { intros tr. unfold keepPrevious. destruct (previous !! or_Name ref) as [prev|].
    - split_and!; [intros name Hn; by rewrite lookup_insert_ne| |rewrite lookup_insert_eq; eauto].
      intros x. rewrite lookup_insert_eq. auto.
    - split_and!; [done|auto|]. by intros [?|[? ?]]. }
  unfold refresh_cluster. intros tr inv Hx. apply exec_bind in Hx as (t1 & t2 & child & -> & H1 & Hx).
  destruct child as [child|err]; [|destruct Hx as [-> ->]; apply Hkeep].
  apply exec_bind in Hx as (t3 & t4 & offs & -> & H2 & Hx).
  destruct offs as [offs|err]; [|destruct Hx as [-> ->]; apply Hkeep].
  apply exec_try_ok in H2 as (t5 & t6 & nodes & -> & ->%exec_call & [-> [= ->]]).
  apply exec_bind in Hx as (t7 & t8 & now & -> & ->%exec_call & [-> ->]).
  split_and!; [intros name Hn; by rewrite lookup_insert_ne| |rewrite lookup_insert_eq; eauto].
  intros x. rewrite lookup_insert_eq. intros [= <-]. right. right. by exists child, nodes, now, [], t1, [].
Qed.

Lemma refresh_spec refs : ∀ inventory, posts (foldM (refresh_cluster iter previous) inventory refs) (λ tr inv,
  (∀ name x, inv !! name = Some x → inventory !! name = Some x ∨ entry_of refs name x tr) ∧
  (∀ name, is_Some (inventory !! name) → is_Some (inv !! name)) ∧
  (∀ ref, ref ∈ refs → is_Some (previous !! or_Name ref) → is_Some (inv !! or_Name ref))).
Proof.
  induction refs as [|ref refs IH]; intros inventory tr inv Hx; cbn [foldM] in Hx.
  { destruct Hx as [-> ->]. split_and!; auto. by intros ref ?%not_elem_of_nil. }
  apply exec_bind in Hx as (t1 & t2 & inv1 & -> & (A1 & A2 & A3)%refresh_cluster_spec & (B1 & B2 & B3)%IH).
  assert (Hstay : ∀ name, is_Some (inventory !! name) → is_Some (inv1 !! name)).
  { intros name Hs. destruct (decide (name = or_Name ref)) as [-> | Hn]; [by auto|by rewrite A1]. }
  split_and!.
  - intros name x Hx. destruct (B1 name x Hx) as [Hx1|He].
    + destruct (decide (name = or_Name ref)) as [-> | Hn]; [|left; by rewrite <- A1].
      destruct (A2 x Hx1) as [?|[?|Hs]]; [by left|right; exists ref; split_and!; [by left|done|by left]|].
      right. exists ref. split_and!; [by left|done|]. right. by apply (scanned_more _ _ []).
    + right. rewrite <- (app_nil_r t2). eapply entry_of_more; [|exact He]. by right.
  - auto.
  - intros ref' [-> | Hin]%elem_of_cons Hp; [apply B2, A3; by right|by apply B3].
Qed.

(** The inventory lists what was scanned: an entry belongs to a referenced
    cluster and is either the previous one or derived, by the function the workspace
    gate uses, from the nodes that cluster listed in this run; a referenced cluster
    never loses its entry; clusters no longer referenced do; and nothing but the
    inventory changes. *)
Theorem inventory_is_scanned colony tr colony' :
  previous = cs_GPUInventory (col_Status colony) →
  exec (refreshGPUInventory iter colony) tr colony' →
  let inv := cs_GPUInventory (col_Status colony') in
  (∀ name x, inv !! name = Some x → entry_of (col_Refs colony) name x tr) ∧
  (∀ ref, ref ∈ col_Refs colony → is_Some (previous !! or_Name ref) → is_Some (inv !! or_Name ref)) ∧
  colony' = upd_col_status (set_GPUInventory inv) colony.
Proof.
  intros Hp Hx. unfold refreshGPUInventory in Hx. rewrite <- Hp in Hx.
  apply exec_bind in Hx as (t1 & t2 & inv & -> & (H1 & _ & H3)%refresh_spec & [-> ->]). rewrite app_nil_r. simpl.
  split_and!; [|done|done]. intros name x Hx. by destruct (H1 name x Hx).
Qed.

(** *** Every scan changes the status *)
Definition clock (e : event) : option Z :=
  match e with Ev r x => match r in req R return R → option Z with Now => λ now, Some now | _ => λ _, None end x end.
Definition stamped (inv : gmap string ClusterGPUInventory) (name : string) (now : Z) : Prop :=
  ∃ offs, inv !! name = Some {| gi_LastUpdated := now; gi_Offerings := offs |}.

Lemma no_clock_spec {A} (p : prog A) tr a now e :
  always (λ e, clock e = None) p → exec p tr a → e ∈ tr → clock e = Some now → False.
Proof. intros Hp Hx He Hc. apply Hp in Hx. rewrite Forall_forall in Hx. specialize (Hx e He). simpl in Hx. congruence.
  Qed.
Lemma client_no_clock c ns cd : always (λ e, clock e = None) (GetClusterClientForCD c ns cd).
Proof. unfold GetClusterClientForCD. prove_always. Qed.
Lemma offerings_no_clock c : always (λ e, clock e = None) (scanClusterGPUOfferings iter c).
Proof. unfold scanClusterGPUOfferings. prove_always. Qed.

Lemma refresh_cluster_stamps inventory ref : posts (refresh_cluster iter previous inventory ref) (λ tr inv,
  (∀ name, name ≠ or_Name ref → inv !! name = inventory !! name) ∧
  ∀ e now, e ∈ tr → clock e = Some now → stamped inv (or_Name ref) now).
Proof.
  intros tr inv Hx. split; [by apply refresh_cluster_spec in Hx as [? _]|]. intros e now He Hc. revert Hx.
  unfold refresh_cluster.
  intros (t1 & t2 & child & -> & H1 & Hx)%exec_bind.
  apply elem_of_app in He as [He|He]; [by destruct (no_clock_spec _ _ _ _ _ (client_no_clock _ _ _) H1 He Hc)|].
  destruct child as [child|err]; [|destruct Hx as [-> _]; by apply not_elem_of_nil in He].
  apply exec_bind in Hx as (t3 & t4 & offs & -> & H2 & Hx).
  apply elem_of_app in He as [He|He]; [by destruct (no_clock_spec _ _ _ _ _ (offerings_no_clock _) H2 He Hc)|].
  destruct offs as [offs|err]; [|destruct Hx as [-> _]; by apply not_elem_of_nil in He].
  apply exec_bind in Hx as (t5 & t6 & now' & -> & ->%exec_call & [-> ->]). rewrite app_nil_r in He.
  apply list_elem_of_singleton in He as ->. injection Hc as <-. exists offs. by rewrite lookup_insert_eq.
Qed.
Lemma refresh_stamps refs : NoDup (or_Name <$> refs) →
  ∀ inventory, posts (foldM (refresh_cluster iter previous) inventory refs) (λ tr inv,
  (∀ name, name ∉ or_Name <$> refs → inv !! name = inventory !! name) ∧
  ∀ e now, e ∈ tr → clock e = Some now → ∃ name, stamped inv name now).
Proof.
  induction refs as [|ref refs IH]; intros Hn inventory tr inv Hx; cbn [foldM] in Hx.
  { destruct Hx as [-> ->]. split; [done|]. by intros e now ?%not_elem_of_nil. }
  rewrite fmap_cons in Hn |- *. apply NoDup_cons in Hn as [Hn1 Hn2].
  apply exec_bind in Hx as (t1 & t2 & inv1 & -> & (A1 & A2)%refresh_cluster_stamps & (B1 & B2)%(IH Hn2)). split.
  - intros name [Ha Hb]%not_elem_of_cons. by rewrite B1, A1.
  - intros e now [He|He]%elem_of_app Hc; [|by eapply B2]. destruct (A2 e now He Hc) as [offs Hs].
    exists (or_Name ref), offs. by rewrite B1.
Qed.

(** A scan always changes the status: the clock read after a scan is stored with the
    entry, so when it is later than the stamps of the colony in hand the inventory
    differs, whatever the nodes are.  The status patch is never empty, and the watch,
    which has no predicate, delivers the colony to its own controller again. *)
Theorem scan_changes_status colony tr colony' e now :
  previous = cs_GPUInventory (col_Status colony) → NoDup (or_Name <$> col_Refs colony) →
  exec (refreshGPUInventory iter colony) tr colony' → e ∈ tr → clock e = Some now →
  (∀ name x, previous !! name = Some x → gi_LastUpdated x < now)%Z →
  cs_GPUInventory (col_Status colony') ≠ cs_GPUInventory (col_Status colony).
Proof.
  intros Hp Hn Hx He Hc Hold. unfold refreshGPUInventory in Hx. rewrite <- Hp in Hx |- *.
  apply exec_bind in Hx as (t1 & t2 & inv & -> & [_ Hs]%(refresh_stamps _ Hn) & [-> ->]). rewrite app_nil_r in He.
  destruct (Hs e now He Hc) as (name & offs & Hl). simpl. intros ->. apply Hold in Hl. simpl in Hl. lia.
Qed.
End inventory.

(** ** On a concrete server: two clusters, one of which is new *)
Definition status_colony : Colony := example_colony live_meta ["a"; "b"] ["col-a"].
#[local] Existing Instance example_infra.
Lemma example_infra_laws : @InfraLaws example_infra.
Proof.
  split; simpl.
  - intros now cs c. eexists. unfold of_type. simpl. rewrite bool_decide_true by done. by split_and!.
  - intros now cs c t Ht. unfold of_type. simpl. rewrite bool_decide_false by done.
    induction cs as [|d cs IH]; [done|]. rewrite filter_cons. case_decide as Hd; simpl; [by rewrite IH|].
    rewrite bool_decide_false by congruence. exact IH.
Qed.

Definition status_run := run (colony_server status_colony) (ensure_clusters status_colony) (world_of ["col-a"] 0).
Lemma status_run_keyed : Forall keyed_answer status_run.1.1.
Proof. vm_compute. repeat constructor; try (intros ? [= <-]; reflexivity). all: intros; discriminate. Qed.
Lemma cluster_failures_are_isolated_witness :
  length (col_Refs status_run.1.2.1) = 2%nat ∧
  (("ns", "col-b") ∈ target_of <$> col_Refs status_run.1.2.1 ∨
   ∃ err, wrapf ("cluster " +:+ quote "b") err ∈ status_run.1.2.2).
Proof.
  split; [vm_compute; reflexivity|].
  destruct (cluster_failures_are_isolated status_colony status_run.1.1 status_run.1.2.1 status_run.1.2.2) as (_ & _ & H).
  - assert (E : status_run.1.2 = (status_run.1.2.1, status_run.1.2.2)) by (vm_compute; reflexivity). rewrite <- E.
    apply (run_exec (colony_server status_colony) (ensure_clusters status_colony) (world_of ["col-a"] 0)).
  - destruct (H (example_cluster "b")) as [_ Hk].
    + apply list_elem_of_further, list_elem_of_here.
    + discriminate.
    + exact (Hk status_run_keyed).
Defined.

Definition ready_colony : Colony := example_colony live_meta ["a"] ["col-a"].
Definition phase_run := run (colony_server ready_colony) (updateColonyStatusFromClusters ready_colony []) (world_of ["col-a"] 0).
Lemma colony_phase_spec_witness :
  ∃ colony', phase_run.1.2 = Ok colony' ∧ cs_Phase (col_Status colony') = "Ready" ∧
    ∃ c, find_first (of_type conditionTypeClustersReady) (cs_Conditions (col_Status colony')) = Some c ∧ c_Status c = CondTrue.
Proof.
  destruct phase_run.1.2 as [colony'|err] eqn:E; [|exfalso; revert E; vm_compute; discriminate].
  exists colony'. split; [reflexivity|].
  assert (Hp : cs_Phase (col_Status colony') = "Ready").
  { assert (match phase_run.1.2 with Ok c => cs_Phase (col_Status c) | Err _ => "" end = "Ready") as Hp by (vm_compute; reflexivity).
    rewrite E in Hp. exact Hp. }
  split; [exact Hp|].
  destruct (colony_phase_spec (H1 := example_infra_laws) ready_colony [] phase_run.1.1 colony') as
    (os & reads & now & _ & _ & _ & Hr & _ & (c & Hc & Hs) & _).
  - rewrite <- E. apply (run_exec (colony_server ready_colony) _ (world_of ["col-a"] 0)).
  - exists c. split; [exact Hc|]. apply Hs, Hr. exact Hp.
Defined.

Definition inventory_run := run (colony_server ready_colony) (refreshGPUInventory id ready_colony) (world_of ["col-a"] 0).
Lemma inventory_is_scanned_witness :
  cs_GPUInventory (col_Status inventory_run.1.2) !! "col-a" = Some {| gi_LastUpdated := 0; gi_Offerings := [] |} ∧
  entry_of id ∅ (col_Refs ready_colony) "col-a" {| gi_LastUpdated := 0; gi_Offerings := [] |} inventory_run.1.1.
Proof.
  assert (He : cs_GPUInventory (col_Status inventory_run.1.2) !! "col-a" = Some {| gi_LastUpdated := 0; gi_Offerings := [] |})
    by (vm_compute; reflexivity).
  split; [exact He|].
  destruct (inventory_is_scanned id ∅ ready_colony inventory_run.1.1 inventory_run.1.2) as (H & _).
  - reflexivity.
  - apply (run_exec (colony_server ready_colony) _ (world_of ["col-a"] 0)).
  - apply H, He.
Defined.
Lemma scan_changes_status_witness : cs_GPUInventory (col_Status inventory_run.1.2) ≠ cs_GPUInventory (col_Status ready_colony).
Proof.
  apply (scan_changes_status id ∅ ready_colony inventory_run.1.1 inventory_run.1.2 (Ev Now 0%Z) 0).
  - reflexivity.
  - apply NoDup_singleton.
  - apply (run_exec (colony_server ready_colony) _ (world_of ["col-a"] 0)).
  - vm_compute. repeat (first [apply list_elem_of_here|apply list_elem_of_further]).
  - reflexivity.
  - intros name x Hx. discriminate Hx.
Defined.
