(* ===== verification/ColonyLifecycle.v ===== *)
(** * The life cycle of a colony

    What a run of the Colony controller may write, by the state of the colony it was
    given: finalizer first, deletions only of what is orphaned or being torn down,
    finalizer dropped last. *)

From S2P Require Import Prelude GoString Api InfraApi Prog Gpu Values Cluster ClusterDeployments ClusterUpdates Orphans.
From S2P Require Import Discovery Routes Controller QuantityNano Colony ColonyFake.

(** ** Deletion, cluster by cluster *)
Definition cluster_ref (colony : Colony) (cc : ColonyCluster) : ObjectReference :=
  {| or_APIVersion := ""; or_Kind := ""; or_Namespace := col_Namespace colony; or_Name := deployment_name colony cc |}.
Definition cluster_gone (colony : Colony) (cc : ColonyCluster) (tr : list event) : Prop :=
  Exists (cd_gone MgmtClient (cluster_ref colony cc)) tr.

(** Tearing down a cluster does what cleaning up a reference to it does. *)
Lemma cleanup_associated_is_cleanup colony cc tr out :
  exec (cleanupAssociatedResources colony cc) tr out →
  ∃ o, exec (cleanup_ref MgmtClient (cluster_ref colony cc)) tr o ∧
    out = match o with Ok OrphanGone => Ok false | Ok OrphanPending => Ok true | Err err => Err err end.
Proof.
  unfold cleanupAssociatedResources, cleanup_ref. cbv zeta. intros Hx.
  apply exec_bind in Hx as (t1 & t2 & x & -> & H1 & Hx).
  setoid_rewrite exec_bind. destruct x as [cd|err].
  - apply exec_if in Hx as [[Hd [-> ->]]|[Hd Hx]].
    { exists (Ok OrphanPending). split; [|done]. eexists t1, [], _. split; [done|]. split; [exact H1|]. cbv beta iota.
      by rewrite Hd. }
    apply exec_bind in Hx as (t3 & t4 & y & -> & H3 & Hx).
    destruct y as [u|err]; [destruct Hx as [-> ->]; exists (Ok OrphanPending)|
      apply exec_if in Hx as [[Hn [-> ->]]|[Hn [-> ->]]]; [exists (Err err)|exists (Ok OrphanPending)]];
      (split; [|done]); eexists t1, _, _; (split; [done|]); (split; [exact H1|]); cbv beta iota; rewrite Hd;
      apply exec_bind; eexists t3, [], _; (split; [done|]); (split; [exact H3|]); cbv beta iota; rewrite ?Hn; done.
  - apply exec_if in Hx as [[Hn Hx]|[Hn [-> ->]]].
    + apply exec_bind in Hx as (t3 & t4 & y & -> & H3 & [-> ->]). exists (Ok OrphanGone). split; [|done].
      eexists t1, _, _. split; [done|]. split; [exact H1|]. cbv beta iota. rewrite Hn.
      apply exec_bind. by exists t3, [], y.
    + exists (Err err). split; [|done]. eexists t1, [], _. split; [done|]. split; [exact H1|]. cbv beta iota.
      by rewrite Hn.
Qed.

(** A write of the teardown of the clusters of [colony]. *)
Definition teardown_write (colony : Colony) (clusters : list ColonyCluster) (pre : list event) (e : event) : Prop :=
  ∃ cc, cc ∈ clusters ∧ cleanup_write MgmtClient (cluster_ref colony cc) pre e.

Lemma cleanup_clusters_spec colony clusters : ∀ b, posts (cleanup_clusters colony clusters b) (λ tr out,
  justified (λ pre e, ev_mutates e = true → teardown_write colony clusters pre e) tr ∧
  (out = Ok false → ∀ cc, cc ∈ clusters → cluster_gone colony cc tr)).
Proof.
  induction clusters as [|cc clusters IH]; intros b tr out Hx; cbn [cleanup_clusters] in Hx.
  { destruct Hx as [-> ->]. split; [apply justified_nil|]. by intros _ cc ?%not_elem_of_nil. }
  assert (Hlift : ∀ t, justified (cleanup_write MgmtClient (cluster_ref colony cc)) t →
    justified (λ pre e, ev_mutates e = true → teardown_write colony (cc :: clusters) pre e) t).
  { intros t Ht. eapply justified_impl, Ht. intros pre e He Hm. exists cc. split; [by left|exact He]. }
  apply exec_try in Hx as [(t1 & t2 & s & -> & H1 & Hx)|(err & H1 & ->)].
  2: { apply cleanup_associated_is_cleanup in H1 as (o & [Hj _]%cleanup_ref_spec & _). split; [by apply Hlift|done]. }
  apply cleanup_associated_is_cleanup in H1 as (o & [Hj Hg]%cleanup_ref_spec & Ho).
  assert (Hb : ∀ tr' out', exec (cleanup_clusters colony clusters true) tr' out' → out' ≠ Ok false).
  { clear. induction clusters as [|cc l IHl]; intros tr out Hx; cbn [cleanup_clusters] in Hx; [by destruct Hx as [_ ->]|].
    apply exec_try in Hx as [(t1 & t2 & s & _ & _ & Hx)|(err & _ & ->)]; [by eapply IHl|done]. }
  pose proof (IH _ _ _ Hx) as [Hj2 Hall]. split.
  - apply justified_app; [by apply Hlift|]. eapply justified_impl, Hj2. intros pre e He Hm.
    destruct (He Hm) as (cc' & Hin & Hw). exists cc'. split; [by right|]. by apply cleanup_write_app.
  - intros -> cc' [-> | Hin]%elem_of_cons.
    + unfold cluster_gone. apply Exists_app. left. apply Hg. destruct o as [[|]|]; simplify_eq/=; [done|].
      exfalso. rewrite orb_true_r in Hx. by eapply Hb.
    + apply Exists_app. right. by apply Hall.
Qed.

(** Recording the phase: each write is of the object just read. *)
Definition phase_write (key : ObjectKey) (phase : string) (pre : list event) (e : event) : Prop :=
  ∃ latest r, Ev (Get KColony MgmtClient key) (Ok latest) ∈ pre ∧
    e = Ev (StatusUpdate KColony MgmtClient (upd_col_status (set_col_Phase phase) latest)) r.
Lemma status_attempts_spec colony phase n : ∀ b, posts (status_attempts colony phase n b) (λ tr out,
  justified (λ pre e, ev_mutates e = true → phase_write (ObjectKeyFromObject (col_meta colony)) phase pre e) tr ∧
  (writes tr ≤ n)%nat ∧
  ∀ c1, out = Ok c1 → c1 = colony ∨ ∃ x, Ev (StatusUpdate KColony MgmtClient x) (Ok c1) ∈ tr).
Proof.
  induction n as [|n IH]; intros b; cbn [status_attempts].
  { apply posts_ret. split_and!; [apply justified_nil|done|done]. }
  apply posts_call. intros [latest|err].
  2: { destruct (IsNotFound err); apply posts_ret; (split_and!; [by apply justified_cons; [|apply justified_nil]|unfold writes; simpl; lia|]);
       [intros c1 [= ->]; by left|done]. }
  apply posts_call. intros y.
  set (get := Ev (Get KColony MgmtClient (ObjectKeyFromObject (col_meta colony))) (Ok latest)).
  set (put := Ev (StatusUpdate KColony MgmtClient (upd_col_status (set_col_Phase phase) latest)) y).
  assert (Hj : justified (λ pre e, ev_mutates e = true → phase_write (ObjectKeyFromObject (col_meta colony)) phase pre e) [get; put]).
  { apply justified_cons; [done|]. apply justified_cons; [|apply justified_nil]. intros _. exists latest, y.
    split; [by left|done]. }
  destruct y as [c1|err].
  { apply posts_ret. split_and!; [done|unfold writes; simpl; lia|]. intros c [= ->]. right. eexists. right. by left. }
  destruct (IsConflict err); [|apply posts_ret; split_and!; [done|unfold writes; simpl; lia|done]].
  apply posts_call. intros []. eapply posts_conseq; [apply IH|]. intros t out (Hj2 & Hw & Ho). split_and!.
  - apply (justified_app _ [get; put] (_ :: t)); [done|]. apply justified_cons; [done|]. eapply justified_impl, Hj2.
    intros pre e He Hm. destruct (He Hm) as (l & r & Hin & ->). exists l, r. split; [|done].
    change (Ev (Get KColony MgmtClient (ObjectKeyFromObject (col_meta colony))) (Ok l) ∈ [get; put] ++ [Ev (Sleep b) tt] ++ pre).
    rewrite !elem_of_app. auto.
  - unfold writes in *. simpl. lia.
  - intros c1 Hc1. destruct (Ho c1 Hc1) as [->|[x Hx]]; [by left|]. right. exists x. by do 3 right.
Qed.

(** ** The whole reconcile *)

(** Writes that remove something or touch the colony outside its status. *)
Definition risky (e : event) : bool :=
  match e with
  | Ev rq _ =>
      match rq with
      | Delete _ _ _ | DeleteAllOf _ _ _ | Create KColony _ _ | Update KColony _ _ | StatusUpdate KColony _ _
      | PatchFinalizers _ _ _ => true
      | _ => false
      end
  end.
Abbreviation safe_event := (λ e, risky e = false).

Section safe_steps.
Context `{QuantityOps} `{InfraLib} (iter : list Offering → list Offering).

Lemma reads_are_safe e : read_only e → risky e = false.
Proof. unfold read_only. destruct e as [R rq x]. by destruct rq. Qed.
Lemma always_safe {A} (p : prog A) : always read_only p → always safe_event p.
Proof. apply always_impl, reads_are_safe. Qed.

Lemma update_attempts_safe c key m n b : always safe_event (update_attempts c key m n b).
Proof. revert b. induction n as [|n IH]; intros b; cbn [update_attempts]; prove_always. Qed.
#[local] Hint Resolve update_attempts_safe : prog.
Lemma ensure_cluster_safe st cc : always safe_event (ensure_cluster st cc).
Proof.
  unfold ensure_cluster, EnsureClusterDeployment, ensure_deployment, updateManagedFields. destruct st as [colony errs].
  prove_always.
Qed.
Lemma count_ready_safe refs n l : always safe_event (count_ready refs n l).
Proof. revert n l. induction refs as [|ref refs IH]; intros n l; cbn [count_ready]; prove_always. Qed.
Lemma update_status_safe colony errs : always safe_event (updateColonyStatusFromClusters colony errs).
Proof. unfold updateColonyStatusFromClusters. apply always_try; [apply count_ready_safe|]. intros [n l]. cbv zeta.
  prove_always. Qed.
Lemma inventory_safe colony : always safe_event (refreshGPUInventory iter colony).
Proof.
  unfold refreshGPUInventory, refresh_cluster, scanClusterGPUOfferings. prove_always.
  apply always_safe, cluster_client_reads.
Qed.
Lemma resolve_safe c colony cluster : always safe_event (ResolveRegionalClient c colony cluster).
Proof. unfold ResolveRegionalClient, FindRegionalClusterDeployment, GetClusterClientForCD. prove_always. Qed.
#[local] Hint Resolve resolve_safe : prog.
Lemma publish_safe colony ref : always safe_event (publish_endpoint colony ref).
Proof.
  unfold publish_endpoint, DiscoverControlPlaneService, GetCAPICluster, EnsureAPIEndpointConfigMap,
    getClientForChildCluster, write_configmap. prove_always.
Qed.
Lemma publish_all_safe colony refs : always safe_event (publish_endpoints colony refs).
Proof.
  induction refs as [|ref refs IH]; cbn [publish_endpoints]; [prove_always|].
  apply always_bind; [apply publish_safe|]. by intros [|]; [|prove_always].
Qed.
Lemma collect_safe colony l ref : always safe_event (collect_kubeconfig colony l ref).
Proof. unfold collect_kubeconfig, mirrorKubeconfigSecret. cbv zeta. prove_always. Qed.
Lemma collect_all_safe colony refs : ∀ l, always safe_event (collect_kubeconfigs colony l refs).
Proof.
  induction refs as [|ref refs IH]; intros l; cbn [collect_kubeconfigs]; [prove_always|].
  apply always_bind; [apply collect_safe|]. intros [l'|stop]; [apply IH|prove_always].
Qed.
Lemma persist_safe orig colony errs : always safe_event (persist_status orig colony errs).
Proof.
  unfold persist_status, finish_colony, ensureAPIEndpointConfigMapForAllClusters, ensureAggregatedKubeconfigSecretExists,
    write_aggregated_secret. prove_always; [apply publish_all_safe|apply collect_all_safe].
Qed.
End safe_steps.

(** What a write of one reconcile of the colony [key] may be, given the colony [c0]
    it was handed. *)
Definition deletion_write (key : ObjectKey) (c0 : Colony) (pre : list event) (e : event) : Prop :=
  phase_write (ObjectKeyFromObject (col_meta c0)) "Deleting" pre e ∨
  ∃ c1, (c1 = c0 ∨ ∃ x, Ev (StatusUpdate KColony MgmtClient x) (Ok c1) ∈ pre) ∧
    let clusters := ColonyClusters (col_Spec c1) in
    (teardown_write c1 clusters pre e ∨
     ∃ c2 r, Ev (Get KColony MgmtClient key) (Ok c2) ∈ pre ∧
       e = Ev (Update KColony MgmtClient (upd_col_meta (RemoveFinalizer colonyFinalizer) c2)) r ∧
       ∀ cc, cc ∈ clusters → cluster_gone c1 cc pre).
Definition lifecycle (key : ObjectKey) (pre : list event) (e : event) : Prop :=
  ∃ c0, Ev (Get KColony MgmtClient key) (Ok c0) ∈ pre ∧
  if deleting (col_meta c0) then deletion_write key c0 pre e
  else if ContainsFinalizer (col_meta c0) colonyFinalizer then
    orphan_write MgmtClient (expectedClusterNames c0) (col_Refs c0) pre e ∨ risky e = false
  else ∃ r, e = Ev (Update KColony MgmtClient (upd_col_meta (AddFinalizer colonyFinalizer) c0)) r.

Section lifecycle.
Context `{QuantityOps} `{InfraLib} (iter : list Offering → list Offering).

Lemma deletion_spec key c0 : posts (handleColonyDeletion key c0) (λ tr _,
  justified (λ pre e, ev_mutates e = true → deletion_write key c0 pre e) tr).
Proof.
  intros tr out Hx. unfold handleColonyDeletion in Hx. apply exec_bind in Hx as (t1 & t2 & x & -> & H1 & Hx).
  apply status_attempts_spec in H1 as (Hj & _ & Hc1). apply justified_app.
  { eapply justified_impl, Hj. intros pre e He Hm. left. by apply He. }
  destruct x as [c1|err]; [|destruct Hx as [-> _]; apply justified_nil]. specialize (Hc1 c1 eq_refl).
  assert (Hhand : ∀ q, c1 = c0 ∨ ∃ x, Ev (StatusUpdate KColony MgmtClient x) (Ok c1) ∈ t1 ++ q).
  { intros q. destruct Hc1 as [->|[x Hx1]]; [by left|]. right. exists x. apply elem_of_app. by left. }
  apply exec_bind in Hx as (t3 & t4 & y & -> & [Hj2 Hgone]%cleanup_clusters_spec & Hx). apply justified_app.
  { eapply justified_impl, Hj2. intros pre e He Hm. right. exists c1. split; [apply Hhand|]. left.
    destruct (He Hm) as (cc & Hin & Hw). exists cc. split; [done|]. by apply cleanup_write_app. }
  destruct y as [[|]|err]; [destruct Hx as [-> _]; apply justified_nil| |destruct Hx as [-> _]; apply justified_nil].
  unfold remove_colony_finalizer in Hx. apply exec_bind in Hx as (t5 & t6 & z & -> & ->%exec_call & Hx).
  apply justified_cons; [done|]. destruct z as [c2|err].
  2: { apply exec_if in Hx as [[_ [-> _]]|[_ [-> _]]]; apply justified_nil. }
  apply exec_bind in Hx as (t7 & t8 & r & -> & ->%exec_call & Hx). assert (t8 = []) as -> by (destruct r; by destruct Hx).
  apply justified_cons; [|apply justified_nil]. intros _. right. exists c1. split; [apply Hhand|]. right.
  exists c2, r. split_and!; [rewrite !elem_of_app; right; right; by left|done|].
  intros cc Hcc. unfold cluster_gone. rewrite !Exists_app. right. left. by apply Hgone.
Qed.

Lemma after_cleanup colony : posts (reconcileColony iter colony) (λ tr _, ∃ t1 t2 out,
  tr = t1 ++ t2 ∧ exec (CleanupOrphanedClusterDeployments MgmtClient colony) t1 out ∧ Forall safe_event t2).
Proof.
  intros tr out Hx. unfold reconcileColony in Hx. apply exec_bind in Hx as (t1 & t2 & x & -> & H1 & Hx).
  exists t1, t2, x. split; [done|]. split; [done|].
  destruct x as [[c1 pending]|err]; [|destruct Hx as [-> _]; constructor].
  eapply exec_always; [exact Hx|]. apply always_if; [apply always_ret|]. apply always_bind.
  { apply always_foldM. intros. apply ensure_cluster_safe. }
  intros [c2 errs]. apply always_bind; [apply update_status_safe|]. intros [c3|err]; [|apply always_ret].
  apply always_bind; [apply inventory_safe|]. intros c4. apply persist_safe.
Qed.

(** C4: The life cycle of a colony.  Whatever the servers answer, a run writes nothing
    before it has read the colony.  Without the finalizer it only adds it.  With it,
    it deletes nothing but orphaned deployments the spec no longer names and their
    volume claims.  Once the colony is being deleted it records the phase, tears down
    the clusters of the spec — each deployment read live, each volume claim only
    after its deployment is gone — and drops the finalizer last, when the server has
    reported every deployment of the spec gone. *)
Theorem colony_lifecycle key tr out :
  exec (reconcile_colony iter key) tr out →
  justified (λ pre e, ev_mutates e = true → lifecycle key pre e) tr.
Proof.
  intros Hx. unfold reconcile_colony in Hx. apply exec_bind in Hx as (t1 & t2 & x & -> & ->%exec_call & Hx).
  apply justified_cons; [done|]. destruct x as [c0|err].
  2: { apply exec_if in Hx as [[_ [-> _]]|[_ [-> _]]]; apply justified_nil. }
  assert (Hin : ∀ pre, Ev (Get KColony MgmtClient key) (Ok c0) ∈ Ev (Get KColony MgmtClient key) (Ok c0) :: pre) by (by left).
  apply exec_if in Hx as [[Hd Hx]|[Hd Hx]].
  { apply deletion_spec in Hx. eapply justified_impl, Hx. intros pre e He Hm. exists c0. split; [done|]. rewrite Hd.
    destruct (He Hm) as [(l & r & Hl & ->)|(c1 & Hc1 & Hw)]; [left; exists l, r; split; [by right|done]|].
    right. exists c1. split; [destruct Hc1 as [->|[y Hy]]; [by left|right; exists y; by right]|].
    destruct Hw as [(cc & Hcc & Hw)|(c2 & r & Hg & -> & Hall)].
    - left. exists cc. split; [done|]. by apply (cleanup_write_app _ _ [_]).
    - right. exists c2, r. split_and!; [by right|done|]. intros cc Hcc. apply Exists_cons. right. by apply Hall. }
  apply exec_if in Hx as [[Hf Hx]|[Hf Hx]].
  { apply negb_true_iff in Hf. unfold addFinalizer in Hx. apply exec_bind in Hx as (t3 & t4 & r & -> & ->%exec_call & Hx).
    assert (t4 = []) as -> by (destruct r; by destruct Hx). apply justified_cons; [|apply justified_nil]. intros _.
    exists c0. split; [done|]. rewrite Hd, Hf. by exists r. }
  apply negb_false_iff in Hf. apply after_cleanup in Hx as (t3 & t4 & o & -> & [Hj _]%cleanup_orphans_posts & Hs).
  apply justified_app.
  - eapply justified_impl, Hj. intros pre e He Hm. exists c0. split; [done|]. rewrite Hd, Hf.
    destruct (He Hm) as [Ho|(c1 & r & -> & _)]; [left; by apply (orphan_write_app _ _ _ [_])|by right].
  - eapply justified_forall; [exact Hs|]. intros pre e He Hm. exists c0. split; [done|]. rewrite Hd, Hf. by right.
Qed.
End lifecycle.

(** ** A colony being deleted whose deployments are gone: its finalizer is dropped *)
Definition teardown_colony : Colony := example_colony deleted_meta ["a"] ["col-a"].
Definition the_colony_key : ObjectKey := {| k_Namespace := "ns"; k_Name := "col" |}.
Definition teardown_run := run (colony_server teardown_colony)
  (reconcile_colony (H0 := example_infra) id the_colony_key) (world_of [] 0).
Lemma colony_lifecycle_witness :
  writes teardown_run.1.1 = 3%nat ∧ teardown_run.1.2 = ok_result no_requeue ∧
  justified (λ pre e, ev_mutates e = true → lifecycle the_colony_key pre e) teardown_run.1.1.
Proof.
  split; [vm_compute; reflexivity|]. split; [vm_compute; reflexivity|].
  exact (colony_lifecycle (H0 := example_infra) id the_colony_key _ _
    (run_exec (colony_server teardown_colony) _ (world_of [] 0))).
Defined.
