(* ===== verification/ColonySecrets.v ===== *)
(** * Theorems about the kubeconfigs of a colony

    [ensureAggregatedKubeconfigSecretExists] and [mirrorKubeconfigSecret] of
    [colony_controller.go]. *)

From S2P Require Import Prelude GoString Api InfraApi Prog Gpu Values Cluster ClusterDeployments Discovery Routes.
From S2P Require Import Controller QuantityNano Colony ColonyFake.

Section secrets.
Context `{QuantityOps} `{InfraLib} (colony : Colony).

Definition kubeconfig_key (ref : ObjectReference) : ObjectKey :=
  {| k_Namespace := or_Namespace ref; k_Name := or_Name ref +:+ "-kubeconfig" |}.
(** The kubeconfig of a referenced cluster has been read, and is on the management
    cluster: it was read there, or it was read on the regional parent and its mirror
    is up to date. *)
Definition mirrored (s : Secret) (tr : list event) : Prop :=
  let key := {| k_Namespace := col_Namespace colony; k_Name := m_Name (sec_meta s) |} in
  (∃ m, Ev (Get KSecret MgmtClient key) (Ok m) ∈ tr ∧ mget (sec_Data m) "value" = mget (sec_Data s) "value") ∨
  (∃ m r, (Ev (Create KSecret MgmtClient m) (Ok r) ∈ tr ∧ m_Name (sec_meta m) = m_Name (sec_meta s) ∧
             m_Namespace (sec_meta m) = col_Namespace colony ∨
           Ev (Update KSecret MgmtClient m) (Ok r) ∈ tr ∧
             ∃ old, Ev (Get KSecret MgmtClient key) (Ok old) ∈ tr ∧ sec_meta m = sec_meta old) ∧
     sec_Data m = sec_Data s).
Definition collected (ref : ObjectReference) (tr : list event) : Prop :=
  ∃ home s, Ev (Get KSecret home (kubeconfig_key ref)) (Ok s) ∈ tr ∧ (home = MgmtClient ∨ mirrored s tr).

Lemma mirrored_app s q tr q' : mirrored s tr → mirrored s (q ++ tr ++ q').
Proof.
  assert (Hm : ∀ e, e ∈ tr → e ∈ q ++ tr ++ q') by (intros; rewrite !elem_of_app; auto).
  intros [(m & ? & ?)|(m & r & [(? & ? & ?)|(? & old & ? & ?)] & ?)].
  - left. exists m. auto.
  - right. exists m, r. split; [left; auto|done].
  - right. exists m, r. split; [right; split; [by apply Hm|]; exists old; auto|done].
Qed.
Lemma collected_app ref q tr q' : collected ref tr → collected ref (q ++ tr ++ q').
Proof.
  intros (home & s & Hin & Hs). exists home, s. split; [rewrite !elem_of_app; auto|].
  destruct Hs; [by left|right; by apply mirrored_app].
Qed.

Lemma mirror_spec s : posts (mirrorKubeconfigSecret colony s) (λ tr out, out = Ok tt → mirrored s tr).
Proof.
  unfold mirrorKubeconfigSecret. cbv zeta. apply posts_call. intros [m|err].
  - case_bool_decide as Hv.
    + intros tr out Hx ->. apply exec_try_ok in Hx as (t1 & t2 & r & -> & ->%exec_wrap_ok%exec_call & [-> _]).
      right. eexists _, r. split; [right; split; [in_trace|]; exists m; split; [in_trace|done]|done].
    + apply posts_ret. intros _. left. exists m. by split; [in_trace|].
  - destruct (IsNotFound err); [|by apply posts_ret].
    intros tr out Hx ->. apply exec_try_ok in Hx as (t1 & t2 & r & -> & ->%exec_wrap_ok%exec_call & [-> _]).
    right. eexists _, r. split; [left; split; [in_trace|done]|done].
Qed.

(** One cluster: it is collected and its reference added, or the run stops early. *)
Lemma collect_spec references ref : posts (collect_kubeconfig colony references ref) (λ tr out, ∀ l, out = inl l →
  collected ref tr ∧ ∃ bytes, MarshalObjectReference (secret_reference ref) = Ok bytes ∧ l = <[or_Name ref := bytes]> references).
Proof.
  intros tr out Hx l ->. unfold collect_kubeconfig in Hx. cbv zeta in Hx. fold (kubeconfig_key ref) in Hx.
  apply exec_bind in Hx as (t1 & t2 & [[rc ir] err] & -> & _ & Hx).
  assert (Hadd : ∀ t, exec (mret match MarshalObjectReference (secret_reference ref) with
      | Err err => early no_requeue (Some err) | Ok refBytes => inl (<[or_Name ref := refBytes]> references) end) t (inl l) →
    t = [] ∧ ∃ bytes, MarshalObjectReference (secret_reference ref) = Ok bytes ∧ l = <[or_Name ref := bytes]> references).
  { intros t [-> Hl]. split; [done|]. destruct (MarshalObjectReference _) as [bytes|err']; [|done].
    exists bytes. split; [done|]. congruence. }
  destruct (if ir then rc else None) as [home|].
  - apply exec_bind in Hx as (t3 & t4 & s & -> & ->%exec_call & Hx).
    destruct s as [s|err']; [|destruct Hx as [_ Hx]; by destruct (IsNotFound err')].
    apply exec_bind in Hx as (t5 & t6 & [[]|err'] & -> & Hm%mirror_spec & Hx); [|by destruct Hx].
    apply Hadd in Hx as [-> Hb]. split; [|done]. exists home, s. split; [in_trace|]. right.
    rewrite app_nil_r, app_assoc, <- (app_nil_r t5). by apply mirrored_app, Hm.
  - apply exec_bind in Hx as (t3 & t4 & s & -> & ->%exec_call & Hx).
    destruct s as [s|err']; [|destruct Hx as [_ Hx]; by destruct (IsNotFound err')].
    apply Hadd in Hx as [-> Hb]. split; [|done]. exists MgmtClient, s. split; [in_trace|by left].
Qed.

(** What the aggregated secret lists: the kubeconfig references of these clusters. *)
Definition lists (refs : list ObjectReference) (references : gmap string string) : Prop :=
  ∀ name bytes, references !! name = Some bytes →
    ∃ ref, ref ∈ refs ∧ or_Name ref = name ∧ MarshalObjectReference (secret_reference ref) = Ok bytes.

Lemma collect_all_spec refs : ∀ l0, posts (collect_kubeconfigs colony l0 refs) (λ tr out, ∀ l, out = inl l →
  (∀ ref, ref ∈ refs → collected ref tr ∧ is_Some (l !! or_Name ref)) ∧
  (∀ name, is_Some (l0 !! name) → is_Some (l !! name)) ∧
  ∀ done, lists done l0 → lists (done ++ refs) l).
Proof.
  induction refs as [|ref refs IH]; intros l0 tr out Hx l Hout; cbn [collect_kubeconfigs] in Hx.
  { destruct Hx as [-> Hx]. simplify_eq. split_and!; [by intros ref ?%not_elem_of_nil|done|].
    intros done Hd. by rewrite app_nil_r. }
  apply exec_bind in Hx as (t1 & t2 & [l1|stop] & -> & H1 & Hx); [|destruct Hx as [_ Hx]; congruence].
  apply collect_spec in H1. destruct (H1 l1 eq_refl) as (Hc & bytes & Hb & Hl1).
  apply IH in Hx. destruct (Hx l Hout) as (A1 & A2 & A3). subst l1. split_and!.
  - intros ref' [-> | Hin]%elem_of_cons.
    + split; [by apply (collected_app _ [])|]. apply A2. rewrite lookup_insert_eq. by eexists.
    + destruct (A1 ref' Hin). split; [|done]. rewrite <- (app_nil_r t2). by apply collected_app.
  - intros name Hn. apply A2.
    destruct (decide (name = or_Name ref)) as [-> | Hne]; [rewrite lookup_insert_eq; by eexists|].
    by rewrite lookup_insert_ne.
  - intros done Hd. rewrite cons_middle, app_assoc. apply A3. intros name b.
    destruct (decide (name = or_Name ref)) as [-> | Hne].
    + rewrite lookup_insert_eq. intros [= <-]. exists ref. split_and!; [rewrite elem_of_app; right; by left|done|done].
    + rewrite lookup_insert_ne by done. intros Hn. destruct (Hd name b Hn) as (r & Hr & ?). exists r.
      split; [rewrite elem_of_app; by left|done].
Qed.

(** An early return is an error or a retry. *)
Lemma collect_stops references ref tr out :
  exec (collect_kubeconfig colony references ref) tr out → out ≠ inr (no_requeue, None).
Proof.
  unfold collect_kubeconfig, early. cbv zeta. intros Hx ->.
  apply exec_bind in Hx as (t1 & t2 & [[rc ir] err] & _ & _ & Hx). destruct (if ir then rc else None) as [home|].
  - apply exec_bind in Hx as (t3 & t4 & [s|e] & _ & _ & Hx); [|by destruct Hx as [_ Hx], (IsNotFound e)].
    apply exec_bind in Hx as (t5 & t6 & [u|e] & _ & _ & Hx); [|by destruct Hx].
    destruct Hx as [_ Hx]. by destruct (MarshalObjectReference _).
  - apply exec_bind in Hx as (t3 & t4 & [s|e] & _ & _ & Hx); [|by destruct Hx as [_ Hx], (IsNotFound e)].
    destruct Hx as [_ Hx]. by destruct (MarshalObjectReference _).
Qed.
Lemma collect_all_stops refs : ∀ l tr out,
  exec (collect_kubeconfigs colony l refs) tr out → out ≠ inr (no_requeue, None).
Proof.
  induction refs as [|ref refs IH]; intros l tr out Hx; cbn [collect_kubeconfigs] in Hx; [by destruct Hx as [_ ->]|].
  apply exec_bind in Hx as (t1 & t2 & [l1|stop] & _ & H1 & Hx); [by eapply IH|].
  destruct Hx as [_ ->]. by apply collect_stops in H1.
Qed.

(** C24: The aggregated secret is complete.  When collecting the kubeconfigs ends
    without an error or an early retry, a secret was written that lists exactly the
    clusters the colony references, each by the reference of its kubeconfig secret,
    and every one of those kubeconfigs was read in this run and is on the management
    cluster, for a regional child as an up-to-date mirror. *)
Theorem kubeconfigs_are_collected tr :
  exec (ensureAggregatedKubeconfigSecretExists colony) tr (no_requeue, None) →
  ∃ x r references,
    (Ev (Create KSecret MgmtClient x) (Ok r) ∈ tr ∨ Ev (Update KSecret MgmtClient x) (Ok r) ∈ tr) ∧
    sec_Data x = references ∧ lists (col_Refs colony) references ∧
    ∀ ref, ref ∈ col_Refs colony → is_Some (references !! or_Name ref) ∧ collected ref tr.
Proof.
  intros Hx. unfold ensureAggregatedKubeconfigSecretExists in Hx.
  apply exec_bind in Hx as (t1 & t2 & x & -> & H1 & Hx).
  destruct x as [l|stop].
  2: { destruct Hx as [_ <-]. by apply collect_all_stops in H1. }
  apply collect_all_spec in H1. destruct (H1 l eq_refl) as (A1 & _ & A3).
  specialize (A3 [] ltac:(by intros ? ? ?)). simpl in A3. unfold write_aggregated_secret in Hx.
  apply exec_bind in Hx as (t3 & t4 & y & -> & ->%exec_call & Hx). destruct y as [s|err].
  - apply exec_bind in Hx as (t5 & t6 & z & -> & ->%exec_call & Hx). destruct z as [r|err]; [|by destruct Hx].
    eexists _, r, l. split_and!; [right; in_trace|done|done|]. intros ref Hr. destruct (A1 ref Hr). split; [done|].
    by apply (collected_app _ []).
  - destruct (IsNotFound err); [|by destruct Hx].
    apply exec_bind in Hx as (t5 & t6 & z & -> & ->%exec_call & Hx). destruct z as [r|err']; [|by destruct Hx].
    eexists _, r, l. split_and!; [left; in_trace|done|done|]. intros ref Hr. destruct (A1 ref Hr). split; [done|].
    by apply (collected_app _ []).
Qed.

Definition unowned_write (tr : list event) (e : event) : Prop :=
  match e with
  | Ev rq _ =>
      match rq with
      | Create KSecret _ x => m_OwnerUIDs (sec_meta x) = []
      | Update KSecret _ x => ∃ key s, Ev (Get KSecret MgmtClient key) (Ok s) ∈ tr ∧ sec_meta x = sec_meta s
      | _ => True
      end
  end.
Definition sets_owner (e : event) : bool :=
  match e with Ev rq _ => match rq with SetControllerReference _ _ => true | _ => false end end.

(** The owner reference of the aggregated secret is set on a local copy after the
    last request, so it is never written: a created secret has no owner, an updated
    one keeps the metadata it was read with. *)
Theorem owner_reference_is_lost references tr out :
  exec (write_aggregated_secret colony references) tr out →
  Forall (unowned_write tr) tr ∧ justified (λ pre _, Forall (λ e, sets_owner e = false) pre) tr.
Proof.
  intros Hx. unfold write_aggregated_secret in Hx. cbv zeta in Hx.
  set (key := {| k_Namespace := col_Namespace colony; k_Name := col_Name colony +:+ "-kubeconfigs" |}) in Hx.
  apply exec_bind in Hx as (t1 & t2 & y & -> & ->%exec_call & Hx). destruct y as [s|err].
  - apply exec_bind in Hx as (t3 & t4 & z & -> & ->%exec_call & Hx).
    assert (Hu : ∀ q, unowned_write ([Ev (Get KSecret MgmtClient key) (Ok s)] ++ q)
      (Ev (Update KSecret MgmtClient {| sec_meta := sec_meta s; sec_Data := references |}) z)).
    { intros q. eexists _, s. split; [by left|done]. }
    destruct z as [r|err]; [|destruct Hx as [-> _]; split; [repeat constructor; apply Hu|]; by repeat (apply justified_cons || apply justified_nil || constructor)].
    apply exec_bind in Hx as (t5 & t6 & w & -> & ->%exec_call & [-> _]).
    split; [repeat constructor; apply Hu|]. by repeat (apply justified_cons || apply justified_nil || constructor).
  - destruct (IsNotFound err); [|destruct Hx as [-> _]; split; [by repeat constructor|]; by repeat (apply justified_cons || apply justified_nil || constructor)].
    apply exec_bind in Hx as (t3 & t4 & z & -> & ->%exec_call & [-> _]).
    split; [by repeat constructor|]. by repeat (apply justified_cons || apply justified_nil || constructor).
Qed.
End secrets.

(** ** On a concrete server *)
Definition secrets_colony : Colony := example_colony live_meta ["a"] ["col-a"].
Definition secrets_run := run (colony_server secrets_colony)
  (ensureAggregatedKubeconfigSecretExists (H0 := example_infra) secrets_colony) (world_of ["col-a"] 0).
Lemma kubeconfigs_are_collected_witness :
  ∃ x r, (Ev (Create KSecret MgmtClient x) (Ok r) ∈ secrets_run.1.1 ∨ Ev (Update KSecret MgmtClient x) (Ok r) ∈ secrets_run.1.1) ∧
    is_Some (sec_Data x !! "col-a").
Proof.
  destruct (kubeconfigs_are_collected (H0 := example_infra) secrets_colony secrets_run.1.1)
    as (x & r & l & Hw & <- & _ & Hall).
  - assert (E : secrets_run.1.2 = (no_requeue, None)) by (vm_compute; reflexivity). rewrite <- E.
    apply (run_exec (colony_server secrets_colony) _ (world_of ["col-a"] 0)).
  - exists x, r. split; [exact Hw|]. apply (Hall (example_ref "col-a")). apply list_elem_of_here.
Defined.
Lemma owner_reference_is_lost_witness :
  let tr := (run (colony_server secrets_colony) (write_aggregated_secret secrets_colony ∅) (world_of [] 0)).1.1 in
  existsb sets_owner tr = true ∧ Forall (unowned_write tr) tr.
Proof.
  intros tr. split; [vm_compute; reflexivity|].
  destruct (owner_reference_is_lost secrets_colony ∅ _ _
    (run_exec (colony_server secrets_colony) (write_aggregated_secret secrets_colony ∅) (world_of [] 0))) as [H _].
    exact H.
Defined.
