(* ===== verification/Preflight.v ===== *)
(** * The CRD preflight check: [internal/preflight/crd_check.go]

    At start-up the manager asks the discovery API which CRDs are there, with a
    bounded number of retries, and enables the controllers whose CRDs are. *)

From S2P Require Import Prelude GoString Api Prog.

Record CRDDependency := { GroupVersion : string; Resource : string; Description : string }.
Record ControllerDependencies := { dep_Name : string; Dependencies : list CRDDependency }.
Record CheckResult := { res_Name : string; Available : bool; Missing : list CRDDependency }.
Record CheckOptions := { MaxRetries : Z; InitialBackoff : Z; MaxBackoff : Z }.

Definition DefaultCheckOptions : CheckOptions :=
  {| MaxRetries := 5; InitialBackoff := 2 * Second; MaxBackoff := 15 * Second |}.
Definition OperatorDependencies : list ControllerDependencies :=
  [{| dep_Name := "Colony";
      Dependencies := [{| GroupVersion := "k0rdent.mirantis.com/v1beta1"; Resource := "clusterdeployments";
                          Description := "K0rdent ClusterDeployment" |}] |}].

(** A group version and a resource name. *)
Abbreviation gvr := (string * string)%type.
Definition gvr_of (d : CRDDependency) : gvr := (GroupVersion d, Resource d).
Definition needed_gvrs (deps : list ControllerDependencies) : gset gvr :=
  list_to_set (gvr_of <$> (deps ≫= Dependencies)).

Section check.
(** The order in which Go ranges over the set in each attempt, and whether the
    discovery client has a cache to invalidate. *)
Context (order : nat → gset gvr → list gvr) (cacheable : bool).

Definition check_gvr (available : gset gvr) (g : gvr) : prog (gset gvr) :=
  if bdec (g ∈ available) then mret available
  else
    resources ← call (ServerResources g.1);
    match resources with
    | Err _ => mret available
    | Ok names => mret (if bdec (g.2 ∈ names) then {[ g ]} ∪ available else available)
    end.
Definition check_round (needed : gset gvr) (attempt : nat) (available : gset gvr) : prog (gset gvr) :=
  foldM check_gvr available (order attempt needed).

(** The wait before a retry, and the next backoff. *)
Definition wait_retry (maxBackoff backoff : Z) : prog (res Z) :=
  done ← call (WaitOrDone backoff);
  match done with
  | Some err => mret (Err err)
  | None =>
      _ ← (if cacheable then call Invalidate else mret tt);
      let backoff := int64_wrap (backoff * 2) in
      mret (Ok (if bdec (maxBackoff < backoff)%Z then maxBackoff else backoff))
  end.
(** [tries]: the attempts left; the first one does not wait. *)
Fixpoint check_attempts (needed : gset gvr) (maxBackoff : Z) (tries attempt : nat) (backoff : Z)
    (available : gset gvr) : prog (res (gset gvr)) :=
  match tries with
  | O => mret (Ok available)
  | S tries =>
      backoff ←? (if bdec (attempt = 0%nat) then mret (Ok backoff) else wait_retry maxBackoff backoff);
      available ← check_round needed attempt available;
      if bdec (needed ⊆ available) then mret (Ok available)
      else check_attempts needed maxBackoff tries (S attempt) backoff available
  end.

Definition check_result (available : gset gvr) (cd : ControllerDependencies) : CheckResult :=
  let missing := filter (λ d, gvr_of d ∉ available) (Dependencies cd) in
  {| res_Name := dep_Name cd; Available := bdec (missing = []); Missing := missing |}.
Definition checkCRDsWithClient (deps : list ControllerDependencies) (opts : CheckOptions)
    : prog (res (list CheckResult)) :=
  available ←? check_attempts (needed_gvrs deps) (MaxBackoff opts) (Z.to_nat (MaxRetries opts + 1)) 0
                 (InitialBackoff opts) ∅;
  mret (Ok (check_result available <$> deps)).
End check.

(** [dc]: what [NewDiscoveryClientForConfig] returns, a client that is [cacheable] or
    not. *)
Definition CheckCRDsAvailable (order : nat → gset gvr → list gvr) (dc : res bool)
    (deps : list ControllerDependencies) (opts : CheckOptions) : prog (res (list CheckResult)) :=
  match dc with
  | Err err => mret (Err (wrapf "creating discovery client" err))
  | Ok cacheable => checkCRDsWithClient order cacheable deps opts
  end.

(** [cmd/main.go]: the controllers to register. *)
Definition enabled_controllers (results : list CheckResult) : gmap string bool :=
  foldl (λ enabled r, <[res_Name r := Available r]> enabled) ∅ results.
Definition colony_enabled (results : list CheckResult) : bool :=
  default false (enabled_controllers results !! "Colony").

(** ** What a check has seen *)
Definition served (g : gvr) (tr : list event) : Prop :=
  ∃ names, Ev (ServerResources g.1) (Ok names) ∈ tr ∧ g.2 ∈ names.
(** The waits of a run, in order. *)
Definition waits (tr : list event) : list Z :=
  omap (λ e, match e with Ev (WaitOrDone d) _ => Some d | _ => None end) tr.
Lemma waits_app t1 t2 : waits (t1 ++ t2) = waits t1 ++ waits t2.
Proof. apply omap_app. Qed.

(** The queries of a run, in order; those of one attempt, each with the resource it is
    about and its answer; and the resources answers have shown to be served. *)
Abbreviation answered := (gvr * res (list string))%type.
Definition queries (tr : list event) : list event :=
  filter (λ e, is_true (match e with Ev (ServerResources _) _ => true | _ => false end)) tr.
Definition asked (q : list answered) : list event := (λ a, Ev (ServerResources a.1.1) a.2) <$> q.
Definition shown (g : gvr) (rounds : list (list answered)) : Prop :=
  ∃ names, (g, Ok names) ∈ concat rounds ∧ g.2 ∈ names.

(** The answer of a discovery query. *)
Definition resources_answer (e : event) : option (res (list string)) :=
  match e with
  | Ev rq x =>
      match rq in req R return R → option (res (list string)) with
      | ServerResources _ => Some
      | _ => λ _, None
      end x
  end.

Lemma queries_app t1 t2 : queries (t1 ++ t2) = queries t1 ++ queries t2.
Proof. apply filter_app. Qed.
Lemma queries_asked q : queries (asked q) = asked q.
Proof. induction q as [|a q IH]; [done|]. unfold queries, asked in *. by rewrite fmap_cons, filter_cons_True, IH. Qed.
Lemma asked_app q1 q2 : asked (q1 ++ q2) = asked q1 ++ asked q2.
Proof. apply fmap_app. Qed.
Lemma waits_asked q : waits (asked q) = [].
Proof. by induction q. Qed.
Lemma shown_cons g q rounds : shown g (q :: rounds) ↔ shown g [q] ∨ shown g rounds.
Proof. unfold shown. cbn [concat]. rewrite app_nil_r. setoid_rewrite elem_of_app. naive_solver. Qed.
Lemma shown_nil g : ¬ shown g [].
Proof. by intros (? & []%elem_of_nil & _). Qed.
Lemma shown_served g rounds tr : queries tr = asked (concat rounds) → shown g rounds → served g tr.
Proof.
  intros Hq (names & Hin & Hg). exists names. split; [|done].
  assert (He : Ev (ServerResources g.1) (Ok names) ∈ queries tr).
  { rewrite Hq. by apply (list_elem_of_fmap_2 (λ a : answered, Ev (ServerResources a.1.1) a.2) _ (g, Ok names)). }
  by apply list_elem_of_filter in He as [_ ?].
Qed.

Lemma filter_agree {A} (P Q : A → Prop) `{!∀ x, Decision (P x), !∀ x, Decision (Q x)} (l : list A) :
  (∀ x, x ∈ l → P x ↔ Q x) → filter P l = filter Q l.
Proof.
  induction l as [|x l IH]; intros HPQ; [done|].
  rewrite !filter_cons, IH by (intros y Hy; apply HPQ; by apply list_elem_of_further).
  pose proof (HPQ x (list_elem_of_here _ _)). repeat case_decide; tauto.
Qed.

Section check_lemmas.
Context (order : nat → gset gvr → list gvr) (cacheable : bool).
Context (Horder : ∀ n s, order n s ≡ₚ elements s).

(** One attempt asks once about each resource not yet available, in the order of the
    set, and adds those it is shown. *)
Lemma round_spec l : NoDup l → ∀ available, posts (foldM check_gvr available l) (λ tr out,
  ∃ q, tr = asked q ∧ q.*1 = filter (λ g, g ∉ available) l ∧ ∀ g, g ∈ out ↔ g ∈ available ∨ shown g [q]).
Proof.
  induction l as [|g l IH]; intros Hnd available; cbn [foldM].
  { apply posts_ret. exists []. split_and!; [done..|]. intros g. split; [by left|]. intros [?|(? & []%elem_of_nil & _)]; done. }
  apply NoDup_cons in Hnd as [Hg Hnd]. intros tr out Hx. apply exec_bind in Hx as (t1 & t2 & a & -> & Ha & Hx).
  apply (IH Hnd) in Hx as (q & -> & Hq & Hout). unfold check_gvr in Ha. case_bool_decide as Hin.
  { destruct Ha as [-> ->]. exists q. rewrite filter_cons_False by (intros Hn; by apply Hn). done. }
  apply exec_bind in Ha as (t3 & t4 & x & -> & ->%exec_call & Ha).
  assert (t4 = [] ∧ ∀ h, h ∈ a ↔ h ∈ available ∨ shown h [[(g, x)]]) as [-> Hav].
  { destruct x as [names|err]; destruct Ha as [-> ->]; (split; [done|]); intros h.
    - assert (Hs : shown h [[(g, Ok names)]] ↔ h = g ∧ g.2 ∈ names).
      { unfold shown. cbn [concat app]. split.
        - by intros (ns & [= -> ->]%list_elem_of_singleton & Hg').
        - intros [-> Hg']. exists names. split; [by apply list_elem_of_singleton|done]. }
      rewrite Hs. case_bool_decide; [rewrite elem_of_union, elem_of_singleton|]; tauto.
    - split; [by left|]. intros [?|(names & Hh%list_elem_of_singleton & _)]; done. }
  exists ((g, x) :: q). split_and!.
  - done.
  - rewrite filter_cons_True by done. cbn [fmap list_fmap fst]. f_equal. rewrite Hq. apply filter_agree.
    intros h Hh. rewrite Hav. split; [tauto|]. intros Hn [?|(names & Hs%list_elem_of_singleton & _)]; [done|].
    injection Hs as -> _. done.
  - intros h. rewrite Hout, Hav.
    assert (Hs : shown h [(g, x) :: q] ↔ shown h [[(g, x)]] ∨ shown h [q]).
    { unfold shown. cbn [concat app]. rewrite app_nil_r. split.
      - intros (ns & [Hh|Hh]%elem_of_cons & Hg'); [left|right]; exists ns; (split; [|done]); [|done].
        by apply list_elem_of_singleton.
      - intros [(ns & Hh%list_elem_of_singleton & Hg')|(ns & Hh & Hg')]; exists ns; (split; [|done]);
          apply elem_of_cons; auto. }
    rewrite Hs. tauto.
Qed.

(** The wait of an attempt: none the first time; afterwards the backoff, which then
    stays below the maximum. *)
Lemma wait_spec mb backoff attempt tr x :
  exec (if bdec (attempt = 0%nat) then mret (Ok backoff) else wait_retry cacheable mb backoff) tr x →
  waits tr = (if bdec (attempt = 0%nat) then [] else [backoff]) ∧ queries tr = [] ∧
  match x with
  | Err err => Ev (WaitOrDone backoff) (Some err) ∈ tr ∧ attempt ≠ 0%nat
  | Ok b => (b ≤ Z.max backoff mb)%Z
  end.
Proof.
  case_bool_decide as Ha; [intros [-> ->]; split_and!; [done|done|lia]|].
  unfold wait_retry. intros Hx. apply exec_bind in Hx as (t1 & t2 & [err|] & -> & ->%exec_call & Hx).
  { destruct Hx as [-> ->]. split_and!; [done|done|by left|done]. }
  apply exec_bind in Hx as (t3 & t4 & [] & -> & Hi & [-> ->]).
  assert (waits t3 = [] ∧ queries t3 = []) as [Hw Hl].
  { destruct cacheable; [apply exec_call in Hi as ->|destruct Hi as [-> _]]; done. }
  rewrite app_nil_r. split_and!; [by rewrite waits_app, Hw|by rewrite queries_app, Hl|]. case_bool_decide; lia.
Qed.

(** The attempts from [attempt] on: their rounds of queries. *)
Definition rounds_of (needed available : gset gvr) (rounds : list (list answered)) : Prop :=
  ∀ i q, rounds !! i = Some q →
    NoDup q.*1 ∧ ∀ g, g ∈ q.*1 ↔ g ∈ needed ∧ g ∉ available ∧ ¬ shown g (take i rounds).
Lemma rounds_of_cons needed available a q rounds :
  (∀ g, g ∈ a ↔ g ∈ available ∨ shown g [q]) → NoDup q.*1 → (∀ g, g ∈ q.*1 ↔ g ∈ needed ∧ g ∉ available) →
  rounds_of needed a rounds → rounds_of needed available (q :: rounds).
Proof.
  intros Ha Hnd Hq Hr [|i] q' Hi; cbn in Hi.
  - injection Hi as <-. split; [done|]. intros g. rewrite Hq. cbn [take]. pose proof (shown_nil g). tauto.
  - destruct (Hr i q' Hi) as [Hn Hg]. split; [done|]. intros g. rewrite Hg, Ha. cbn [take].
    rewrite (shown_cons g q (take i rounds)). tauto.
Qed.

Lemma not_subseteq (s t : gset gvr) : ¬ s ⊆ t → ∃ g, g ∈ s ∧ g ∉ t.
Proof.
  intros Hn. destruct (set_choose_or_empty (s ∖ t)) as [[g Hg]|He]; [exists g; set_solver|].
  exfalso. apply Hn. intros g Hg. apply dec_stable. intros Ht. apply (not_elem_of_empty (C := gset gvr) g), He, elem_of_difference. done.
Qed.

(** Every attempt but the first asks about something. *)
Definition busy (rounds : list (list answered)) : Prop :=
  ∀ i q, rounds !! i = Some q → (0 < i)%nat → q ≠ [].
Lemma busy_cons needed a q rounds : ¬ needed ⊆ a → rounds_of needed a rounds → busy rounds → busy (q :: rounds).
Proof.
  intros Hn Hr Hb [|[|i]] q' Hi Hlt; [lia| |by apply (Hb (S i)); [|lia]]. intros ->. apply Hn. intros g Hg.
  destruct (Hr 0%nat [] Hi) as [_ Hq]. apply dec_stable. intros Ha. apply (elem_of_nil g), Hq.
  split_and!; [done|done|]. apply shown_nil.
Qed.

Lemma check_attempts_spec needed mb tries : ∀ attempt backoff available,
  let first := if bdec (attempt = 0%nat) then 1%nat else 0%nat in
  (attempt ≠ 0%nat → ¬ needed ⊆ available) →
  posts (check_attempts order cacheable needed mb tries attempt backoff available) (λ tr out,
    Forall (λ d, d ≤ Z.max backoff mb)%Z (waits tr) ∧
    ∃ rounds, queries tr = asked (concat rounds) ∧ rounds_of needed available rounds ∧ busy rounds ∧
      match out with
      | Err err => (∃ d, Ev (WaitOrDone d) (Some err) ∈ tr) ∧ (length rounds < tries)%nat ∧
                   (length (waits tr) + first = S (length rounds))%nat ∧
                   ∃ g, g ∈ needed ∧ g ∉ available ∧ ¬ shown g rounds
      | Ok out => (∀ g, g ∈ out ↔ g ∈ available ∨ shown g rounds) ∧ (length rounds ≤ tries)%nat ∧
                  (if tries is O then waits tr = [] else (length (waits tr) + first = length rounds)%nat) ∧
                  (needed ⊆ out ∨ length rounds = tries)
      end).
Proof.
  induction tries as [|tries IH]; intros attempt backoff available first Hleft; cbn [check_attempts].
  { apply posts_ret. split; [constructor|]. exists []. split_and!; [done|by intros ? ?|by intros ? ?| |simpl; lia|done|by right].
    intros g. pose proof (shown_nil g). tauto. }
  intros tr out Hx.
  apply exec_try in Hx as [(t1 & t2 & b & -> & (Hw1 & Hq1 & Hb)%wait_spec & Hx)|(err & (Hw1 & Hq1 & Hb & Ha)%wait_spec & ->)].
  2: { subst first. rewrite bool_decide_false in * by done. rewrite Hw1, Hq1. split; [constructor; [lia|constructor]|].
       exists []. split_and!; [done|by intros ? ?|by intros ? ?|by eexists|simpl; lia|done|].
       destruct (not_subseteq _ _ (Hleft Ha)) as (g & ? & ?). exists g. split_and!; [done|done|apply shown_nil]. }
  apply exec_bind in Hx as (t3 & t4 & a & -> & Hr & Hx).
  apply round_spec in Hr as (q & -> & Hq & Ha); [|rewrite (Horder attempt needed); apply NoDup_elements].
  assert (Hqs : ∀ g, g ∈ q.*1 ↔ g ∈ needed ∧ g ∉ available).
  { intros g. rewrite Hq, list_elem_of_filter, (Horder attempt needed), elem_of_elements. tauto. }
  assert (Hnd : NoDup q.*1) by (rewrite Hq; apply NoDup_filter; rewrite (Horder attempt needed); apply NoDup_elements).
  assert (Hf1 : Forall (λ d, d ≤ Z.max backoff mb)%Z (waits t1)).
  { rewrite Hw1. destruct (bdec (attempt = 0%nat)); [constructor|]. constructor; [lia|constructor]. }
  assert (Hl1 : (length (waits t1) + first = 1)%nat) by (rewrite Hw1; subst first; by destruct (bdec (attempt = 0%nat))).
  rewrite !waits_app, !queries_app, Hq1, queries_asked, waits_asked. cbn [app].
  apply exec_if in Hx as [[Hs%bool_decide_eq_true [-> ->]]|[Hs%bool_decide_eq_false Hx]].
  { cbn. rewrite !app_nil_r. split; [done|]. exists [q]. cbn [concat]. rewrite app_nil_r.
    split_and!; [done| |by intros [|i] ? ? ?; [lia|]|exact Ha|simpl; lia|simpl; lia|by left].
    eapply rounds_of_cons; [exact Ha|done|exact Hqs|by intros ? ?]. }
  apply (IH (S attempt) b a (λ _, Hs)) in Hx as (Hf4 & rounds & Hq4 & Hr4 & Hbz & Hout). cbv zeta in Hout. rewrite bool_decide_false in Hout by lia.
  split. { apply Forall_app. split; [done|]. eapply Forall_impl; [exact Hf4|]. intros d Hd. simpl in Hd. lia. }
  exists (q :: rounds). cbn [concat length]. rewrite asked_app, Hq4, length_app. split; [done|].
  split; [by eapply rounds_of_cons|]. split; [by eapply busy_cons|]. destruct out as [out|err].
  - destruct Hout as (Ho & Hl & Hw & Hend). split_and!; [|lia| |destruct Hend; [by left|right; lia]].
    + intros g. rewrite Ho, Ha, (shown_cons g q rounds). tauto.
    + destruct tries as [|n]; [|lia]. rewrite Hw. destruct rounds; simpl in *; lia.
  - destruct Hout as ([d Hd] & Hl & Hw & g & Hg & Hga & Hgs). split_and!; [exists d; rewrite !elem_of_app; auto|lia|lia|].
    exists g. rewrite (shown_cons g q rounds). rewrite Ha in Hga. tauto.
Qed.
End check_lemmas.

(** Results come from a set of resources each of which some answer listed. *)
Lemma check_results order cacheable deps opts tr results :
  (∀ n s, order n s ≡ₚ elements s) →
  exec (checkCRDsWithClient order cacheable deps opts) tr (Ok results) →
  ∃ available rounds, results = check_result available <$> deps ∧ queries tr = asked (concat rounds) ∧
    rounds_of (needed_gvrs deps) ∅ rounds ∧ ∀ g, g ∈ available ↔ shown g rounds.
Proof.
  intros Horder (t1 & t2 & available & -> & H1 & [-> [= ->]])%exec_try_ok.
  apply (check_attempts_spec order cacheable Horder) in H1 as (_ & rounds & Hq & Hr & _ & Ho & _); [|done].
  exists available, rounds. rewrite app_nil_r. split_and!; [done..|]. intros g. rewrite Ho. set_solver.
Qed.

(** The one check [main] makes: Colony is enabled exactly when some answer listed its
    CRD; in that case the check does not fail. *)
Definition colony_gvr : gvr := ("k0rdent.mirantis.com/v1beta1", "clusterdeployments").
Lemma operator_gvrs g : g ∈ needed_gvrs OperatorDependencies ↔ g = colony_gvr.
Proof. unfold needed_gvrs. rewrite elem_of_list_to_set. apply list_elem_of_singleton. Qed.
Lemma rounds_served available rounds tr :
  queries tr = asked (concat rounds) → rounds_of (needed_gvrs OperatorDependencies) available rounds →
  served colony_gvr tr → shown colony_gvr rounds.
Proof.
  intros Hq Hr (names & Hin & Hg).
  assert (Hin' : Ev (ServerResources colony_gvr.1) (Ok names) ∈ queries tr) by (apply list_elem_of_filter; by split).
  rewrite Hq in Hin'. apply list_elem_of_fmap in Hin' as ([g x] & He & Hc). cbn in He.
  assert (g = colony_gvr) as ->.
  { apply list_elem_of_In, in_concat in Hc as (q & Hqr%list_elem_of_In & Hgq%list_elem_of_In).
    apply list_elem_of_lookup in Hqr as [i Hi]. destruct (Hr i q Hi) as [_ Hm].
    apply operator_gvrs, (Hm g), list_elem_of_fmap. by exists (g, x). }
  apply (f_equal resources_answer) in He. cbn in He. apply (inj Some) in He. subst x. by exists names.
Qed.
Lemma colony_enabled_served order dc tr crds :
  (∀ n s, order n s ≡ₚ elements s) →
  exec (CheckCRDsAvailable order dc OperatorDependencies DefaultCheckOptions) tr crds →
  (∃ results, crds = Ok results ∧ colony_enabled results = true) ↔ served colony_gvr tr.
Proof.
  intros Ho Hx. unfold CheckCRDsAvailable in Hx. destruct dc as [cacheable|err].
  2: { destruct Hx as [-> ->]. split; [by intros (? & ? & _)|by intros (? & []%elem_of_nil & _)]. }
  destruct crds as [results|err].
  - apply check_results in Hx as (available & rounds & -> & Hq & Hr & Hs); [|done].
    unfold colony_enabled, enabled_controllers, OperatorDependencies. cbn [fmap list_fmap foldl].
    assert (Hav : Available (check_result available
              {| dep_Name := "Colony"; Dependencies := [{| GroupVersion := "k0rdent.mirantis.com/v1beta1";
                   Resource := "clusterdeployments"; Description := "K0rdent ClusterDeployment" |}] |}) = true ↔
              colony_gvr ∈ available).
    { cbn. rewrite bool_decide_eq_true. destruct (decide (colony_gvr ∈ available)) as [Ha|Ha].
      - split; [done|]. intros _. rewrite decide_False; [done|]. by intros Hn.
      - split; [|done]. rewrite decide_True by done. discriminate. }
    set (r := check_result available _) in *. cbn [res_Name check_result].
    assert (Hc : default false ((<[res_Name r := Available r]> ∅ : gmap string bool) !! "Colony") = Available r).
    { change (res_Name r) with "Colony". by rewrite lookup_insert_eq. }
    split.
    + intros (results & [= <-] & Hen). apply (eq_trans (eq_sym Hc)) in Hen. apply Hav, Hs in Hen. by eapply shown_served.
    + intros Hsv. eexists. split; [done|]. apply (eq_trans Hc), Hav, Hs. by eapply rounds_served.
  - split; [by intros (? & ? & _)|]. intros Hsv. exfalso.
    apply exec_try in Hx as [(t1 & t2 & a & -> & _ & [_ ?])|(e & H1 & [= ->])]; [done|].
    apply (check_attempts_spec order cacheable Ho) in H1 as (_ & rounds & Hq & Hr & _ & _ & _ & _ & g & Hg & _ & Hns); [|done].
    apply operator_gvrs in Hg as ->. apply Hns. by eapply rounds_served.
Qed.

(** C27: The preflight check is bounded and right.  It waits at most [MaxRetries] times,
    never longer than the larger of the two backoffs.  Its queries to the discovery
    API come in attempts, one more than the waits: each asks once about every needed
    resource that no earlier attempt was shown, and about nothing else; every attempt
    after the first has such a resource.  The check fails only when its context ends
    during a wait, with some resource not shown.  Otherwise it goes on until every needed resource has been shown
    or the retries are used up, and there is one result per controller, in order:
    what is reported missing are exactly the dependencies that no answer to a query
    about them has listed, in any attempt, and the controller is available exactly
    when nothing is missing. *)
Theorem preflight_spec order cacheable deps opts tr out :
  (∀ n s, order n s ≡ₚ elements s) → (0 ≤ MaxRetries opts)%Z →
  exec (checkCRDsWithClient order cacheable deps opts) tr out →
  Forall (λ d, d ≤ Z.max (InitialBackoff opts) (MaxBackoff opts))%Z (waits tr) ∧
  (Z.of_nat (length (waits tr)) ≤ MaxRetries opts)%Z ∧
  ∃ rounds, queries tr = asked (concat rounds) ∧
    (∀ i q, rounds !! i = Some q → NoDup q.*1 ∧ ((0 < i)%nat → q ≠ []) ∧
       ∀ g, g ∈ q.*1 ↔ g ∈ needed_gvrs deps ∧ ¬ shown g (take i rounds)) ∧
    match out with
    | Err err => length rounds = length (waits tr) ∧ (∃ d, Ev (WaitOrDone d) (Some err) ∈ tr) ∧
                 ∃ g, g ∈ needed_gvrs deps ∧ ¬ shown g rounds
    | Ok results =>
        length rounds = S (length (waits tr)) ∧
        ((∀ g, g ∈ needed_gvrs deps → shown g rounds) ∨ Z.of_nat (length (waits tr)) = MaxRetries opts) ∧
        Forall2 (λ cd r, res_Name r = dep_Name cd ∧ (Available r = true ↔ Missing r = []) ∧
          ∀ d, d ∈ Missing r ↔ d ∈ Dependencies cd ∧ ¬ shown (gvr_of d) rounds) deps results
    end.
Proof.
  intros Horder Hr Hx. unfold checkCRDsWithClient in Hx.
  assert (Hrounds : ∀ rounds, rounds_of (needed_gvrs deps) ∅ rounds → busy rounds → ∀ i q, rounds !! i = Some q →
    NoDup q.*1 ∧ ((0 < i)%nat → q ≠ []) ∧ ∀ g, g ∈ q.*1 ↔ g ∈ needed_gvrs deps ∧ ¬ shown g (take i rounds)).
  { intros rounds H1 H2 i q Hi. destruct (H1 i q Hi) as [Hn Hg]. split_and!; [done|by eapply H2|].
    intros g. rewrite Hg. set_solver. }
  apply exec_try in Hx as [(t1 & t2 & available & -> & H1 & [-> ->])|(err & H1 & ->)];
    (apply (check_attempts_spec order cacheable Horder) in H1 as (Hf & rounds & Hq & Hrs & Hb & Hout); [|done]);
    rewrite ?app_nil_r; rewrite bool_decide_true in Hout by done.
  2: { destruct Hout as (? & ? & ? & g & ? & _ & ?). split_and!; [done|lia|]. exists rounds.
       split_and!; [done|by apply Hrounds|lia|done|by exists g]. }
  destruct Hout as (Ho & Hl & Hw & Hend).
  assert (Hav : ∀ g, g ∈ available ↔ shown g rounds) by (intros g; rewrite Ho; set_solver).
  destruct (Z.to_nat (MaxRetries opts + 1)) as [|n] eqn:En; [lia|].
  split_and!; [done|lia|]. exists rounds. split_and!; [done|by apply Hrounds|lia| |].
  { destruct Hend as [Hsub|?]; [left|right; lia]. intros g Hg. by apply Hav, Hsub. }
  apply Forall2_fmap_r, Forall_Forall2_diag, Forall_forall. intros cd _. unfold check_result. simpl.
  split_and!; [done|apply bool_decide_eq_true|]. intros d. rewrite list_elem_of_filter, Hav. tauto.
Qed.

(** ** Nothing is served: the default options wait 2, 4, 8, 15 and 15 seconds *)
Definition default_order (_ : nat) (s : gset gvr) : list gvr := elements s.
Definition preflight_run := run (λ R rq (u : unit), (echo rq, u))
  (checkCRDsWithClient default_order false OperatorDependencies DefaultCheckOptions) tt.
Example default_waits : waits preflight_run.1.1 = (λ s, s * Second)%Z <$> [2; 4; 8; 15; 15]%Z.
Proof. vm_compute. reflexivity. Qed.
Lemma preflight_spec_witness :
  length (waits preflight_run.1.1) = 5%nat ∧
  ∃ rounds, queries preflight_run.1.1 = asked (concat rounds) ∧ length rounds = 6%nat ∧
    (∀ i q, rounds !! i = Some q → q.*1 = [("k0rdent.mirantis.com/v1beta1", "clusterdeployments")]) ∧
    ∃ r, preflight_run.1.2 = Ok [r] ∧ res_Name r = "Colony" ∧ Available r = false.
Proof.
  assert (Hw : length (waits preflight_run.1.1) = 5%nat) by (vm_compute; reflexivity). split; [exact Hw|].
  destruct (preflight_spec default_order false OperatorDependencies DefaultCheckOptions preflight_run.1.1 preflight_run.1.2)
    as (_ & _ & rounds & Hq & Hr & Hout).
  - intros n s. reflexivity.
  - vm_compute. discriminate.
  - apply (run_exec (λ R rq (u : unit), (echo rq, u)) _ tt).
  - exists rounds. split; [exact Hq|].
    assert (Hn : ∀ g, ¬ shown g rounds).
    { intros g (names & [Hin Hg])%(shown_served _ _ _ Hq). revert Hg.
      assert (Hall : forallb (λ e, match e with Ev (ServerResources _) (Ok (_ :: _)) => false | _ => true end)
                preflight_run.1.1 = true) by (vm_compute; reflexivity).
      rewrite forallb_forall in Hall. apply list_elem_of_In, Hall in Hin. destruct names; [|discriminate Hin].
      apply not_elem_of_nil. }
    destruct preflight_run.1.2 as [results|err] eqn:Eo; [|exfalso; revert Eo; vm_compute; discriminate].
    destruct Hout as (Hlen & _ & Hall). split; [by rewrite Hlen, Hw|]. split.
    + intros i q Hi. destruct (Hr i q Hi) as (Hnd & _ & Hg).
      assert (Hp : q.*1 ≡ₚ [("k0rdent.mirantis.com/v1beta1", "clusterdeployments")]).
      { apply NoDup_Permutation; [done|apply NoDup_singleton|]. intros g. rewrite Hg. split.
        - intros [Hneed _]. revert Hneed. unfold needed_gvrs. rewrite elem_of_list_to_set. intros Hneed. exact Hneed.
        - intros Hin. split; [unfold needed_gvrs; rewrite elem_of_list_to_set; exact Hin|].
          intros (names & Hs & Hg'). apply (Hn g). exists names. split; [|exact Hg'].
          rewrite <- (take_drop i rounds), concat_app. apply elem_of_app. by left. }
      by apply Permutation_singleton_r in Hp.
    + apply Forall2_cons_inv_l in Hall as (r & rest & (Hname & Hav & Hm) & Hrest & ->). apply Forall2_nil_inv_l in Hrest as ->.
      exists r. split; [done|]. split; [exact Hname|]. apply not_true_is_false. intros Ha. apply Hav in Ha.
      specialize (Hm {| GroupVersion := "k0rdent.mirantis.com/v1beta1"; Resource := "clusterdeployments";
                        Description := "K0rdent ClusterDeployment" |}).
      rewrite Ha in Hm. destruct Hm as [_ Hm]. eapply elem_of_nil, Hm. split; [apply list_elem_of_here|apply Hn].
Defined.
