(* ===== verification/Flags.v ===== *)
(** * The command line of [cmd/main.go]

    The flags [main] registers, with their defaults, and what [flag.Parse] makes of
    the arguments.  The flags that [zap.Options.BindFlags] and the controller runtime
    add to the same command line are a parameter. *)

From Stdlib Require Import Ascii.
From S2P Require Import Prelude GoString Gateway.

(** The variables of [main], by type. *)
Inductive string_flag := metricsAddr | probeAddr | metricsCertPath | metricsCertName | metricsCertKey
  | workspaceGatewayName | workspaceGatewayNamespace | workspaceMeshMode | workspaceWaypointNamespace.
Inductive bool_flag := enableLeaderElection | secureMetrics | enableHTTP2 | workspaceWaypointEnabled.
#[export] Instance string_flag_eq_dec : EqDecision string_flag.
Proof. solve_decision. Defined.
#[export] Instance bool_flag_eq_dec : EqDecision bool_flag.
Proof. solve_decision. Defined.

Definition string_flag_name (x : string_flag) : string :=
  match x with
  | metricsAddr => "metrics-bind-address"
  | probeAddr => "health-probe-bind-address"
  | metricsCertPath => "metrics-cert-path"
  | metricsCertName => "metrics-cert-name"
  | metricsCertKey => "metrics-cert-key"
  | workspaceGatewayName => "workspace-gateway-name"
  | workspaceGatewayNamespace => "workspace-gateway-namespace"
  | workspaceMeshMode => "workspace-mesh-mode"
  | workspaceWaypointNamespace => "workspace-waypoint-namespace"
  end.
Definition bool_flag_name (x : bool_flag) : string :=
  match x with
  | enableLeaderElection => "leader-elect"
  | secureMetrics => "metrics-secure"
  | enableHTTP2 => "enable-http2"
  | workspaceWaypointEnabled => "workspace-waypoint-enabled"
  end.
Definition string_flags : list string_flag :=
  [metricsAddr; probeAddr; metricsCertPath; metricsCertName; metricsCertKey; workspaceGatewayName;
   workspaceGatewayNamespace; workspaceMeshMode; workspaceWaypointNamespace].
Definition bool_flags : list bool_flag := [enableLeaderElection; secureMetrics; enableHTTP2; workspaceWaypointEnabled].

Record Flags := { sv : string_flag → string; bv : bool_flag → bool }.
Definition default_flags : Flags := {|
  sv x := match x with
          | metricsAddr => "0"
          | probeAddr => ":8081"
          | metricsCertPath => ""
          | metricsCertName => "tls.crt"
          | metricsCertKey => "tls.key"
          | workspaceGatewayName => DefaultGatewayName
          | workspaceGatewayNamespace => DefaultGatewayNamespace
          | workspaceMeshMode => "ambient"
          | workspaceWaypointNamespace => "istio-system"
          end;
  bv x := match x with
          | enableLeaderElection | enableHTTP2 => false
          | secureMetrics | workspaceWaypointEnabled => true
          end |}.
Definition set_string (x : string_flag) (v : string) (f : Flags) : Flags :=
  {| sv y := if bdec (y = x) then v else sv f y; bv := bv f |}.
Definition set_bool (x : bool_flag) (v : bool) (f : Flags) : Flags :=
  {| sv := sv f; bv y := if bdec (y = x) then v else bv f y |}.

(** ** [flag.Parse] *)

(** [strconv.ParseBool]. *)
Definition ParseBool (s : string) : option bool :=
  if bdec (s ∈ ["1"; "t"; "T"; "TRUE"; "true"; "True"]) then Some true
  else if bdec (s ∈ ["0"; "f"; "F"; "FALSE"; "false"; "False"]) then Some false
  else None.

(** The name up to the first [=], and what follows it. *)
Fixpoint cut_equals (s : string) : string * option string :=
  match s with
  | EmptyString => ("", None)
  | String c s => if bdec (c = "="%char) then ("", Some s) else let '(n, v) := cut_equals s in (String c n, v)
  end.

Inductive word := NotAFlag | BadSyntax | FlagWord (name : string) (value : option string).
Definition named_word (name : string) : word :=
  match name with
  | EmptyString => BadSyntax
  | String c _ =>
      if bdec (c = "-"%char) || bdec (c = "="%char) then BadSyntax
      else let '(n, v) := cut_equals name in FlagWord n v
  end.
(** One argument: at least two bytes and a dash, or it ends the flags, as [--] does. *)
Definition flag_word (s : string) : word :=
  match s with
  | String d (String c s as rest) =>
      if bdec (d ≠ "-"%char) then NotAFlag
      else if bdec (c = "-"%char) then (if bdec (s = "") then NotAFlag else named_word s)
      else named_word rest
  | _ => NotAFlag
  end.

Inductive parse_result := Parsed (f : Flags) | HelpRequested | ParseFailed.

Section parse.
(** The other registered flags: whether boolean, and which values they take. *)
Context (other : string → option bool) (other_accepts : string → string → bool).

(** A registered flag: boolean or not, and its [Set]. *)
Definition lookup_flag (name : string) : option (bool * (string → Flags → option Flags)) :=
  match find_first (λ x, bdec (string_flag_name x = name)) string_flags with
  | Some x => Some (false, λ v f, Some (set_string x v f))
  | None =>
      match find_first (λ x, bdec (bool_flag_name x = name)) bool_flags with
      | Some x => Some (true, λ v f, (λ b, set_bool x b f) <$> ParseBool v)
      | None => (λ b, (b, λ v f, if other_accepts name v then Some f else None)) <$> other name
      end
  end.

Fixpoint Parse (args : list string) (f : Flags) : parse_result :=
  match args with
  | [] => Parsed f
  | s :: args =>
      match flag_word s with
      | NotAFlag => Parsed f
      | BadSyntax => ParseFailed
      | FlagWord name value =>
          match lookup_flag name with
          | None => if bdec (name = "help") || bdec (name = "h") then HelpRequested else ParseFailed
          | Some (is_bool, set) =>
              match value, is_bool, args with
              | Some v, _, _ => match set v f with Some f => Parse args f | None => ParseFailed end
              | None, true, _ => match set "true" f with Some f => Parse args f | None => ParseFailed end
              | None, false, v :: args => match set v f with Some f => Parse args f | None => ParseFailed end
              | None, false, [] => ParseFailed
              end
          end
      end
  end.

(** ** Settings written out

    The documented flags, each as the argument [--name=value]; the last setting of a
    name counts. *)
Definition show_bool (b : bool) : string := if b then "true" else "false".
Definition setting_arg (p : string * string) : string := "--" +:+ p.1 +:+ "=" +:+ p.2.
Definition setting (name otherwise : string) (l : list (string * string)) : string :=
  foldl (λ v p, if bdec (p.1 = name) then p.2 else v) otherwise l.
Definition documented_strings : list string :=
  ["metrics-bind-address"; "health-probe-bind-address"; "metrics-cert-path"; "metrics-cert-name"; "metrics-cert-key";
   "workspace-gateway-name"; "workspace-gateway-namespace"; "workspace-mesh-mode"; "workspace-waypoint-namespace"].
Definition documented_bools : list string :=
  ["leader-elect"; "metrics-secure"; "enable-http2"; "workspace-waypoint-enabled"].
Definition documented (p : string * string) : Prop :=
  p.1 ∈ documented_strings ∨ p.1 ∈ documented_bools ∧ p.2 ∈ ["true"; "false"].

Lemma cut_equals_app n v : no_byte "="%char n → cut_equals (n +:+ "=" +:+ v) = (n, Some v).
Proof.
  induction n as [|c n IH]; intros Hn; [done|]. change (String c n +:+ "=" +:+ v) with (String c (n +:+ "=" +:+ v)).
  apply no_byte_cons in Hn as [Hc Hn]. cbn [cut_equals]. rewrite bool_decide_false by done. by rewrite IH.
Qed.
(** A flag's name: not empty, no dash or equals sign in front, no equals sign at all. *)
Definition flag_name (n : string) : Prop :=
  no_byte "="%char n ∧ match n with EmptyString => False | String c _ => c ≠ "-"%char end.
Lemma flag_word_arg n v : flag_name n → flag_word ("--" +:+ n +:+ "=" +:+ v) = FlagWord n (Some v).
Proof.
  intros [Hn Hc]. destruct n as [|c n]; [done|]. pose proof (cut_equals_app _ v Hn) as Hcut.
  apply no_byte_cons in Hn as [He _].
  change ("--" +:+ String c n +:+ "=" +:+ v) with (String "-" (String "-" (String c (n +:+ "=" +:+ v)))).
  cbn [flag_word]. rewrite (bool_decide_false ("-"%char ≠ "-"%char)) by auto. rewrite bool_decide_true by done.
  rewrite bool_decide_false by done. cbn [named_word]. rewrite !bool_decide_false by done. cbn [orb].
  change (String c n +:+ "=" +:+ v) with (String c (n +:+ "=" +:+ v)) in Hcut. by rewrite Hcut.
Qed.
Lemma string_flag_names x : flag_name (string_flag_name x).
Proof. by destruct x. Qed.
Lemma bool_flag_names x : flag_name (bool_flag_name x).
Proof. by destruct x. Qed.
Lemma lookup_string_flag x : lookup_flag (string_flag_name x) = Some (false, λ v f, Some (set_string x v f)).
Proof. by destruct x. Qed.
Lemma lookup_bool_flag x : lookup_flag (bool_flag_name x) = Some (true, λ v f, (λ b, set_bool x b f) <$> ParseBool v).
Proof. by destruct x. Qed.
Lemma parse_show_bool b : ParseBool (show_bool b) = Some b.
Proof. by destruct b. Qed.

Lemma string_flag_name_inj x y : string_flag_name x = string_flag_name y ↔ y = x.
Proof. split; [by destruct x, y|by intros ->]. Qed.
Lemma bool_flag_name_inj x y : bool_flag_name x = bool_flag_name y ↔ y = x.
Proof. split; [by destruct x, y|by intros ->]. Qed.
Lemma flag_types_apart x y : string_flag_name x ≠ bool_flag_name y.
Proof. by destruct x, y. Qed.
Lemma setting_cons name v p l : setting name v (p :: l) = setting name (if bdec (p.1 = name) then p.2 else v) l.
Proof. done. Qed.

(** Each variable holds the last setting of its flag, or what it held before. *)
Lemma parse_settings l : ∀ f, Forall documented l →
  ∃ f', Parse (setting_arg <$> l) f = Parsed f' ∧
    (∀ x, sv f' x = setting (string_flag_name x) (sv f x) l) ∧
    (∀ x, show_bool (bv f' x) = setting (bool_flag_name x) (show_bool (bv f x)) l).
Proof.
  induction l as [|[n v] l IH]; intros f Hl; [by exists f|]. apply Forall_cons in Hl as [Hp Hl].
  rewrite fmap_cons. cbn [Parse]. unfold setting_arg at 1. cbn [fst snd].
  destruct Hp as [Hn|[Hn Hv]]; cbn [fst snd] in *.
  - change (n ∈ string_flag_name <$> string_flags) in Hn. apply list_elem_of_fmap in Hn as (x & -> & _).
    rewrite flag_word_arg by apply string_flag_names. rewrite lookup_string_flag. cbv beta iota.
    destruct (IH (set_string x v f) Hl) as (f' & -> & Hs & Hb). exists f'. split; [done|]. split; intros y.
    + rewrite Hs, setting_cons. cbn [sv set_string fst snd]. by rewrite (bool_decide_ext _ _ (string_flag_name_inj x y)).
    + rewrite Hb, setting_cons. cbn [bv set_string fst snd]. by rewrite bool_decide_false by apply flag_types_apart.
  - change (n ∈ bool_flag_name <$> bool_flags) in Hn. apply list_elem_of_fmap in Hn as (x & -> & _).
    assert (∃ b, v = show_bool b) as [b ->].
    { apply elem_of_cons in Hv as [->|Hv]; [by exists true|]. apply list_elem_of_singleton in Hv as ->. by exists false. }
    rewrite flag_word_arg by apply bool_flag_names. rewrite lookup_bool_flag. cbv beta iota. rewrite parse_show_bool.
    cbn [fmap option_fmap option_map].
    destruct (IH (set_bool x b f) Hl) as (f' & -> & Hs & Hb). exists f'. split; [done|]. split; intros y.
    + rewrite Hs, setting_cons. cbn [sv set_bool fst snd]. rewrite bool_decide_false; [done|]. intros E. by apply (flag_types_apart y x).
    + rewrite Hb, setting_cons. cbn [bv set_bool fst snd]. rewrite (bool_decide_ext _ _ (bool_flag_name_inj x y)). by case_bool_decide.
Qed.
End parse.

(** ** Concrete command lines *)
Definition no_other (_ : string) : option bool := None.
Definition accept_none (_ _ : string) : bool := false.
Abbreviation parse_plain := (Parse no_other accept_none).
(** A boolean flag takes no separate value: the argument after it ends the flags. *)
Example bool_flag_with_separate_value :
  match parse_plain ["--metrics-secure"; "false"; "--leader-elect"] default_flags with
  | Parsed f => bv f secureMetrics && negb (bv f enableLeaderElection)
  | _ => false
  end = true.
Proof. vm_compute. reflexivity. Qed.
Example unknown_flag : parse_plain ["-no-such-flag"] default_flags = ParseFailed.
Proof. vm_compute. reflexivity. Qed.
Example separate_value :
  match parse_plain ["-workspace-mesh-mode"; "none"] default_flags with
  | Parsed f => bdec (sv f workspaceMeshMode = "none") | _ => false end = true.
Proof. vm_compute. reflexivity. Qed.
