(* ===== verification/Main.v ===== *)
(** * The manager's start-up: [cmd/main.go] and the [SetupWithManager] methods

    What [main] does, in order, as steps that the process environment, the API server
    and the controller runtime answer; the reference is a plan, a list of steps with
    the way the process ends when one fails. *)

From Stdlib Require Import Ascii.
From S2P Require Import Prelude GoString Api Naming QuantityNano Prog Gpu Values Feasibility Cluster.
From S2P Require Import ServiceSets Failure Prerequisites Routes Gateway Access Controller ClassController Reconcile Fake.
From S2P Require Import Phases Typing Preflight Flags.

(** ** [filepath.Join] *)

(** One component of [filepath.Clean], on the stack of those kept. *)
Definition clean_component (rooted : bool) (stack : list string) (c : string) : list string :=
  if bdec (c = "") || bdec (c = ".") then stack
  else if bdec (c = "..") then
    match stack with
    | top :: rest => if bdec (top = "..") then c :: stack else rest
    | [] => if rooted then [] else [c]
    end
  else c :: stack.
Definition Clean (path : string) : string :=
  let rooted := HasPrefix path "/" in
  let body := Join (rev (foldl (clean_component rooted) [] (split_byte "/"%char path))) "/" in
  if rooted then "/" +:+ body else if bdec (body = "") then "." else body.
Definition filepath_Join (a b : string) : string :=
  if bdec (a ≠ "") then Clean (a +:+ "/" +:+ b) else if bdec (b ≠ "") then Clean b else "".

Example join_examples :
  (filepath_Join "/tmp/certs" "tls.crt", filepath_Join "certs/" "../tls.key", filepath_Join "" "", Clean "/../a//./b")
  = ("/tmp/certs/tls.crt", "tls.key", "", "/a/b").
Proof. vm_compute. reflexivity. Qed.

(** ** What is configured *)

(** The metrics server's TLS options, in the order they are applied. *)
Inductive tls_option := DisableHTTP2 | UseCertWatcher (cert key : string).
Record tls_config := { NextProtos : list string; GetCertificate : option (string * string) }.
Definition apply_tls (o : tls_option) (c : tls_config) : tls_config :=
  match o with
  | DisableHTTP2 => {| NextProtos := ["http/1.1"]; GetCertificate := GetCertificate c |}
  | UseCertWatcher cert key => {| NextProtos := NextProtos c; GetCertificate := Some (cert, key) |}
  end.
Record MetricsOptions := {
  BindAddress : string;
  SecureServing : bool;
  TLSOpts : list tls_option;
  WithAuthentication : bool
}.
Record ManagerOptions := {
  Metrics : MetricsOptions;
  HealthProbeBindAddress : string;
  LeaderElection : bool;
  LeaderElectionID : string
}.

(** A reconciler built and registered. *)
Inductive Registration :=
  | WorkspaceDeploymentController (r : Reconciler) (provider : Config)
  | WorkspaceClassController
  | ColonyController.
Inductive Runnable := OrphanRouteSweeper | MetricsCertWatcher (cert key : string).

Inductive step :=
  | AddToScheme (group : string)
  | NewCertWatcher (cert key : string)
  | GetConfigOrDie
  | NewManager (o : ManagerOptions)
  | CheckCRDs
  | CompleteController (c : Registration)
  | AddRunnable (x : Runnable)
  | AddHealthzCheck (name : string)
  | AddReadyzCheck (name : string)
  | StartManager.
(** How the process ends: [main] returns, [os.Exit], a panic of [utilruntime.Must]. *)
Inductive ending := Returns_ | Exit (code : Z) | MustPanics.

(** [For(...)] and [Watches(...)] of the builders, with the mapping functions.  No
    builder names predicates or options: every event of these kinds counts, and one
    worker serves each controller. *)
Definition controller_name (c : Registration) : string :=
  match c with
  | WorkspaceDeploymentController _ _ => "workspace-deployment"
  | WorkspaceClassController => "workspace-class"
  | ColonyController => "infra-colony"
  end.
Definition reconciled_kind (c : Registration) : kind :=
  match c with
  | WorkspaceDeploymentController _ _ => KWSD
  | WorkspaceClassController => KWSC
  | ColonyController => KColony
  end.
Definition watched (c : Registration) (k : kind) : option (obj k → prog (list ObjectKey)) :=
  match c, k with
  | WorkspaceDeploymentController _ _, KSS => Some workspaceDeploymentForServiceSet
  | WorkspaceClassController, KST => Some workspaceClassesForServiceTemplate
  | _, _ => None
  end.

(** ** The steps as a monad

    A step is answered in the light of the steps before it. *)
Definition boot (A : Type) : Type := list step → list step * (ending + A).
#[export] Instance boot_ret : MRet boot := λ A a h, (h, inr a).
#[export] Instance boot_bind : MBind boot := λ A B f p h,
  match p h with (h', inr a) => f a h' | (h', inl e) => (h', inl e) end.
Definition stop {A} (e : ending) : boot A := λ h, (h, inl e).

Section main.
(** [answer s h]: the error of step [s] after the steps [h], if any; [crds]: the result
    of the preflight check. *)
Context (answer : step → list step → option error) (crds : res (list CheckResult)).
(** The other flags registered on the command line. *)
Context (other : string → option bool) (other_accepts : string → string → bool).

Definition response (s : step) (h : list step) : option error :=
  match s, crds with
  | CheckCRDs, Err err => Some err
  | CheckCRDs, Ok _ => None
  | _, _ => answer s h
  end.
Definition do_step (s : step) : boot (res unit) :=
  λ h, (h ++ [s], inr match response s h with Some err => Err err | None => Ok tt end).
(** [if err != nil { setupLog.Error(...); os.Exit(1) }]. *)
Definition or_exit (p : boot (res unit)) : boot unit :=
  x ← p; match x with Ok _ => mret tt | Err _ => stop (Exit 1) end.
Definition must (p : boot (res unit)) : boot unit :=
  x ← p; match x with Ok _ => mret tt | Err _ => stop MustPanics end.

(** *** SetupWithManager *)
Definition WorkspaceDeployment_SetupWithManager (r : Reconciler) (rp : Config) (sweeper : option OrphanSweeper)
    : boot (res unit) :=
  x ← match sweeper with Some _ => do_step (AddRunnable OrphanRouteSweeper) | None => mret (Ok tt) end;
  match x with
  | Err err => mret (Err err)
  | Ok _ => do_step (CompleteController (WorkspaceDeploymentController r rp))
  end.
Definition WorkspaceClass_SetupWithManager : boot (res unit) := do_step (CompleteController WorkspaceClassController).
Definition Colony_SetupWithManager : boot (res unit) := do_step (CompleteController ColonyController).

(** *** init *)
Definition init : boot unit :=
  _ ← must (do_step (AddToScheme "client-go"));
  _ ← must (do_step (AddToScheme "infra/v1"));
  _ ← must (do_step (AddToScheme "workspaces/v1"));
  _ ← must (do_step (AddToScheme "gateway/v1"));
  _ ← must (do_step (AddToScheme "gateway/v1alpha2"));
  _ ← or_exit (do_step (AddToScheme "cluster-api"));
  _ ← or_exit (do_step (AddToScheme "k0s"));
  _ ← or_exit (do_step (AddToScheme "cluster-api-docker"));
  _ ← or_exit (do_step (AddToScheme "k0s-bootstrap"));
  _ ← or_exit (do_step (AddToScheme "k0s-infrastructure"));
  or_exit (do_step (AddToScheme "k0rdent")).

(** *** main, after the flags *)
Definition mesh_mode (s : string) : MeshMode :=
  if bdec (s = "ambient") then MeshModeAmbient else if bdec (s = "sidecar") then MeshModeSidecar else MeshModeNone.
Definition meshCfg (f : Flags) : MeshConfig :=
  {| Mode := mesh_mode (sv f workspaceMeshMode); WaypointEnabled := bv f workspaceWaypointEnabled;
     WaypointNamespace := sv f workspaceWaypointNamespace |}.
Definition route_config (f : Flags) : Config :=
  New {| GatewayName := sv f workspaceGatewayName; GatewayNamespace := sv f workspaceGatewayNamespace;
         Mesh := meshCfg f |}.
Definition deployment_reconciler (f : Flags) : Reconciler :=
  {| has_Recorder := true; has_APIReader := true; r_Mesh := meshCfg f |}.

(** The TLS options, and the certificate watcher when a path is given. *)
Definition cert_file (f : Flags) : string := filepath_Join (sv f metricsCertPath) (sv f metricsCertName).
Definition key_file (f : Flags) : string := filepath_Join (sv f metricsCertPath) (sv f metricsCertKey).
Definition http_options (f : Flags) : list tls_option := if bv f enableHTTP2 then [] else [DisableHTTP2].
Definition has_cert_path (f : Flags) : bool := bdec (sv f metricsCertPath ≠ "").
Definition manager_options (f : Flags) (opts : list tls_option) : ManagerOptions :=
  {| Metrics := {| BindAddress := sv f metricsAddr; SecureServing := bv f secureMetrics; TLSOpts := opts;
                   WithAuthentication := bv f secureMetrics |};
     HealthProbeBindAddress := sv f probeAddr;
     LeaderElection := bv f enableLeaderElection;
     LeaderElectionID := "3bb9c912.exalsius.ai" |}.

Definition cert_watcher (f : Flags) : boot (option Runnable * list tls_option) :=
  if has_cert_path f then
    _ ← or_exit (do_step (NewCertWatcher (cert_file f) (key_file f)));
    mret (Some (MetricsCertWatcher (cert_file f) (key_file f)), http_options f ++ [UseCertWatcher (cert_file f) (key_file f)])
  else mret (None, http_options f).

Definition run_manager (f : Flags) : boot unit :=
  w ← cert_watcher f;
  let '(metricsCertWatcher, tlsOpts) := w in
  _ ← or_exit (do_step GetConfigOrDie);
  _ ← or_exit (do_step (NewManager (manager_options f tlsOpts)));
  _ ← or_exit (do_step GetConfigOrDie);
  _ ← or_exit (do_step CheckCRDs);
  let enabled := match crds with Ok results => colony_enabled results | Err _ => false end in
  _ ← (if enabled then or_exit Colony_SetupWithManager else mret tt);
  _ ← or_exit (WorkspaceDeployment_SetupWithManager (deployment_reconciler f) (route_config f) (Some gateway_sweeper));
  _ ← or_exit WorkspaceClass_SetupWithManager;
  _ ← match metricsCertWatcher with Some w => or_exit (do_step (AddRunnable w)) | None => mret tt end;
  _ ← or_exit (do_step (AddHealthzCheck "healthz"));
  _ ← or_exit (do_step (AddReadyzCheck "readyz"));
  or_exit (do_step StartManager).

(** [init], the flags (the [flag] package exits with 0 for help and with 2 for an
    error), then the rest; the steps taken and how the process ends. *)
Definition main (args : list string) : boot unit :=
  _ ← init;
  match Parse other other_accepts args default_flags with
  | HelpRequested => stop (Exit 0)
  | ParseFailed => stop (Exit 2)
  | Parsed f => run_manager f
  end.
Definition process (args : list string) : list step * ending :=
  match main args [] with (h, inl e) => (h, e) | (h, inr _) => (h, Returns_) end.

(** ** The plan *)

(** Take the steps in order until one fails. *)
Fixpoint run_plan (l : list (step * ending)) : boot unit :=
  λ h, match l with
       | [] => (h, inr tt)
       | (s, e) :: l => match response s h with None => run_plan l (h ++ [s]) | Some _ => (h ++ [s], inl e) end
       end.
Definition exits (l : list step) : list (step * ending) := (λ s, (s, Exit 1)) <$> l.
Definition init_plan : list (step * ending) :=
  ((λ g, (AddToScheme g, MustPanics)) <$> ["client-go"; "infra/v1"; "workspaces/v1"; "gateway/v1"; "gateway/v1alpha2"]) ++
  ((λ g, (AddToScheme g, Exit 1)) <$> ["cluster-api"; "k0s"; "cluster-api-docker"; "k0s-bootstrap"; "k0s-infrastructure"; "k0rdent"]).
Definition tls_options (f : Flags) : list tls_option :=
  http_options f ++ (if has_cert_path f then [UseCertWatcher (cert_file f) (key_file f)] else []).
Definition registrations (f : Flags) (colony : bool) : list step :=
  (if colony then [CompleteController ColonyController] else []) ++
  [AddRunnable OrphanRouteSweeper;
   CompleteController (WorkspaceDeploymentController (deployment_reconciler f) (route_config f));
   CompleteController WorkspaceClassController] ++
  (if has_cert_path f then [AddRunnable (MetricsCertWatcher (cert_file f) (key_file f))] else []).
Definition enabled_colony : bool := match crds with Ok results => colony_enabled results | Err _ => false end.
Definition manager_plan (f : Flags) : list (step * ending) :=
  exits ((if has_cert_path f then [NewCertWatcher (cert_file f) (key_file f)] else []) ++
         [GetConfigOrDie; NewManager (manager_options f (tls_options f)); GetConfigOrDie; CheckCRDs] ++
         registrations f enabled_colony ++
         [AddHealthzCheck "healthz"; AddReadyzCheck "readyz"; StartManager]).

(** A checked step in front of a plan. *)
Lemma or_exit_plan s l (k : boot unit) h :
  (∀ h, k h = run_plan l h) → (or_exit (do_step s) ≫= λ _, k) h = run_plan ((s, Exit 1) :: l) h.
Proof. intros Hk. cbn [run_plan]. unfold or_exit, do_step, mbind, boot_bind. by destruct (response s h); [|apply Hk]. Qed.
Lemma must_plan s l (k : boot unit) h :
  (∀ h, k h = run_plan l h) → (must (do_step s) ≫= λ _, k) h = run_plan ((s, MustPanics) :: l) h.
Proof. intros Hk. cbn [run_plan]. unfold must, do_step, mbind, boot_bind. by destruct (response s h); [|apply Hk]. Qed.
Lemma last_plan s h : or_exit (do_step s) h = run_plan [(s, Exit 1)] h.
Proof. cbn [run_plan]. unfold or_exit, do_step, mbind, boot_bind. by destruct (response s h). Qed.
Lemma run_plan_app l1 l2 (k : boot unit) h :
  (∀ h, k h = run_plan l2 h) → (run_plan l1 ≫= λ _, k) h = run_plan (l1 ++ l2) h.
Proof.
  intros Hk. revert h. induction l1 as [|[s e] l1 IH]; intros h; [apply Hk|].
  cbn [run_plan app]. unfold mbind, boot_bind. destruct (response s h); [done|]. rewrite <- IH. done.
Qed.

Lemma init_follows_plan h : init h = run_plan init_plan h.
Proof. unfold init. repeat (apply must_plan; intros ?). repeat (apply or_exit_plan; intros ?). apply last_plan. Qed.

(** Setting up the workspace controller is two checked steps. *)
Lemma setup_deployment_plan r rp l (k : boot unit) h :
  (∀ h, k h = run_plan l h) →
  (or_exit (WorkspaceDeployment_SetupWithManager r rp (Some gateway_sweeper)) ≫= λ _, k) h =
  run_plan ((AddRunnable OrphanRouteSweeper, Exit 1) :: (CompleteController (WorkspaceDeploymentController r rp), Exit 1) :: l) h.
Proof.
  intros Hk. cbn [run_plan]. unfold WorkspaceDeployment_SetupWithManager, or_exit, do_step, mbind, boot_bind.
  destruct (response (AddRunnable _) h); [done|]. destruct (response (CompleteController _) _); [done|apply Hk].
Qed.
Lemma cert_watcher_bind {A} f (k : option Runnable * list tls_option → boot A) h :
  (cert_watcher f ≫= k) h =
  if has_cert_path f
  then (or_exit (do_step (NewCertWatcher (cert_file f) (key_file f))) ≫=
          λ _, k (Some (MetricsCertWatcher (cert_file f) (key_file f)),
                  http_options f ++ [UseCertWatcher (cert_file f) (key_file f)])) h
  else k (None, http_options f) h.
Proof.
  unfold cert_watcher. destruct (has_cert_path f); [|done]. unfold or_exit, do_step, mbind, boot_bind.
  by destruct (response _ h).
Qed.
Lemma mret_plan l (k : boot unit) h : (∀ h, k h = run_plan l h) → (mret tt ≫= λ _, k) h = run_plan l h.
Proof. intros Hk. apply Hk. Qed.
(** One more step of the program and of the plan. *)
Ltac plan_step := first [apply setup_deployment_plan|apply or_exit_plan|apply mret_plan]; intros ?.

Lemma manager_follows_plan f h : run_manager f h = run_plan (manager_plan f) h.
Proof.
  unfold run_manager. rewrite cert_watcher_bind. unfold manager_plan, registrations, tls_options, exits.
  fold enabled_colony. destruct (has_cert_path f), enabled_colony;
    cbn [fmap list_fmap app]; rewrite ?app_nil_r; repeat plan_step; apply last_plan.
Qed.

(** The whole process is its plan: the initial steps, the flags, the manager's steps. *)
Lemma main_follows_plan args h :
  main args h = match Parse other other_accepts args default_flags with
                | Parsed f => run_plan (init_plan ++ manager_plan f) h
                | HelpRequested => (run_plan init_plan ≫= λ _, stop (Exit 0)) h
                | ParseFailed => (run_plan init_plan ≫= λ _, stop (Exit 2)) h
                end.
Proof.
  unfold main. destruct (Parse _ _ _ _) as [f| |].
  - rewrite <- (run_plan_app _ _ (run_manager f)) by apply manager_follows_plan.
    unfold mbind, boot_bind. by rewrite init_follows_plan.
  - unfold mbind, boot_bind. by rewrite init_follows_plan.
  - unfold mbind, boot_bind. by rewrite init_follows_plan.
Qed.

(** What running a plan says: its steps are taken in order, and all but the last taken
    are answered well; the last one too when the plan is carried out. *)
Lemma run_plan_spec l h h' out :
  run_plan l h = (h', out) →
  ∃ l1 l2, l.*1 = l1 ++ l2 ∧ h' = h ++ l1 ∧ (out = inr tt → l2 = []) ∧
    ∀ a s b, l1 = a ++ s :: b → b ≠ [] ∨ out = inr tt → response s (h ++ a) = None.
Proof.
  revert h. induction l as [|[s e] l IH]; intros h; cbn [run_plan].
  { intros [= <- <-]. exists [], []. split_and!; [done|by rewrite app_nil_r|done|]. intros a s b Hl. by destruct a. }
  destruct (response s h) as [err|] eqn:Er.
  { intros [= <- <-]. exists [s], l.*1. split_and!; try done. intros [|? a] s' b Hl [Hb|Hb]; try done.
    - by injection Hl as <- <-.
    - injection Hl as _ Hl. by destruct a. }
  intros (l1 & l2 & Hl & -> & Ho & Hw)%IH. exists (s :: l1), l2. rewrite fmap_cons. cbn [fst].
  split_and!; [by rewrite Hl|by rewrite <- app_assoc|done|].
  intros [|s' a] s2 b Hs Hb; injection Hs as <- Hs; [by rewrite app_nil_r|].
  specialize (Hw _ _ _ Hs Hb). by rewrite <- app_assoc in Hw.
Qed.
End main.

(** ** What a started manager is *)
Lemma last_of_plan {A} (x : A) front l1 l2 : x ∉ front → front ++ [x] = l1 ++ l2 → x ∈ l1 → l2 = [].
Proof.
  intros Hx Heq Hin. destruct l2 as [|y l2 _] using rev_ind; [done|exfalso].
  rewrite app_assoc in Heq. apply app_inj_tail in Heq as [-> ->]. set_solver.
Qed.

Section started.
Context (answer : step → list step → option error) (crds : res (list CheckResult)).
Context (other : string → option bool) (other_accepts : string → string → bool).
Abbreviation process := (process answer crds other other_accepts).
Abbreviation response := (response answer crds).

Definition setup_steps (f : Flags) (colony : bool) : list step :=
  init_plan.*1 ++ (if has_cert_path f then [NewCertWatcher (cert_file f) (key_file f)] else []) ++
  [GetConfigOrDie; NewManager (manager_options f (tls_options f)); GetConfigOrDie; CheckCRDs] ++
  registrations f colony ++ [AddHealthzCheck "healthz"; AddReadyzCheck "readyz"].

Lemma plan_steps f : (init_plan ++ manager_plan crds f).*1 = setup_steps f (enabled_colony crds) ++ [StartManager].
Proof.
  unfold manager_plan, exits, setup_steps. rewrite fmap_app, <- list_fmap_compose.
  rewrite (list_fmap_id (_ ++ _)). by rewrite <- !app_assoc.
Qed.
Lemma not_started f colony : StartManager ∉ setup_steps f colony.
Proof.
  unfold setup_steps, registrations, init_plan.
  destruct (has_cert_path f), colony; cbn [fmap list_fmap app fst]; set_solver.
Qed.

(** A process that stops at its flags has not started the manager. *)
Lemma init_only c h out :
  (run_plan answer crds init_plan ≫= λ _, stop (A:=unit) (Exit c)) [] = (h, out) → StartManager ∉ h.
Proof.
  unfold mbind, boot_bind. destruct (run_plan answer crds init_plan []) as [h' out'] eqn:Er.
  apply run_plan_spec in Er as (l1 & l2 & Hl & -> & _). intros Hs.
  assert (h = l1) as -> by (by destruct out'; injection Hs as <- _).
  assert (Hn : StartManager ∉ init_plan.*1) by (unfold init_plan; cbn [fmap list_fmap app fst]; set_solver).
  rewrite Hl in Hn. set_solver.
Qed.

(** A process that started the manager took every step of the plan. *)
Lemma started_steps args steps e :
  process args = (steps, e) → StartManager ∈ steps →
  ∃ f, Parse other other_accepts args default_flags = Parsed f ∧
    steps = setup_steps f (enabled_colony crds) ++ [StartManager] ∧
    ∀ a s b, steps = a ++ s :: b → b ≠ [] → response s a = None.
Proof.
  unfold Main.process. rewrite main_follows_plan. intros Hp Hin.
  destruct (Parse _ _ _ _) as [f| |]; [|exfalso..].
  2,3: destruct (_ ≫= _) as [h out] eqn:Eo; apply init_only in Eo; apply Eo; by destruct out; injection Hp as <- _.
  exists f. split; [done|]. destruct (run_plan answer crds (init_plan ++ manager_plan crds f) []) as [h out] eqn:Er.
  apply run_plan_spec in Er as (l1 & l2 & Hl & -> & _ & Hw). rewrite plan_steps in Hl.
  assert (steps = l1) as -> by (by destruct out; injection Hp as <- _).
  assert (l2 = []) as -> by (eapply last_of_plan; [apply not_started|exact Hl|done]). rewrite app_nil_r in Hl.
  split; [done|]. intros a s b Hab Hb. apply (Hw a s b); [done|by left].
Qed.

(** What the steps contain. *)
Ltac in_steps := unfold setup_steps, registrations, init_plan; cbn [fmap list_fmap app fst]; set_solver.
Lemma registered_deployment f colony r cfg :
  CompleteController (WorkspaceDeploymentController r cfg) ∈ setup_steps f colony ++ [StartManager] →
  r = deployment_reconciler f ∧ cfg = route_config f.
Proof. unfold setup_steps, registrations. destruct colony, (has_cert_path f); in_steps. Qed.
Lemma deployment_registered f colony :
  CompleteController (WorkspaceDeploymentController (deployment_reconciler f) (route_config f))
  ∈ setup_steps f colony ++ [StartManager].
Proof. unfold setup_steps, registrations. destruct colony, (has_cert_path f); in_steps. Qed.
Lemma new_manager_options f colony o :
  NewManager o ∈ setup_steps f colony ++ [StartManager] → o = manager_options f (tls_options f).
Proof. unfold setup_steps, registrations. destruct colony, (has_cert_path f); in_steps. Qed.
(** The discovery API has listed the CRD the Colony controller needs. *)
Lemma enabled_colony_served order dc tr :
  (∀ n s, order n s ≡ₚ elements s) →
  exec (CheckCRDsAvailable order dc OperatorDependencies DefaultCheckOptions) tr crds →
  enabled_colony crds = true ↔ served ("k0rdent.mirantis.com/v1beta1", "clusterdeployments") tr.
Proof.
  intros Ho Hx. rewrite <- (colony_enabled_served order dc tr crds Ho Hx). unfold enabled_colony. split.
  - destruct crds as [results|]; [by exists results|done].
  - by intros (results & -> & ?).
Qed.

(** What the flags [f] ask for, written out: the certificate files and TLS options, the
    mesh, and the steps of a start with and without the Colony controller. *)
Definition certificate (f : Flags) (name : string_flag) : string := filepath_Join (sv f metricsCertPath) (sv f name).
Definition wanted_tls (f : Flags) : list tls_option :=
  (if bv f enableHTTP2 then [] else [DisableHTTP2]) ++
  (if bdec (sv f metricsCertPath = "") then []
   else [UseCertWatcher (certificate f metricsCertName) (certificate f metricsCertKey)]).
Definition wanted_mesh (f : Flags) : MeshConfig :=
  {| Mode := if bdec (sv f workspaceMeshMode = "ambient") then MeshModeAmbient
             else if bdec (sv f workspaceMeshMode = "sidecar") then MeshModeSidecar else MeshModeNone;
     WaypointEnabled := bv f workspaceWaypointEnabled; WaypointNamespace := sv f workspaceWaypointNamespace |}.
Definition nonempty_or (s otherwise : string) : string := if bdec (s = "") then otherwise else s.
Definition wanted_manager (f : Flags) : ManagerOptions :=
  {| Metrics := {| BindAddress := sv f metricsAddr; SecureServing := bv f secureMetrics; TLSOpts := wanted_tls f;
                   WithAuthentication := bv f secureMetrics |};
     HealthProbeBindAddress := sv f probeAddr; LeaderElection := bv f enableLeaderElection;
     LeaderElectionID := "3bb9c912.exalsius.ai" |}.
Definition wanted_provider (f : Flags) : Config :=
  {| GatewayName := nonempty_or (sv f workspaceGatewayName) "istio-ingressgateway";
     GatewayNamespace := nonempty_or (sv f workspaceGatewayNamespace) "istio-system"; Mesh := wanted_mesh f |}.
Definition wanted_steps (f : Flags) (colony : bool) : list step :=
  (AddToScheme <$> ["client-go"; "infra/v1"; "workspaces/v1"; "gateway/v1"; "gateway/v1alpha2"; "cluster-api"; "k0s";
                    "cluster-api-docker"; "k0s-bootstrap"; "k0s-infrastructure"; "k0rdent"]) ++
  (if bdec (sv f metricsCertPath = "") then []
   else [NewCertWatcher (certificate f metricsCertName) (certificate f metricsCertKey)]) ++
  [GetConfigOrDie; NewManager (wanted_manager f); GetConfigOrDie; CheckCRDs] ++
  (if colony then [CompleteController ColonyController] else []) ++
  [AddRunnable OrphanRouteSweeper;
   CompleteController (WorkspaceDeploymentController
     {| has_Recorder := true; has_APIReader := true; r_Mesh := wanted_mesh f |} (wanted_provider f));
   CompleteController WorkspaceClassController] ++
  (if bdec (sv f metricsCertPath = "") then []
   else [AddRunnable (MetricsCertWatcher (certificate f metricsCertName) (certificate f metricsCertKey))]) ++
  [AddHealthzCheck "healthz"; AddReadyzCheck "readyz"; StartManager].

Lemma cert_path_given f : has_cert_path f = negb (bdec (sv f metricsCertPath = "")).
Proof. apply bool_decide_not. Qed.
Lemma wanted_manager_spec f : manager_options f (tls_options f) = wanted_manager f.
Proof.
  unfold manager_options, wanted_manager, tls_options, wanted_tls. rewrite cert_path_given.
  by destruct (bdec (sv f metricsCertPath = "")).
Qed.
Lemma wanted_steps_spec f colony : setup_steps f colony ++ [StartManager] = wanted_steps f colony.
Proof.
  unfold setup_steps, wanted_steps, registrations. rewrite cert_path_given, wanted_manager_spec.
  by destruct (bdec (sv f metricsCertPath = "")), colony.
Qed.

(** C28: A manager runs only fully set up.  When [Start] is reached the command line has been
    parsed to flags, every step before it has succeeded, and the steps are, in order:
    the schemes; the certificate watcher, if a certificate path is given; the manager
    with the metrics, probe, TLS and leader election options of the flags; the CRD
    check; the Colony controller exactly when some answer of the discovery API in
    that check listed its CRD; the orphan sweeper and both workspace controllers,
    whatever CRDs are missing, with the mesh and Gateway of the flags on both sides;
    the health checks. *)
Theorem manager_starts_configured order dc tr args steps e :
  (∀ n s, order n s ≡ₚ elements s) →
  exec (CheckCRDsAvailable order dc OperatorDependencies DefaultCheckOptions) tr crds →
  process args = (steps, e) → StartManager ∈ steps →
  ∃ f colony, Parse other other_accepts args default_flags = Parsed f ∧
    steps = wanted_steps f colony ∧
    (colony = true ↔ served ("k0rdent.mirantis.com/v1beta1", "clusterdeployments") tr) ∧
    (∀ a s b, steps = a ++ s :: b → b ≠ [] → response s a = None).
Proof.
  intros Ho Hx Hp Hin. destruct (started_steps _ _ _ Hp Hin) as (f & Hf & -> & Hw). exists f, (enabled_colony crds).
  split; [done|]. split; [apply wanted_steps_spec|]. split; [|exact Hw]. by eapply enabled_colony_served.
Qed.

(** What is configured from the flags. *)
Lemma wanted_manager_only f colony o : NewManager o ∈ wanted_steps f colony → o = wanted_manager f.
Proof. rewrite <- wanted_steps_spec, <- wanted_manager_spec. apply new_manager_options. Qed.
Lemma wanted_deployment_only f colony r cfg :
  CompleteController (WorkspaceDeploymentController r cfg) ∈ wanted_steps f colony →
  r = {| has_Recorder := true; has_APIReader := true; r_Mesh := wanted_mesh f |} ∧ cfg = wanted_provider f.
Proof. rewrite <- wanted_steps_spec. intros [-> ->]%registered_deployment. done. Qed.
Lemma tls_wanted f :
  (DisableHTTP2 ∈ wanted_tls f ↔ bv f enableHTTP2 = false) ∧
  ∀ cert key, UseCertWatcher cert key ∈ wanted_tls f ↔
    sv f metricsCertPath ≠ "" ∧ cert = certificate f metricsCertName ∧ key = certificate f metricsCertKey.
Proof. unfold wanted_tls. destruct (bv f enableHTTP2); case_bool_decide; set_solver. Qed.

(** C33: The command line configures what is started.  Let the arguments be settings
    [--name=value] of the documented flags, in any number and order, the boolean ones
    true or false; the last setting of a name counts, and a name that is not set has
    its documented default.  The manager, the reconciler and the route provider of a
    started process are configured with these values: metrics address, authentication
    and TLS, with HTTP/2 off unless asked for and a certificate watcher exactly when
    a certificate path is set, probe address, leader election, tenant Gateway (the
    default one for an empty name), mesh mode and waypoint, the same on both sides. *)
Theorem command_line_configures l steps e o r cfg :
  Forall documented l → process (setting_arg <$> l) = (steps, e) → StartManager ∈ steps →
  NewManager o ∈ steps → CompleteController (WorkspaceDeploymentController r cfg) ∈ steps →
  let path := setting "metrics-cert-path" "" l in
  let mode := setting "workspace-mesh-mode" "ambient" l in
  BindAddress (Metrics o) = setting "metrics-bind-address" "0" l ∧
  show_bool (SecureServing (Metrics o)) = setting "metrics-secure" "true" l ∧
  WithAuthentication (Metrics o) = SecureServing (Metrics o) ∧
  (DisableHTTP2 ∈ TLSOpts (Metrics o) ↔ setting "enable-http2" "false" l = "false") ∧
  (∀ cert key, UseCertWatcher cert key ∈ TLSOpts (Metrics o) ↔ path ≠ "" ∧
     cert = filepath_Join path (setting "metrics-cert-name" "tls.crt" l) ∧
     key = filepath_Join path (setting "metrics-cert-key" "tls.key" l)) ∧
  HealthProbeBindAddress o = setting "health-probe-bind-address" ":8081" l ∧
  show_bool (LeaderElection o) = setting "leader-elect" "false" l ∧
  GatewayName cfg = nonempty_or (setting "workspace-gateway-name" "istio-ingressgateway" l) "istio-ingressgateway" ∧
  GatewayNamespace cfg = nonempty_or (setting "workspace-gateway-namespace" "istio-system" l) "istio-system" ∧
  Mesh cfg = r_Mesh r ∧
  (Mode (r_Mesh r) = MeshModeAmbient ↔ mode = "ambient") ∧ (Mode (r_Mesh r) = MeshModeSidecar ↔ mode = "sidecar") ∧
  show_bool (WaypointEnabled (r_Mesh r)) = setting "workspace-waypoint-enabled" "true" l ∧
  WaypointNamespace (r_Mesh r) = setting "workspace-waypoint-namespace" "istio-system" l.
Proof.
  intros Hl Hp Hin Ho Hc path mode. destruct (started_steps _ _ _ Hp Hin) as (f & Hf & Hs & _).
  rewrite wanted_steps_spec in Hs. subst steps.
  apply wanted_manager_only in Ho as ->. apply wanted_deployment_only in Hc as [-> ->].
  destruct (parse_settings other other_accepts l default_flags Hl) as (f' & Hf' & Hsv & Hbv).
  rewrite Hf in Hf'. injection Hf' as <-. destruct (tls_wanted f) as [Ht1 Ht2].
  assert (Hmode : sv f workspaceMeshMode = mode) by exact (Hsv workspaceMeshMode).
  split; [exact (Hsv metricsAddr)|]. split; [exact (Hbv secureMetrics)|]. split; [done|].
  split. { etransitivity; [exact Ht1|]. 
          pose proof (Hbv enableHTTP2 : _ = setting "enable-http2" "false" l) as <-. by destruct (bv f enableHTTP2). }
  split.
  { intros cert key. etransitivity; [exact (Ht2 cert key)|]. unfold certificate.
    by rewrite (Hsv metricsCertPath : _ = path), (Hsv metricsCertName : _ = setting "metrics-cert-name" "tls.crt" l),
      (Hsv metricsCertKey : _ = setting "metrics-cert-key" "tls.key" l). }
  split; [exact (Hsv probeAddr)|]. split; [exact (Hbv enableLeaderElection)|].
  split; [exact (f_equal (λ s, nonempty_or s "istio-ingressgateway") (Hsv workspaceGatewayName))|].
  split; [exact (f_equal (λ s, nonempty_or s "istio-system") (Hsv workspaceGatewayNamespace))|]. split; [done|].
  rewrite <- Hmode. cbn [r_Mesh wanted_mesh Mode].
  split; [by repeat case_bool_decide; split; intros; simplify_eq|].
  split; [repeat case_bool_decide; split; intros; congruence|].
  split; [exact (Hbv workspaceWaypointEnabled)|exact (Hsv workspaceWaypointNamespace)].
Qed.

(** HTTP/2 is off unless it is asked for: whatever the TLS configuration the metrics
    server starts from, only [http/1.1] is offered. *)
Theorem http2_off_by_default args steps e o c :
  process args = (steps, e) → StartManager ∈ steps → NewManager o ∈ steps →
  ∃ f, Parse other other_accepts args default_flags = Parsed f ∧
    (bv f enableHTTP2 = false → NextProtos (foldl (flip apply_tls) c (TLSOpts (Metrics o))) = ["http/1.1"]).
Proof.
  intros Hp Hin Ho. destruct (started_steps _ _ _ Hp Hin) as (f & Hf & -> & _). exists f. split; [done|].
  intros Hh. apply new_manager_options in Ho as ->. cbn. unfold tls_options, http_options. rewrite Hh.
  by destruct (has_cert_path f).
Qed.

(** C29: The composition that [main] starts is safe: with the reconciler and the route
    provider it registers, every run of the workspace controller follows the phase
    machine, and what it writes is admitted when what it reads is. *)
Theorem started_manager_is_safe `{KubeLib, !KubeLaws, QuantityOps} args steps e r cfg key tr res :
  process args = (steps, e) → StartManager ∈ steps →
  CompleteController (WorkspaceDeploymentController r cfg) ∈ steps →
  exec (Reconcile r (Some (gateway_provider cfg)) key) tr res →
  r_Mesh r = Mesh cfg ∧ has_Recorder r = true ∧ GatewayName cfg ≠ "" ∧
  accepts mon_step mon_ok mon0 tr ∧ (Forall admitted tr → Forall well_typed tr).
Proof.
  intros Hp Hin Hc Hx. destruct (started_steps _ _ _ Hp Hin) as (f & _ & -> & _).
  apply registered_deployment in Hc as [-> ->]. split; [done|]. split; [done|].
  split; [unfold route_config, New; cbn; by case_bool_decide|]. split.
  - eapply reconcile_safe; [|exact Hx]. intros p [= <-]. apply _.
  - intros Ha. eapply reconcile_typed; [|exact Hx|exact Ha]. intros p [= <-]. split; apply _.
Qed.
End started.

(** ** A concrete start: the CRD is served, every step succeeds *)
Definition no_failure (_ : step) (_ : list step) : option error := None.
Definition crd_server (R : Type) (rq : req R) (u : unit) : R * unit :=
  (match rq in req R return R with
   | ServerResources _ => Ok ["clusterdeployments"; "servicesets"]
   | rq => echo rq
   end, u).
Definition crd_run : list event * res (list CheckResult) * unit :=
  run crd_server (CheckCRDsAvailable default_order (Ok false) OperatorDependencies DefaultCheckOptions) tt.
Definition start_run : list step * ending := process no_failure crd_run.1.2 no_other accept_none ["--leader-elect"].

Lemma started : StartManager ∈ start_run.1.
Proof. vm_compute. repeat (first [apply list_elem_of_here|apply list_elem_of_further]). Qed.
Lemma manager_starts_configured_witness :
  start_run.2 = Returns_ ∧
  ∃ f, bv f enableLeaderElection = true ∧ start_run.1 = wanted_steps f true.
Proof.
  split; [vm_compute; reflexivity|].
  destruct (manager_starts_configured no_failure crd_run.1.2 no_other accept_none default_order (Ok false) crd_run.1.1
              ["--leader-elect"] start_run.1 start_run.2) as (f & colony & Hf & Hs & Hc & _).
  - intros n s. reflexivity.
  - apply (run_exec crd_server _ tt).
  - apply surjective_pairing.
  - apply started.
  - exists f. split.
    + apply (f_equal (λ p, match p with Parsed f => bv f enableLeaderElection | _ => false end)) in Hf.
      vm_compute in Hf. symmetry. exact Hf.
    + rewrite Hs. f_equal. apply Hc. exists ["clusterdeployments"; "servicesets"].
      split; [vm_compute; apply list_elem_of_here|apply list_elem_of_here].
Defined.

(** Five settings, one of them repeated. *)
Definition some_settings : list (string * string) :=
  [("metrics-bind-address", ":8080"); ("leader-elect", "true"); ("metrics-cert-path", "/certs");
   ("workspace-mesh-mode", "sidecar"); ("metrics-bind-address", ":8443")].
Definition configured_run : list step * ending :=
  process no_failure crd_run.1.2 no_other accept_none (setting_arg <$> some_settings).
Definition find_manager (l : list step) : option ManagerOptions :=
  head (omap (λ s, match s with NewManager o => Some o | _ => None end) l).
Definition find_deployment (l : list step) : option (Reconciler * Config) :=
  head (omap (λ s, match s with CompleteController (WorkspaceDeploymentController r c) => Some (r, c) | _ => None end) l).
Lemma find_manager_in l o : find_manager l = Some o → NewManager o ∈ l.
Proof.
  unfold find_manager. intros (s & Hs & He)%head_Some_elem_of%list_elem_of_omap. destruct s; try discriminate He.
  by injection He as ->.
Qed.
Lemma find_deployment_in l r cfg :
  find_deployment l = Some (r, cfg) → CompleteController (WorkspaceDeploymentController r cfg) ∈ l.
Proof.
  unfold find_deployment. intros (s & Hs & He)%head_Some_elem_of%list_elem_of_omap.
  destruct s as [| | | | |c| | | |]; try discriminate He. destruct c; try discriminate He. by injection He as -> ->.
Qed.
Lemma configured_start : StartManager ∈ configured_run.1.
Proof. vm_compute. repeat (first [apply list_elem_of_here|apply list_elem_of_further]). Qed.
Lemma command_line_configures_witness :
  ∃ o r cfg, NewManager o ∈ configured_run.1 ∧
    CompleteController (WorkspaceDeploymentController r cfg) ∈ configured_run.1 ∧
    BindAddress (Metrics o) = ":8443" ∧ LeaderElection o = true ∧
    UseCertWatcher "/certs/tls.crt" "/certs/tls.key" ∈ TLSOpts (Metrics o) ∧
    Mode (r_Mesh r) = MeshModeSidecar ∧ GatewayName cfg = "istio-ingressgateway".
Proof.
  destruct (find_manager configured_run.1) as [o|] eqn:Eo; [|exfalso; revert Eo; vm_compute; discriminate].
  destruct (find_deployment configured_run.1) as [[r cfg]|] eqn:Er; [|exfalso; revert Er; vm_compute; discriminate].
  assert (Ho : NewManager o ∈ configured_run.1) by exact (find_manager_in _ _ Eo).
  assert (Hr : CompleteController (WorkspaceDeploymentController r cfg) ∈ configured_run.1)
    by exact (find_deployment_in _ _ _ Er).
  exists o, r, cfg. split; [exact Ho|]. split; [exact Hr|].
  destruct (command_line_configures no_failure crd_run.1.2 no_other accept_none some_settings configured_run.1
              configured_run.2 o r cfg) as (H1 & _ & _ & _ & H5 & _ & H7 & H8 & _ & _ & _ & H12 & _).
  - apply (bool_decide_unpack _). vm_compute. exact I.
  - apply surjective_pairing.
  - exact configured_start.
  - exact Ho.
  - exact Hr.
  - split; [exact H1|]. split; [by destruct (LeaderElection o)|].
    split; [apply H5; split; [discriminate|]; split; vm_compute; reflexivity|]. split; [by apply H12|exact H8].
Defined.

#[local] Existing Instances example_lib example_laws.
Lemma default_start :
  (process no_failure crd_run.1.2 no_other accept_none []).1 = setup_steps default_flags true ++ [StartManager].
Proof. vm_compute. reflexivity. Qed.
Definition started_reconcile : prog ctrl_result :=
  Reconcile (deployment_reconciler default_flags) (Some (gateway_provider (route_config default_flags))) the_key.
Definition started_run : list event * ctrl_result * world := run fake started_reconcile (fake_world 1).
Lemma started_exec : exec started_reconcile started_run.1.1 started_run.1.2.
Proof. unfold started_run. exact (run_exec fake started_reconcile (fake_world 1)). Qed.
Lemma started_manager_is_safe_witness :
  accepts mon_step mon_ok mon0 started_run.1.1 ∧ (Forall admitted started_run.1.1 → Forall well_typed started_run.1.1).
Proof.
  destruct (started_manager_is_safe no_failure crd_run.1.2 no_other accept_none []
              (process no_failure crd_run.1.2 no_other accept_none []).1
              (process no_failure crd_run.1.2 no_other accept_none []).2
              (deployment_reconciler default_flags) (route_config default_flags) the_key started_run.1.1 started_run.1.2)
    as (_ & _ & _ & H).
  - apply surjective_pairing.
  - rewrite default_start. apply elem_of_app. right. apply list_elem_of_here.
  - rewrite default_start. apply deployment_registered.
  - exact started_exec.
  - exact H.
Defined.
